(* ===== verification/_CoqProject ===== *)
-Q . S2P
Prelude.v
Memory.v
Protocol.v
Utils.v
Iface.v
Rt.v
ArpCache.v
Dump.v
World.v
ArpHandler.v
Router.v
RouterSpec.v
Handlers.v
Safety.v
Delivery.v
Abstract.v
Wire.v
Sha1.v
Vns.v
VnsSpec.v
Options.v
Main.v
SessionSafety.v
MainSpec.v
Threads.v
Alone.v
Interleave.v
ThreadsOk.v
CommandsOk.v
Running.v
Speaks.v
Program.v
Fixture.v
CoreTheorems.v
RouterTheorems.v
SessionTheorems.v
ThreadTheorems.v
