(* ===== verification/Prelude.v ===== *)
(** * The simple router: a verification development

    The program (src/router/) is a user-space IPv4 router.  It opens a TCP
    session to a server, which describes the router's interfaces and delivers
    the Ethernet frames that arrive on them; the router answers ARP requests
    and ICMP echo requests, forwards IP packets by longest prefix match, keeps
    the packets whose next hop it does not know in a queue while it asks for the
    address by ARP, and sends ICMP errors.  A second thread wakes up every
    second, expires ARP entries and retries or gives up on ARP requests.

    ** The files

    Bottom up; each names the C file it models.
    - Prelude: faults, the error monad [res], the state-and-error monad [ST],
      integer widths, tactics and hints.
    - Memory: buffers, little-endian words in buffers, C strings.
    - Protocol: sr_protocol.h.  One Module of offsets per packed structure,
      records for headers, [encode]/[decode].
    - Utils: sr_utils.c (checksum, classification, header printers), and the
      checksum of RFC 1071.
    - Iface: sr_if.c.   Rt: sr_rt.c and [sr_verify_routing_table].
    - ArpCache: the table and the request queue of sr_arpcache.c, on a heap of
      nodes, with the queue as a list for specification ([cache_rep]).
    - Dump: sr_dumper.h, the tcpdump file format and a reader for it.
    - World: the router instance ([world], for struct sr_instance), the
      operating system ([OS]), sr_dumper.c, and [sr_send_packet] with the
      functions it uses (sr_vns_comm.c).
    - ArpHandler: [handle_arpreq], the sweep, and the cleanup thread's turn
      (sr_arpcache.c), with [spec_arpreq] and the invariant [world_ok].
    - Router: sr_router.c.   RouterSpec: the frames its builders produce.
    - Handlers: [spec_ip] and [spec_arp], and that the handlers refine them.
    - Safety: the transition system of whole packets and whole turns of the
      cleanup thread, and its invariant.
    - Delivery: the specifications put together over several packets.
    - Abstract: the router as a machine on its tables, without memory
      ([arrive], [sweep]); the code refines it event by event and run by run;
      what becomes of a waiting packet ([run_fate]).
    - Wire: every message sent is well-formed ([wire_ok]), by the calculus
      [obeys] for what an action may do.
    - Sha1: sha1.c, and FIPS 180-4 in Module [Fips].
    - Vns: the rest of sr_vns_comm.c and vnscommand.h on a [session], which
      holds the [world] and the socket.   VnsSpec: its lemmas.
    - Options: the command line of sr_main.c ([getopt], [atoi], the switch).
    - Main: sr_main.c up to the call of [sr_init] ([start_up]), and opening and
      closing the dump file (sr_dumper.c).   MainSpec: what [start_up] does.
      SessionSafety: any command of the server that returns keeps the invariant.
    - Threads: [sr_init], which starts the second thread; the main thread, which
      obeys the server until it closes the dump file and returns, and the cleanup
      thread, as programs of actions on the session; the recursive mutex of the
      cache; and their interleavings ([cstep]), with any server ([any_server]) or
      a well-behaved one ([read_fine], [creachable]).   Alone: a program run alone
      is the function of the same name.   Interleave: the invariant two threads
      share ([shared]), what each may rely on and must guarantee, and the proof
      rule for one of them ([wp]).   ThreadsOk: the rule for sending, [handle_arpreq] and the
      cleanup thread.   CommandsOk: the rule for every command of the main
      thread.   Running: both together, the lock, and whole commands and turns
      as interleavings.   Speaks: what both write to the server.
    - Program: [main], which is [start_up] and then both threads, and the run of
      them that serves a whole session.
    - Fixture: a concrete router.  CoreTheorems, RouterTheorems,
      SessionTheorems, ThreadTheorems: the main theorems, each with a concrete
      instance.

    A definition has the name of the C function it models.  A function that
    only computes is a function into [res]; one that changes the instance is in
    [M], that is [ST world]; one that also reads the socket is in [ST session].
    Undefined behaviour and failed assertions are values of [fault], so that a
    theorem with [Ok] on its right-hand side says the code stays inside its
    buffers, follows no null or freed pointer, and returns.  One undefined step
    is on a path that is taken all the time: every ICMP answer reads through a
    pointer that was never initialised (sr_router.c:422).  Whether this is
    harmless is left open, moment by moment ([os_wild_read]); no theorem supposes
    it is, and those that cover ICMP answers have [Fault WildRead] as one more
    outcome, where it can happen ([wild_death], [wild_host]).

    ** What the theorems show

    - Packets (RouterTheorems): every IP packet with 8 bytes of payload, and
      every ARP packet, on any branch, does what the specification says, and
      any frame of 42 to 64999 bytes from a known interface is handled in every
      reachable state, without a fault but that of the uninitialised pointer.  A
      packet for an unknown next hop is asked about, and delivered when the
      answer comes.  A packet with a hop count of 0 is forwarded with 255.
    - Runs (RouterTheorems): on such frames and on turns the router is the
      abstract router, message for message, until a turn gives up a request or
      an ICMP answer dies of its pointer; no waiting packet is forgotten.
    - ARP requests: retry, give up, and the sweep over the queue; that host
      unreachable is sent onwards, out of the interface the waiting packet was to
      leave by, and not back to its sender; and that the sweep reads a request it
      has just freed, in a reachable state.
    - Sending: one message per accepted frame, none otherwise.
    - Tables and formats (CoreTheorems): longest prefix match, the queue and
      the table, expiry, the checksum (RFC 1071 but for 0, which becomes 0xffff), the frames
      built from nothing, the routing table file.
    - Session (SessionTheorems): commands are read whole however the stream is
      cut, each command's effect, authentication with SHA-1 as the standard
      defines it, the opening of a session with and without a template; commands
      with any contents, in any order, keep the invariant as long as they return
      (packets of at least 42 bytes); what the code does with a closed connection
      and with lengths outside its checks.
    - Dump file (SessionTheorems): if it is not the standard output, it can be
      read back, record by record.
    - Program (SessionTheorems): the command line; starts that fail; with and
      without a template, start-up ends with both threads running, and one run of
      them (the one in which the cleanup thread takes no turn) serves the session
      to its end and returns 0.  Other runs may die: see the next group.
    - Threads (ThreadTheorems): against a well-behaved server (frames of at least
      42 bytes from known interfaces, texts with an end: [command_fine]) and
      however the threads interleave, the shared invariant holds and no action
      faults but by using something freed or closed, or at the uninitialised
      pointer; a run in which no request has been asked for five times and the
      dump file is not closed has only the latter ([calm_step]); the lock is always
      given back.  Against any server, every message is well-formed.  Four
      schedules show what the code does without a lock: a read of a freed request,
      a sixth ARP request, mixed records in the dump file, and a write to the
      closed file.  (What a server that does not behave can do to the code is in
      the groups above: [short_error_overread], [bad_lengths].)

    ** Bounds and fuel

    Loops over linked lists in the heap take [walk_fuel]: one more than the
    number of allocated nodes, which [rep_fuel] shows to be enough.  The fold of
    the checksum takes 3 turns ([cksum_fold_ok]).  Reading the socket takes one
    turn per piece of input, so a fuel over [length (input s)] is enough; the
    end of the stream, which never runs out, is the case without an end
    ([closed_connection_spins]).  Loading the routing table reads a character a
    turn ([load_rt_ends]).  The main loop needs no fuel: a turn of it is a step.
    The padding loops of sha1.c take as many turns as the limit they run to.

    The machine is little-endian and LP64.  [malloc] succeeds; what it leaves in
    a block is given by [OS].

    ** Not modelled

    Text for the user: the printers of packets, interfaces, routes and the ARP
    cache return what they print, and run where the code runs them; other
    messages are left out, but a string that is printed is scanned for its end.
    So what the standard output shows is not modelled; a dump that is sent there
    (-l with a dash) is kept apart from the dump file, and nothing is said of it.
    Of the host, [OS] gives the clock, [write] and the contents of fresh blocks,
    [Net] the results of [send], [gethostbyname], [socket], [connect] and
    [fopen] for writing and the file "auth_key", [Host] files, [inet_aton],
    [getpwuid] and the arrays [sr_load_rt] does not initialise.  What the socket
    delivers is the [input] of the session.  [getopt] is glibc's, [atoi] goes
    through a 64-bit long.

    Threads: an action of a thread is a cache function under the lock, one
    access to a member of a request outside it, one [fwrite] or [write], one entry
    of the hardware description, or a stretch of code that only reads the tables;
    the interleavings are those of whole actions.  Linking a new interface and
    filling in its name is one action, and so is each copy of six bytes: a
    thread that looks while they are half done is not modelled.  Two calls of
    [write] or [fwrite] are taken to happen one after the other, as POSIX has it
    for the latter.  Reading the server's next command is one step: the cleanup
    thread does not use what it changes.  After the return of [main] nothing
    happens any more.  A pointer from [malloc] is never one that was freed
    before, so a use after free is always seen.  [sr_session_closed_help] has an
    empty body; the macros of log.h are used nowhere.

    The VNS server, the Mininet and POX scripts (Python) and the HTTP servers of
    the topology are other programs. *)

From Stdlib Require Export ZArith Lia.
From stdpp Require Export base numbers list gmap.

#[export] Set Default Goal Selector "!".
Global Open Scope Z_scope.

(** ** Outcomes of C code

    Undefined behaviour, a failed [assert] and a loop that does not end are
    values of [fault]; everything else is [Ok]. *)
Inductive fault :=
| OutOfBounds     (** a load or store outside the object *)
| NullDeref       (** a member of a null pointer is read *)
| UseAfterFree    (** a freed or never allocated node is accessed *)
| WildRead        (** a pointer that was never initialised is followed *)
| AssertFailure   (** [assert] aborts the process *)
| Blocked         (** the process waits for input that has not arrived *)
| Diverges.       (** the loop has not ended within the given fuel *)

#[export] Instance fault_eq_dec : EqDecision fault.
Proof. solve_decision. Defined.

Inductive res (A : Type) :=
| Ok (a : A)
| Fault (f : fault).
Arguments Ok {A} a.
Arguments Fault {A} f.

Definition bind {A B} (m : res A) (k : A -> res B) : res B :=
  match m with Ok a => k a | Fault f => Fault f end.

Definition is_Ok {A} (m : res A) : Prop := exists a, m = Ok a.

(** [of_option f o]: following the pointer [o], which faults with [f] when it
    is null. *)
Definition of_option {A} (f : fault) (o : option A) : res A :=
  match o with Some a => Ok a | None => Fault f end.

(** ** State passing with faults *)
Definition ST (S A : Type) : Type := S -> res (A * S).

Definition sret {S A} (a : A) : ST S A := fun s => Ok (a, s).
Definition sbind {S A B} (m : ST S A) (k : A -> ST S B) : ST S B :=
  fun s => match m s with Ok (a, s') => k a s' | Fault f => Fault f end.
Definition sget {S} : ST S S := fun s => Ok (s, s).
Definition smodify {S} (g : S -> S) : ST S unit := fun s => Ok (tt, g s).
Definition sfault {S A} (f : fault) : ST S A := fun _ => Fault f.
Definition slift {S A} (m : res A) : ST S A :=
  fun s => match m with Ok a => Ok (a, s) | Fault f => Fault f end.
(** [smap]: sequence an action over a list, in order. *)
Fixpoint siter {S A} (f : A -> ST S unit) (l : list A) : ST S unit :=
  match l with
  | [] => sret tt
  | x :: l' => sbind (f x) (fun _ => siter f l')
  end.

Declare Scope router_scope.
Delimit Scope router_scope with router.
Notation "'let!' x := m 'in' k" := (bind m (fun x => k))
  (at level 10, x pattern, m at level 100, k at level 200,
   format "'[v' 'let!'  x  :=  m  'in' '/' k ']'") : router_scope.
Notation "'do!' x := m 'in' k" := (sbind m (fun x => k))
  (at level 10, x pattern, m at level 100, k at level 200,
   format "'[v' 'do!'  x  :=  m  'in' '/' k ']'") : router_scope.
Notation "'run!' m 'in' k" := (sbind m (fun _ => k))
  (at level 10, m at level 100, k at level 200,
   format "'[v' 'run!'  m  'in' '/' k ']'") : router_scope.
Global Open Scope router_scope.

(** ** Bytes and machine words *)
Definition byte_ok (b : Z) : Prop := 0 <= b < 256.
Abbreviation bytes_ok := (Forall byte_ok).

Definition u8 (z : Z) : Z := z mod 256.
Definition u16 (z : Z) : Z := z mod 65536.
Definition u32 (z : Z) : Z := z mod 4294967296.
(** conversion of an unsigned 32-bit value to [int] *)
Definition s32 (z : Z) : Z :=
  let w := u32 z in if w <? 2147483648 then w else w - 4294967296.

(** ** Hints and tactics *)
Create HintDb router discriminated.
#[export] Hint Constants Opaque : router.
Create Rewrite HintDb router_length.

(** Case analysis on the head of a bind whose outcome is known to be [Ok]. *)
Lemma bind_Ok_inv {A B} (m : res A) (k : A -> res B) b :
  bind m k = Ok b -> exists a, m = Ok a /\ k a = Ok b.
Proof. destruct m; simpl; [eauto | discriminate]. Qed.

Lemma bind_step {A B} (m : res A) (k : A -> res B) a :
  m = Ok a -> bind m k = k a.
Proof. by intros ->. Qed.

Lemma sbind_step {S A B} (m : ST S A) (k : A -> ST S B) s a s' :
  m s = Ok (a, s') -> sbind m k s = k a s'.
Proof. unfold sbind. by intros ->. Qed.

Lemma sget_step {S B} (k : S -> ST S B) s : sbind sget k s = k s s.
Proof. done. Qed.
Lemma smodify_step {S B} (g : S -> S) (k : unit -> ST S B) s : sbind (smodify g) k s = k tt (g s).
Proof. done. Qed.

(** The same when only the equation of the first action is known. *)
Lemma sbind_eq {S A B} (m : ST S A) (k : A -> ST S B) s r :
  m s = r -> sbind m k s = match r with Ok (a, s') => k a s' | Fault f => Fault f end.
Proof. by intros <-. Qed.

Lemma sbind_fault {S A B} (m : ST S A) (k : A -> ST S B) s f :
  m s = Fault f -> sbind m k s = Fault f.
Proof. unfold sbind. by intros ->. Qed.

Lemma sbind_Ok_inv {S A B} (m : ST S A) (k : A -> ST S B) s b s'' :
  sbind m k s = Ok (b, s'') -> exists a s', m s = Ok (a, s') /\ k a s' = Ok (b, s'').
Proof. unfold sbind. destruct (m s) as [[a s']|]; [eauto | discriminate]. Qed.

Lemma sbind_assoc {S A B C} (m : ST S A) (k : A -> ST S B) (h : B -> ST S C) s :
  sbind (sbind m k) h s = sbind m (fun a => sbind (k a) h) s.
Proof. unfold sbind. by destruct (m s) as [[]|]. Qed.

Lemma slift_step {S A} (m : res A) a (s : S) :
  m = Ok a -> slift m s = Ok (a, s).
Proof. by intros ->. Qed.

(** [step_with H]: run the first action of the goal with the equation [H]. *)
Ltac step_with H := first [rewrite (sbind_step _ _ _ _ _ H) | rewrite (bind_step _ _ _ H)]; cbv beta.

(** [inv_ok]: split hypotheses that say a composite computation returned. *)
Ltac inv_ok :=
  repeat match goal with
  | H : bind _ _ = Ok _ |- _ =>
      let a := fresh "a" in let E := fresh "E" in
      apply bind_Ok_inv in H as (a & E & H)
  | H : sbind _ _ _ = Ok (_, _) |- _ =>
      let a := fresh "a" in let s := fresh "s" in let E := fresh "E" in
      apply sbind_Ok_inv in H as (a & s & E & H)
  | H : Ok _ = Ok _ |- _ => injection H as H
  | H : Fault _ = Ok _ |- _ => discriminate H
  | H : sret _ _ = Ok _ |- _ => unfold sret in H
  end.

(** [explode l n]: replace the list [l], known to have length [n], by its
    elements. *)
Ltac explode l :=
  lazymatch goal with
  | H : length l = 0%nat |- _ => apply nil_length_inv in H; subst l
  | H : length l = S _ |- _ =>
      let x := fresh "x" in let t := fresh "t" in
      destruct l as [|x t]; [discriminate H|]; simpl in H; injection H as H; explode t
  end.

(** ** Generic lemmas *)
Lemma s32_small z : 0 <= z < 2147483648 -> s32 z = z.
Proof.
  intros H. unfold s32, u32. rewrite Z.mod_small by lia. cbv zeta.
  by rewrite (proj2 (Z.ltb_lt _ _)) by lia.
Qed.

Lemma bytes_ok_app l1 l2 : bytes_ok (l1 ++ l2) <-> bytes_ok l1 /\ bytes_ok l2.
Proof. apply Forall_app. Qed.

Lemma bytes_ok_replicate n b : byte_ok b -> bytes_ok (replicate n b).
Proof. intros H. by apply Forall_replicate. Qed.

Lemma length_resize_Z (n : nat) (l : list Z) : length (resize n 0 l) = n.
Proof. apply length_resize. Qed.
#[export] Hint Rewrite @length_app @length_replicate @length_take @length_drop
  @length_insert length_resize_Z @length_cons @length_nil : router_length.

(** A list at least [n] long is its first [n] elements and a rest. *)
Lemma split_at {A} (l : list A) (n : nat) :
  (n <= length l)%nat -> exists l1 l2, l = l1 ++ l2 /\ length l1 = n.
Proof.
  intros H. exists (take n l), (drop n l).
  by rewrite take_drop, length_take_le.
Qed.

(** [lens]: close a goal on lengths after pushing [length] inwards. *)
Ltac lens := autorewrite with router_length in *; simpl; lia.
