(* ===== verification/Memory.v ===== *)
(** * Memory: buffers, machine words in buffers, and C strings

    A block of memory is the list of its bytes; every access through a pointer
    is a [load] or [store] at an offset, which faults outside the block.  The
    machine is little-endian (x86, the [_LINUX_] branch of sr_protocol.h) with
    8-bit bytes and LP64 types.  The string functions are the ones of
    <string.h> the router calls ([strncpy], [strncmp], [strlen]); they read
    byte by byte and fault when they run off the block. *)

From S2P Require Import Prelude.

(** ** Loads and stores *)
Definition load (buf : list Z) (off n : nat) : res (list Z) :=
  if (off + n <=? length buf)%nat then Ok (take n (drop off buf)) else Fault OutOfBounds.

Definition store (buf : list Z) (off : nat) (bs : list Z) : res (list Z) :=
  if (off + length bs <=? length buf)%nat
  then Ok (take off buf ++ bs ++ drop (off + length bs) buf)
  else Fault OutOfBounds.

(** [buf + off] as a pointer: what can be read from there on. *)
Definition from (buf : list Z) (off : nat) : res (list Z) :=
  if (off <=? length buf)%nat then Ok (drop off buf) else Fault OutOfBounds.

(** [malloc(n)]: a block of [n] bytes whose contents, [junk], are whatever the
    allocator left there. *)
Definition malloc (junk : list Z) (n : nat) : list Z := resize n 0 junk.
Definition calloc (n : nat) : list Z := replicate n 0.

(** ** Words *)
Definition byte_at (z i : Z) : Z := (z / 256 ^ i) mod 256.

Definition le_bytes2 (z : Z) : list Z := [byte_at z 0; byte_at z 1].
Definition le_bytes4 (z : Z) : list Z := [byte_at z 0; byte_at z 1; byte_at z 2; byte_at z 3].
Definition be_bytes2 (z : Z) : list Z := [byte_at z 1; byte_at z 0].
Definition be_bytes4 (z : Z) : list Z := [byte_at z 3; byte_at z 2; byte_at z 1; byte_at z 0].

Fixpoint le_word (bs : list Z) : Z :=
  match bs with [] => 0 | b :: bs' => b + 256 * le_word bs' end.

Definition load8 (buf : list Z) (off : nat) : res Z :=
  let! bs := load buf off 1 in Ok (le_word bs).
Definition load16 (buf : list Z) (off : nat) : res Z :=
  let! bs := load buf off 2 in Ok (le_word bs).
Definition load32 (buf : list Z) (off : nat) : res Z :=
  let! bs := load buf off 4 in Ok (le_word bs).
Definition store8 (buf : list Z) (off : nat) (v : Z) : res (list Z) :=
  store buf off [byte_at v 0].
Definition store16 (buf : list Z) (off : nat) (v : Z) : res (list Z) :=
  store buf off (le_bytes2 v).
Definition store32 (buf : list Z) (off : nat) (v : Z) : res (list Z) :=
  store buf off (le_bytes4 v).

(** byte order: on this machine [htons]/[htonl] swap bytes *)
Definition htons (x : Z) : Z := byte_at x 1 + 256 * byte_at x 0.
Definition ntohs (x : Z) : Z := htons x.
Definition htonl (x : Z) : Z :=
  byte_at x 3 + 256 * (byte_at x 2 + 256 * (byte_at x 1 + 256 * byte_at x 0)).
Definition ntohl (x : Z) : Z := htonl x.

(** ** C strings *)

(** The characters of the string at a pointer, at most [n] of them: up to the
    first NUL.  Running off the block is a fault. *)
Fixpoint cstr (n : nat) (s : list Z) : res (list Z) :=
  match n with
  | O => Ok []
  | S n' =>
      match s with
      | [] => Fault OutOfBounds
      | c :: s' => if c =? 0 then Ok [] else let! r := cstr n' s' in Ok (c :: r)
      end
  end.

(** The string itself: its NUL must be inside the block. *)
Definition cstring (s : list Z) : res (list Z) := cstr (S (length s)) s.

Definition strlen (s : list Z) : res nat :=
  let! r := cstring s in Ok (length r).

(** [strncpy(dst, src, n)]: the [n] bytes written. *)
Fixpoint strncpy (n : nat) (src : list Z) : res (list Z) :=
  match n with
  | O => Ok []
  | S n' =>
      match src with
      | [] => Fault OutOfBounds
      | c :: src' =>
          if c =? 0 then Ok (replicate n 0)
          else let! r := strncpy n' src' in Ok (c :: r)
      end
  end.

Fixpoint strncmp (n : nat) (a b : list Z) : res Z :=
  match n with
  | O => Ok 0
  | S n' =>
      match a, b with
      | x :: a', y :: b' =>
          if x =? y then (if x =? 0 then Ok 0 else strncmp n' a' b') else Ok (x - y)
      | _, _ => Fault OutOfBounds
      end
  end.

(** ** Lemmas: loads and stores *)
Lemma load_ok buf off n :
  (off + n <= length buf)%nat -> load buf off n = Ok (take n (drop off buf)).
Proof. intros H. unfold load. by rewrite (proj2 (Nat.leb_le _ _) H). Qed.

Lemma load_oob buf off n :
  (length buf < off + n)%nat -> load buf off n = Fault OutOfBounds.
Proof. intros H. unfold load. by rewrite (proj2 (Nat.leb_gt _ _) H). Qed.

Lemma load_app a b c : load (a ++ b ++ c) (length a) (length b) = Ok b.
Proof.
  rewrite load_ok by lens.
  by rewrite drop_app_length, take_app_length.
Qed.

Lemma load_at a b c off n :
  length a = off -> length b = n -> load (a ++ b ++ c) off n = Ok b.
Proof. intros <- <-. apply load_app. Qed.

(** Accesses relative to a pointer into the block. *)
Lemma load_prefix pre l off n : load (pre ++ l) (length pre + off) n = load l off n.
Proof.
  unfold load. rewrite length_app, <- drop_drop, drop_app_length.
  by replace (length pre + off + n <=? length pre + length l)%nat
    with (off + n <=? length l)%nat
    by (apply eq_true_iff_eq; rewrite !Nat.leb_le; lia).
Qed.

Lemma store_ok buf off bs :
  (off + length bs <= length buf)%nat ->
  store buf off bs = Ok (take off buf ++ bs ++ drop (off + length bs) buf).
Proof. intros H. unfold store. by rewrite (proj2 (Nat.leb_le _ _) H). Qed.

Lemma store_oob buf off bs :
  (length buf < off + length bs)%nat -> store buf off bs = Fault OutOfBounds.
Proof. intros H. unfold store. by rewrite (proj2 (Nat.leb_gt _ _) H). Qed.

Lemma store_app a b c bs :
  length b = length bs -> store (a ++ b ++ c) (length a) bs = Ok (a ++ bs ++ c).
Proof.
  intros H. rewrite store_ok by lens.
  rewrite take_app_length, <- H, <- drop_drop, drop_app_length, drop_app_length.
  done.
Qed.

Lemma store_at a b c off bs :
  length a = off -> length b = length bs -> store (a ++ b ++ c) off bs = Ok (a ++ bs ++ c).
Proof. intros <-. apply store_app. Qed.

Lemma store_at_end a b off bs :
  length a = off -> length b = length bs -> store (a ++ b) off bs = Ok (a ++ bs).
Proof.
  intros Ha Hb. pose proof (store_at a b [] off bs Ha Hb) as H. by rewrite !app_nil_r in H.
Qed.

Lemma load32_at a b c off :
  length a = off -> length b = 4%nat -> load32 (a ++ b ++ c) off = Ok (le_word b).
Proof. intros Ha Hb. unfold load32. by rewrite (load_at a b c off 4 Ha Hb). Qed.

Lemma malloc_length junk n : length (malloc junk n) = n.
Proof. apply length_resize. Qed.

Lemma store_prefix pre l off bs :
  store (pre ++ l) (length pre + off) bs = let! l' := store l off bs in Ok (pre ++ l').
Proof.
  unfold store. rewrite length_app.
  replace (length pre + off + length bs <=? length pre + length l)%nat
    with (off + length bs <=? length l)%nat
    by (apply eq_true_iff_eq; rewrite !Nat.leb_le; lia).
  case_match; [|done]. simpl.
  rewrite take_app_add, <- Nat.add_assoc, <- drop_drop, drop_app_length.
  by rewrite <- app_assoc.
Qed.

Lemma store_length buf off bs buf' : store buf off bs = Ok buf' -> length buf' = length buf.
Proof.
  unfold store. case_match eqn:E; [|discriminate]. intros [= <-].
  apply Nat.leb_le in E. lens.
Qed.

(** ** Lemmas: words *)
Lemma byte_at_range z i : byte_ok (byte_at z i).
Proof. unfold byte_ok, byte_at. apply Z.mod_pos_bound. lia. Qed.
#[export] Hint Resolve byte_at_range : router.

Lemma byte_at_0 z : byte_at z 0 = z mod 256.
Proof. unfold byte_at. by rewrite Z.pow_0_r, Z.div_1_r. Qed.

Lemma byte_at_0_small b : byte_ok b -> byte_at b 0 = b.
Proof. intros H. rewrite byte_at_0. by apply Z.mod_small. Qed.

Lemma le_word_bytes2 z : le_word (le_bytes2 z) = u16 z.
Proof.
  unfold le_bytes2, byte_at, u16. cbn [le_word].
  change (256 ^ 0) with 1. change (256 ^ 1) with 256.
  Z.div_mod_to_equations. lia.
Qed.

Lemma le_word_bytes4 z : le_word (le_bytes4 z) = u32 z.
Proof.
  unfold le_bytes4, byte_at, u32. cbn [le_word].
  change (256 ^ 0) with 1. change (256 ^ 1) with 256.
  change (256 ^ 2) with 65536. change (256 ^ 3) with 16777216.
  Z.div_mod_to_equations. lia.
Qed.

Lemma byte_at_cons b w : byte_ok b -> byte_at (b + 256 * w) 0 = b.
Proof. unfold byte_ok. intros H. rewrite byte_at_0. Z.div_mod_to_equations. lia. Qed.

Lemma byte_at_S b w i : byte_ok b -> 0 <= i -> byte_at (b + 256 * w) (1 + i) = byte_at w i.
Proof.
  unfold byte_ok, byte_at. intros H Hi.
  rewrite Z.pow_add_r, Z.pow_1_r, <- Z.div_div by lia.
  f_equal. f_equal. Z.div_mod_to_equations. lia.
Qed.

Lemma byte_at_word4 b0 b1 b2 b3 :
  byte_ok b0 -> byte_ok b1 -> byte_ok b2 -> byte_ok b3 ->
  let w := b0 + 256 * (b1 + 256 * (b2 + 256 * b3)) in
  byte_at w 0 = b0 /\ byte_at w 1 = b1 /\ byte_at w 2 = b2 /\ byte_at w 3 = b3.
Proof.
  intros H0 H1 H2 H3 w. subst w.
  split; [by apply byte_at_cons|].
  change 3 with (1 + (1 + (1 + 0))) at 1. change 2 with (1 + (1 + 0)) at 1.
  change 1 with (1 + 0) at 1.
  rewrite !byte_at_S by (done || lia).
  rewrite !byte_at_cons by done. by rewrite byte_at_0_small.
Qed.

Lemma le_bytes4_word b0 b1 b2 b3 :
  bytes_ok [b0; b1; b2; b3] -> le_bytes4 (le_word [b0; b1; b2; b3]) = [b0; b1; b2; b3].
Proof.
  intros H. repeat (apply Forall_cons in H as [? H]).
  unfold le_bytes4. cbn [le_word]. rewrite Z.mul_0_r, Z.add_0_r.
  by destruct (byte_at_word4 b0 b1 b2 b3) as (-> & -> & -> & ->).
Qed.

Lemma byte_at_word2 b0 b1 :
  byte_ok b0 -> byte_ok b1 ->
  byte_at (b0 + 256 * b1) 0 = b0 /\ byte_at (b0 + 256 * b1) 1 = b1.
Proof.
  intros H0 H1. split; [by apply byte_at_cons|].
  change 1 with (1 + 0) at 1. rewrite byte_at_S by (done || lia). by apply byte_at_0_small.
Qed.

Lemma le_bytes2_word b0 b1 :
  bytes_ok [b0; b1] -> le_bytes2 (le_word [b0; b1]) = [b0; b1].
Proof.
  intros H. repeat (apply Forall_cons in H as [? H]).
  unfold le_bytes2. cbn [le_word]. rewrite Z.mul_0_r, Z.add_0_r.
  by destruct (byte_at_word2 b0 b1) as [-> ->].
Qed.

(** Storing a swapped word writes it big-endian: what [htons] is for. *)
Lemma le_bytes2_htons z : le_bytes2 (htons z) = be_bytes2 z.
Proof.
  unfold le_bytes2, be_bytes2, htons.
  destruct (byte_at_word2 (byte_at z 1) (byte_at z 0)) as [-> ->]; auto using byte_at_range.
Qed.

Lemma le_bytes4_htonl z : le_bytes4 (htonl z) = be_bytes4 z.
Proof.
  unfold le_bytes4, be_bytes4, htonl.
  destruct (byte_at_word4 (byte_at z 3) (byte_at z 2) (byte_at z 1) (byte_at z 0))
    as (-> & -> & -> & ->); auto using byte_at_range.
Qed.

Lemma htons_range z : 0 <= htons z < 65536.
Proof.
  unfold htons. pose proof (byte_at_range z 0). pose proof (byte_at_range z 1).
  unfold byte_ok in *. lia.
Qed.

Lemma htons_involutive z : htons (htons z) = u16 z.
Proof.
  rewrite <- le_word_bytes2. unfold htons at 1.
  destruct (byte_at_word2 (byte_at z 1) (byte_at z 0)) as [E0 E1]; auto using byte_at_range.
  unfold htons. rewrite E0, E1. unfold le_bytes2. cbn [le_word]. lia.
Qed.

Lemma htonl_involutive z : htonl (htonl z) = u32 z.
Proof.
  rewrite <- le_word_bytes4. unfold htonl at 1.
  destruct (byte_at_word4 (byte_at z 3) (byte_at z 2) (byte_at z 1) (byte_at z 0))
    as (E0 & E1 & E2 & E3); auto using byte_at_range.
  unfold htonl. rewrite E0, E1, E2, E3. unfold le_bytes4. cbn [le_word]. lia.
Qed.

Lemma le_word_range bs : bytes_ok bs -> 0 <= le_word bs < 256 ^ Z.of_nat (length bs).
Proof.
  induction 1 as [|b bs Hb _ IH]; simpl le_word; [simpl; lia|].
  rewrite length_cons, Nat2Z.inj_succ, Z.pow_succ_r by lia.
  unfold byte_ok in Hb. lia.
Qed.

Lemma bytes_ok_le_bytes2 z : bytes_ok (le_bytes2 z).
Proof. repeat constructor; apply byte_at_range. Qed.
Lemma bytes_ok_le_bytes4 z : bytes_ok (le_bytes4 z).
Proof. repeat constructor; apply byte_at_range. Qed.
Lemma bytes_ok_be_bytes2 z : bytes_ok (be_bytes2 z).
Proof. repeat constructor; apply byte_at_range. Qed.
#[export] Hint Resolve bytes_ok_le_bytes2 bytes_ok_le_bytes4 bytes_ok_be_bytes2 : router.

(** ** Lemmas: strings *)
Lemma strncpy_length n s r : strncpy n s = Ok r -> length r = n.
Proof.
  revert s r. induction n as [|n IH]; intros s r; simpl; [by intros [= <-]|].
  destruct s as [|c s]; [discriminate|].
  destruct (c =? 0); [intros [= <-]; lens|].
  intros Hr. apply bind_Ok_inv in Hr as (r' & E & [= <-]).
  simpl. f_equal. eauto.
Qed.

(** The copy and the source are the same string, as far as [n] characters go. *)
Lemma cstr_strncpy n s r : strncpy n s = Ok r -> cstr n r = cstr n s.
Proof.
  revert s r. induction n as [|n IH]; intros s r; simpl; [done|].
  destruct s as [|c s]; [discriminate|].
  destruct (Z.eqb_spec c 0) as [->|Hc].
  - by intros [= <-].
  - intros Hr. apply bind_Ok_inv in Hr as (r' & E & [= <-]).
    rewrite (proj2 (Z.eqb_neq c 0) Hc). by rewrite (IH _ _ E).
Qed.

(** Copying what was copied changes nothing. *)
Lemma strncpy_idem n s r : strncpy n s = Ok r -> strncpy n r = Ok r.
Proof.
  revert s r. induction n as [|n IH]; intros s r; simpl; [by intros [= <-]|].
  destruct s as [|c s]; [discriminate|]. destruct (Z.eqb_spec c 0) as [->|Hc]; [by intros [= <-]|].
  intros Hr. apply bind_Ok_inv in Hr as (r' & E & [= <-]).
  by rewrite (proj2 (Z.eqb_neq c 0) Hc), (IH _ _ E).
Qed.

(** A copy of a copy. *)
Lemma strncpy_strncpy m n s r : (m <= n)%nat -> strncpy n s = Ok r -> strncpy m r = strncpy m s.
Proof.
  revert n s r. induction m as [|m IH]; intros [|n] s r Hmn; simpl; try done; [lia|].
  destruct s as [|c s]; [discriminate|]. destruct (Z.eqb_spec c 0) as [->|Hc]; [by intros [= <-]|].
  intros Hr. apply bind_Ok_inv in Hr as (r' & E & [= <-]).
  rewrite (proj2 (Z.eqb_neq c 0) Hc). by rewrite (IH n s r') by (done || lia).
Qed.

(** The [n] bytes a string without NUL leaves in an array of [n]. *)
Definition field (n : nat) (s : list Z) : list Z := take n (s ++ replicate n 0).

Lemma length_field n s : length (field n s) = n.
Proof. unfold field. rewrite length_take, length_app, length_replicate. lia. Qed.

Lemma strncpy_field n s : Forall (fun c => c <> 0) s -> strncpy n (s ++ [0]) = Ok (field n s).
Proof.
  intros H. revert n. induction H as [|c s Hc _ IH]; intros [|n]; try done.
  - cbn [app strncpy Z.eqb]. unfold field. cbn [app]. by rewrite take_ge by (rewrite length_replicate; lia).
  - cbn [app strncpy]. rewrite (proj2 (Z.eqb_neq c 0)) by done. rewrite IH. cbn [bind]. unfold field. cbn. do 2 f_equal.
    rewrite replicate_cons_app, app_assoc, (take_app_le _ [0]); [done|].
    rewrite length_app, length_replicate. lia.
Qed.

Lemma cstring_field n s :
  Forall (fun c => c <> 0) s -> (length s < n)%nat -> cstring (field n s) = Ok s.
Proof.
  intros H Hl. unfold field, cstring. rewrite take_app_ge, take_replicate, Nat.min_l by lia.
  destruct (n - length s)%nat as [|k] eqn:E; [lia|].
  assert (Hf : (length s < S (length (s ++ replicate (S k) (0 : Z))))%nat) by (rewrite length_app; lia).
  revert Hf. generalize (S (length (s ++ replicate (S k) (0 : Z)))). clear Hl E.
  induction H as [|c s Hc _ IH]; intros [|m] Hm; cbn in *; try lia; [done|].
  rewrite (proj2 (Z.eqb_neq c 0)) by done. cbn in IH. by rewrite IH by lia.
Qed.

Lemma strncpy_ok n s : (n <= length s)%nat -> is_Ok (strncpy n s).
Proof.
  revert s. induction n as [|n IH]; intros [|c s] H; simpl in *; try lia; try (eexists; done).
  case_match; [eexists; done|].
  destruct (IH s) as [r ->]; [lia|]. by eexists.
Qed.

Lemma strncpy_app n a b : (n <= length a)%nat -> strncpy n (a ++ b) = strncpy n a.
Proof.
  revert a. induction n as [|n IH]; intros [|c a] H; simpl in *; try lia; try done.
  by rewrite IH by lia.
Qed.

Lemma cstr_ok n s : (n <= length s)%nat -> is_Ok (cstr n s).
Proof.
  revert s. induction n as [|n IH]; intros [|c s] H; simpl in *; try lia; try (eexists; done).
  case_match; [eexists; done|].
  destruct (IH s) as [r ->]; [lia|]. by eexists.
Qed.

(** A string that ends within 32 bytes, read out of a longer buffer. *)
Lemma cstr_app n a b r : cstr n a = Ok r -> (length r < n)%nat -> cstr n (a ++ b) = Ok r.
Proof.
  revert a r. induction n as [|n IH]; intros a r E Hr; [lia|].
  destruct a as [|c a]; [discriminate|]. cbn [app cstr] in *. destruct (c =? 0); [done|].
  apply bind_Ok_inv in E as (r' & E & [= <-]). simpl in Hr. by rewrite (IH _ _ E) by lia.
Qed.

Lemma cstr_mono n k a r : cstr n a = Ok r -> (length r < n)%nat -> cstr (n + k) a = Ok r.
Proof.
  revert a r. induction n as [|n IH]; intros a r E Hr; [lia|].
  destruct a as [|c a]; [discriminate|]. cbn [Nat.add cstr] in *. destruct (c =? 0); [done|].
  apply bind_Ok_inv in E as (r' & E & [= <-]). simpl in Hr. by rewrite (IH _ _ E) by lia.
Qed.

Lemma cstr_length n : forall a r, cstr n a = Ok r -> (length r <= length a)%nat.
Proof.
  induction n as [|n IH]; intros a r E; [injection E as <-; simpl; lia|].
  destruct a as [|c a]; [discriminate|]. cbn [cstr] in E. destruct (c =? 0); [injection E as <-; simpl; lia|].
  apply bind_Ok_inv in E as (r' & E & [= <-]). simpl. specialize (IH _ _ E). lia.
Qed.

Lemma cstring_app_32 a b r : length a = 32%nat -> cstring a = Ok r ->
  cstring (a ++ b) = Ok r /\ (length r <= 32)%nat.
Proof.
  intros Ha E. unfold cstring in *. rewrite Ha in E. pose proof (cstr_length _ _ _ E) as Hl.
  split; [|lia]. rewrite length_app, Ha. replace (S (32 + length b)) with (33 + length b)%nat by lia.
  apply cstr_mono; [|lia]. by apply cstr_app; [|lia].
Qed.

(** [strncmp] returns 0 exactly when the two strings are equal up to [n]. *)
Lemma strncmp_cstr n a b ca cb :
  cstr n a = Ok ca -> cstr n b = Ok cb ->
  exists d, strncmp n a b = Ok d /\ (d = 0 <-> ca = cb).
Proof.
  revert a b ca cb. induction n as [|n IH]; intros a b ca cb; simpl.
  { intros [= <-] [= <-]. by eexists. }
  destruct a as [|x a]; [discriminate|]. destruct b as [|y b]; [discriminate|].
  destruct (Z.eqb_spec x y) as [<-|Hxy].
  - destruct (Z.eqb_spec x 0) as [->|Hx].
    + intros [= <-] [= <-]. by eexists.
    + intros Ha Hb. apply bind_Ok_inv in Ha as (ra & Ea & [= <-]).
      apply bind_Ok_inv in Hb as (rb & Eb & [= <-]).
      destruct (IH _ _ _ _ Ea Eb) as (d & Ed & Hd).
      exists d. split; [done|]. split; intros Hz.
      * f_equal. by apply Hd.
      * apply Hd. by injection Hz.
  - intros Ha Hb. exists (x - y). split; [done|]. split; [lia|].
    intros <-. exfalso.
    destruct (Z.eqb_spec x 0) as [->|Hx].
    + injection Ha as <-. destruct (Z.eqb_spec y 0); [lia|].
      apply bind_Ok_inv in Hb as (? & _ & ?). congruence.
    + apply bind_Ok_inv in Ha as (ra & Ea & [= <-]).
      destruct (Z.eqb_spec y 0) as [->|Hy]; [congruence|].
      apply bind_Ok_inv in Hb as (? & _ & ?). congruence.
Qed.

Arguments strncmp : simpl never.
Arguments strncpy : simpl never.
Arguments cstr : simpl never.
Arguments byte_at : simpl never.
Arguments htons : simpl never.
