(* ===== verification/Protocol.v ===== *)
(** * Protocol: the packet headers of sr_protocol.h

    Every packed structure is a Module with the offset of each member, computed
    from the widths of the members before it.  The handlers read and write
    packets through these offsets, as the C code does through casts.  The
    records [eth_hdr], [ip_hdr], [icmp_t3_hdr] and [arp_hdr] and
    their [encode]/[decode] functions say what the bytes mean; the theorems
    about the handlers describe the packets they build with them.

    A member the code treats as opaque network-order data (addresses,
    checksums) is kept as the integer a little-endian load gives, like in C;
    a member the code converts with [htons]/[ntohs] is in host order. *)

From S2P Require Import Prelude Memory.

Definition ETHER_ADDR_LEN : nat := 6.
Definition ICMP_DATA_SIZE : nat := 28.
Definition sr_IFACE_NAMELEN : nat := 32.

Module Eth.
Definition ether_dhost : nat := 0.
Definition ether_shost : nat := ether_dhost + ETHER_ADDR_LEN.
Definition ether_type : nat := ether_shost + ETHER_ADDR_LEN.
Definition size : nat := ether_type + 2.
End Eth.

Module Ip.
Definition ip_hl_v : nat := 0.
Definition ip_tos : nat := ip_hl_v + 1.
Definition ip_len : nat := ip_tos + 1.
Definition ip_id : nat := ip_len + 2.
Definition ip_off : nat := ip_id + 2.
Definition ip_ttl : nat := ip_off + 2.
Definition ip_p : nat := ip_ttl + 1.
Definition ip_sum : nat := ip_p + 1.
Definition ip_src : nat := ip_sum + 2.
Definition ip_dst : nat := ip_src + 4.
Definition size : nat := ip_dst + 4.
End Ip.

Module Icmp.
Definition icmp_type : nat := 0.
Definition icmp_code : nat := icmp_type + 1.
Definition icmp_sum : nat := icmp_code + 1.
Definition size : nat := icmp_sum + 2.
End Icmp.

Module IcmpT3.
Definition icmp_type : nat := 0.
Definition icmp_code : nat := icmp_type + 1.
Definition icmp_sum : nat := icmp_code + 1.
Definition unused : nat := icmp_sum + 2.
Definition next_mtu : nat := unused + 2.
Definition data : nat := next_mtu + 2.
Definition size : nat := data + ICMP_DATA_SIZE.
End IcmpT3.

Module Arp.
Definition ar_hrd : nat := 0.
Definition ar_pro : nat := ar_hrd + 2.
Definition ar_hln : nat := ar_pro + 2.
Definition ar_pln : nat := ar_hln + 1.
Definition ar_op : nat := ar_pln + 1.
Definition ar_sha : nat := ar_op + 2.
Definition ar_sip : nat := ar_sha + ETHER_ADDR_LEN.
Definition ar_tha : nat := ar_sip + 4.
Definition ar_tip : nat := ar_tha + ETHER_ADDR_LEN.
Definition size : nat := ar_tip + 4.
End Arp.

(** the enums *)
Definition ip_protocol_icmp : Z := 1.
Definition ip_protocol_tcp : Z := 6.
Definition ip_protocol_udp : Z := 17.
Definition ethertype_arp : Z := 2054.
Definition ethertype_ip : Z := 2048.
Definition arp_op_request : Z := 1.
Definition arp_op_reply : Z := 2.
Definition arp_hrd_ethernet : Z := 1.
(** the fragment flags *)
Definition IP_RF : Z := 32768.
Definition IP_DF : Z := 16384.
Definition IP_MF : Z := 8192.
Definition IP_OFFMASK : Z := 8191.

(** The two bit-fields share byte 0 of the header: [ip_hl] is its low nibble
    and [ip_v] its high one (the [__LITTLE_ENDIAN] branch).  Assigning one
    keeps the other. *)
Definition load_ip_v (buf : list Z) (base : nat) : res Z :=
  let! b := load8 buf (base + Ip.ip_hl_v) in Ok ((b / 16) mod 16).
Definition load_ip_hl (buf : list Z) (base : nat) : res Z :=
  let! b := load8 buf (base + Ip.ip_hl_v) in Ok (b mod 16).
Definition store_ip_v (buf : list Z) (base : nat) (v : Z) : res (list Z) :=
  let! b := load8 buf (base + Ip.ip_hl_v) in
  store8 buf (base + Ip.ip_hl_v) (16 * (v mod 16) + b mod 16).
Definition store_ip_hl (buf : list Z) (base : nat) (v : Z) : res (list Z) :=
  let! b := load8 buf (base + Ip.ip_hl_v) in
  store8 buf (base + Ip.ip_hl_v) (16 * ((b / 16) mod 16) + v mod 16).

(** ** What the bytes mean *)
Record eth_hdr := EthHdr { e_dhost : list Z; e_shost : list Z; e_type : Z }.
Record ip_hdr := IpHdr {
  i_v : Z; i_hl : Z; i_tos : Z; i_len : Z; i_id : Z; i_off : Z;
  i_ttl : Z; i_p : Z; i_sum : Z; i_src : Z; i_dst : Z }.
Record icmp_t3_hdr := IcmpT3Hdr {
  t_type : Z; t_code : Z; t_sum : Z; t_unused : Z; t_mtu : Z; t_data : list Z }.
Record arp_hdr := ArpHdr {
  a_hrd : Z; a_pro : Z; a_hln : Z; a_pln : Z; a_op : Z;
  a_sha : list Z; a_sip : Z; a_tha : list Z; a_tip : Z }.

Definition encode_eth (h : eth_hdr) : list Z := e_dhost h ++ e_shost h ++ be_bytes2 (e_type h).
Definition encode_ip (h : ip_hdr) : list Z :=
  [16 * i_v h + i_hl h; i_tos h] ++ be_bytes2 (i_len h) ++ be_bytes2 (i_id h)
  ++ be_bytes2 (i_off h) ++ [i_ttl h; i_p h] ++ le_bytes2 (i_sum h)
  ++ le_bytes4 (i_src h) ++ le_bytes4 (i_dst h).
Definition encode_icmp_t3 (h : icmp_t3_hdr) : list Z :=
  [t_type h; t_code h] ++ le_bytes2 (t_sum h) ++ le_bytes2 (t_unused h)
  ++ le_bytes2 (t_mtu h) ++ t_data h.
Definition encode_arp (h : arp_hdr) : list Z :=
  be_bytes2 (a_hrd h) ++ be_bytes2 (a_pro h) ++ [a_hln h; a_pln h] ++ be_bytes2 (a_op h)
  ++ a_sha h ++ le_bytes4 (a_sip h) ++ a_tha h ++ le_bytes4 (a_tip h).

Definition decode_eth (buf : list Z) : res eth_hdr :=
  let! d := load buf Eth.ether_dhost ETHER_ADDR_LEN in
  let! s := load buf Eth.ether_shost ETHER_ADDR_LEN in
  let! t := load16 buf Eth.ether_type in
  Ok (EthHdr d s (ntohs t)).

Definition decode_ip (buf : list Z) (base : nat) : res ip_hdr :=
  let! v := load_ip_v buf base in
  let! hl := load_ip_hl buf base in
  let! tos := load8 buf (base + Ip.ip_tos) in
  let! len := load16 buf (base + Ip.ip_len) in
  let! id := load16 buf (base + Ip.ip_id) in
  let! off := load16 buf (base + Ip.ip_off) in
  let! ttl := load8 buf (base + Ip.ip_ttl) in
  let! p := load8 buf (base + Ip.ip_p) in
  let! sum := load16 buf (base + Ip.ip_sum) in
  let! src := load32 buf (base + Ip.ip_src) in
  let! dst := load32 buf (base + Ip.ip_dst) in
  Ok (IpHdr v hl tos (ntohs len) (ntohs id) (ntohs off) ttl p sum src dst).

Definition decode_arp (buf : list Z) (base : nat) : res arp_hdr :=
  let! hrd := load16 buf (base + Arp.ar_hrd) in
  let! pro := load16 buf (base + Arp.ar_pro) in
  let! hln := load8 buf (base + Arp.ar_hln) in
  let! pln := load8 buf (base + Arp.ar_pln) in
  let! op := load16 buf (base + Arp.ar_op) in
  let! sha := load buf (base + Arp.ar_sha) ETHER_ADDR_LEN in
  let! sip := load32 buf (base + Arp.ar_sip) in
  let! tha := load buf (base + Arp.ar_tha) ETHER_ADDR_LEN in
  let! tip := load32 buf (base + Arp.ar_tip) in
  Ok (ArpHdr (ntohs hrd) (ntohs pro) hln pln (ntohs op) sha sip tha tip).

(** The values that fit their members. *)
Definition u16_ok (z : Z) : Prop := 0 <= z < 65536.
Definition u32_ok (z : Z) : Prop := 0 <= z < 4294967296.
Record eth_hdr_ok (h : eth_hdr) : Prop := {
  eok_dhost : length (e_dhost h) = 6%nat; eok_shost : length (e_shost h) = 6%nat;
  eok_type : u16_ok (e_type h) }.
Record ip_hdr_ok (h : ip_hdr) : Prop := {
  iok_v : 0 <= i_v h < 16; iok_hl : 0 <= i_hl h < 16; iok_tos : byte_ok (i_tos h);
  iok_len : u16_ok (i_len h); iok_id : u16_ok (i_id h); iok_off : u16_ok (i_off h);
  iok_ttl : byte_ok (i_ttl h); iok_p : byte_ok (i_p h); iok_sum : u16_ok (i_sum h);
  iok_src : u32_ok (i_src h); iok_dst : u32_ok (i_dst h) }.
Record arp_hdr_ok (h : arp_hdr) : Prop := {
  aok_hrd : u16_ok (a_hrd h); aok_pro : u16_ok (a_pro h); aok_hln : byte_ok (a_hln h);
  aok_pln : byte_ok (a_pln h); aok_op : u16_ok (a_op h);
  aok_sha : length (a_sha h) = 6%nat; aok_sip : u32_ok (a_sip h);
  aok_tha : length (a_tha h) = 6%nat; aok_tip : u32_ok (a_tip h) }.

(** ** Lemmas *)

(** [offs]: arithmetic over member offsets and structure sizes. *)
Ltac unfold_offs :=
  cbv [Eth.ether_dhost Eth.ether_shost Eth.ether_type Eth.size
       Ip.ip_hl_v Ip.ip_tos Ip.ip_len Ip.ip_id Ip.ip_off Ip.ip_ttl Ip.ip_p Ip.ip_sum
       Ip.ip_src Ip.ip_dst Ip.size
       Icmp.icmp_type Icmp.icmp_code Icmp.icmp_sum Icmp.size
       IcmpT3.icmp_type IcmpT3.icmp_code IcmpT3.icmp_sum IcmpT3.unused IcmpT3.next_mtu
       IcmpT3.data IcmpT3.size
       Arp.ar_hrd Arp.ar_pro Arp.ar_hln Arp.ar_pln Arp.ar_op Arp.ar_sha Arp.ar_sip
       Arp.ar_tha Arp.ar_tip Arp.size
       ETHER_ADDR_LEN ICMP_DATA_SIZE sr_IFACE_NAMELEN] in *.
Ltac offs := unfold_offs; autorewrite with router_length in *; lia.

(** [eval_buf]: run loads and stores at literal offsets on a list whose first
    elements are given. *)
Ltac eval_buf :=
  cbn -[byte_at htons Z.add Z.mul Z.modulo Z.div Z.eqb Z.ltb Z.leb le_word].

Lemma le_word_be2 z : u16_ok z -> ntohs (le_word (be_bytes2 z)) = z.
Proof.
  intros H. unfold ntohs. rewrite <- le_bytes2_htons, le_word_bytes2.
  unfold u16. rewrite Z.mod_small by apply htons_range.
  rewrite htons_involutive. by apply Z.mod_small.
Qed.

Lemma le_word_le2 z : u16_ok z -> le_word (le_bytes2 z) = z.
Proof. intros H. rewrite le_word_bytes2. by apply Z.mod_small. Qed.
Lemma le_word_le4 z : u32_ok z -> le_word (le_bytes4 z) = z.
Proof. intros H. rewrite le_word_bytes4. by apply Z.mod_small. Qed.
Lemma le_word_1 b : le_word [b] = b.
Proof. simpl. lia. Qed.

Lemma length_encode_eth h : eth_hdr_ok h -> length (encode_eth h) = 14%nat.
Proof. intros [? ? ?]. unfold encode_eth. rewrite !length_app. simpl. lia. Qed.
Lemma length_encode_ip h : length (encode_ip h) = 20%nat.
Proof. done. Qed.
Lemma length_encode_arp h : arp_hdr_ok h -> length (encode_arp h) = 28%nat.
Proof. intros []. unfold encode_arp. rewrite !length_app. simpl. lia. Qed.

Lemma nibbles v hl :
  0 <= v < 16 -> 0 <= hl < 16 ->
  ((16 * v + hl) / 16) mod 16 = v /\ (16 * v + hl) mod 16 = hl.
Proof. intros. split; Z.div_mod_to_equations; lia. Qed.

Lemma decode_encode_ip_app pre h rest :
  ip_hdr_ok h -> decode_ip (pre ++ encode_ip h ++ rest) (length pre) = Ok h.
Proof.
  intros [Hv Hhl Htos Hlen Hid Hoff Httl Hp Hsum Hsrc Hdst].
  destruct h as [v hl tos len id off ttl p sum src dst]; simpl in *.
  unfold decode_ip, load_ip_v, load_ip_hl, load8, load16, load32, encode_ip.
  rewrite !load_prefix.
  eval_buf. rewrite !le_word_1.
  destruct (nibbles v hl Hv Hhl) as [E1 E2]. rewrite E1, E2.
  f_equal. f_equal.
  - apply (le_word_be2 len Hlen).
  - apply (le_word_be2 id Hid).
  - apply (le_word_be2 off Hoff).
  - apply (le_word_le2 sum Hsum).
  - apply (le_word_le4 src Hsrc).
  - apply (le_word_le4 dst Hdst).
Qed.

Lemma decode_encode_arp_app pre h rest :
  arp_hdr_ok h -> decode_arp (pre ++ encode_arp h ++ rest) (length pre) = Ok h.
Proof.
  intros [Hhrd Hpro Hhln Hpln Hop Hsha Hsip Htha Htip].
  destruct h as [hrd pro hln pln op sha sip tha tip]; simpl in *.
  explode sha. explode tha.
  unfold decode_arp, load8, load16, load32, encode_arp.
  rewrite !load_prefix. eval_buf. rewrite !le_word_1.
  f_equal. f_equal.
  - apply (le_word_be2 hrd Hhrd).
  - apply (le_word_be2 pro Hpro).
  - apply (le_word_be2 op Hop).
  - apply (le_word_le4 sip Hsip).
  - apply (le_word_le4 tip Htip).
Qed.

Lemma decode_encode_eth_app h rest :
  eth_hdr_ok h -> decode_eth (encode_eth h ++ rest) = Ok h.
Proof.
  intros [Hd Hs Ht]. destruct h as [d s t]; simpl in *. explode d. explode s.
  unfold decode_eth, load16, encode_eth. eval_buf.
  do 2 f_equal. apply (le_word_be2 t Ht).
Qed.

(** ** Reading and writing members of an encoded header inside a frame *)
Section Members.
Context (pre rest : list Z) (base : nat) (Hbase : length pre = base).

Lemma load_member_ip h off n :
  (off + n <= 20)%nat ->
  load (pre ++ encode_ip h ++ rest) (base + off) n = load (encode_ip h) off n.
Proof.
  intros Hn. rewrite <- Hbase, load_prefix, !load_ok by (rewrite ?length_app, ?length_encode_ip; lia).
  rewrite drop_app_le, take_app_le by (rewrite ?length_drop, ?length_encode_ip; lia). done.
Qed.

Lemma load16_ip_sum h : ip_hdr_ok h -> load16 (pre ++ encode_ip h ++ rest) (base + Ip.ip_sum) = Ok (i_sum h).
Proof.
  intros Hh. unfold load16. rewrite load_member_ip by (unfold_offs; lia).
  eval_buf. f_equal. apply (le_word_le2 _ (iok_sum _ Hh)).
Qed.
Lemma load32_ip_dst h : ip_hdr_ok h -> load32 (pre ++ encode_ip h ++ rest) (base + Ip.ip_dst) = Ok (i_dst h).
Proof.
  intros Hh. unfold load32. rewrite load_member_ip by (unfold_offs; lia).
  eval_buf. f_equal. apply (le_word_le4 _ (iok_dst _ Hh)).
Qed.
Lemma load8_ip_ttl h : load8 (pre ++ encode_ip h ++ rest) (base + Ip.ip_ttl) = Ok (i_ttl h).
Proof.
  unfold load8. rewrite load_member_ip by (unfold_offs; lia). eval_buf. by rewrite le_word_1.
Qed.
End Members.

Definition set_ttl (h : ip_hdr) (t : Z) : ip_hdr :=
  IpHdr (i_v h) (i_hl h) (i_tos h) (i_len h) (i_id h) (i_off h) t (i_p h) (i_sum h)
        (i_src h) (i_dst h).
Definition set_sum (h : ip_hdr) (s : Z) : ip_hdr :=
  IpHdr (i_v h) (i_hl h) (i_tos h) (i_len h) (i_id h) (i_off h) (i_ttl h) (i_p h) s
        (i_src h) (i_dst h).

Lemma store16_ip_sum pre rest base h v :
  length pre = base ->
  store16 (pre ++ encode_ip h ++ rest) (base + Ip.ip_sum) v = Ok (pre ++ encode_ip (set_sum h v) ++ rest).
Proof. intros <-. unfold store16. by rewrite store_prefix. Qed.
Lemma store8_ip_ttl pre rest base h v :
  length pre = base -> byte_ok v ->
  store8 (pre ++ encode_ip h ++ rest) (base + Ip.ip_ttl) v = Ok (pre ++ encode_ip (set_ttl h v) ++ rest).
Proof. intros <- Hv. unfold store8. rewrite store_prefix, byte_at_0_small by done. done. Qed.

Lemma set_sum_ok h v : ip_hdr_ok h -> u16_ok v -> ip_hdr_ok (set_sum h v).
Proof. intros [] ?. by constructor. Qed.
Lemma set_ttl_ok h v : ip_hdr_ok h -> byte_ok v -> ip_hdr_ok (set_ttl h v).
Proof. intros [] ?. by constructor. Qed.

(** Every frame long enough starts with an encoded Ethernet and IP header. *)
Lemma encode_ip_surj l :
  bytes_ok l -> length l = 20%nat -> exists h, l = encode_ip h /\ ip_hdr_ok h.
Proof.
  intros Hb Hl. explode l. repeat (apply Forall_cons in Hb as [? Hb]).
  assert (Hbe : forall a b, byte_ok a -> byte_ok b ->
    [a; b] = be_bytes2 (b + 256 * a) /\ u16_ok (b + 256 * a)).
  { intros a b Ha Hb'. unfold be_bytes2. destruct (byte_at_word2 b a) as [-> ->]; [done..|].
    split; [done|]. unfold byte_ok, u16_ok in *. lia. }
  assert (Hw2 : forall a b, byte_ok a -> byte_ok b -> u16_ok (le_word [a; b])).
  { intros a b Ha Hb'. unfold byte_ok, u16_ok in *. cbn [le_word]. lia. }
  assert (Hw4 : forall a b c d, byte_ok a -> byte_ok b -> byte_ok c -> byte_ok d -> u32_ok (le_word [a; b; c; d])).
  { intros a b c d ????. unfold byte_ok, u32_ok in *. cbn [le_word]. lia. }
  exists (IpHdr (x / 16) (x mod 16) x0 (x2 + 256 * x1) (x4 + 256 * x3) (x6 + 256 * x5) x7 x8
    (le_word [x9; x10]) (le_word [x11; x12; x13; x14]) (le_word [x15; x16; x17; x18])).
  split.
  - unfold encode_ip. cbn [i_v i_hl i_tos i_len i_id i_off i_ttl i_p i_sum i_src i_dst].
    rewrite le_bytes2_word, !le_bytes4_word by by rewrite !Forall_cons.
    destruct (Hbe x1 x2) as [<- _]; [done..|]. destruct (Hbe x3 x4) as [<- _]; [done..|].
    destruct (Hbe x5 x6) as [<- _]; [done..|]. cbn [app]. f_equal. Z.div_mod_to_equations; lia.
  - constructor; cbn [i_v i_hl i_tos i_len i_id i_off i_ttl i_p i_sum i_src i_dst]; auto; try (by apply Hbe); unfold byte_ok in *; Z.div_mod_to_equations; lia.
Qed.

Lemma encode_eth_surj l :
  bytes_ok l -> length l = 14%nat -> exists e, l = encode_eth e /\ eth_hdr_ok e /\ bytes_ok (e_shost e).
Proof.
  intros Hb Hl. explode l. repeat (apply Forall_cons in Hb as [? Hb]).
  exists (EthHdr [x; x0; x1; x2; x3; x4] [x5; x6; x7; x8; x9; x10] (x12 + 256 * x11)).
  unfold encode_eth, be_bytes2. cbn [e_dhost e_shost e_type].
  destruct (byte_at_word2 x12 x11) as [-> ->]; [done..|]. split_and!; [done| |by rewrite !Forall_cons].
  constructor; cbn; [done|done|]. unfold byte_ok, u16_ok in *. lia.
Qed.

Lemma encode_arp_surj l :
  bytes_ok l -> length l = 28%nat -> exists a, l = encode_arp a /\ arp_hdr_ok a /\ bytes_ok (a_sha a).
Proof.
  intros Hb Hl. explode l. repeat (apply Forall_cons in Hb as [? Hb]).
  exists (ArpHdr (x0 + 256 * x) (x2 + 256 * x1) x3 x4 (x6 + 256 * x5) [x7; x8; x9; x10; x11; x12]
    (le_word [x13; x14; x15; x16]) [x17; x18; x19; x20; x21; x22] (le_word [x23; x24; x25; x26])).
  split_and!.
  - unfold encode_arp. cbn [a_hrd a_pro a_hln a_pln a_op a_sha a_sip a_tha a_tip].
    rewrite !le_bytes4_word by by rewrite !Forall_cons. unfold be_bytes2.
    destruct (byte_at_word2 x0 x) as [-> ->]; [done..|]. destruct (byte_at_word2 x2 x1) as [-> ->]; [done..|].
    by destruct (byte_at_word2 x6 x5) as [-> ->].
  - constructor; cbn [a_hrd a_pro a_hln a_pln a_op a_sha a_sip a_tha a_tip]; try done;
      unfold byte_ok, u16_ok, u32_ok in *; cbn [le_word]; lia.
  - cbn [a_sha]. by rewrite !Forall_cons.
Qed.
