(* ===== verification/Utils.v ===== *)
(** * Utils: sr_utils.c

    The Internet checksum, the two packet-classification helpers, and the
    header printers.  [cksum] is translated loop by loop and compared with the
    checksum of RFC 1071 ([rfc1071]), from which it differs in one case: where
    the RFC gives 0, it gives 0xffff ([checksum_be]).  The printers give
    the list of what they print; their interest is which bytes they read. *)

From stdpp Require Import strings.
From S2P Require Import Prelude Memory Protocol.

(** ** cksum *)
Fixpoint cksum_loop (data : list Z) (len sum : Z) : res Z :=
  if 2 <=? len then
    match data with
    | d0 :: d1 :: data' =>
        cksum_loop data' (len - 2) (u32 (sum + Z.lor (Z.shiftl d0 8) d1))
    | _ => Fault OutOfBounds
    end
  else if 0 <? len then
    match data with
    | d0 :: _ => Ok (u32 (sum + Z.shiftl d0 8))
    | [] => Fault OutOfBounds
    end
  else Ok sum.

Fixpoint cksum_fold (fuel : nat) (sum : Z) : res Z :=
  match fuel with
  | O => Fault Diverges
  | S fuel' =>
      if 65535 <? sum
      then cksum_fold fuel' (u32 (Z.shiftr sum 16 + Z.land sum 65535))
      else Ok sum
  end.

(** Three tests of the loop condition always suffice ([cksum_fold_ok]). *)
Definition cksum (data : list Z) (len : Z) : res Z :=
  let! sum := cksum_loop data len 0 in
  let! sum := cksum_fold 3 sum in
  let sum := htons (u32 (Z.lnot sum)) in
  Ok (if sum =? 0 then 65535 else sum).

Definition ethertype (buf : list Z) : res Z :=
  let! t := load16 buf Eth.ether_type in Ok (ntohs t).

(** [ip_protocol(iphdr)]: the buffer starts at the IP header. *)
Definition ip_protocol (buf : list Z) : res Z := load8 buf Ip.ip_p.

(** ** The printers *)
Inductive item :=
| Txt (s : string)    (** literal text *)
| Dec (z : Z)         (** %d *)
| Hex2 (z : Z)        (** %02X *)
| Hex (w : nat) (z : Z)   (** %.<w>x *)
| Str (s : list Z)    (** %s *)
| CTime (t : Z).      (** %s of [ctime] *)

Fixpoint print_addr_eth_loop (addr : list Z) (first : bool) : list item :=
  match addr with
  | [] => [Txt "
"]
  | cur :: addr' =>
      (if first then [] else [Txt ":"]) ++ Hex2 cur :: print_addr_eth_loop addr' false
  end.
Definition print_addr_eth (buf : list Z) (off : nat) : res (list item) :=
  let! addr := load buf off ETHER_ADDR_LEN in Ok (print_addr_eth_loop addr true).

Definition print_addr_ip_int (ip : Z) : list item :=
  [Dec (Z.shiftr ip 24); Txt "."; Dec (Z.shiftr (u32 (Z.shiftl ip 8)) 24); Txt ".";
   Dec (Z.shiftr (u32 (Z.shiftl ip 16)) 24); Txt ".";
   Dec (Z.shiftr (u32 (Z.shiftl ip 24)) 24); Txt "
"].

(** [inet_ntoa], and [inet_ntop] for AF_INET: the bytes of the address, which is
    in network order, in decimal. *)
Definition inet_ntoa (a : Z) : list item :=
  [Dec (byte_at a 0); Txt "."; Dec (byte_at a 1); Txt "."; Dec (byte_at a 2); Txt "."; Dec (byte_at a 3)].
Definition print_addr_ip (address : Z) : list item := inet_ntoa address ++ [Txt "
"].

Definition print_hdr_eth (buf : list Z) : res (list item) :=
  let! d := print_addr_eth buf Eth.ether_dhost in
  let! s := print_addr_eth buf Eth.ether_shost in
  let! t := load16 buf Eth.ether_type in
  Ok ([Txt "ETHERNET header:"; Txt "destination: "] ++ d ++ [Txt "source: "] ++ s
      ++ [Txt "type: "; Dec (ntohs t)]).

Definition print_hdr_ip (buf : list Z) : res (list item) :=
  let! v := load_ip_v buf 0 in
  let! hl := load_ip_hl buf 0 in
  let! tos := load8 buf Ip.ip_tos in
  let! len := load16 buf Ip.ip_len in
  let! id := load16 buf Ip.ip_id in
  let! off := load16 buf Ip.ip_off in
  let frag :=
    if negb (Z.land (ntohs off) IP_DF =? 0) then [Txt "fragment flag: DF"]
    else if negb (Z.land (ntohs off) IP_MF =? 0) then [Txt "fragment flag: MF"]
    else if negb (Z.land (ntohs off) IP_RF =? 0) then [Txt "fragment flag: R"]
    else [] in
  let! ttl := load8 buf Ip.ip_ttl in
  let! p := load8 buf Ip.ip_p in
  let! sum := load16 buf Ip.ip_sum in
  let! src := load32 buf Ip.ip_src in
  let! dst := load32 buf Ip.ip_dst in
  Ok ([Txt "IP header:"; Txt "version: "; Dec v; Txt "header length: "; Dec hl;
       Txt "type of service: "; Dec tos; Txt "length: "; Dec (ntohs len);
       Txt "id: "; Dec (ntohs id)] ++ frag
      ++ [Txt "fragment offset: "; Dec (Z.land (ntohs off) IP_OFFMASK);
          Txt "TTL: "; Dec ttl; Txt "protocol: "; Dec p; Txt "checksum: "; Dec sum;
          Txt "source: "] ++ print_addr_ip_int (ntohl src)
      ++ [Txt "destination: "] ++ print_addr_ip_int (ntohl dst)).

Definition print_hdr_icmp (buf : list Z) : res (list item) :=
  let! t := load8 buf Icmp.icmp_type in
  let! c := load8 buf Icmp.icmp_code in
  let! s := load16 buf Icmp.icmp_sum in
  Ok [Txt "ICMP header:"; Txt "type: "; Dec t; Txt "code: "; Dec c; Txt "checksum: "; Dec s].

Definition print_hdr_arp (buf : list Z) : res (list item) :=
  let! hrd := load16 buf Arp.ar_hrd in
  let! pro := load16 buf Arp.ar_pro in
  let! hln := load8 buf Arp.ar_hln in
  let! pln := load8 buf Arp.ar_pln in
  let! op := load16 buf Arp.ar_op in
  let! sha := print_addr_eth buf Arp.ar_sha in
  let! sip := load32 buf Arp.ar_sip in
  let! tha := print_addr_eth buf Arp.ar_tha in
  let! tip := load32 buf Arp.ar_tip in
  Ok ([Txt "ARP header"; Txt "hardware type: "; Dec (ntohs hrd);
       Txt "protocol type: "; Dec (ntohs pro); Txt "hardware address length: "; Dec hln;
       Txt "protocol address length: "; Dec pln; Txt "opcode: "; Dec (ntohs op);
       Txt "sender hardware address: "] ++ sha
      ++ [Txt "sender ip address: "] ++ print_addr_ip_int (ntohl sip)
      ++ [Txt "target hardware address: "] ++ tha
      ++ [Txt "target ip address: "] ++ print_addr_ip_int (ntohl tip)).

(** [print_hdrs(buf, length)]; [minlength] grows as in the source. *)
Definition print_hdrs (buf : list Z) (length : Z) : res (list item) :=
  let minlength := Z.of_nat Eth.size in
  if length <? minlength then
    Ok [Txt "Failed to print ETHERNET header, insufficient length"]
  else
    let! ethtype := ethertype buf in
    let! eth := print_hdr_eth buf in
    if ethtype =? ethertype_ip then
      let minlength := minlength + Z.of_nat Ip.size in
      if length <? minlength then
        Ok (eth ++ [Txt "Failed to print IP header, insufficient length"])
      else
        let! iphdr := from buf Eth.size in
        let! ip := print_hdr_ip iphdr in
        let! ip_proto := ip_protocol iphdr in
        if ip_proto =? ip_protocol_icmp then
          let minlength := minlength + Z.of_nat Icmp.size in
          if length <? minlength then
            Ok (eth ++ ip ++ [Txt "Failed to print ICMP header, insufficient length"])
          else
            let! icmphdr := from buf (Eth.size + Ip.size) in
            let! icmp := print_hdr_icmp icmphdr in
            Ok (eth ++ ip ++ icmp)
        else Ok (eth ++ ip)
    else if ethtype =? ethertype_arp then
      let minlength := minlength + Z.of_nat Arp.size in
      if length <? minlength then
        Ok (eth ++ [Txt "Failed to print ARP header, insufficient length"])
      else
        let! arphdr := from buf Eth.size in
        let! arp := print_hdr_arp arphdr in
        Ok (eth ++ arp)
    else Ok (eth ++ [Txt "Unrecognized Ethernet Type: "; Dec ethtype]).

(** ** The reference checksum (RFC 1071) *)

(** The sum of the big-endian 16-bit words, an odd last byte padded with 0. *)
Fixpoint word_sum (bs : list Z) : Z :=
  match bs with
  | b0 :: b1 :: bs' => (256 * b0 + b1) + word_sum bs'
  | [b0] => 256 * b0
  | [] => 0
  end.

(** One's-complement addition is addition modulo 65535 on 1..65535, where only
    an empty sum is 0. *)
Definition ones_fold (s : Z) : Z := if s =? 0 then 0 else 1 + (s - 1) mod 65535.
Definition ones_sum (bs : list Z) : Z := ones_fold (word_sum bs).

(** The checksum of RFC 1071: the complement of the sum of the 16-bit words,
    each carry added back at the low end. *)
Definition ones_add (x y : Z) : Z := if x + y <? 65536 then x + y else x + y - 65535.

Fixpoint carry_sum (bs : list Z) : Z :=
  match bs with
  | b0 :: b1 :: bs' => ones_add (256 * b0 + b1) (carry_sum bs')
  | [b0] => 256 * b0
  | [] => 0
  end.

Definition rfc1071 (bs : list Z) : Z := 65535 - carry_sum bs.

(** What [cksum] computes, as a big-endian word: as in RFC 1071, except that
    0xffff stands for 0. *)
Definition checksum_be (bs : list Z) : Z :=
  let c := 65535 - ones_sum bs in if c =? 0 then 65535 else c.

(** The longest input for which the 32-bit accumulator cannot wrap. *)
Definition cksum_max_len : Z := 131074.

(** ** Lemmas: the checksum *)
Lemma bytes_pair_ind (P : list Z -> Prop) :
  P [] -> (forall b, P [b]) -> (forall b0 b1 l, P l -> P (b0 :: b1 :: l)) -> forall l, P l.
Proof.
  intros H0 H1 H2. fix IH 1. intros [|b0 [|b1 l]]; [done|apply H1|apply H2, IH].
Qed.

Lemma word_of_bytes d0 d1 :
  byte_ok d0 -> byte_ok d1 -> Z.lor (Z.shiftl d0 8) d1 = 256 * d0 + d1.
Proof.
  unfold byte_ok. intros H0 H1.
  assert (Hl : Z.land (Z.shiftl d0 8) d1 = 0).
  { apply Z.bits_inj'. intros n Hn. rewrite Z.land_spec, Z.bits_0.
    destruct (Z.lt_ge_cases n 8) as [Hlt|Hge].
    - by rewrite Z.shiftl_spec_low.
    - apply andb_false_intro2. rewrite <- (Z.mod_small d1 (2 ^ 8)) by lia.
      apply Z.mod_pow2_bits_high. lia. }
  pose proof (Z.add_lor_land (Z.shiftl d0 8) d1) as E.
  rewrite Hl, Z.shiftl_mul_pow2 in E by lia. rewrite Z.shiftl_mul_pow2 by lia. lia.
Qed.

Lemma word_sum_range bs :
  bytes_ok bs -> 0 <= 2 * word_sum bs <= 65535 * Z.of_nat (length bs) + 65535.
Proof.
  induction bs as [|b|b0 b1 l IH] using bytes_pair_ind; intros H; simpl word_sum.
  - simpl. lia.
  - apply Forall_cons in H as [H _]. unfold byte_ok in H. simpl. lia.
  - apply Forall_cons in H as [H0 H]. apply Forall_cons in H as [H1 H].
    specialize (IH H). unfold byte_ok in *. rewrite !length_cons. lia.
Qed.

(** Without the slack, for even lengths. *)
Lemma word_sum_even bs :
  bytes_ok bs -> word_sum bs <= 65535 * ((Z.of_nat (length bs) + 1) / 2).
Proof.
  induction bs as [|b|b0 b1 l IH] using bytes_pair_ind; intros H; simpl word_sum.
  - done.
  - apply Forall_cons in H as [H _]. unfold byte_ok in H. change ((Z.of_nat (length [b]) + 1) / 2) with 1. lia.
  - apply Forall_cons in H as [H0 H]. apply Forall_cons in H as [H1 H].
    specialize (IH H). unfold byte_ok in *. rewrite !length_cons.
    replace (Z.of_nat (S (S (length l))) + 1) with (Z.of_nat (length l) + 1 + 1 * 2) by lia.
    rewrite Z.div_add by lia. lia.
Qed.

Lemma word_sum_max bs :
  bytes_ok bs -> Z.of_nat (length bs) <= cksum_max_len -> 0 <= word_sum bs < 4294967296.
Proof.
  intros H HL. pose proof (word_sum_range bs H). pose proof (word_sum_even bs H).
  unfold cksum_max_len in HL.
  assert ((Z.of_nat (length bs) + 1) / 2 <= 65537) by (Z.div_mod_to_equations; lia).
  lia.
Qed.

Lemma cksum_loop_ok data (n : nat) sum :
  bytes_ok data -> (n <= length data)%nat -> 0 <= sum ->
  sum + word_sum (take n data) < 4294967296 ->
  cksum_loop data (Z.of_nat n) sum = Ok (sum + word_sum (take n data)).
Proof.
  revert n sum. induction data as [|b|b0 b1 l IH] using bytes_pair_ind; intros n sum Hb Hn Hs Hmax.
  - assert (n = 0%nat) as -> by (simpl in Hn; lia). simpl. f_equal. lia.
  - apply Forall_cons in Hb as [Hb _]. unfold byte_ok in Hb.
    destruct n as [|[|n]]; [simpl; f_equal; lia| |simpl in Hn; lia].
    cbn -[Z.shiftl u32]. cbn [take word_sum] in Hmax.
    rewrite Z.shiftl_mul_pow2 by lia. f_equal. unfold u32.
    change (2 ^ 8) with 256. rewrite Z.mod_small; lia.
  - apply Forall_cons in Hb as [H0 Hb]. apply Forall_cons in Hb as [H1 Hb].
    destruct n as [|[|n]].
    + simpl. f_equal. lia.
    + unfold byte_ok in *. cbn -[Z.shiftl u32]. cbn [take word_sum] in Hmax.
      rewrite Z.shiftl_mul_pow2 by lia. f_equal. unfold u32.
      change (2 ^ 8) with 256. rewrite Z.mod_small; lia.
    + cbn [take word_sum] in Hmax |- *. cbn [cksum_loop].
      rewrite (proj2 (Z.leb_le 2 _)) by lia.
      replace (Z.of_nat (S (S n)) - 2) with (Z.of_nat n) by lia.
      rewrite word_of_bytes by done.
      pose proof (word_sum_range (take n l) (Forall_take _ _ _ Hb)).
      unfold byte_ok in *. simpl in Hn.
      unfold u32. rewrite Z.mod_small by lia.
      rewrite IH; [f_equal; lia|done|lia|lia|lia].
Qed.

Lemma ones_fold_range s : 0 <= s -> 0 <= ones_fold s <= 65535.
Proof.
  unfold ones_fold. case_match; [lia|]. pose proof (Z.mod_pos_bound (s - 1) 65535). lia.
Qed.

Lemma ones_fold_small s : 0 <= s <= 65535 -> ones_fold s = s.
Proof.
  unfold ones_fold. intros H. destruct (Z.eqb_spec s 0) as [->|]; [done|].
  rewrite Z.mod_small; lia.
Qed.

(** One turn of the folding loop keeps the one's-complement value. *)
Lemma ones_fold_step s :
  65535 < s -> ones_fold (s / 65536 + s mod 65536) = ones_fold s.
Proof.
  intros H. unfold ones_fold.
  rewrite (proj2 (Z.eqb_neq s 0)), (proj2 (Z.eqb_neq (_ + _) 0))
    by (Z.div_mod_to_equations; lia).
  f_equal.
  replace (s - 1) with (s / 65536 + s mod 65536 - 1 + (s / 65536) * 65535)
    by (Z.div_mod_to_equations; lia).
  by rewrite Z_mod_plus_full.
Qed.

(** The loop ends within three tests whatever the 32-bit sum. *)
Lemma cksum_fold_ok s : 0 <= s < 4294967296 -> cksum_fold 3 s = Ok (ones_fold s).
Proof.
  assert (Hstep : forall n s, 0 <= s < 4294967296 -> 65535 < s ->
    cksum_fold (S n) s = cksum_fold n (s / 65536 + s mod 65536)).
  { intros n s' Hs' H. cbn [cksum_fold]. rewrite (proj2 (Z.ltb_lt _ _) H).
    rewrite Z.shiftr_div_pow2 by lia. change 65535 with (Z.ones 16).
    rewrite Z.land_ones by lia. change (2 ^ 16) with 65536. unfold u32.
    rewrite Z.mod_small; [done|]. Z.div_mod_to_equations; lia. }
  assert (Hend : forall n s, 0 <= s <= 65535 -> cksum_fold (S n) s = Ok (ones_fold s)).
  { intros n s' H. cbn [cksum_fold]. rewrite (proj2 (Z.ltb_ge _ _)) by lia.
    by rewrite ones_fold_small. }
  intros Hs. destruct (Z.le_gt_cases s 65535); [apply Hend; lia|].
  rewrite Hstep, <- ones_fold_step by lia.
  set (s1 := s / 65536 + s mod 65536).
  assert (0 <= s1 <= 131070) by (unfold s1; Z.div_mod_to_equations; lia).
  destruct (Z.le_gt_cases s1 65535); [apply Hend; lia|].
  rewrite Hstep, <- ones_fold_step by lia.
  apply Hend. Z.div_mod_to_equations; lia.
Qed.

Lemma htons_lnot s : 0 <= s <= 65535 -> htons (u32 (Z.lnot s)) = htons (65535 - s).
Proof.
  intros H. unfold htons, byte_at, u32, Z.lnot. rewrite Z.pow_0_r, Z.pow_1_r, !Z.div_1_r.
  replace (Z.pred (- s) mod 4294967296) with (4294967295 - s); [Z.div_mod_to_equations; lia|].
  Z.div_mod_to_equations; lia.
Qed.

Lemma htons_0_iff z : u16_ok z -> (htons z = 0 <-> z = 0).
Proof.
  unfold u16_ok. intros H. split; [|by intros ->].
  intros E. rewrite <- (Z.mod_small z 65536) by lia.
  change (z mod 65536) with (u16 z). by rewrite <- htons_involutive, E.
Qed.

Lemma ones_sum_range bs : bytes_ok bs -> 0 <= ones_sum bs <= 65535.
Proof.
  intros H. apply ones_fold_range. pose proof (word_sum_range bs H). lia.
Qed.

Lemma checksum_be_range bs : bytes_ok bs -> 1 <= checksum_be bs <= 65535.
Proof.
  intros H. pose proof (ones_sum_range bs H). unfold checksum_be.
  destruct (Z.eqb_spec (65535 - ones_sum bs) 0); lia.
Qed.

(** Adding the carries back as they arise is adding modulo 65535. *)
Lemma ones_add_fold w s :
  0 <= w <= 65535 -> 0 <= s -> ones_add w (ones_fold s) = ones_fold (w + s).
Proof.
  intros Hw Hs. unfold ones_add, ones_fold.
  repeat case_match; Z.div_mod_to_equations; lia.
Qed.

Lemma carry_sum_ok bs : bytes_ok bs -> carry_sum bs = ones_sum bs.
Proof.
  unfold ones_sum. induction bs as [|b|b0 b1 l IH] using bytes_pair_ind; intros Hb; [done| |].
  - apply Forall_cons in Hb as [H0 _]. unfold byte_ok in H0. cbn. unfold ones_fold. rewrite ?Z.add_0_r.
    destruct (Z.eqb_spec (256 * b) 0); [lia|]. rewrite Z.mod_small; lia.
  - apply Forall_cons in Hb as [H0 Hb]. apply Forall_cons in Hb as [H1 Hb].
    unfold byte_ok in H0, H1. cbn [carry_sum word_sum]. rewrite IH by done.
    apply ones_add_fold; [lia|]. pose proof (word_sum_range l Hb). lia.
Qed.

Lemma checksum_be_rfc1071 bs :
  bytes_ok bs -> checksum_be bs = if rfc1071 bs =? 0 then 65535 else rfc1071 bs.
Proof. intros H. unfold checksum_be, rfc1071. by rewrite carry_sum_ok. Qed.

(** [cksum] computes that checksum of its first [n] bytes. *)
Lemma cksum_ok data (n : nat) :
  bytes_ok data -> (n <= length data)%nat -> Z.of_nat n <= cksum_max_len ->
  cksum data (Z.of_nat n) = Ok (htons (checksum_be (take n data))).
Proof.
  intros Hb Hn Hmax. unfold cksum.
  assert (Ht : bytes_ok (take n data)) by by apply Forall_take.
  destruct (word_sum_max (take n data) Ht) as [Hlo Hhi]; [rewrite length_take_le; lia|].
  rewrite (bind_step _ _ _ (cksum_loop_ok data n 0 Hb Hn ltac:(lia) ltac:(lia))), Z.add_0_l.
  rewrite (bind_step _ _ _ (cksum_fold_ok _ (conj Hlo Hhi))). f_equal.
  fold (ones_sum (take n data)). pose proof (ones_sum_range _ Ht) as Hr.
  rewrite htons_lnot by done. unfold checksum_be.
  destruct (Z.eqb_spec (65535 - ones_sum (take n data)) 0) as [->|Hne]; [done|].
  rewrite (proj2 (Z.eqb_neq _ 0)); [done|].
  intros E. rewrite htons_0_iff in E by (unfold u16_ok; lia). lia.
Qed.

Lemma word_sum_app l1 l2 :
  Nat.Even (length l1) -> word_sum (l1 ++ l2) = word_sum l1 + word_sum l2.
Proof.
  induction l1 as [|b|b0 b1 l IH] using bytes_pair_ind; intros [k Hk]; simpl in *.
  - done.
  - lia.
  - rewrite IH; [lia|]. exists (k - 1)%nat. lia.
Qed.

Lemma word_sum_be_bytes2 z : u16_ok z -> word_sum (be_bytes2 z) = z.
Proof.
  unfold u16_ok, be_bytes2, byte_at. intros H. cbn [word_sum].
  rewrite Z.pow_0_r, Z.pow_1_r. Z.div_mod_to_equations; lia.
Qed.

Lemma word_sum_hole pre v post :
  Nat.Even (length pre) -> u16_ok v ->
  word_sum (pre ++ be_bytes2 v ++ post) = word_sum pre + v + word_sum post.
Proof.
  intros He Hv. rewrite word_sum_app by done.
  rewrite (word_sum_app (be_bytes2 v)) by (by exists 1%nat).
  rewrite word_sum_be_bytes2 by done. lia.
Qed.

(** Adding the complement of a sum gives all ones. *)
Lemma ones_fold_complement s :
  0 <= s -> ones_fold ((let c := 65535 - ones_fold s in if c =? 0 then 65535 else c) + s) = 65535.
Proof.
  intros H. cbv zeta. unfold ones_fold.
  destruct (Z.eqb_spec s 0) as [->|Hs0]; [done|].
  pose proof (Z.mod_pos_bound (s - 1) 65535 ltac:(lia)) as Hm.
  destruct (Z.eqb_spec (65535 - (1 + (s - 1) mod 65535)) 0) as [E|E];
    rewrite (proj2 (Z.eqb_neq _ 0)) by lia.
  - replace (65535 + s - 1) with (s - 1 + 1 * 65535) by lia.
    rewrite Z_mod_plus_full. lia.
  - replace (65535 - (1 + (s - 1) mod 65535) + s - 1)
      with (65534 + (s - 1) / 65535 * 65535) by (Z.div_mod_to_equations; lia).
    by rewrite Z_mod_plus_full.
Qed.

(** Filling a zeroed, aligned checksum field with the checksum makes the
    one's-complement sum of the whole all ones: the receiver's test. *)
Lemma checksum_verifies pre post :
  Nat.Even (length pre) -> bytes_ok pre -> bytes_ok post ->
  ones_sum (pre ++ be_bytes2 (checksum_be (pre ++ [0; 0] ++ post)) ++ post) = 65535.
Proof.
  intros He H1 H2. change [0; 0] with (be_bytes2 0).
  assert (H0 : bytes_ok (pre ++ be_bytes2 0 ++ post)).
  { rewrite !bytes_ok_app. auto with router. }
  pose proof (checksum_be_range _ H0) as Hc.
  unfold ones_sum. rewrite word_sum_hole by (done || unfold u16_ok; lia).
  pose proof (word_sum_range _ H0) as Hw.
  pose proof (word_sum_hole pre 0 post He ltac:(unfold u16_ok; lia)) as Es.
  replace (word_sum pre + checksum_be (pre ++ be_bytes2 0 ++ post) + word_sum post)
    with (checksum_be (pre ++ be_bytes2 0 ++ post) + word_sum (pre ++ be_bytes2 0 ++ post)) by lia.
  apply (ones_fold_complement (word_sum (pre ++ be_bytes2 0 ++ post))). lia.
Qed.

(** The unique value 1..65535 that completes a sum to all ones. *)
Lemma ones_fold_complete s v :
  0 <= s -> 0 <= v <= 65535 ->
  (v = (let c := 65535 - ones_fold s in if c =? 0 then 65535 else c)
   <-> ones_fold (v + s) = 65535 /\ v <> 0).
Proof.
  intros Hs Hv. split.
  - intros ->. split; [by apply ones_fold_complement|].
    cbv zeta. pose proof (ones_fold_range s Hs). case_match eqn:E; lia.
  - intros [E Hv0]. revert E. cbv zeta. unfold ones_fold.
    rewrite (proj2 (Z.eqb_neq (v + s) 0)) by lia. intros E.
    destruct (Z.eqb_spec s 0) as [->|Hs0].
    + rewrite Z.mod_small in E by lia. simpl. lia.
    + case_match eqn:Ec; Z.div_mod_to_equations; lia.
Qed.

(** ** Lemmas: the printers *)
Ltac print_step :=
  match goal with
  | |- is_Ok (bind (load8 _ _) _) => unfold load8 at 1
  | |- is_Ok (bind (load16 _ _) _) => unfold load16 at 1
  | |- is_Ok (bind (load32 _ _) _) => unfold load32 at 1
  | |- is_Ok (bind (load_ip_v _ _) _) => unfold load_ip_v at 1
  | |- is_Ok (bind (load_ip_hl _ _) _) => unfold load_ip_hl at 1
  | |- is_Ok (bind (print_addr_eth _ _) _) => unfold print_addr_eth at 1
  end; unfold load8; rewrite !load_ok by offs; cbn [bind].

Lemma print_hdr_eth_ok buf : (Eth.size <= length buf)%nat -> is_Ok (print_hdr_eth buf).
Proof. intros H. unfold print_hdr_eth. repeat print_step. by eexists. Qed.
Lemma print_hdr_ip_ok buf : (Ip.size <= length buf)%nat -> is_Ok (print_hdr_ip buf).
Proof. intros H. unfold print_hdr_ip. repeat print_step. by eexists. Qed.
Lemma print_hdr_icmp_ok buf : (Icmp.size <= length buf)%nat -> is_Ok (print_hdr_icmp buf).
Proof. intros H. unfold print_hdr_icmp. repeat print_step. by eexists. Qed.
Lemma print_hdr_arp_ok buf : (Arp.size <= length buf)%nat -> is_Ok (print_hdr_arp buf).
Proof. intros H. unfold print_hdr_arp. repeat print_step. by eexists. Qed.

Lemma from_ok buf off :
  (off <= length buf)%nat -> from buf off = Ok (drop off buf).
Proof. intros H. unfold from. by rewrite (proj2 (Nat.leb_le _ _) H). Qed.

Lemma is_Ok_bind {A B} (m : res A) (k : A -> res B) :
  is_Ok m -> (forall a, m = Ok a -> is_Ok (k a)) -> is_Ok (bind m k).
Proof. intros [a E] H. rewrite E. simpl. by apply H. Qed.

Lemma ethertype_ok buf : (Eth.size <= length buf)%nat -> is_Ok (ethertype buf).
Proof. intros H. unfold ethertype, load16. rewrite load_ok by offs. by eexists. Qed.
Lemma ip_protocol_ok buf : (Ip.size <= length buf)%nat -> is_Ok (ip_protocol buf).
Proof. intros H. unfold ip_protocol, load8. rewrite load_ok by offs. by eexists. Qed.

(** The printer never reads past [length]. *)
Lemma print_hdrs_ok buf len : len <= Z.of_nat (length buf) -> is_Ok (print_hdrs buf len).
Proof.
  intros HL. unfold print_hdrs. cbv zeta.
  destruct (Z.ltb_spec len (Z.of_nat Eth.size)) as [|H1]; [by eexists|].
  apply is_Ok_bind; [apply ethertype_ok; lia|]. intros t _.
  apply is_Ok_bind; [apply print_hdr_eth_ok; lia|]. intros eth _.
  assert (Hd : forall n, Z.of_nat Eth.size + Z.of_nat n <= len -> (n <= length (drop Eth.size buf))%nat).
  { intros n Hn. rewrite length_drop. lia. }
  destruct (t =? ethertype_ip).
  - destruct (Z.ltb_spec len (Z.of_nat Eth.size + Z.of_nat Ip.size)) as [|H2]; [by eexists|].
    rewrite from_ok by lia. cbn [bind].
    apply is_Ok_bind; [by apply print_hdr_ip_ok, Hd|]. intros ip _.
    apply is_Ok_bind; [by apply ip_protocol_ok, Hd|]. intros p _.
    destruct (p =? ip_protocol_icmp); [|by eexists].
    destruct (Z.ltb_spec len (Z.of_nat Eth.size + Z.of_nat Ip.size + Z.of_nat Icmp.size)) as [|H3];
      [by eexists|].
    rewrite from_ok by lia. cbn [bind].
    apply is_Ok_bind; [apply print_hdr_icmp_ok; rewrite length_drop; lia|]. intros; by eexists.
  - destruct (t =? ethertype_arp); [|by eexists].
    destruct (Z.ltb_spec len (Z.of_nat Eth.size + Z.of_nat Arp.size)) as [|H2]; [by eexists|].
    rewrite from_ok by lia. cbn [bind].
    apply is_Ok_bind; [by apply print_hdr_arp_ok, Hd|]. intros; by eexists.
Qed.

(** [cksum] looks at no byte past its length. *)
Lemma cksum_loop_prefix a b sum :
  cksum_loop (a ++ b) (Z.of_nat (length a)) sum = cksum_loop a (Z.of_nat (length a)) sum.
Proof.
  revert sum. induction a as [|x|x0 x1 l IH] using bytes_pair_ind; intros sum.
  - by destruct b.
  - by destruct b.
  - cbn [app cksum_loop]. rewrite !length_cons, (proj2 (Z.leb_le 2 _)) by lia.
    replace (Z.of_nat (S (S (length l))) - 2) with (Z.of_nat (length l)) by lia. apply IH.
Qed.

Lemma cksum_prefix a b n :
  bytes_ok a -> length a = n -> Z.of_nat n <= cksum_max_len ->
  cksum (a ++ b) (Z.of_nat n) = Ok (htons (checksum_be a)).
Proof.
  intros Ha <- Hm. unfold cksum. rewrite cksum_loop_prefix.
  pose proof (cksum_ok a (length a) Ha ltac:(lia) Hm) as E. by rewrite firstn_all in E.
Qed.

Arguments cksum : simpl never.
Arguments checksum_be : simpl never.
