(* ===== verification/Iface.v ===== *)
(** * Iface: the interface list of sr_if.c

    The list hanging off [sr->if_list] is only ever appended to and its nodes
    are owned by it, so it is a Rocq list; the two setters change its last
    node.  A name is the 32-byte array of the structure.  [malloc] does not
    clear a new node: the members [sr_add_interface] does not assign keep the
    values of [uninit]. *)

From Stdlib Require Import String.
From S2P Require Import Prelude Memory Protocol Utils.

Record sr_if := SrIf {
  if_name : list Z;    (** char name[sr_IFACE_NAMELEN] *)
  if_addr : list Z;    (** unsigned char addr[ETHER_ADDR_LEN] *)
  if_ip : Z;           (** network byte order *)
  if_speed : Z }.

(** The walk of [sr_get_interface]: the first node with that name. *)
Fixpoint sr_get_interface (if_walker : list sr_if) (name : list Z) : res (option sr_if) :=
  match if_walker with
  | [] => Ok None
  | i :: if_next =>
      let! d := strncmp sr_IFACE_NAMELEN (if_name i) name in
      if d =? 0 then Ok (Some i) else sr_get_interface if_next name
  end.

(** [sr_get_interface(sr, name)->...]: the same, dereferenced at once. *)
Definition get_interface_deref (ifs : list sr_if) (name : list Z) : res sr_if :=
  let! o := sr_get_interface ifs name in of_option NullDeref o.

(** A new node at the end of the list (the walk to the last node included). *)
Definition sr_add_interface (uninit : sr_if) (ifs : list sr_if) (name : list Z) :
    res (list sr_if) :=
  let! nm := strncpy sr_IFACE_NAMELEN name in
  let node := SrIf nm (if_addr uninit) (if_ip uninit) (if_speed uninit) in
  match ifs with
  | [] => Ok [node]
  | _ => Ok (ifs ++ [node])
  end.

(** The walk to the last node; an empty list trips the [assert]. *)
Fixpoint update_last (f : sr_if -> sr_if) (ifs : list sr_if) : res (list sr_if) :=
  match ifs with
  | [] => Fault AssertFailure
  | [i] => Ok [f i]
  | i :: ifs' => let! r := update_last f ifs' in Ok (i :: r)
  end.

Definition sr_set_ether_addr (ifs : list sr_if) (addr : list Z) : res (list sr_if) :=
  match ifs with
  | [] => Fault AssertFailure
  | _ =>
      let! a := load addr 0 6 in
      update_last (fun i => SrIf (if_name i) a (if_ip i) (if_speed i)) ifs
  end.

Definition sr_set_ether_ip (ifs : list sr_if) (ip_nbo : Z) : res (list sr_if) :=
  update_last (fun i => SrIf (if_name i) (if_addr i) ip_nbo (if_speed i)) ifs.

(** ** Printing *)

(** [DebugMAC]: five bytes with a colon, and the sixth. *)
Definition DebugMAC (x : list Z) : res (list item) :=
  let! b := load x 0 6 in
  Ok (mjoin ((fun c => [Hex 2 c; Txt ":"]) <$> take 5 b) ++ (Hex 2 <$> drop 5 b)).

(** The name is printed up to its NUL. *)
Definition sr_print_if (iface : sr_if) : res (list item) :=
  let! name := cstring (if_name iface) in
  let! mac := DebugMAC (if_addr iface) in
  Ok ([Str name; Txt "	HWaddr"] ++ mac ++ [Txt "
"; Txt "	inet addr "] ++ inet_ntoa (if_ip iface) ++ [Txt "
"]).

Fixpoint print_each {A} (print : A -> res (list item)) (l : list A) : res (list item) :=
  match l with
  | [] => Ok []
  | x :: l' =>
      let! a := print x in
      let! b := print_each print l' in
      Ok (a ++ b)
  end.
Definition sr_print_if_list (if_list : list sr_if) : res (list item) :=
  match if_list with
  | [] => Ok [Txt " Interface list empty 
"]
  | _ => print_each sr_print_if if_list
  end.

(** ** Specification *)

(** The name as a string. *)
Definition name_of (n : list Z) : res (list Z) := cstr sr_IFACE_NAMELEN n.

(** The interface a name denotes: the first one whose name is that string. *)
Definition names (i : sr_if) (s : list Z) : bool :=
  match name_of (if_name i) with Ok s' => bool_decide (s' = s) | Fault _ => false end.
Definition find_if (ifs : list sr_if) (s : list Z) : option sr_if :=
  list_find (fun i => names i s = true) ifs ≫= fun p => Some p.2.

Record sr_if_ok (i : sr_if) : Prop := {
  ifok_name : length (if_name i) = 32%nat;
  ifok_addr : length (if_addr i) = 6%nat;
  ifok_bytes : bytes_ok (if_addr i);
  ifok_ip : u32_ok (if_ip i) }.
Abbreviation ifs_ok := (Forall sr_if_ok).

(** ** Lemmas *)
Lemma print_each_ok {A} (print : A -> res (list item)) l :
  Forall (fun x => is_Ok (print x)) l -> is_Ok (print_each print l).
Proof.
  induction 1 as [|x l [a E] _ [b IH]]; [by eexists|]. cbn [print_each]. rewrite E, IH. by eexists.
Qed.

Lemma sr_print_if_ok i :
  is_Ok (cstring (if_name i)) -> length (if_addr i) = 6%nat -> is_Ok (sr_print_if i).
Proof.
  intros [s E] Ha. unfold sr_print_if, DebugMAC. rewrite E. cbn [bind].
  rewrite load_ok by lia. by eexists.
Qed.

Lemma sr_print_if_list_ok ifs :
  Forall (fun i => is_Ok (sr_print_if i)) ifs -> is_Ok (sr_print_if_list ifs).
Proof. intros H. destruct ifs; [by eexists|]. by apply print_each_ok. Qed.

Lemma sr_get_interface_spec ifs name s :
  ifs_ok ifs -> name_of name = Ok s -> sr_get_interface ifs name = Ok (find_if ifs s).
Proof.
  intros Hok Hs. unfold find_if.
  induction Hok as [|i ifs Hi _ IH]; [done|]. simpl.
  destruct (cstr_ok sr_IFACE_NAMELEN (if_name i)) as [si Hsi].
  { by rewrite (ifok_name _ Hi). }
  destruct (strncmp_cstr _ _ _ _ _ Hsi Hs) as (d & -> & Hd). cbn [bind].
  assert (names i s = bool_decide (si = s)) as Hn by (unfold names, name_of; by rewrite Hsi).
  destruct (Z.eqb_spec d 0) as [E|E].
  - rewrite decide_True; [done|]. rewrite Hn. apply bool_decide_eq_true. by apply Hd.
  - rewrite decide_False.
    2:{ rewrite Hn, bool_decide_eq_true. intros Hc. by apply E, Hd. }
    rewrite IH. by destruct (list_find _ ifs) as [[]|].
Qed.

Lemma find_if_In ifs s i : find_if ifs s = Some i -> i ∈ ifs.
Proof.
  unfold find_if. destruct (list_find _ ifs) as [[k j]|] eqn:E; [|done].
  simpl. intros [= <-]. apply list_find_Some in E as [E _].
  by eapply list_elem_of_lookup_2.
Qed.

Lemma find_if_ok ifs s i : ifs_ok ifs -> find_if ifs s = Some i -> sr_if_ok i.
Proof. intros H E. apply find_if_In in E. by eapply Forall_forall in H. Qed.

Lemma find_if_cons i ifs s :
  find_if (i :: ifs) s = if names i s then Some i else find_if ifs s.
Proof.
  unfold find_if. cbn [list_find]. case_decide as E; [by rewrite E|].
  destruct (names i s); [done|]. by destruct (list_find _ ifs) as [[]|].
Qed.
Lemma find_if_app ifs i s :
  find_if (ifs ++ [i]) s =
  match find_if ifs s with Some j => Some j | None => if names i s then Some i else None end.
Proof.
  induction ifs as [|j ifs IH]; cbn [app]; [by rewrite find_if_cons|].
  rewrite !find_if_cons. by destruct (names j s).
Qed.

Lemma update_last_app f ifs i : update_last f (ifs ++ [i]) = Ok (ifs ++ [f i]).
Proof.
  induction ifs as [|j ifs IH]; [done|].
  rewrite <- app_comm_cons. destruct (ifs ++ [i]) as [|k r] eqn:E; [by destruct ifs|].
  change (update_last f (j :: k :: r)) with (let! r' := update_last f (k :: r) in Ok (j :: r')).
  by rewrite IH.
Qed.

Lemma get_interface_deref_ok ifs name s i :
  ifs_ok ifs -> name_of name = Ok s -> find_if ifs s = Some i ->
  get_interface_deref ifs name = Ok i.
Proof.
  intros H1 H2 H3. unfold get_interface_deref.
  rewrite (sr_get_interface_spec _ _ _ H1 H2). simpl. by rewrite H3.
Qed.
