(* ===== verification/Rt.v ===== *)
(** * Rt: the routing table of sr_rt.c, and its check in sr_main.c

    The table is an append-only list.  [sr_load_rt] is translated down to the
    line buffer: [fgets] with [BUFSIZ], [sscanf("%s %s %s %s")] into four
    32-byte arrays that keep their old contents when a line has fewer words,
    and the three address conversions.  [inet_aton] belongs to the C library of
    the host, not to the language, and is a parameter.

    Addresses and masks are what C holds in [in_addr.s_addr]: the network-order
    bytes read as a little-endian integer. *)

From Stdlib Require Import String.
From S2P Require Import Prelude Memory Protocol Utils Iface.

Record sr_rt := SrRt {
  rt_dest : Z; rt_gw : Z; rt_mask : Z;    (** struct in_addr *)
  rt_interface : list Z }.                (** char interface[sr_IFACE_NAMELEN] *)

Definition sr_add_rt_entry (routing_table : list sr_rt) (dest gw mask : Z) (if_name : list Z) :
    res (list sr_rt) :=
  let! nm := strncpy sr_IFACE_NAMELEN if_name in
  match routing_table with
  | [] => Ok [SrRt dest gw mask nm]
  | _ => Ok (routing_table ++ [SrRt dest gw mask nm])
  end.

(** The loop over the table, with its two accumulators. *)
Fixpoint lpm_loop (rt : list sr_rt) (dest_ip : Z)
    (longest_match : option sr_rt) (longest_match_len : Z) : option sr_rt :=
  match rt with
  | [] => longest_match
  | r :: next =>
      let curr_ip := rt_dest r in
      let curr_mask := rt_mask r in
      if (Z.land dest_ip curr_mask =? Z.land curr_ip curr_mask)
         && (longest_match_len <? curr_mask)
      then lpm_loop next dest_ip (Some r) curr_mask
      else lpm_loop next dest_ip longest_match longest_match_len
  end.
Definition sr_longest_prefix_match (routing_table : list sr_rt) (dest_ip : Z) : option sr_rt :=
  lpm_loop routing_table dest_ip None 0.

(** ** Printing *)
Definition sr_print_routing_entry (entry : sr_rt) : res (list item) :=
  let! name := cstring (rt_interface entry) in
  Ok (inet_ntoa (rt_dest entry) ++ [Txt "		"] ++ inet_ntoa (rt_gw entry) ++ [Txt "	"]
      ++ inet_ntoa (rt_mask entry) ++ [Txt "	"; Str name; Txt "
"]).
Definition sr_print_routing_table (routing_table : list sr_rt) : res (list item) :=
  match routing_table with
  | [] => Ok [Txt " *warning* Routing table empty 
"]
  | _ =>
      let! rows := print_each sr_print_routing_entry routing_table in
      Ok (Txt "Destination	Gateway		Mask	Iface
" :: rows)
  end.

(** ** sr_load_rt *)
Definition BUFSIZ : nat := Z.to_nat 8192.

(** [fgets]: at most [n] characters, up to and including a newline. *)
Fixpoint fgets (n : nat) (file : list Z) : list Z * list Z :=
  match n, file with
  | S n', c :: file' =>
      if c =? 10 then ([c], file')
      else let '(l, r) := fgets n' file' in (c :: l, r)
  | _, _ => ([], file)
  end.

Definition isspace (c : Z) : bool := (c =? 32) || ((9 <=? c) && (c <=? 13)).
Fixpoint skip_space (s : list Z) : list Z :=
  match s with
  | c :: s' => if isspace c then skip_space s' else s
  | [] => []
  end.
Fixpoint span_word (s : list Z) : list Z * list Z :=
  match s with
  | c :: s' => if isspace c then ([], s) else let '(w, r) := span_word s' in (c :: w, r)
  | [] => ([], [])
  end.

(** One [%s] per buffer: skip white space, store the word and a NUL; a
    conversion that finds no word leaves this buffer and the following ones
    alone.  A word too long for its array overflows it. *)
Fixpoint sscanf_words (line : list Z) (bufs : list (list Z)) : res (list (list Z)) :=
  match bufs with
  | [] => Ok []
  | b :: bs =>
      match skip_space line with
      | [] => Ok (b :: bs)
      | rest =>
          let '(w, rest') := span_word rest in
          let! b' := store b 0 (w ++ [0]) in
          let! bs' := sscanf_words rest' bs in
          Ok (b' :: bs')
      end
  end.

Section LoadRt.
(** [inet_aton s]: the address, or [None] when it returns 0. *)
Context (inet_aton : list Z -> option Z).

(** The [while (fgets ...)] loop: the rest of the file, the four buffers
    [dest; gw; mask; iface], the flag and the table.  The result is the return
    value and the table left behind. *)
Fixpoint load_rt_loop (fuel : nat) (fp : list Z) (bufs : list (list Z))
    (clear_routing_table : bool) (routing_table : list sr_rt) : res (Z * list sr_rt) :=
  match fuel with
  | O => Fault Diverges
  | S fuel' =>
      match fp with
      | [] => Ok (0, routing_table)
      | _ =>
          let '(raw, fp') := fgets (BUFSIZ - 1) fp in
          let! line := cstring (raw ++ [0]) in
          let! bufs' := sscanf_words line bufs in
          match bufs' with
          | [dest; gw; mask; iface] =>
              let! dest_s := cstring dest in
              match inet_aton dest_s with
              | None => Ok (-1, routing_table)
              | Some dest_addr =>
                  let! gw_s := cstring gw in
                  match inet_aton gw_s with
                  | None => Ok (-1, routing_table)
                  | Some gw_addr =>
                      let! mask_s := cstring mask in
                      match inet_aton mask_s with
                      | None => Ok (-1, routing_table)
                      | Some mask_addr =>
                          let rt0 := if clear_routing_table then routing_table else [] in
                          let! rt' := sr_add_rt_entry rt0 dest_addr gw_addr mask_addr iface in
                          load_rt_loop fuel' fp' bufs' true rt'
                      end
                  end
              end
          | _ => Fault OutOfBounds
          end
      end
  end.

(** [file] is [None] when [access] says the file cannot be read; [uninit] is
    what the four arrays hold before the first line. *)
Definition sr_load_rt (uninit : list (list Z)) (file : option (list Z))
    (routing_table : list sr_rt) : res (Z * list sr_rt) :=
  match file with
  | None => Ok (-1, routing_table)
  | Some fp => load_rt_loop (S (length fp)) fp uninit false routing_table
  end.
End LoadRt.

(** ** sr_verify_routing_table (sr_main.c) *)

(** The inner walk: is there an interface of that name? *)
Fixpoint if_exists (if_walker : list sr_if) (interface : list Z) : res bool :=
  match if_walker with
  | [] => Ok false
  | i :: if_next =>
      let! d := strncmp sr_IFACE_NAMELEN (if_name i) interface in
      if d =? 0 then Ok true else if_exists if_next interface
  end.
Fixpoint verify_loop (rt_walker : list sr_rt) (ifs : list sr_if) (ret : Z) : res Z :=
  match rt_walker with
  | [] => Ok ret
  | r :: next =>
      let! found := if_exists ifs (rt_interface r) in
      verify_loop next ifs (if found then ret else ret + 1)
  end.
Definition sr_verify_routing_table (ifs : list sr_if) (routing_table : list sr_rt) : res Z :=
  match ifs, routing_table with
  | [], _ | _, [] => Ok 999
  | _, _ => verify_loop routing_table ifs 0
  end.

(** ** Specification of the longest prefix match *)

(** The mask of a prefix length, as [s_addr] holds it. *)
Definition mask_of_len (p : Z) : Z := htonl (4294967296 - 2 ^ (32 - p)).
Definition route_prefix (r : sr_rt) (p : Z) : Prop := 0 <= p <= 32 /\ rt_mask r = mask_of_len p.
(** The destination has the first [p] bits of the route's network. *)
Definition in_prefix (dest : Z) (r : sr_rt) (p : Z) : Prop :=
  ntohl dest / 2 ^ (32 - p) = ntohl (rt_dest r) / 2 ^ (32 - p).
Definition route_ok (r : sr_rt) : Prop := u32_ok (rt_dest r) /\ exists p, route_prefix r p.

(** ** Specification of the table file *)

(** A row of the file: four words, or an empty line. *)
Record row := Row { w_dest : list Z; w_gw : list Z; w_mask : list Z; w_iface : list Z }.
Definition row_words (w : row) : list (list Z) := [w_dest w; w_gw w; w_mask w; w_iface w].
(** a word fits its 32-byte array and has no NUL or white space *)
Definition word_ok (w : list Z) : Prop :=
  w <> [] /\ (length w < 32)%nat /\ Forall (fun c => c <> 0 /\ isspace c = false) w.
Definition row_ok (w : row) : Prop := Forall word_ok (row_words w).

Definition render_row (w : option row) : list Z :=
  match w with
  | Some w => w_dest w ++ [32] ++ w_gw w ++ [32] ++ w_mask w ++ [32] ++ w_iface w ++ [10]
  | None => [10]
  end.
Fixpoint render (rows : list (option row)) : list Z :=
  match rows with
  | [] => []
  | w :: rows' => render_row w ++ render rows'
  end.

(** The route of a row, its addresses converted by [aton]. *)
Definition row_route (aton : list Z -> option Z) (w : row) : option sr_rt :=
  match aton (w_dest w), aton (w_gw w), aton (w_mask w) with
  | Some d, Some g, Some m =>
      Some (SrRt d g m (w_iface w ++ replicate (32 - length (w_iface w)) 0))
  | _, _, _ => None
  end.

(** What loading yields: an empty line stands for the row before it. *)
Fixpoint expected_routes (aton : list Z -> option Z) (prev : row) (rows : list (option row)) :
    option (list sr_rt) :=
  match rows with
  | [] => Some []
  | w :: rows' =>
      let cur := default prev w in
      match row_route aton cur, expected_routes aton cur rows' with
      | Some r, Some rs => Some (r :: rs)
      | _, _ => None
      end
  end.

(** ** Lemmas: masks *)
Lemma htonl_as_bytes z : htonl z = le_word (be_bytes4 z).
Proof. unfold htonl, be_bytes4. cbn [le_word]. lia. Qed.

Lemma htonl_range z : u32_ok (htonl z).
Proof.
  unfold u32_ok. rewrite htonl_as_bytes.
  apply (le_word_range (be_bytes4 z)). repeat constructor; apply byte_at_range.
Qed.

Lemma htonl_inj a b : u32_ok a -> u32_ok b -> htonl a = htonl b -> a = b.
Proof.
  intros Ha Hb E. rewrite <- (Z.mod_small a 4294967296), <- (Z.mod_small b 4294967296) by done.
  change (u32 a = u32 b). by rewrite <- !htonl_involutive, E.
Qed.

Lemma byte_at_testbit z i j :
  0 <= i -> 0 <= j < 8 -> Z.testbit (byte_at z i) j = Z.testbit z (8 * i + j).
Proof.
  intros Hi Hj. unfold byte_at.
  replace (256 ^ i) with (2 ^ (8 * i)) by (by rewrite Z.pow_mul_r by lia).
  change 256 with (2 ^ 8). rewrite Z.mod_pow2_bits_low by lia.
  rewrite Z.div_pow2_bits by lia. f_equal. lia.
Qed.

Lemma byte_at_land a b i :
  0 <= i -> byte_at (Z.land a b) i = Z.land (byte_at a i) (byte_at b i).
Proof.
  intros Hi. apply Z.bits_inj'. intros n Hn. rewrite Z.land_spec.
  destruct (Z.lt_ge_cases n 8).
  - by rewrite !byte_at_testbit, Z.land_spec by lia.
  - unfold byte_at. change 256 with (2 ^ 8).
    by rewrite !Z.mod_pow2_bits_high by lia.
Qed.

(** Adding a byte below a word is bitwise disjoint. *)
Lemma land_byte_word a b x y :
  byte_ok a -> byte_ok b -> Z.land (a + 256 * x) (b + 256 * y) = Z.land a b + 256 * Z.land x y.
Proof.
  unfold byte_ok. intros Ha Hb.
  assert (Hlo : forall c z n, 0 <= c < 256 -> 0 <= n < 8 ->
            Z.testbit (c + 256 * z) n = Z.testbit c n).
  { intros c z n Hc Hn. rewrite <- (Z.mod_pow2_bits_low (c + 256 * z) 8 n) by lia.
    f_equal. change (2 ^ 8) with 256. Z.div_mod_to_equations; lia. }
  assert (Hhi : forall c z n, 0 <= c < 256 -> 8 <= n ->
            Z.testbit (c + 256 * z) n = Z.testbit z (n - 8)).
  { intros c z n Hc Hn. replace n with (n - 8 + 8) at 1 by lia.
    rewrite <- Z.div_pow2_bits by lia. f_equal. change (2 ^ 8) with 256.
    Z.div_mod_to_equations; lia. }
  assert (Hl : 0 <= Z.land a b < 256).
  { rewrite <- (Z.mod_small a 256), <- (Z.mod_small b 256) by lia.
    change 256 with (2 ^ 8). rewrite <- !Z.land_ones by lia.
    replace (Z.land _ _) with (Z.land (Z.land a b) (Z.ones 8)).
    - rewrite Z.land_ones by lia. apply Z.mod_pos_bound. lia.
    - apply Z.bits_inj'. intros n Hn. rewrite !Z.land_spec.
      by destruct (Z.testbit a n), (Z.testbit b n), (Z.testbit (Z.ones 8) n). }
  apply Z.bits_inj'. intros n Hn. rewrite Z.land_spec.
  destruct (Z.lt_ge_cases n 8).
  - by rewrite !Hlo, Z.land_spec by lia.
  - by rewrite !Hhi, Z.land_spec by lia.
Qed.

Lemma htonl_land a b : htonl (Z.land a b) = Z.land (htonl a) (htonl b).
Proof.
  unfold htonl. rewrite !byte_at_land by lia.
  by rewrite !land_byte_word by apply byte_at_range.
Qed.

Lemma htonl_htonl_id a : u32_ok a -> htonl (htonl a) = a.
Proof. intros H. rewrite htonl_involutive. by apply Z.mod_small. Qed.

Lemma u32_land a b : u32_ok a -> u32_ok b -> u32_ok (Z.land a b).
Proof.
  intros Ha Hb. rewrite <- (htonl_htonl_id a), <- (htonl_htonl_id b), <- htonl_land by done.
  apply htonl_range.
Qed.

(** Masking with the top [p] ones keeps exactly the first [p] bits. *)
Lemma land_prefix x k :
  u32_ok x -> 0 <= k <= 32 -> Z.land x (4294967296 - 2 ^ k) = x / 2 ^ k * 2 ^ k.
Proof.
  unfold u32_ok. intros Hx Hk.
  replace (4294967296 - 2 ^ k) with (Z.ones (32 - k) * 2 ^ k).
  2:{ rewrite Z.ones_equiv. replace 4294967296 with (2 ^ (32 - k) * 2 ^ k); [lia|].
      rewrite <- Z.pow_add_r by lia. by replace (32 - k + k) with 32 by lia. }
  rewrite <- !Z.shiftl_mul_pow2, <- Z.shiftr_div_pow2 by lia.
  apply Z.bits_inj'. intros n Hn. rewrite Z.land_spec.
  destruct (Z.lt_ge_cases n k).
  - by rewrite !Z.shiftl_spec_low, andb_false_r by lia.
  - rewrite !Z.shiftl_spec, Z.shiftr_spec by lia. replace (n - k + k) with n by lia.
    destruct (Z.lt_ge_cases n 32).
    + by rewrite Z.ones_spec_low, andb_true_r by lia.
    + rewrite <- (Z.mod_small x (2 ^ 32)) by (simpl; lia).
      by rewrite Z.mod_pow2_bits_high by lia.
Qed.

Lemma match_in_prefix dest r p :
  u32_ok dest -> u32_ok (rt_dest r) -> route_prefix r p ->
  (Z.land dest (rt_mask r) =? Z.land (rt_dest r) (rt_mask r)) = true <-> in_prefix dest r p.
Proof.
  intros Hd Hr [Hp ->]. unfold in_prefix, ntohl.
  pose proof (Z.pow_pos_nonneg 2 (32 - p) ltac:(lia) ltac:(lia)) as Hpow.
  assert (Hm : u32_ok (4294967296 - 2 ^ (32 - p))).
  { unfold u32_ok. pose proof (Z.pow_le_mono_r 2 (32 - p) 32 ltac:(lia) ltac:(lia)).
    change (2 ^ 32) with 4294967296 in *. lia. }
  assert (Hmask : htonl (mask_of_len p) = 4294967296 - 2 ^ (32 - p)).
  { unfold mask_of_len. rewrite htonl_involutive. by apply Z.mod_small. }
  rewrite Z.eqb_eq. split.
  - intros E. apply (f_equal htonl) in E. rewrite !htonl_land, Hmask in E.
    rewrite !land_prefix in E by (apply htonl_range || lia).
    by apply Z.mul_reg_r in E; [|lia].
  - intros E. assert (Hmo : u32_ok (mask_of_len p)) by apply htonl_range.
    apply htonl_inj; [by apply u32_land..|].
    by rewrite !htonl_land, Hmask, !land_prefix, E by (apply htonl_range || lia).
Qed.

(** The value of a mask, read little-endian, grows with the prefix length: this
    is why comparing raw masks picks the longest prefix. *)
Lemma mask_of_len_mono p q : 0 <= p -> p < q -> q <= 32 -> mask_of_len p < mask_of_len q.
Proof.
  assert (H : forallb (fun p => forallb (fun q => negb (p <? q)%nat
     || (mask_of_len (Z.of_nat p) <? mask_of_len (Z.of_nat q))) (seq 0 33)) (seq 0 33) = true)
    by (vm_compute; reflexivity).
  intros Hp Hpq Hq. rewrite forallb_forall in H.
  specialize (H (Z.to_nat p) ltac:(apply in_seq; lia)). rewrite forallb_forall in H.
  specialize (H (Z.to_nat q) ltac:(apply in_seq; lia)).
  rewrite !Z2Nat.id in H by lia.
  apply orb_true_iff in H as [H|H]; [|by apply Z.ltb_lt].
  apply negb_true_iff, Nat.ltb_ge in H. lia.
Qed.

Lemma mask_of_len_0 : mask_of_len 0 = 0.
Proof. reflexivity. Qed.

Lemma mask_of_len_lt p q :
  0 <= p <= 32 -> 0 <= q <= 32 -> (mask_of_len p < mask_of_len q <-> p < q).
Proof.
  intros Hp Hq. split.
  - intros H. destruct (Z.lt_trichotomy p q) as [?|[->|?]]; [done|lia|].
    pose proof (mask_of_len_mono q p ltac:(lia) ltac:(lia) ltac:(lia)). lia.
  - intros H. apply mask_of_len_mono; lia.
Qed.

(** ** Lemmas: the longest prefix match *)
Definition matches (dest : Z) (r : sr_rt) : Prop :=
  (Z.land dest (rt_mask r) =? Z.land (rt_dest r) (rt_mask r)) = true.

Lemma lpm_loop_spec dest rt m len :
  (lpm_loop rt dest m len = m /\ forall r, r ∈ rt -> matches dest r -> rt_mask r <= len)
  \/ (exists pre r post, rt = pre ++ r :: post /\ lpm_loop rt dest m len = Some r
      /\ matches dest r /\ len < rt_mask r
      /\ (forall r', r' ∈ pre -> matches dest r' -> rt_mask r' < rt_mask r)
      /\ (forall r', r' ∈ post -> matches dest r' -> rt_mask r' <= rt_mask r)).
Proof.
  revert m len. induction rt as [|r rt IH]; intros m len.
  { left. split; [done|]. intros r H. by apply elem_of_nil in H. }
  cbn [lpm_loop]. destruct (_ && _) eqn:E.
  - apply andb_true_iff in E as [Hm Hlt]. apply Z.ltb_lt in Hlt. right.
    destruct (IH (Some r) (rt_mask r)) as [[-> Hle]|(pre & r1 & post & -> & -> & Hr1 & Hlt1 & Hpre & Hpost)].
    + exists [], r, rt. split_and!; try done. intros r' H. by apply elem_of_nil in H.
    + exists (r :: pre), r1, post. split_and!; try done; [lia|].
      intros r' [->|H]%elem_of_cons Hm'; [done|by apply Hpre].
  - assert (Hr : matches dest r -> rt_mask r <= len).
    { intros Hm. unfold matches in Hm. rewrite Hm in E. by apply Z.ltb_ge in E. }
    destruct (IH m len) as [[-> Hle]|(pre & r1 & post & -> & -> & Hr1 & Hlt1 & Hpre & Hpost)].
    + left. split; [done|]. intros r' [->|H]%elem_of_cons Hm'; auto.
    + right. exists (r :: pre), r1, post. split_and!; try done.
      intros r' [->|H]%elem_of_cons Hm'; [specialize (Hr Hm'); lia|by apply Hpre].
Qed.

(** ** Lemmas: the check of the table against the interfaces *)
Lemma if_exists_spec ifs name s :
  ifs_ok ifs -> name_of name = Ok s ->
  if_exists ifs name = Ok (bool_decide (is_Some (find_if ifs s))).
Proof.
  intros Hok Hs.
  assert (H : if_exists ifs name = let! o := sr_get_interface ifs name in
            Ok (bool_decide (is_Some o))).
  { clear. induction ifs as [|i ifs IH]; [done|]. cbn [if_exists sr_get_interface].
    destruct (strncmp _ _ _); [|done]. cbn [bind]. by case_match. }
  by rewrite H, (sr_get_interface_spec _ _ _ Hok Hs).
Qed.

(** Every route names an interface. *)
Definition route_if_ok (ifs : list sr_if) (r : sr_rt) : Prop :=
  exists s i, name_of (rt_interface r) = Ok s /\ find_if ifs s = Some i.

Lemma verify_loop_spec ifs rts ret :
  ifs_ok ifs -> Forall (fun r => length (rt_interface r) = 32%nat) rts -> 0 <= ret ->
  exists n, verify_loop rts ifs ret = Ok (ret + n) /\ 0 <= n
            /\ (n = 0 <-> Forall (route_if_ok ifs) rts).
Proof.
  intros Hok Hlen. revert ret. induction Hlen as [|r rts Hr _ IH]; intros ret Hret.
  { exists 0. rewrite Z.add_0_r. done. }
  destruct (cstr_ok sr_IFACE_NAMELEN (rt_interface r)) as [s Hs]; [by rewrite Hr|].
  cbn [verify_loop]. rewrite (if_exists_spec _ _ _ Hok Hs). cbn [bind].
  assert (Hfound : is_Some (find_if ifs s) <-> route_if_ok ifs r).
  { split; [intros [i Hi]; by exists s, i|].
    intros (s' & i & Hs' & Hi). unfold name_of in Hs'. rewrite Hs in Hs'. injection Hs' as <-. by exists i. }
  destruct (bool_decide_reflect (is_Some (find_if ifs s))) as [Hy|Hn].
  - destruct (IH ret Hret) as (n & -> & Hn & Hiff). exists n.
    rewrite Forall_cons, <- Hfound, <- Hiff. tauto.
  - destruct (IH (ret + 1) ltac:(lia)) as (n & -> & Hn' & Hiff). exists (1 + n).
    rewrite Forall_cons, <- Hfound. split_and!; [f_equal; lia|lia|].
    split; [lia|intros [? _]; done].
Qed.

(** ** Lemmas: loading the table *)
Definition not_diverging {A} (m : res A) : Prop := m <> Fault Diverges.

Lemma cstr_no_div n s : not_diverging (cstr n s).
Proof.
  unfold not_diverging. revert s. induction n as [|n IH]; intros [|c s]; simpl; try done.
  unfold cstr; fold cstr. case_match; [done|]. specialize (IH s).
  destruct (cstr n s); simpl; congruence.
Qed.

Lemma strncpy_no_div n s : not_diverging (strncpy n s).
Proof.
  unfold not_diverging. revert s. induction n as [|n IH]; intros [|c s]; try done.
  unfold strncpy; fold strncpy. case_match; [done|]. specialize (IH s).
  destruct (strncpy n s); simpl; congruence.
Qed.

Lemma store_no_div b off bs : not_diverging (store b off bs).
Proof. unfold not_diverging, store. by case_match. Qed.

Lemma bind_no_div {A B} (m : res A) (k : A -> res B) :
  not_diverging m -> (forall a, m = Ok a -> not_diverging (k a)) -> not_diverging (bind m k).
Proof. unfold not_diverging. destruct m; simpl; [eauto|congruence]. Qed.

Lemma sscanf_words_no_div line bufs : not_diverging (sscanf_words line bufs).
Proof.
  revert line. induction bufs as [|b bufs IH]; intros line; [done|]. cbn [sscanf_words].
  destruct (skip_space line); [done|]. destruct (span_word _) as [w rest].
  apply bind_no_div; [apply store_no_div|]. intros b' _.
  apply bind_no_div; [apply IH|]. done.
Qed.

(** [fgets] makes progress and never returns more than is left. *)
Lemma fgets_length n c f l r :
  fgets (S n) (c :: f) = (l, r) -> (length r < length (c :: f))%nat.
Proof.
  assert (Hle : forall n f l r, fgets n f = (l, r) -> (length r <= length f)%nat).
  { clear. induction n as [|n IH]; intros [|c f] l r; cbn; try (intros [= <- <-]; simpl; lia).
    case_match; [intros [= <- <-]; lia|].
    destruct (fgets n f) as [l' r'] eqn:E. intros [= <- <-]. apply IH in E. lia. }
  cbn [fgets]. case_match; [intros [= <- <-]; simpl; lia|].
  destruct (fgets n f) as [l' r'] eqn:E. intros [= <- <-]. apply Hle in E. simpl. lia.
Qed.

Lemma load_rt_loop_terminates aton fuel fp bufs clear rt :
  (length fp < fuel)%nat -> not_diverging (load_rt_loop aton fuel fp bufs clear rt).
Proof.
  revert fp bufs clear rt. induction fuel as [|fuel IH]; intros fp bufs clear rt Hf; [lia|].
  cbn [load_rt_loop]. destruct fp as [|c fp]; [done|].
  change (BUFSIZ - 1)%nat with (S (BUFSIZ - 2)).
  destruct (fgets (S (BUFSIZ - 2)) (c :: fp)) as [raw fp'] eqn:E. apply fgets_length in E.
  apply bind_no_div; [apply cstr_no_div|]. intros line _.
  apply bind_no_div; [apply sscanf_words_no_div|]. intros [|d [|g [|m [|i [|]]]]] _; try done.
  apply bind_no_div; [apply cstr_no_div|]. intros ds _. case_match; [|done].
  apply bind_no_div; [apply cstr_no_div|]. intros gs _. case_match; [|done].
  apply bind_no_div; [apply cstr_no_div|]. intros ms _. case_match; [|done].
  apply bind_no_div.
  { apply bind_no_div; [apply strncpy_no_div|]. intros nm _. by case_match. }
  intros rt' _. apply IH. lia.
Qed.

(** Words and lines. *)
Abbreviation no_space w := (Forall (fun c => c <> 0 /\ isspace c = false) w).

Lemma span_word_app w c rest :
  no_space w -> isspace c = true -> span_word (w ++ c :: rest) = (w, c :: rest).
Proof.
  intros Hw Hc. induction Hw as [|x w [_ Hx] _ IH]; cbn.
  - by rewrite Hc.
  - by rewrite Hx, IH.
Qed.

Lemma skip_space_word w rest : word_ok w -> skip_space (w ++ rest) = w ++ rest.
Proof.
  intros (Hne & _ & Hw). destruct Hw as [|x w [_ Hx] _]; [done|]. cbn. by rewrite Hx.
Qed.

Lemma cstr_word n w rest :
  no_space w -> (length w < n)%nat -> cstr n (w ++ 0 :: rest) = Ok w.
Proof.
  intros Hw. revert n. induction Hw as [|x w [Hx _] _ IH]; intros [|n] Hn; simpl in Hn; try lia.
  - done.
  - unfold cstr; fold cstr. cbn [app]. rewrite (proj2 (Z.eqb_neq x 0) Hx).
    by rewrite IH by lia.
Qed.

Lemma cstring_word w rest : no_space w -> cstring (w ++ 0 :: rest) = Ok w.
Proof. intros H. apply cstr_word; [done|]. lens. Qed.

Lemma strncpy_word n w rest :
  no_space w -> (length w < n)%nat ->
  strncpy n (w ++ 0 :: rest) = Ok (w ++ replicate (n - length w) 0).
Proof.
  intros Hw. revert n. induction Hw as [|x w [Hx _] _ IH]; intros [|n] Hn; simpl in Hn; try lia.
  - done.
  - unfold strncpy; fold strncpy. cbn [app]. rewrite (proj2 (Z.eqb_neq x 0) Hx).
    by rewrite IH by lia.
Qed.

Lemma fgets_line n line rest :
  Forall (fun c => c <> 10) line -> (length line < n)%nat ->
  fgets n (line ++ 10 :: rest) = (line ++ [10], rest).
Proof.
  intros Hl. revert n. induction Hl as [|x l Hx _ IH]; intros [|n] Hn; simpl in Hn; try lia.
  - done.
  - cbn. rewrite (proj2 (Z.eqb_neq x 10) Hx). by rewrite IH by lia.
Qed.

(** One conversion: the word lands in its buffer, NUL-terminated. *)
Definition holds (b w : list Z) : Prop := length b = 32%nat /\ exists tl, b = w ++ 0 :: tl.

Lemma store_word b w :
  length b = 32%nat -> word_ok w -> exists b', store b 0 (w ++ [0]) = Ok b' /\ holds b' w.
Proof.
  intros Hb (_ & Hl & _). rewrite store_ok by lens. eexists. split; [done|].
  split; [lens|]. eexists. rewrite take_0. simpl. by rewrite <- app_assoc.
Qed.

Lemma sscanf_word sep w c rest b bs :
  Forall (fun c => isspace c = true) sep -> length b = 32%nat -> word_ok w -> isspace c = true ->
  exists b', holds b' w /\
    sscanf_words (sep ++ w ++ c :: rest) (b :: bs)
    = let! bs' := sscanf_words (c :: rest) bs in Ok (b' :: bs').
Proof.
  intros Hsep Hb Hw Hc. destruct (store_word b w Hb Hw) as (b' & Est & Hh).
  exists b'. split; [done|]. cbn [sscanf_words].
  replace (skip_space (sep ++ w ++ c :: rest)) with (w ++ c :: rest).
  2:{ induction Hsep as [|x sep Hx _ IH]; cbn; [by rewrite skip_space_word|by rewrite Hx]. }
  destruct Hw as (Hne & _ & Hw). pose proof (span_word_app w c rest Hw Hc) as Esp.
  destruct w as [|x w]; [done|]. cbn [app] in Esp |- *. by rewrite Esp, Est.
Qed.

Definition bufs_hold (bufs : list (list Z)) (w : row) : Prop := Forall2 holds bufs (row_words w).

Lemma sscanf_row w d g m i :
  row_ok w -> length d = 32%nat -> length g = 32%nat -> length m = 32%nat -> length i = 32%nat ->
  exists bufs', sscanf_words (render_row (Some w)) [d; g; m; i] = Ok bufs' /\ bufs_hold bufs' w.
Proof.
  intros Hok Hd Hg Hm Hi. unfold row_ok, row_words in Hok.
  repeat (apply Forall_cons in Hok as [? Hok]).
  assert (Hs : Forall (fun c => isspace c = true) [32]) by by repeat constructor.
  cbn [render_row].
  destruct (sscanf_word [] (w_dest w) 32 (w_gw w ++ [32] ++ w_mask w ++ [32] ++ w_iface w ++ [10])
    d [g; m; i]) as (d' & Hd' & E1); try done.
  destruct (sscanf_word [32] (w_gw w) 32 (w_mask w ++ [32] ++ w_iface w ++ [10])
    g [m; i]) as (g' & Hg' & E2); try done.
  destruct (sscanf_word [32] (w_mask w) 32 (w_iface w ++ [10]) m [i]) as (m' & Hm' & E3); try done.
  destruct (sscanf_word [32] (w_iface w) 10 [] i []) as (i' & Hi' & E4); try done.
  cbn [app] in E1, E2, E3, E4 |- *. rewrite E1, E2, E3, E4.
  exists [d'; g'; m'; i']. split; [done|]. unfold bufs_hold, row_words.
  by rewrite !Forall2_cons, Forall2_nil.
Qed.

Lemma render_row_line w :
  row_ok w -> exists line, render_row (Some w) = line ++ [10]
    /\ Forall (fun c => c <> 10) line /\ Forall (fun c => c <> 0) line /\ (length line < 200)%nat.
Proof.
  intros Hok. unfold row_ok, row_words in Hok.
  repeat (apply Forall_cons in Hok as [(? & ? & ?) Hok]).
  exists (w_dest w ++ [32] ++ w_gw w ++ [32] ++ w_mask w ++ [32] ++ w_iface w).
  split_and!.
  - cbn [render_row]. by rewrite <- !app_assoc.
  - assert (Hs : forall l, no_space l -> Forall (fun c => c <> 10) l).
    { intros l Hl. eapply Forall_impl; [done|]. intros x [_ Hx] ->. done. }
    rewrite !Forall_app. split_and!; auto; by repeat constructor.
  - assert (Hs : forall l, no_space l -> Forall (fun c => c <> 0) l).
    { intros l Hl. eapply Forall_impl; [done|]. by intros x []. }
    rewrite !Forall_app. split_and!; auto; by repeat constructor.
  - lens.
Qed.

Lemma cstring_line line rest : Forall (fun c => c <> 0) line -> cstring (line ++ 0 :: rest) = Ok line.
Proof.
  intros Hl. unfold cstring.
  assert (Hn : (length line < S (length (line ++ 0%Z :: rest)))%nat) by lens.
  revert Hn. generalize (S (length (line ++ 0%Z :: rest))).
  induction Hl as [|x l Hx _ IH]; intros [|n] Hn; simpl in Hn; try lia.
  - done.
  - unfold cstr; fold cstr. cbn [app]. rewrite (proj2 (Z.eqb_neq x 0) Hx). by rewrite IH by lia.
Qed.

(** Reading one rendered row: the line comes out and the buffers hold it. *)
Lemma read_row prev w rest bufs :
  row_ok (default prev w) -> Forall (fun b => length b = 32%nat) bufs -> length bufs = 4%nat ->
  (w = None -> bufs_hold bufs prev) ->
  exists raw line bufs', fgets (BUFSIZ - 1) (render_row w ++ rest) = (raw, rest)
    /\ cstring (raw ++ [0]) = Ok line /\ sscanf_words line bufs = Ok bufs'
    /\ bufs_hold bufs' (default prev w).
Proof.
  intros Hok Hb H4 Hprev. destruct w as [w|]; cbn [default] in *.
  - destruct (render_row_line w Hok) as (line & El & H10 & H0 & Hlen).
    destruct bufs as [|d [|g [|m [|i []]]]]; try done.
    repeat (apply Forall_cons in Hb as [? Hb]).
    destruct (sscanf_row w d g m i) as (bufs' & Es & Hh); try done.
    exists (line ++ [10]), (render_row (Some w)), bufs'. rewrite El in Es |- *.
    split; [|split; [|split]]; [| |done|done].
    + rewrite <- app_assoc. apply fgets_line; [done|]. change (BUFSIZ - 1)%nat with (Z.to_nat 8191). lia.
    + apply cstring_line. apply Forall_app. split; [done|by repeat constructor].
  - exists [10], [10], bufs. split_and!; try done; [|auto].
    destruct bufs; done.
Qed.

Lemma holds_cstring b w : holds b w -> word_ok w -> cstring b = Ok w.
Proof. intros [_ [tl ->]] (_ & _ & Hw). by apply cstring_word. Qed.

Lemma load_rt_loop_rows aton rows prev bufs fuel clear rt rs :
  Forall (fun w => row_ok (default prev w)) rows ->
  Forall (fun b => length b = 32%nat) bufs -> length bufs = 4%nat ->
  (match rows with None :: _ => bufs_hold bufs prev | _ => True end) ->
  expected_routes aton prev rows = Some rs ->
  (length (render rows) < fuel)%nat ->
  load_rt_loop aton fuel (render rows) bufs clear rt
  = Ok (0, (if clear then rt else match rows with [] => rt | _ => [] end) ++ rs).
Proof.
  revert prev bufs fuel clear rt rs.
  induction rows as [|w rows IH]; intros prev bufs fuel clear rt rs Hok Hb H4 Hh Hr Hf.
  { injection Hr as <-. destruct fuel; [simpl in Hf; lia|]. cbn. rewrite app_nil_r. by destruct clear. }
  apply Forall_cons in Hok as [Hw Hok].
  destruct (read_row prev w (render rows) bufs) as (raw & line & bufs' & Ef & Ec & Es & Hh'); try done.
  { by intros ->. }
  cbn [expected_routes] in Hr. set (cur := default prev w) in *.
  destruct (row_route aton cur) as [r|] eqn:Er; [|done].
  destruct (expected_routes aton cur rows) as [rs'|] eqn:Ers; [|done]. injection Hr as <-.
  destruct fuel as [|fuel]; [lia|].
  assert (Hne : render_row w ++ render rows <> []) by (destruct w as [[[]]|]; done).
  cbn [render] in Hf |- *. cbn [load_rt_loop].
  assert (Hlt : (length (render rows) < fuel)%nat).
  { destruct (render_row w) eqn:E0; [by destruct w as [[[]]|]|]. simpl in Hf. rewrite length_app in Hf. lia. }
  destruct (render_row w ++ render rows) as [|c f] eqn:E0; [done|]. rewrite Ef, Ec. cbn [bind].
  rewrite Es. cbn [bind].
  pose proof (Forall2_length _ _ _ Hh') as Hl4.
  destruct bufs' as [|d [|g [|m [|i []]]]]; try done. clear Hl4.
  pose proof Hh' as Hh2. unfold bufs_hold, row_words in Hh'. unfold row_ok, row_words in Hw. pose proof Hw as Hw2.
  repeat (apply Forall2_cons in Hh' as [? Hh']).
  repeat (apply Forall_cons in Hw as [? Hw]).
  unfold row_route in Er.
  rewrite !(holds_cstring d (w_dest cur)), !(holds_cstring g (w_gw cur)),
    !(holds_cstring m (w_mask cur)) by done. cbn [bind].
  destruct (aton (w_dest cur)) as [da|]; [|done]. destruct (aton (w_gw cur)) as [ga|]; [|done].
  destruct (aton (w_mask cur)) as [ma|]; [|done]. injection Er as <-.
  match goal with H : holds i _ |- _ => destruct H as [Hi [tl ->]] end.
  match goal with H : word_ok (w_iface cur) |- _ => destruct H as (_ & Hil & Hin) end.
  unfold sr_add_rt_entry at 1. rewrite strncpy_word by done. cbn [bind].
  set (rnew := SrRt da ga ma _).
  replace (match (if clear then rt else []) with [] => Ok [rnew]
           | _ :: _ => Ok ((if clear then rt else []) ++ [rnew]) end)
    with (Ok ((if clear then rt else []) ++ [rnew])) by (by destruct (if clear then rt else [])).
  cbn [bind]. rewrite (IH cur _ _ _ _ rs'); try done.
  - by rewrite <- app_assoc.
  - eapply Forall_impl; [exact Hok|]. intros [w'|]; [done|]. intros _. by apply Hw2.
  - unfold bufs_hold, row_words in Hh2.
    repeat (apply Forall2_cons in Hh2 as [[? _] Hh2]). by rewrite !Forall_cons.
  - destruct rows as [|[]]; done.
Qed.
