(* ===== verification/ArpCache.v ===== *)
(** * ArpCache: the ARP cache and request queue of sr_arpcache.c

    The request queue is a linked list whose nodes are shared by pointer: the
    main loop holds the pointer [sr_arpcache_queuereq] returned, the sweep holds
    the node it visits, and [sr_arpreq_destroy] frees a node while others may
    still point to it.  So the nodes live in a heap, [heap], a finite map from
    addresses; a freed address is not in the map and following it is
    [UseAfterFree].  [brk] is the next fresh address: addresses are never
    reused, which makes every use after free visible.  The packets waiting on a
    request form a list owned by its node, with no other pointer into it.

    The specification is the list of requests in queue order ([queue]); the
    relation [cache_rep] ties it to the heap, and the refinement lemmas say what
    each operation does to the list. *)

From Stdlib Require Import String.
From S2P Require Import Prelude Memory Protocol Utils Iface.

Definition SR_ARPCACHE_SZ : nat := 100.
Definition SR_ARPCACHE_TO : Z := 15.

Abbreviation loc := positive.

Record sr_packet := SrPacket {
  pk_buf : list Z;       (** the raw frame *)
  pk_len : Z;
  pk_iface : list Z }.   (** the outgoing interface, 32 bytes *)

Record sr_arpentry := SrArpentry {
  ae_mac : list Z; ae_ip : Z; ae_added : Z; ae_valid : bool }.

Record sr_arpreq := SrArpreq {
  rq_ip : Z; rq_sent : Z; rq_times_sent : Z;
  rq_packets : list sr_packet; rq_next : option loc }.

Record sr_arpcache := SrArpcache {
  entries : list sr_arpentry;
  requests : option loc;
  heap : gmap loc sr_arpreq;
  brk : loc }.

Definition set_entries (c : sr_arpcache) (e : list sr_arpentry) : sr_arpcache :=
  SrArpcache e (requests c) (heap c) (brk c).
Definition set_requests (c : sr_arpcache) (p : option loc) : sr_arpcache :=
  SrArpcache (entries c) p (heap c) (brk c).
Definition set_heap (c : sr_arpcache) (h : gmap loc sr_arpreq) : sr_arpcache :=
  SrArpcache (entries c) (requests c) h (brk c).

(** ** Access to the nodes *)
Definition deref (l : loc) : ST sr_arpcache sr_arpreq :=
  fun c => match heap c !! l with Some r => Ok (r, c) | None => Fault UseAfterFree end.
Definition write_req (l : loc) (f : sr_arpreq -> sr_arpreq) : ST sr_arpcache unit :=
  do! r := deref l in
  smodify (fun c => set_heap c (<[l := f r]> (heap c))).
Definition set_next (l : loc) (next : option loc) : ST sr_arpcache unit :=
  write_req l (fun r => SrArpreq (rq_ip r) (rq_sent r) (rq_times_sent r) (rq_packets r) next).
(** [calloc(1, sizeof(struct sr_arpreq))] *)
Definition alloc_req : ST sr_arpcache loc :=
  fun c => Ok (brk c, SrArpcache (entries c) (requests c)
                        (<[brk c := SrArpreq 0 0 0 [] None]> (heap c)) (Pos.succ (brk c))).
Definition free_req (l : loc) : ST sr_arpcache unit :=
  run! deref l in
  smodify (fun c => set_heap c (delete l (heap c))).

(** Walking a list of [n] live nodes takes [n+1] tests of the loop condition;
    there are at most [size heap] distinct nodes. *)
Definition walk_fuel (c : sr_arpcache) : nat := S (size (heap c)).

(** ** The operations *)

(** The last valid entry with that address: the loop has no [break]. *)
Fixpoint lookup_loop (l : list sr_arpentry) (ip : Z) (entry : option sr_arpentry) :
    option sr_arpentry :=
  match l with
  | [] => entry
  | e :: l' => lookup_loop l' ip (if ae_valid e && (ae_ip e =? ip) then Some e else entry)
  end.
Definition sr_arpcache_lookup (c : sr_arpcache) (ip : Z) : option sr_arpentry :=
  lookup_loop (entries c) ip None.

Fixpoint find_req (fuel : nat) (req : option loc) (ip : Z) : ST sr_arpcache (option loc) :=
  match fuel with
  | O => sfault Diverges
  | S fuel' =>
      match req with
      | None => sret None
      | Some l =>
          do! r := deref l in
          if rq_ip r =? ip then sret (Some l) else find_req fuel' (rq_next r) ip
      end
  end.

Definition sr_arpcache_queuereq (ip : Z) (packet : option (list Z)) (packet_len : Z)
    (iface : option (list Z)) : ST sr_arpcache loc :=
  do! c := sget in
  do! found := find_req (walk_fuel c) (requests c) ip in
  do! req := match found with
             | Some l => sret l
             | None =>
                 do! l := alloc_req in
                 do! c := sget in
                 run! write_req l (fun r => SrArpreq ip (rq_sent r) (rq_times_sent r)
                                              (rq_packets r) (requests c)) in
                 run! smodify (fun c => set_requests c (Some l)) in
                 sret l
             end in
  run! match packet, iface with
       | Some packet, Some iface =>
           if packet_len =? 0 then sret tt
           else
             do! buf := slift (load packet 0 (Z.to_nat packet_len)) in
             do! nm := slift (strncpy sr_IFACE_NAMELEN iface) in
             write_req req (fun r => SrArpreq (rq_ip r) (rq_sent r) (rq_times_sent r)
                (SrPacket buf packet_len nm :: rq_packets r) (rq_next r))
       | _, _ => sret tt
       end in
  sret req.

(** The unlinking loop that [sr_arpcache_insert] and [sr_arpreq_destroy] share;
    [test] is the condition on the node. *)
Fixpoint unlink_loop (fuel : nat) (test : loc -> sr_arpreq -> bool) (prev req : option loc) :
    ST sr_arpcache (option loc) :=
  match fuel with
  | O => sfault Diverges
  | S fuel' =>
      match req with
      | None => sret None
      | Some l =>
          do! r := deref l in
          if test l r then
            run! match prev with
                 | Some p => set_next p (rq_next r)
                 | None => smodify (fun c => set_requests c (rq_next r))
                 end in
            sret (Some l)
          else unlink_loop fuel' test (Some l) (rq_next r)
      end
  end.

(** The index of the first entry that is not valid. *)
Fixpoint free_slot (l : list sr_arpentry) : nat :=
  match l with
  | [] => 0
  | e :: l' => if ae_valid e then S (free_slot l') else 0
  end.

Definition sr_arpcache_insert (now : Z) (mac : list Z) (ip : Z) : ST sr_arpcache (option loc) :=
  do! c := sget in
  do! req := unlink_loop (walk_fuel c) (fun _ r => rq_ip r =? ip) None (requests c) in
  do! c := sget in
  let i := free_slot (entries c) in
  run! (if (i =? SR_ARPCACHE_SZ)%nat then sret tt
        else
          do! m := slift (load mac 0 6) in
          smodify (fun c => set_entries c (<[i := SrArpentry m ip now true]> (entries c)))) in
  sret req.

Definition sr_arpreq_destroy (entry : option loc) : ST sr_arpcache unit :=
  match entry with
  | None => sret tt
  | Some l =>
      do! c := sget in
      run! unlink_loop (walk_fuel c) (fun l' _ => Pos.eqb l' l) None (requests c) in
      (* the packets are freed with the node that owns them *)
      free_req l
  end.

(** The loop of [sr_arpcache_timeout] over the table. *)
Definition expire_entry (curtime : Z) (e : sr_arpentry) : sr_arpentry :=
  if ae_valid e && (SR_ARPCACHE_TO <? curtime - ae_added e)
  then SrArpentry (ae_mac e) (ae_ip e) (ae_added e) false else e.
Definition expire_entries (curtime : Z) : ST sr_arpcache unit :=
  smodify (fun c => set_entries c (map (expire_entry curtime) (entries c))).

(** What [sr_arpcache_dump] prints. *)
Definition dump_entry (cur : sr_arpentry) : res (list item) :=
  let! mac := load (ae_mac cur) 0 6 in
  Ok ((Hex 1 <$> mac) ++ [Txt "   "; Hex 8 (ntohl (ae_ip cur)); Txt "   "; CTime (ae_added cur); Txt "   ";
      Dec (Z.b2z (ae_valid cur)); Txt "
"]).
Definition sr_arpcache_dump (c : sr_arpcache) : res (list item) :=
  let! rows := print_each dump_entry (entries c) in
  Ok ([Txt "
MAC            IP         ADDED                      VALID
"; Txt "-----------------------------------------------------------
"] ++ rows ++ [Txt "
"]).

(** [memset(cache->entries, 0, ...)], no requests. *)
Definition sr_arpcache_init : sr_arpcache :=
  SrArpcache (replicate SR_ARPCACHE_SZ (SrArpentry (replicate 6 0) 0 0 false)) None ∅ 1.

(** Nothing calls it.  [pthread_mutex_destroy] and [pthread_mutexattr_destroy]
    are the two calls; [&&] makes the second one only when the first fails. *)
Definition sr_arpcache_destroy {S} (mutex_destroy mutexattr_destroy : ST S Z) : ST S Z :=
  do! r := mutex_destroy in
  if r =? 0 then sret 0
  else do! r := mutexattr_destroy in sret (if r =? 0 then 0 else 1).

(** ** Specification: the queue as a list *)
Record areq := Areq { q_ip : Z; q_sent : Z; q_times : Z; q_pkts : list sr_packet }.
Abbreviation queue := (list (loc * areq)).

Definition node (a : areq) (next : option loc) : sr_arpreq :=
  SrArpreq (q_ip a) (q_sent a) (q_times a) (q_pkts a) next.

(** [lseg h p q e]: from pointer [p] the heap holds the nodes [q], and the last
    one points to [e]. *)
Fixpoint lseg (h : gmap loc sr_arpreq) (p : option loc) (q : queue) (e : option loc) : Prop :=
  match q with
  | [] => p = e
  | (l, a) :: q' => p = Some l /\ exists next, h !! l = Some (node a next) /\ lseg h next q' e
  end.

(** [cache_rep c q d]: the queue of [c] is [q]; besides its nodes exactly the
    detached nodes [d] are allocated. *)
Record cache_rep (c : sr_arpcache) (q d : queue) : Prop := {
  rep_chain : lseg (heap c) (requests c) q None;
  rep_detached : Forall (fun p => exists next, heap c !! p.1 = Some (node p.2 next)) d;
  rep_nodup : NoDup (q.*1 ++ d.*1);
  rep_dom : forall l, is_Some (heap c !! l) <-> l ∈ q.*1 ++ d.*1;
  rep_brk : Forall (fun l => (l < brk c)%positive) (q.*1 ++ d.*1);
  rep_size : length (entries c) = SR_ARPCACHE_SZ }.

Definition q_find (ip : Z) (q : queue) : option (loc * areq) :=
  List.find (fun p => q_ip p.2 =? ip) q.
Definition q_alter (l : loc) (f : areq -> areq) (q : queue) : queue :=
  map (fun p => if decide (p.1 = l) then (p.1, f p.2) else p) q.
Definition q_remove (l : loc) (q : queue) : queue := filter (fun p => p.1 <> l) q.
Definition add_pkt (p : sr_packet) (a : areq) : areq :=
  Areq (q_ip a) (q_sent a) (q_times a) (p :: q_pkts a).

(** Queueing a packet: at the front of the packets of the request for that
    address, or in a new request at the front of the queue. *)
Definition spec_queuereq (fresh : loc) (ip : Z) (p : sr_packet) (q : queue) : loc * queue :=
  match q_find ip q with
  | Some (l, _) => (l, q_alter l (add_pkt p) q)
  | None => (fresh, (fresh, Areq ip 0 0 [p]) :: q)
  end.

(** No two requests for one address, and none without a packet. *)
Record queue_ok (q : queue) : Prop := {
  qok_ips : NoDup ((fun p => q_ip p.2) <$> q);
  qok_pkts : Forall (fun p => q_pkts p.2 <> []) q }.

(** ** Lemmas: segments *)
Lemma node_inj a n a' n' : node a n = node a' n' -> a = a' /\ n = n'.
Proof. destruct a, a'. unfold node; simpl. intros H. by simplify_eq. Qed.

Lemma lseg_app h p q1 q2 e :
  lseg h p (q1 ++ q2) e <-> exists m, lseg h p q1 m /\ lseg h m q2 e.
Proof.
  revert p. induction q1 as [|[l a] q1 IH]; intros p; simpl.
  - naive_solver.
  - setoid_rewrite IH. naive_solver.
Qed.

Lemma lseg_frame h h' p q e :
  (forall l, l ∈ q.*1 -> h' !! l = h !! l) -> lseg h p q e -> lseg h' p q e.
Proof.
  revert p. induction q as [|[l a] q IH]; intros p Hf; simpl; [done|].
  intros (-> & next & Hl & Hq). split; [done|]. exists next. split.
  - rewrite Hf; [done|]. simpl. set_solver.
  - apply IH; [|done]. intros l' Hl'. apply Hf. simpl. set_solver.
Qed.

Lemma lseg_insert_notin h p q e l r :
  l ∉ q.*1 -> lseg h p q e -> lseg (<[l := r]> h) p q e.
Proof.
  intros Hl. apply lseg_frame. intros l' Hl'. apply lookup_insert_ne. set_solver.
Qed.

Lemma lseg_delete_notin h p q e l :
  l ∉ q.*1 -> lseg h p q e -> lseg (delete l h) p q e.
Proof.
  intros Hl. apply lseg_frame. intros l' Hl'. apply lookup_delete_ne. set_solver.
Qed.

Lemma lseg_lookup h p q e l a :
  lseg h p q e -> (l, a) ∈ q -> exists next, h !! l = Some (node a next).
Proof.
  revert p. induction q as [|[l' a'] q IH]; intros p; simpl.
  - intros _ H. by apply elem_of_nil in H.
  - intros (-> & next & Hl & Hq) [[= -> ->]|H]%elem_of_cons; eauto.
Qed.

Lemma q_alter_fst l f q : (q_alter l f q).*1 = q.*1.
Proof.
  unfold q_alter. rewrite <- list_fmap_compose. apply list_fmap_ext.
  intros _ p _. simpl. by case_decide.
Qed.

Lemma q_alter_notin l f q : l ∉ q.*1 -> q_alter l f q = q.
Proof.
  induction q as [|p q IH]; simpl; [done|]. intros H.
  rewrite decide_False by set_solver. by rewrite IH by set_solver.
Qed.

(** Changing a node in place, keeping its link. *)
Lemma lseg_alter h p q e l a f next :
  NoDup q.*1 -> lseg h p q e -> (l, a) ∈ q -> h !! l = Some (node a next) ->
  lseg (<[l := node (f a) next]> h) p (q_alter l f q) e.
Proof.
  revert p. induction q as [|[l' a'] q IH]; intros p Hnd; simpl.
  { intros _ H. by apply elem_of_nil in H. }
  apply NoDup_cons in Hnd as [Hni Hnd].
  intros (-> & next' & Hl' & Hq) Hin Hl. case_decide as E; cbn [fst snd] in *; subst.
  - rewrite Hl in Hl'. apply (inj Some), node_inj in Hl' as [<- <-].
    split; [done|]. exists next. rewrite lookup_insert_eq. split; [done|].
    rewrite q_alter_notin by done. by apply lseg_insert_notin.
  - apply elem_of_cons in Hin as [[= -> ->]|Hin]; [done|].
    split; [done|]. exists next'. rewrite lookup_insert_ne by done. eauto.
Qed.

(** The last node of a segment redirected. *)
Lemma lseg_snoc_redirect h p q l a e e' :
  NoDup (q ++ [(l, a)]).*1 -> lseg h p (q ++ [(l, a)]) e ->
  lseg (<[l := node a e']> h) p (q ++ [(l, a)]) e'.
Proof.
  intros Hnd. rewrite fmap_app in Hnd. apply NoDup_app in Hnd as (_ & Hd & _).
  rewrite !lseg_app. intros (m & Hq & -> & next & Hl & Hn). exists (Some l). split.
  - apply lseg_insert_notin; [|done]. intros H. by apply (Hd _ H), list_elem_of_singleton.
  - split; [done|]. exists e'. by rewrite lookup_insert_eq.
Qed.

Lemma q_remove_notin l q : l ∉ q.*1 -> q_remove l q = q.
Proof.
  induction q as [|p q IH]; [done|]. intros H. unfold q_remove in *.
  rewrite filter_cons_True by (simpl in H; set_solver). rewrite IH; [done|]. simpl in H. set_solver.
Qed.

Lemma q_remove_app l q1 q2 : q_remove l (q1 ++ q2) = q_remove l q1 ++ q_remove l q2.
Proof. apply filter_app. Qed.

Lemma q_remove_mid l a q1 q2 :
  NoDup (q1 ++ (l, a) :: q2).*1 -> q_remove l (q1 ++ (l, a) :: q2) = q1 ++ q2.
Proof.
  rewrite fmap_app. rewrite fmap_cons. cbn [fst]. intros Hnd.
  apply NoDup_app in Hnd as (_ & Hd & Hnd). apply NoDup_cons in Hnd as [Hni _].
  rewrite q_remove_app. unfold q_remove at 2. rewrite filter_cons_False by (intros H; by apply H).
  fold (q_remove l q2). rewrite !q_remove_notin; [done|done|].
  intros H. apply (Hd _ H). set_solver.
Qed.

(** ** Lemmas: the representation relation *)
Lemma rep_queue_nodup c q d : cache_rep c q d -> NoDup q.*1.
Proof. intros [_ _ H _ _ _]. by apply NoDup_app in H as [? _]. Qed.

Lemma rep_disjoint c q d l : cache_rep c q d -> l ∈ q.*1 -> l ∉ d.*1.
Proof. intros [_ _ H _ _ _] Hl. apply NoDup_app in H as (_ & H & _). by apply H. Qed.

(** There is fuel for a walk over the whole queue. *)
Lemma rep_fuel c q d : cache_rep c q d -> (length q < walk_fuel c)%nat.
Proof.
  intros H. unfold walk_fuel. pose proof (rep_queue_nodup _ _ _ H) as Hnd.
  rewrite <- (length_fmap fst q), <- (size_list_to_set (C:=gset loc) _ Hnd), <- size_dom.
  apply Nat.lt_succ_r, subseteq_size. intros l Hl. apply elem_of_list_to_set in Hl.
  apply elem_of_dom, (rep_dom _ _ _ H). set_solver.
Qed.

Lemma rep_fresh c q d : cache_rep c q d -> (brk c ∉ q.*1 ++ d.*1) /\ heap c !! brk c = None.
Proof.
  intros H. assert (Hf : brk c ∉ q.*1 ++ d.*1).
  { intros Hin. pose proof (rep_brk _ _ _ H) as Hb. rewrite Forall_forall in Hb.
    specialize (Hb _ Hin). lia. }
  split; [done|]. destruct (heap c !! brk c) eqn:E; [|done].
  exfalso. apply Hf, (rep_dom _ _ _ H). by rewrite E.
Qed.

Lemma in_queue_fst (q : queue) l a : (l, a) ∈ q -> l ∈ q.*1.
Proof. intros H. apply list_elem_of_fmap. by exists (l, a). Qed.

Lemma deref_queue c q d l a :
  cache_rep c q d -> (l, a) ∈ q -> exists next, deref l c = Ok (node a next, c).
Proof.
  intros H Hin. destruct (lseg_lookup _ _ _ _ _ _ (rep_chain _ _ _ H) Hin) as [next E].
  exists next. unfold deref. by rewrite E.
Qed.

(** A change of a queued node that keeps its link. *)
Lemma write_req_rep c q d l a f g :
  cache_rep c q d -> (l, a) ∈ q -> (forall next, f (node a next) = node (g a) next) ->
  exists c', write_req l f c = Ok (tt, c') /\ cache_rep c' (q_alter l g q) d
             /\ entries c' = entries c /\ brk c' = brk c.
Proof.
  intros H Hin Hf.
  destruct (lseg_lookup _ _ _ _ _ _ (rep_chain _ _ _ H) Hin) as [next E].
  eexists. split_and!.
  - unfold write_req, sbind, deref. rewrite E. unfold smodify. rewrite Hf. done.
  - pose proof (in_queue_fst _ _ _ Hin) as Hl.
    pose proof (rep_disjoint _ _ _ _ H Hl) as Hld.
    pose proof (rep_queue_nodup _ _ _ H) as Hnq.
    destruct H as [Hc Hd Hnd Hdom Hb Hs]. constructor; simpl; rewrite ?q_alter_fst; try done.
    + by apply (lseg_alter _ _ _ _ _ a).
    + rewrite Forall_forall in Hd |- *. intros [l' a'] Hin'. destruct (Hd _ Hin') as [n' E'].
      exists n'. rewrite lookup_insert_ne; [done|]. intros ->. apply Hld.
      by eapply in_queue_fst.
    + intros l'. rewrite <- Hdom. destruct (decide (l = l')) as [<-|].
      * rewrite lookup_insert_eq, E. split; by eexists.
      * by rewrite lookup_insert_ne.
  - done.
  - done.
Qed.

(** A fresh node linked at the front. *)
Lemma rep_push c q d a :
  cache_rep c q d ->
  cache_rep (SrArpcache (entries c) (Some (brk c)) (<[brk c := node a (requests c)]> (heap c))
               (Pos.succ (brk c))) ((brk c, a) :: q) d.
Proof.
  intros H. destruct (rep_fresh _ _ _ H) as [Hf Hn].
  apply not_elem_of_app in Hf as Hf'. destruct Hf' as [Hfq Hfd].
  destruct H as [Hc Hd Hnd Hdom Hb Hs]. constructor; cbn [heap requests entries brk].
  - split; [done|]. exists (requests c). rewrite lookup_insert_eq. split; [done|].
    by apply lseg_insert_notin.
  - eapply Forall_impl; [exact Hd|]. intros [l a'] [n E]. cbn [fst snd] in *.
    exists n. rewrite lookup_insert_ne; [done|]. intros <-. congruence.
  - rewrite fmap_cons. apply NoDup_cons. done.
  - intros l. rewrite fmap_cons, <- app_comm_cons, elem_of_cons, <- Hdom. cbn [fst].
    destruct (decide (brk c = l)) as [<-|Hne].
    + rewrite lookup_insert_eq. split; [by left|by eexists].
    + rewrite lookup_insert_ne by done. split; [by right|]. by intros [->|].
  - rewrite fmap_cons, <- app_comm_cons. apply Forall_cons. cbn [fst]. split; [lia|].
    eapply Forall_impl; [exact Hb|]. intros l Hl; simpl in *; lia.
  - done.
Qed.

(** ** Lemmas: the walks *)
Lemma find_req_spec c p q fuel ip :
  lseg (heap c) p q None -> (length q < fuel)%nat ->
  find_req fuel p ip c = Ok (fst <$> q_find ip q, c).
Proof.
  revert p fuel. induction q as [|[l a] q IH]; intros p [|fuel] Hq Hf; simpl in Hf; try lia.
  - simpl in Hq. by subst.
  - destruct Hq as (-> & next & E & Hq). cbn [find_req].
    assert (Hd : deref l c = Ok (node a next, c)) by (unfold deref; by rewrite E).
    rewrite (sbind_step _ _ _ _ _ Hd). unfold q_find. cbn [List.find rq_ip node snd].
    destruct (q_ip a =? ip); [done|]. apply IH; [done|lia].
Qed.

Section Unlink.
Context (test : loc -> sr_arpreq -> bool) (ta : loc * areq -> bool).
Context (Htest : forall l a next, test l (node a next) = ta (l, a)).

(** What taking the node [l] out of the middle of the queue leaves. *)
Lemma unlink_rep c pre l a suf d next c' :
  cache_rep c (pre ++ (l, a) :: suf) d ->
  heap c !! l = Some (node a next) -> lseg (heap c) next suf None ->
  (match last pre with
   | None => c' = set_requests c next
   | Some (p, ap) => c' = set_heap c (<[p := node ap next]> (heap c))
   end) ->
  cache_rep c' (q_remove l (pre ++ (l, a) :: suf)) ((l, a) :: d).
Proof.
  intros H Hl Hsuf Hc'. pose proof (rep_queue_nodup _ _ _ H) as Hnd.
  rewrite q_remove_mid by done.
  destruct H as [Hc Hd Hall Hdom Hb Hs].
  assert (Hperm : (pre ++ (l, a) :: suf).*1 ++ d.*1 ≡ₚ (pre ++ suf).*1 ++ ((l, a) :: d).*1).
  { rewrite !fmap_app, !fmap_cons. cbn [fst]. solve_Permutation. }
  rewrite Hperm in Hall. setoid_rewrite Hperm in Hdom. rewrite Hperm in Hb.
  apply lseg_app in Hc as (m & Hpre & -> & next' & Hl' & Hsuf').
  rewrite Hl in Hl'. apply (inj Some), node_inj in Hl' as [_ <-].
  destruct (last pre) as [[p ap]|] eqn:Elast.
  - apply last_Some in Elast as [pre' ->]. subst c'.
    assert (Hp : heap c !! p = Some (node ap (Some l))).
    { apply lseg_app in Hpre as (m' & _ & -> & n' & E & Hn'). simpl in Hn'. by subst n'. }
    assert (Hpn : (p ∉ suf.*1) /\ p <> l /\ (p ∉ d.*1)).
    { clear -Hall. rewrite !fmap_app in Hall. rewrite fmap_cons in Hall. cbn [fst] in Hall.
      rewrite <- !app_assoc in Hall. apply NoDup_app in Hall as (_ & _ & Hall).
      simpl in Hall. apply NoDup_cons in Hall as [Hall _]. set_solver. }
    destruct Hpn as (Hps & Hpl & Hpd).
    assert (Hdom' : forall l', is_Some (<[p := node ap next]> (heap c) !! l') <-> is_Some (heap c !! l')).
    { intros l'. destruct (decide (p = l')) as [<-|].
      - rewrite lookup_insert_eq, Hp. split; by eexists.
      - by rewrite lookup_insert_ne. }
    constructor; simpl; try done.
    + apply lseg_app. exists next. split; [|by apply lseg_insert_notin].
      apply (lseg_snoc_redirect _ _ _ _ _ (Some l)); [|done].
      rewrite fmap_app in Hnd. by apply NoDup_app in Hnd as [? _].
    + apply Forall_cons. cbn [fst snd]. split.
      { exists next. by rewrite lookup_insert_ne. }
      rewrite Forall_forall in Hd |- *. intros [l' a'] Hin. destruct (Hd _ Hin) as [n E].
      exists n. rewrite lookup_insert_ne; [done|]. intros ->. apply Hpd. by eapply in_queue_fst.
    + intros l'. rewrite Hdom'. apply Hdom.
  - apply last_None in Elast as ->. subst c'. simpl in Hpre. constructor; simpl; try done.
    apply Forall_cons. split; [by exists next|done].
Qed.

Lemma unlink_loop_spec c d pre suf prev req fuel :
  cache_rep c (pre ++ suf) d -> prev = fst <$> last pre ->
  lseg (heap c) req suf None -> (length suf < fuel)%nat ->
  match List.find ta suf with
  | None => unlink_loop fuel test prev req c = Ok (None, c)
  | Some (l, a) => exists c', unlink_loop fuel test prev req c = Ok (Some l, c')
      /\ cache_rep c' (q_remove l (pre ++ suf)) ((l, a) :: d)
      /\ entries c' = entries c /\ brk c' = brk c
  end.
Proof.
  revert pre prev req fuel.
  induction suf as [|[l a] suf IH]; intros pre prev req [|fuel] H -> Hreq Hf; simpl in Hf; try lia.
  { simpl in Hreq. by subst. }
  destruct Hreq as (-> & next & Hl & Hsuf). cbn [List.find unlink_loop].
  assert (Hd : deref l c = Ok (node a next, c)) by (unfold deref; by rewrite Hl).
  rewrite (sbind_step _ _ _ _ _ Hd), Htest. destruct (ta (l, a)).
  - pose proof (unlink_rep c pre l a suf d next) as Hrep.
    destruct (last pre) as [[p ap]|] eqn:Elast; cbn [fmap option_fmap option_map fst].
    + pose proof Elast as Elast'. apply last_Some in Elast' as [pre' ->].
      pose proof (rep_chain _ _ _ H) as Hch.
      apply lseg_app in Hch as (m & Hpre & -> & _).
      apply lseg_app in Hpre as (m' & _ & -> & n' & Ep & Hn'). simpl in Hn'. subst n'.
      eexists. split_and!; [|by apply Hrep|done|done].
      unfold set_next, write_req, sbind, deref. by rewrite Ep.
    + eexists. split_and!; [done|by apply Hrep|done|done].
  - rewrite (cons_middle (l, a) pre suf) in H |- *. rewrite app_assoc in H |- *.
    apply IH; [done| |done|lia]. by rewrite last_snoc.
Qed.

Lemma unlink_spec c q d :
  cache_rep c q d ->
  match List.find ta q with
  | None => unlink_loop (walk_fuel c) test None (requests c) c = Ok (None, c)
  | Some (l, a) => exists c', unlink_loop (walk_fuel c) test None (requests c) c = Ok (Some l, c')
      /\ cache_rep c' (q_remove l q) ((l, a) :: d) /\ entries c' = entries c /\ brk c' = brk c
  end.
Proof.
  intros H. apply (unlink_loop_spec c d [] q); try done.
  - apply (rep_chain _ _ _ H).
  - by eapply rep_fuel.
Qed.
End Unlink.

(** ** Lemmas: the operations refine the specification *)
Lemma find_spec_ip ip (q : queue) l a :
  q_find ip q = Some (l, a) -> (l, a) ∈ q /\ q_ip a = ip.
Proof.
  intros E. apply List.find_some in E as [Hin Hip]. simpl in Hip.
  split; [by apply list_elem_of_In|by apply Z.eqb_eq].
Qed.

Lemma q_alter_head l f a q : l ∉ q.*1 -> q_alter l f ((l, a) :: q) = (l, f a) :: q.
Proof.
  intros H. unfold q_alter. simpl. rewrite decide_True by done. f_equal. by apply q_alter_notin.
Qed.

(** The part of [sr_arpcache_queuereq] that stores the packet. *)
Lemma add_packet_rep c q d l a packet len iface nm :
  cache_rep c q d -> (l, a) ∈ q ->
  (Z.to_nat len <= length packet)%nat -> strncpy sr_IFACE_NAMELEN iface = Ok nm ->
  let pkt := SrPacket (take (Z.to_nat len) packet) len nm in
  exists c', (do! buf := slift (load packet 0 (Z.to_nat len)) in
              do! nm := slift (strncpy sr_IFACE_NAMELEN iface) in
              write_req l (fun r => SrArpreq (rq_ip r) (rq_sent r) (rq_times_sent r)
                 (SrPacket buf len nm :: rq_packets r) (rq_next r))) c = Ok (tt, c')
    /\ cache_rep c' (q_alter l (add_pkt pkt) q) d /\ entries c' = entries c /\ brk c' = brk c.
Proof.
  intros H Hin Hlen Hnm pkt.
  assert (E1 : slift (load packet 0 (Z.to_nat len)) c = Ok (take (Z.to_nat len) packet, c)).
  { apply slift_step. rewrite load_ok by lia. done. }
  rewrite (sbind_step _ _ _ _ _ E1), (sbind_step _ _ _ _ _ (slift_step _ _ _ Hnm)).
  apply (write_req_rep _ _ _ _ a); done.
Qed.

(** A new request for [ip], linked at the front. *)
Lemma link_fresh c ip :
  (do! l := alloc_req in
   do! c := sget in
   run! write_req l (fun r => SrArpreq ip (rq_sent r) (rq_times_sent r)
                                (rq_packets r) (requests c)) in
   run! smodify (fun c => set_requests c (Some l)) in
   sret l) c
  = Ok (brk c, SrArpcache (entries c) (Some (brk c))
                 (<[brk c := node (Areq ip 0 0 []) (requests c)]> (heap c)) (Pos.succ (brk c))).
Proof.
  unfold alloc_req, sget, write_req, deref, smodify, sret, sbind. cbn [heap].
  rewrite lookup_insert_eq. unfold set_heap, set_requests. cbn. by rewrite insert_insert_eq.
Qed.

Lemma queuereq_refines c q d ip packet len iface nm :
  cache_rep c q d -> 0 < len -> (Z.to_nat len <= length packet)%nat ->
  strncpy sr_IFACE_NAMELEN iface = Ok nm ->
  let pkt := SrPacket (take (Z.to_nat len) packet) len nm in
  exists c', sr_arpcache_queuereq ip (Some packet) len (Some iface) c
             = Ok ((spec_queuereq (brk c) ip pkt q).1, c')
    /\ cache_rep c' (spec_queuereq (brk c) ip pkt q).2 d /\ entries c' = entries c
    /\ (brk c <= brk c')%positive.
Proof.
  intros H Hpos Hlen Hnm pkt. unfold sr_arpcache_queuereq.
  assert (Hne : (len =? 0) = false) by (apply Z.eqb_neq; lia). rewrite Hne.
  rewrite sget_step.
  rewrite (sbind_step _ _ _ _ _ (find_req_spec c _ _ _ ip (rep_chain _ _ _ H) (rep_fuel _ _ _ H))).
  unfold spec_queuereq. destruct (q_find ip q) as [[l a]|] eqn:Ef; cbn [fmap option_fmap option_map fst snd].
  - apply find_spec_ip in Ef as [Hin Hip].
    destruct (add_packet_rep _ _ _ _ _ packet len iface nm H Hin Hlen Hnm) as (c' & E & Hr & He & Hb).
    exists c'. rewrite (sbind_step _ _ _ _ _ (eq_refl : sret l c = Ok (l, c))).
    rewrite (sbind_step _ _ _ _ _ E). split_and!; try done. lia.
  - set (a0 := Areq ip 0 0 []).
    pose proof (rep_push _ _ _ a0 H) as H1.
    destruct (rep_fresh _ _ _ H) as [Hf Hn]. apply not_elem_of_app in Hf as [Hfq _].
    assert (Hin : (brk c, a0) ∈ (brk c, a0) :: q) by by left.
    destruct (add_packet_rep _ _ _ _ _ packet len iface nm H1 Hin Hlen Hnm) as (c' & E & Hr & He & Hb).
    exists c'. rewrite (sbind_step _ _ _ _ _ (link_fresh c ip)), (sbind_step _ _ _ _ _ E).
    rewrite q_alter_head in Hr by done. split_and!; try done. simpl in Hb. lia.
Qed.

Lemma q_find_None ip q : q_find ip q = None -> ip ∉ (fun p => q_ip p.2) <$> q.
Proof.
  intros E Hin. apply list_elem_of_fmap in Hin as (p & -> & Hp).
  pose proof (List.find_none _ _ E p (proj1 (list_elem_of_In _ _) Hp)) as H. simpl in H.
  apply Z.eqb_neq in H. done.
Qed.

Lemma q_alter_ips l f q :
  (forall a, q_ip (f a) = q_ip a) ->
  (fun p => q_ip p.2) <$> q_alter l f q = (fun p => q_ip p.2) <$> q.
Proof.
  intros Hf. unfold q_alter. rewrite <- list_fmap_compose. apply list_fmap_ext.
  intros _ p _. simpl. case_decide; simpl; auto.
Qed.

Lemma q_alter_Forall (P : areq -> Prop) l f q :
  (forall a, P a -> P (f a)) -> Forall (fun p => P p.2) q -> Forall (fun p => P p.2) (q_alter l f q).
Proof.
  intros Hf H. unfold q_alter. apply Forall_fmap. eapply Forall_impl; [exact H|].
  intros p Hp. simpl. case_decide; simpl; auto.
Qed.

Lemma spec_queuereq_ok fresh ip p q : queue_ok q -> queue_ok (spec_queuereq fresh ip p q).2.
Proof.
  intros [Hi Hp]. unfold spec_queuereq. destruct (q_find ip q) as [[l a]|] eqn:E; simpl.
  - constructor; [by rewrite q_alter_ips|]. by apply (q_alter_Forall (fun a => q_pkts a <> [])).
  - constructor.
    + rewrite fmap_cons. apply NoDup_cons. split; [by apply q_find_None|done].
    + by apply Forall_cons.
Qed.

Lemma q_remove_ok l q : queue_ok q -> queue_ok (q_remove l q).
Proof.
  intros [Hi Hp]. constructor.
  - eapply sublist_NoDup; [exact Hi|]. apply fmap_sublist, sublist_filter.
  - rewrite Forall_forall in Hp |- *. intros p [_ Hin]%list_elem_of_filter. by apply Hp.
Qed.

(** *** Insertion *)
Definition spec_entries (now : Z) (mac : list Z) (ip : Z) (es : list sr_arpentry) : list sr_arpentry :=
  let i := free_slot es in
  if (i =? SR_ARPCACHE_SZ)%nat then es else <[i := SrArpentry mac ip now true]> es.

Lemma set_entries_rep c q d es :
  cache_rep c q d -> length es = SR_ARPCACHE_SZ -> cache_rep (set_entries c es) q d.
Proof. intros [] Hl. by constructor. Qed.

Lemma spec_entries_length now mac ip es :
  length es = SR_ARPCACHE_SZ -> length (spec_entries now mac ip es) = SR_ARPCACHE_SZ.
Proof. intros H. unfold spec_entries. case_match; [done|]. by rewrite length_insert. Qed.

(** The part of [sr_arpcache_insert] that fills the table. *)
Lemma fill_slot_ok c now mac ip :
  length mac = 6%nat ->
  (if (free_slot (entries c) =? SR_ARPCACHE_SZ)%nat then sret tt
   else do! m := slift (load mac 0 6) in
        smodify (fun c0 =>
          set_entries c0 (<[free_slot (entries c) := SrArpentry m ip now true]> (entries c0)))) c
  = Ok (tt, set_entries c (spec_entries now mac ip (entries c))).
Proof.
  intros Hm. unfold spec_entries. destruct (free_slot (entries c) =? SR_ARPCACHE_SZ)%nat.
  - unfold sret, set_entries. by destruct c.
  - assert (E : slift (load mac 0 6) c = Ok (mac, c)).
    { apply slift_step. rewrite load_ok by lia. f_equal. apply take_ge. simpl. lia. }
    by rewrite (sbind_step _ _ _ _ _ E).
Qed.

Lemma insert_refines c q d now mac ip :
  cache_rep c q d -> length mac = 6%nat ->
  exists c', sr_arpcache_insert now mac ip c = Ok (fst <$> q_find ip q, c')
    /\ entries c' = spec_entries now mac ip (entries c)
    /\ match q_find ip q with
        | Some (l, a) => cache_rep c' (q_remove l q) ((l, a) :: d)
        | None => cache_rep c' q d
        end.
Proof.
  intros H Hm. unfold sr_arpcache_insert.
  pose proof (rep_size _ _ _ H) as Hsz.
  rewrite sget_step.
  pose proof (unlink_spec (fun _ r => rq_ip r =? ip) (fun p => q_ip p.2 =? ip)
    (fun _ _ _ => eq_refl) c q d H) as Hu.
  change (List.find _ q) with (q_find ip q) in Hu.
  assert (Hfill : forall c1 (o : option loc), (do! c := sget in
     let i := free_slot (entries c) in
     run! (if (i =? SR_ARPCACHE_SZ)%nat then sret tt
           else do! m := slift (load mac 0 6) in
                smodify (fun c => set_entries c (<[i := SrArpentry m ip now true]> (entries c)))) in
     sret o) c1 = Ok (o, set_entries c1 (spec_entries now mac ip (entries c1)))).
  { intros c1 o. rewrite sget_step. cbv zeta.
    by rewrite (sbind_step _ _ _ _ _ (fill_slot_ok c1 now mac ip Hm)). }
  destruct (q_find ip q) as [[l a]|].
  - destruct Hu as (c1 & E & Hr & He & Hb). rewrite (sbind_step _ _ _ _ _ E), Hfill.
    eexists. split_and!; [done|by rewrite He|].
    apply set_entries_rep; [done|]. rewrite He. by apply spec_entries_length.
  - rewrite (sbind_step _ _ _ _ _ Hu), Hfill. eexists. split_and!; [done|done|].
    apply set_entries_rep; [done|]. by apply spec_entries_length.
Qed.

(** *** Destruction *)
Lemma free_rep c q d l a : cache_rep c q ((l, a) :: d) ->
  exists c', free_req l c = Ok (tt, c') /\ cache_rep c' q d /\ entries c' = entries c.
Proof.
  intros [Hc Hd Hnd Hdom Hb Hs]. apply Forall_cons in Hd as [[next E] Hd]. simpl in E.
  rewrite fmap_cons in Hnd, Hdom, Hb. cbn [fst] in *.
  assert (Hp : q.*1 ++ l :: d.*1 ≡ₚ l :: q.*1 ++ d.*1) by solve_Permutation.
  rewrite Hp in Hnd, Hb. setoid_rewrite Hp in Hdom.
  apply NoDup_cons in Hnd as [Hni Hnd]. apply Forall_cons in Hb as [_ Hb].
  eexists. split_and!.
  - unfold free_req, sbind, deref. by rewrite E.
  - constructor; simpl; try done.
    + apply lseg_delete_notin; [set_solver|done].
    + rewrite Forall_forall in Hd |- *. intros [l' a'] Hin. destruct (Hd _ Hin) as [n E'].
      exists n. cbn [fst snd] in *. rewrite lookup_delete_ne; [done|]. intros ->. apply Hni.
      apply elem_of_app. right. by eapply in_queue_fst.
    + intros l'. destruct (decide (l = l')) as [<-|Hne].
      * rewrite lookup_delete_eq. split; [by intros []|done].
      * rewrite lookup_delete_ne, Hdom, elem_of_cons by done. naive_solver.
  - done.
Qed.

(** Destroying a request that is on the queue removes it from there. *)
Lemma destroy_queued c q d l :
  cache_rep c q d -> l ∈ q.*1 ->
  exists c', sr_arpreq_destroy (Some l) c = Ok (tt, c') /\ cache_rep c' (q_remove l q) d
             /\ entries c' = entries c.
Proof.
  intros H Hl. unfold sr_arpreq_destroy.
  rewrite sget_step.
  pose proof (unlink_spec (fun l' _ => Pos.eqb l' l) (fun p => Pos.eqb p.1 l)
    (fun _ _ _ => eq_refl) c q d H) as Hu.
  destruct (List.find _ q) as [[l' a]|] eqn:Ef.
  - destruct Hu as (c1 & E & Hr & He & _). apply List.find_some in Ef as [_ Ef]. simpl in Ef.
    apply Pos.eqb_eq in Ef as ->. rewrite (sbind_step _ _ _ _ _ E).
    destruct (free_rep _ _ _ _ _ Hr) as (c2 & E2 & Hr2 & He2).
    exists c2. split_and!; [done|done|congruence].
  - exfalso. apply list_elem_of_fmap in Hl as ([l' a] & -> & Hin).
    pose proof (List.find_none _ _ Ef _ (proj1 (list_elem_of_In _ _) Hin)) as Hx. simpl in Hx.
    by rewrite Pos.eqb_refl in Hx.
Qed.

(** Destroying a request that was unlinked before only frees it. *)
Lemma destroy_detached c q d l a :
  cache_rep c q ((l, a) :: d) ->
  exists c', sr_arpreq_destroy (Some l) c = Ok (tt, c') /\ cache_rep c' q d /\ entries c' = entries c.
Proof.
  intros H. unfold sr_arpreq_destroy.
  rewrite sget_step.
  pose proof (unlink_spec (fun l' _ => Pos.eqb l' l) (fun p => Pos.eqb p.1 l)
    (fun _ _ _ => eq_refl) c q _ H) as Hu.
  destruct (List.find _ q) as [[l' a']|] eqn:Ef.
  - exfalso. apply List.find_some in Ef as [Hin Ef]. simpl in Ef. apply Pos.eqb_eq in Ef as ->.
    apply list_elem_of_In, in_queue_fst in Hin.
    eapply (rep_disjoint _ _ _ _ H); [exact Hin|]. by left.
  - rewrite (sbind_step _ _ _ _ _ Hu). by apply (free_rep _ _ _ _ a).
Qed.

(** *** Lookup *)
Definition hits (ip : Z) (e : sr_arpentry) : bool := ae_valid e && (ae_ip e =? ip).

(** The loop finds the last hit: a search from the end of the table. *)
Lemma lookup_loop_rev l ip acc :
  lookup_loop l ip acc =
  match List.find (hits ip) (rev l) with Some e => Some e | None => acc end.
Proof.
  revert acc. induction l as [|e l IH]; intros acc; [done|]. cbn [lookup_loop rev].
  rewrite IH. assert (Hf : List.find (hits ip) (rev l ++ [e])
    = match List.find (hits ip) (rev l) with Some x => Some x | None => if hits ip e then Some e else None end).
  { clear IH. induction (rev l) as [|x r IHr]; [done|]. simpl. rewrite IHr. by destruct (hits ip x). }
  rewrite Hf. destruct (List.find _ (rev l)); [done|]. unfold hits. by destruct (_ && _).
Qed.

Lemma lookup_loop_app l1 l2 ip acc :
  lookup_loop (l1 ++ l2) ip acc = lookup_loop l2 ip (lookup_loop l1 ip acc).
Proof. revert acc. induction l1; intros acc; simpl; [done|]. by rewrite IHl1. Qed.

(** After an insertion into a table with room, the new mapping is what lookup
    finds, unless an older entry for that address sits further on. *)
Lemma lookup_after_insert now mac ip es :
  length es = SR_ARPCACHE_SZ -> (free_slot es < SR_ARPCACHE_SZ)%nat ->
  lookup_loop (spec_entries now mac ip es) ip None
  = lookup_loop (drop (S (free_slot es)) es) ip (Some (SrArpentry mac ip now true)).
Proof.
  intros Hl Hlt. unfold spec_entries. rewrite (proj2 (Nat.eqb_neq _ _)) by lia.
  rewrite insert_take_drop by lia. rewrite lookup_loop_app. cbn [lookup_loop ae_valid ae_ip].
  by rewrite Z.eqb_refl.
Qed.

Lemma expire_rep c q d curtime :
  cache_rep c q d ->
  exists c', expire_entries curtime c = Ok (tt, c') /\ cache_rep c' q d
             /\ entries c' = map (expire_entry curtime) (entries c).
Proof.
  intros H. eexists. split_and!; [done| |done].
  apply set_entries_rep; [done|]. rewrite length_map. apply (rep_size _ _ _ H).
Qed.

(** *** Positions in the queue *)
Lemma q_alter_mid l f a q1 q2 :
  NoDup (q1 ++ (l, a) :: q2).*1 ->
  q_alter l f (q1 ++ (l, a) :: q2) = q1 ++ (l, f a) :: q2.
Proof.
  rewrite fmap_app, fmap_cons. cbn [fst]. intros Hnd.
  apply NoDup_app in Hnd as (_ & Hd & Hnd). apply NoDup_cons in Hnd as [Hni _].
  unfold q_alter. rewrite map_app. fold (q_alter l f q1). rewrite q_alter_notin.
  2:{ intros H. apply (Hd _ H). by left. }
  f_equal. by apply q_alter_head.
Qed.

Lemma deref_mid c q1 l a q2 d :
  cache_rep c (q1 ++ (l, a) :: q2) d ->
  exists next, deref l c = Ok (node a next, c) /\ lseg (heap c) next q2 None.
Proof.
  intros H. pose proof (rep_chain _ _ _ H) as Hc.
  apply lseg_app in Hc as (m & _ & -> & next & E & Hs). exists next. split; [|done].
  unfold deref. by rewrite E.
Qed.

Lemma deref_gone c q d l :
  cache_rep c q d -> l ∉ q.*1 ++ d.*1 -> deref l c = Fault UseAfterFree.
Proof.
  intros H Hl. unfold deref. destruct (heap c !! l) eqn:E; [|done].
  exfalso. apply Hl, (rep_dom _ _ _ H). by rewrite E.
Qed.
