(* ===== verification/Dump.v ===== *)
(** * Dump: the packet dump file (sr_dumper.h)

    The structures of a tcpdump file as the router writes them, little-endian
    and without padding, and a reader for such files. *)

From S2P Require Import Prelude Memory Protocol.

Definition TCPDUMP_MAGIC : Z := 2712847316.
Definition PCAP_VERSION_MAJOR : Z := 2.
Definition PCAP_VERSION_MINOR : Z := 4.
Definition LINKTYPE_ETHERNET : Z := 1.

Record pcap_file_header := PcapFileHeader {
  fh_magic : Z;
  fh_version_major : Z;
  fh_version_minor : Z;
  fh_thiszone : Z;
  fh_sigfigs : Z;
  fh_snaplen : Z;
  fh_linktype : Z }.

(** struct pcap_pkthdr; [ph_ts] is the timeval, seconds and microseconds. *)
Record pcap_pkthdr := PcapPkthdr {
  ph_ts : Z * Z;
  ph_caplen : Z;
  ph_len : Z }.

(** In the file the members of the time are 4 bytes each (pcap_sf_pkthdr). *)
Definition encode_file_header (h : pcap_file_header) : list Z :=
  le_bytes4 (fh_magic h) ++ le_bytes2 (fh_version_major h) ++ le_bytes2 (fh_version_minor h)
  ++ le_bytes4 (fh_thiszone h) ++ le_bytes4 (fh_sigfigs h) ++ le_bytes4 (fh_snaplen h)
  ++ le_bytes4 (fh_linktype h).
Definition encode_sf_pkthdr (h : pcap_pkthdr) : list Z :=
  le_bytes4 (ph_ts h).1 ++ le_bytes4 (ph_ts h).2 ++ le_bytes4 (ph_caplen h) ++ le_bytes4 (ph_len h).

(** ** Reading it back *)
Abbreviation record := (pcap_pkthdr * list Z)%type.
Definition encode_record (r : record) : list Z := encode_sf_pkthdr r.1 ++ r.2.

Definition word_at (bs : list Z) (off n : nat) : Z := le_word (take n (drop off bs)).

Definition parse_file_header (bs : list Z) : option (pcap_file_header * list Z) :=
  if (length bs <? 24)%nat then None
  else Some (PcapFileHeader (word_at bs 0 4) (word_at bs 4 2) (word_at bs 6 2) (word_at bs 8 4) (word_at bs 12 4)
               (word_at bs 16 4) (word_at bs 20 4), drop 24 bs).

(** A header and the bytes it announces, until the end of the file. *)
Fixpoint parse_records (fuel : nat) (bs : list Z) : option (list record) :=
  match bs with
  | [] => Some []
  | _ =>
      match fuel with
      | O => None
      | S fuel' =>
          let h := PcapPkthdr (word_at bs 0 4, word_at bs 4 4) (word_at bs 8 4) (word_at bs 12 4) in
          if Z.of_nat (length bs) <? 16 + ph_caplen h then None
          else
            let n := Z.to_nat (ph_caplen h) in
            match parse_records fuel' (drop (16 + n) bs) with
            | Some rs => Some ((h, take n (drop 16 bs)) :: rs)
            | None => None
            end
      end
  end.
Definition parse_dump (bs : list Z) : option (pcap_file_header * list record) :=
  match parse_file_header bs with
  | Some (h, rest) => match parse_records (length rest) rest with Some rs => Some (h, rs) | None => None end
  | None => None
  end.

(** A record that can be read back. *)
Record record_ok (r : record) : Prop := {
  ro_sec : u32_ok (ph_ts r.1).1;
  ro_usec : u32_ok (ph_ts r.1).2;
  ro_caplen : u32_ok (ph_caplen r.1);
  ro_len : u32_ok (ph_len r.1);
  ro_data : ph_caplen r.1 = Z.of_nat (length r.2) }.

Record file_header_ok (h : pcap_file_header) : Prop := {
  fo_words : Forall u32_ok [fh_magic h; fh_thiszone h; fh_sigfigs h; fh_snaplen h; fh_linktype h];
  fo_halves : Forall u16_ok [fh_version_major h; fh_version_minor h] }.

(** ** Lemmas *)
Lemma le_word_u32 z : u32_ok z -> le_word (le_bytes4 z) = z.
Proof. intros H. rewrite le_word_bytes4. by apply Z.mod_small. Qed.
Lemma le_word_u16 z : u16_ok z -> le_word (le_bytes2 z) = z.
Proof. intros H. rewrite le_word_bytes2. by apply Z.mod_small. Qed.

(** [word_of z]: the bytes of the word [z], by name. *)
Ltac word_of z :=
  let E := fresh "E" in let L := fresh "L" in let l := fresh "l" in
  first
    [ pose proof (le_word_u32 z ltac:(assumption)) as E; pose proof (eq_refl : length (le_bytes4 z) = 4%nat) as L;
      generalize dependent (le_bytes4 z); intros l E L; explode l
    | pose proof (le_word_u16 z ltac:(assumption)) as E; pose proof (eq_refl : length (le_bytes2 z) = 2%nat) as L;
      generalize dependent (le_bytes2 z); intros l E L; explode l ].

Lemma parse_file_header_ok h rest :
  file_header_ok h -> parse_file_header (encode_file_header h ++ rest) = Some (h, rest).
Proof.
  intros [Hw Hh]. rewrite !Forall_cons in Hw. rewrite !Forall_cons in Hh. destruct Hw as (H1 & H2 & H3 & H4 & H5 & _).
  destruct Hh as (H6 & H7 & _). unfold parse_file_header.
  rewrite (proj2 (Nat.ltb_ge _ _)) by (rewrite length_app; simpl; lia).
  destruct h as [m v1 v2 tz sf sl lt]; unfold encode_file_header; cbn [fh_magic fh_version_major fh_version_minor
    fh_thiszone fh_sigfigs fh_snaplen fh_linktype] in *.
  word_of m. word_of v1. word_of v2. word_of tz. word_of sf. word_of sl. word_of lt.
  unfold word_at. cbn [app take drop]. rewrite take_0, drop_0. congruence.
Qed.

Lemma parse_record_ok fuel r rest :
  record_ok r ->
  parse_records (S fuel) (encode_record r ++ rest)
  = match parse_records fuel rest with Some rs => Some (r :: rs) | None => None end.
Proof.
  destruct r as [[[s u] c n] data]. intros [H1 H2 H3 H4 H5]. unfold encode_record, encode_sf_pkthdr.
  cbn [fst snd ph_ts ph_caplen ph_len] in *.
  word_of s. word_of u. word_of c. word_of n. cbn [app parse_records].
  unfold word_at. cbn [take drop ph_caplen Nat.add]. rewrite take_0, E, E0, E1, E2, H5, Nat2Z.id.
  rewrite (proj2 (Z.ltb_ge _ _)) by (cbn [length]; rewrite length_app; lia).
  by rewrite drop_0, drop_app_length, take_app_length.
Qed.

Lemma length_encode_record r : length (encode_record r) = (16 + length r.2)%nat.
Proof. done. Qed.

Lemma parse_records_ok rs : forall fuel,
  Forall record_ok rs -> (length (mjoin (encode_record <$> rs)) <= fuel)%nat ->
  parse_records fuel (mjoin (encode_record <$> rs)) = Some rs.
Proof.
  induction rs as [|r rs IH]; intros fuel H Hf; [by destruct fuel|]. apply Forall_cons in H as [Hr H].
  rewrite fmap_cons in *.
  change (mjoin (encode_record r :: (encode_record <$> rs))) with (encode_record r ++ mjoin (encode_record <$> rs)) in *.
  rewrite length_app, length_encode_record in Hf.
  destruct fuel as [|fuel]; [lia|]. by rewrite parse_record_ok, IH by (done || lia).
Qed.

Lemma parse_dump_ok h rs :
  file_header_ok h -> Forall record_ok rs ->
  parse_dump (encode_file_header h ++ mjoin (encode_record <$> rs)) = Some (h, rs).
Proof. intros Hh Hr. unfold parse_dump. by rewrite parse_file_header_ok, parse_records_ok. Qed.
