(* ===== verification/World.v ===== *)
(** * World: the router instance, the operating system, and sending

    [world] is the state every handler works on: the [sr_instance] with its
    interfaces, routes and ARP cache, plus what the process has written so far.
    The operating system is the class [OS]: the clock, the results of [write],
    the contents of fresh heap blocks.  They are functions of [ticks], the
    number of calls made so far, so nothing is assumed about how they change; no
    theorem relates the contents of two blocks.  [os_wild_read] is whether a read
    through an uninitialised pointer is harmless at some moment.

    This file also models the writing half of sr_dumper.c and the sending half of sr_vns_comm.c:
    [sr_log_packet], [sr_ether_addrs_match_interface] and [sr_send_packet],
    through which every packet leaves the router. *)

From S2P Require Import Prelude Memory Protocol Utils Iface Rt ArpCache Dump.

(** ** The operating system *)
Class OS := {
  (** [time(NULL)] *)
  os_time : nat -> Z;
  (** [write(fd, buf, n)]: the result for a message of [n] bytes *)
  os_write : nat -> Z -> Z;
  (** what [malloc] leaves in a block *)
  os_malloc : nat -> list Z;
  (** [gettimeofday]: seconds and microseconds *)
  os_timeofday : nat -> Z * Z;
  (** whether the uninitialised pointer followed at sr_router.c:422 points, at
      that moment, to memory that can be read *)
  os_wild_read : nat -> bool }.

(** ** The state *)
Inductive event :=
| Write (msg : list Z) (ret : Z)   (** a message offered to [write], and its result *)
| Log (bytes : list Z)             (** bytes appended to the dump file *)
| Stdout (bytes : list Z).         (** the same, when the dump file is the standard output *)

(** [sr->logfile]: null, a file of its own, the standard output, or a pointer to
    a file that has been closed.  What the program prints goes to the standard
    output as well and is not modelled: what is in a dump on it can only be
    said of a file of its own. *)
Inductive dump_file := NoDump | Dumping | DumpStdout | DumpClosed.
#[export] Instance dump_file_eq_dec : EqDecision dump_file.
Proof. solve_decision. Defined.

Record world := World {
  if_list : list sr_if;
  routing_table : list sr_rt;
  cache : sr_arpcache;
  logfile : dump_file;
  ticks : nat;
  out : list event }.              (** oldest first *)

Abbreviation M := (ST world).

Definition set_cache (w : world) (c : sr_arpcache) : world :=
  World (if_list w) (routing_table w) c (logfile w) (ticks w) (out w).
Definition set_ifs (w : world) (l : list sr_if) : world :=
  World l (routing_table w) (cache w) (logfile w) (ticks w) (out w).
Definition set_routes (w : world) (l : list sr_rt) : world :=
  World (if_list w) l (cache w) (logfile w) (ticks w) (out w).

(** An operation on the cache, run on the instance's cache. *)
Definition on_cache {A} (m : ST sr_arpcache A) : M A :=
  fun w => match m (cache w) with
           | Ok (a, c) => Ok (a, set_cache w c)
           | Fault f => Fault f
           end.
Definition emit (e : event) : M unit :=
  fun w => Ok (tt, World (if_list w) (routing_table w) (cache w) (logfile w) (ticks w)
                         (out w ++ [e])).
(** The number of this system call; the next one gets the next number. *)
Definition tick : M nat :=
  fun w => Ok (ticks w, World (if_list w) (routing_table w) (cache w) (logfile w)
                              (S (ticks w)) (out w)).

Definition PACKET_DUMP_SIZE : Z := 1024.
Definition VNSPACKET : Z := 4.

(** c_packet_header: mLen, mType, mInterfaceName[16] *)
Module PktHdr.
Definition mLen : nat := 0.
Definition mType : nat := mLen + 4.
Definition mInterfaceName : nat := mType + 4.
Definition size : nat := mInterfaceName + 16.
End PktHdr.

Section OS.
Context {os : OS}.

(** The uninitialised pointer leads nowhere at some moment. *)
Definition wild_host : Prop := exists k, os_wild_read k = false.

Definition time : M Z := do! k := tick in sret (os_time k).
Definition gettimeofday : M (Z * Z) := do! k := tick in sret (os_timeofday k).

(** ** sr_dumper.c *)

(** [fwrite] to a file, which must not have been closed; and to [sr->logfile]. *)
Definition fwrite_to (fp : dump_file) (bytes : list Z) : M unit :=
  match fp with
  | Dumping => emit (Log bytes)
  | DumpStdout => emit (Stdout bytes)
  | NoDump => sfault NullDeref
  | DumpClosed => sfault UseAfterFree
  end.
Definition fwrite (bytes : list Z) : M unit := do! w := sget in fwrite_to (logfile w) bytes.

(** The header of the packet, and [caplen] bytes of it. *)
Definition sr_dump (h : pcap_pkthdr) (sp : list Z) : M unit :=
  run! fwrite (encode_sf_pkthdr h) in
  do! data := slift (load sp 0 (Z.to_nat (u32 (ph_caplen h)))) in
  fwrite data.

Definition sf_write_header (fp : dump_file) (linktype thiszone snaplen : Z) : M unit :=
  fwrite_to fp (encode_file_header
    (PcapFileHeader TCPDUMP_MAGIC PCAP_VERSION_MAJOR PCAP_VERSION_MINOR thiszone 0 snaplen linktype)).

(** ** sr_vns_comm.c: sending *)

(** The header of the record [sr_log_packet] writes. *)
Definition log_header (tv : Z * Z) (len : Z) : pcap_pkthdr :=
  let size := if PACKET_DUMP_SIZE <? len then PACKET_DUMP_SIZE else len in
  PcapPkthdr tv size (if size <? PACKET_DUMP_SIZE then size else PACKET_DUMP_SIZE).

Definition sr_log_packet (buf : list Z) (len : Z) : M unit :=
  do! w := sget in
  match logfile w with
  | NoDump => sret tt
  | _ => do! tv := gettimeofday in sr_dump (log_header tv len) buf
  end.

(** Returns 1 when the source address of the frame is the interface's. *)
Definition sr_ether_addrs_match_interface (buf : list Z) (name : list Z) : M bool :=
  do! w := sget in
  do! iface := slift (sr_get_interface (if_list w) name) in
  match iface with
  | None => sret false
  | Some i =>
      do! shost := slift (load buf Eth.ether_shost ETHER_ADDR_LEN) in
      do! addr := slift (load (if_addr i) 0 ETHER_ADDR_LEN) in
      sret (bool_decide (shost = addr))
  end.

(** The message built around a frame. *)
Definition packet_message (junk buf : list Z) (len total_len : Z) (iface : list Z) : res (list Z) :=
  let sr_pkt := malloc junk (Z.to_nat len + PktHdr.size) in
  let! sr_pkt := store32 sr_pkt PktHdr.mLen (htonl total_len) in
  let! sr_pkt := store32 sr_pkt PktHdr.mType (htonl VNSPACKET) in
  let! nm := strncpy 16 iface in
  let! sr_pkt := store sr_pkt PktHdr.mInterfaceName nm in
  let! data := load buf 0 (Z.to_nat len) in
  store sr_pkt PktHdr.size data.

(** [write(sr->sockfd, msg, len)] *)
Definition write (msg : list Z) (len : Z) : M Z :=
  do! k := tick in
  let ret := os_write k len in
  run! emit (Write msg ret) in
  sret ret.

Definition sr_send_packet (buf : list Z) (len : Z) (iface : list Z) : M Z :=
  let total_len := u32 (len + Z.of_nat PktHdr.size) in
  do! _ := slift (print_hdrs buf len) in
  if len <? Z.of_nat Eth.size then sret (-1)
  else
    do! w := sget in
    do! sr_pkt := slift (packet_message (os_malloc (ticks w)) buf len total_len iface) in
    run! sr_log_packet buf (s32 len) in   (* an int there *)
    do! ok := sr_ether_addrs_match_interface buf iface in
    if negb ok then sret (-1)
    else
      do! ret := write sr_pkt total_len in
      if ret <? total_len then sret (-1) else sret 0.
End OS.

(** ** What is sent *)

(** The messages offered to [write], oldest first. *)
Definition sent (o : list event) : list (list Z) :=
  omap (fun e => match e with Write msg _ => Some msg | _ => None end) o.

(** The VNSPACKET message that carries a frame out of an interface. *)
Definition vns_message (nm16 frame : list Z) : list Z :=
  be_bytes4 (Z.of_nat (length frame) + 24) ++ be_bytes4 VNSPACKET ++ nm16 ++ frame.

(** The source address of a frame. *)
Definition src_of (frame : list Z) : list Z := take 6 (drop 6 frame).

(** The bytes of the dump file. *)
Definition logged (o : list event) : list Z :=
  mjoin (omap (fun e => match e with Log bs => Some bs | _ => None end) o).

(** What sending asks of the instance: interfaces with names and 6-byte
    addresses, and no dump file that has been closed. *)
Record can_send (w : world) : Prop := {
  cs_ifs : ifs_ok (if_list w);
  cs_log : logfile w <> DumpClosed }.

(** Nothing but the output and the clock changed. *)
Record world_same (w w' : world) : Prop := {
  ws_ifs : if_list w' = if_list w;
  ws_routes : routing_table w' = routing_table w;
  ws_cache : cache w' = cache w;
  ws_log : logfile w' = logfile w }.

(** The names of the interface [iface] points to: as a string, and as the 16
    bytes of the message. *)
Record iface_named (iface s nm16 : list Z) : Prop := {
  in_name : name_of iface = Ok s;
  in_16 : strncpy 16 iface = Ok nm16 }.

(** ** Lemmas *)
#[export] Instance world_same_preorder : PreOrder world_same.
Proof.
  split; [intros w; by constructor|].
  intros w1 w2 w3 [] []. constructor; congruence.
Qed.

Lemma sent_app o1 o2 : sent (o1 ++ o2) = sent o1 ++ sent o2.
Proof. apply omap_app. Qed.

Lemma logged_app o1 o2 : logged (o1 ++ o2) = logged o1 ++ logged o2.
Proof. unfold logged. by rewrite omap_app, join_app. Qed.

Lemma packet_message_spec junk buf len iface nm :
  strncpy 16 iface = Ok nm -> 0 <= len -> (Z.to_nat len <= length buf)%nat ->
  packet_message junk buf len (len + 24) iface = Ok (vns_message nm (take (Z.to_nat len) buf)).
Proof.
  intros Hnm H0 Hlen. unfold packet_message.
  pose proof (malloc_length junk (Z.to_nat len + PktHdr.size)) as HL.
  set (b := malloc junk _) in *. clearbody b. unfold PktHdr.size in HL. simpl in HL.
  destruct (split_at b 4 ltac:(lia)) as (b1 & r1 & -> & H1). rewrite length_app in HL.
  destruct (split_at r1 4 ltac:(lia)) as (b2 & r2 & -> & H2). rewrite length_app in HL.
  destruct (split_at r2 16 ltac:(lia)) as (b3 & b4 & -> & H3). rewrite length_app in HL.
  pose proof (strncpy_length _ _ _ Hnm) as Hn16.
  unfold store32. rewrite !le_bytes4_htonl.
  erewrite bind_step by (by apply (store_at [] b1)). cbn [app].
  erewrite bind_step by (by apply (store_at (be_bytes4 (len + 24)) b2)).
  rewrite (bind_step _ _ _ Hnm), app_assoc.
  erewrite bind_step by (apply (store_at (be_bytes4 (len + 24) ++ be_bytes4 VNSPACKET) b3); [done|lia]).
  rewrite (bind_step _ _ _ (load_ok buf 0 (Z.to_nat len) ltac:(lia))). cbn [drop].
  change PktHdr.size with 24%nat. rewrite app_assoc, store_at_end; [|lens|lens].
  unfold vns_message. rewrite length_take_le, Z2Nat.id by lia. by rewrite <- !app_assoc.
Qed.

Section Sending.
Context {os : OS}.

Lemma can_send_same w w' : world_same w w' -> can_send w -> can_send w'.
Proof. intros [E1 _ _ E4] []. constructor; by rewrite ?E1, ?E4. Qed.

(** The size of the record, which is also its length on the wire. *)
Lemma log_header_eq tv len :
  log_header tv len = PcapPkthdr tv (Z.min PACKET_DUMP_SIZE len) (Z.min PACKET_DUMP_SIZE len).
Proof.
  unfold log_header, PACKET_DUMP_SIZE.
  replace (if 1024 <? len then 1024 else len) with (Z.min 1024 len) by (destruct (Z.ltb_spec 1024 len); lia).
  cbv zeta. f_equal. destruct (Z.ltb_spec (Z.min 1024 len) 1024); lia.
Qed.

(** The open files, and what writing to one leaves. *)
Definition file_event (fp : dump_file) : option (list Z -> event) :=
  match fp with Dumping => Some Log | DumpStdout => Some Stdout | _ => None end.

Lemma fwrite_ok w f bs :
  file_event (logfile w) = Some f ->
  fwrite bs w = Ok (tt, World (if_list w) (routing_table w) (cache w) (logfile w) (ticks w) (out w ++ [f bs])).
Proof. intros E. unfold fwrite. rewrite sget_step. destruct (logfile w) eqn:E'; try done; injection E as <-; unfold fwrite_to, emit; by rewrite E'. Qed.

Lemma sent_file fp f o bs : file_event fp = Some f -> sent (o ++ [f bs]) = sent o.
Proof. intros E. rewrite sent_app. destruct fp; try done; injection E as <-; cbn; by rewrite app_nil_r. Qed.

(** Writing a record. *)
Lemma sr_dump_ok w f tv size buf :
  file_event (logfile w) = Some f -> 0 <= size <= Z.of_nat (length buf) -> size < 4294967296 ->
  sr_dump (PcapPkthdr tv size size) buf w
  = Ok (tt, World (if_list w) (routing_table w) (cache w) (logfile w) (ticks w)
              ((out w ++ [f (encode_sf_pkthdr (PcapPkthdr tv size size))])
                ++ [f (take (Z.to_nat size) buf)])).
Proof.
  intros El Hs Hm. unfold sr_dump, u32. cbn [ph_caplen]. rewrite Z.mod_small by lia.
  rewrite (sbind_step _ _ _ _ _ (fwrite_ok w f _ El)).
  erewrite sbind_step by (apply slift_step; apply load_ok; lia).
  by rewrite (fwrite_ok _ f).
Qed.

Lemma sr_log_packet_ok w buf len :
  logfile w <> DumpClosed -> 0 <= len -> len <= Z.of_nat (length buf) ->
  exists w', sr_log_packet buf len w = Ok (tt, w') /\ world_same w w'
    /\ sent (out w') = sent (out w) /\ (ticks w <= ticks w')%nat.
Proof.
  intros Hc H0 Hlen. unfold sr_log_packet.
  rewrite sget_step.
  destruct (decide (logfile w = NoDump)) as [El|Hn].
  { exists w. rewrite El. split_and!; [done|reflexivity|done|lia]. }
  assert (Hf : exists f, file_event (logfile w) = Some f) by (destruct (logfile w); [done|by exists Log|by exists Stdout|done]).
  destruct Hf as [f Hf].
  assert (E : match logfile w with NoDump => sret tt | _ => do! tv := gettimeofday in sr_dump (log_header tv len) buf end
    = (do! tv := gettimeofday in sr_dump (log_header tv len) buf)) by by destruct (logfile w).
  rewrite E. clear E. unfold gettimeofday. rewrite sbind_assoc.
  rewrite (sbind_step _ _ _ _ _ (eq_refl : tick w = Ok (ticks w, _))).
  rewrite (sbind_step _ _ _ _ _ (eq_refl : sret _ _ = Ok (_, _))).
  rewrite log_header_eq. unfold PACKET_DUMP_SIZE. eexists.
  split; [apply (sr_dump_ok _ f); [done|lia|lia]|]. split_and!; [by constructor| |simpl; lia].
  cbn [out]. by rewrite !(sent_file _ _ _ _ Hf).
Qed.

Lemma match_interface_ok w buf name s :
  ifs_ok (if_list w) -> name_of name = Ok s -> (Eth.size <= length buf)%nat ->
  sr_ether_addrs_match_interface buf name w =
  Ok (match find_if (if_list w) s with
      | Some i => bool_decide (src_of buf = if_addr i) | None => false end, w).
Proof.
  intros Hi Hn Hb. unfold sr_ether_addrs_match_interface.
  rewrite sget_step.
  rewrite (sbind_step _ _ _ _ _ (slift_step _ _ _ (sr_get_interface_spec _ _ _ Hi Hn))).
  destruct (find_if (if_list w) s) as [i|] eqn:Ef; [|done].
  pose proof (find_if_ok _ _ _ Hi Ef) as Hok.
  erewrite sbind_step by (apply slift_step; apply load_ok; offs).
  erewrite sbind_step by (apply slift_step; apply load_ok; rewrite (ifok_addr _ Hok); offs).
  unfold sret. f_equal. f_equal. f_equal. simpl.
  rewrite (take_ge (if_addr i)); [done|]. rewrite (ifok_addr _ Hok). done.
Qed.

(** Whether a frame passes the source-address check of its interface. *)
Definition passes (ifs : list sr_if) (s frame : list Z) : bool :=
  match find_if ifs s with
  | Some i => bool_decide (src_of frame = if_addr i)
  | None => false
  end.

Lemma write_ok msg len w :
  write msg len w = Ok (os_write (ticks w) len,
    World (if_list w) (routing_table w) (cache w) (logfile w) (S (ticks w))
      (out w ++ [Write msg (os_write (ticks w) len)])).
Proof. done. Qed.

(** The contract of [sr_send_packet] for its callers. *)
Lemma send_spec w buf len iface s nm :
  can_send w -> iface_named iface s nm ->
  14 <= len < 2147483648 -> (Z.to_nat len <= length buf)%nat ->
  exists r w', sr_send_packet buf len iface w = Ok (r, w') /\ world_same w w'
    /\ sent (out w') = sent (out w) ++
         (if passes (if_list w) s buf then [vns_message nm (take (Z.to_nat len) buf)] else [])
    /\ (if passes (if_list w) s buf
        then exists k, r = (if os_write k (len + 24) <? len + 24 then -1 else 0)
        else r = -1).
Proof.
  intros [Hi Hc] [Hn H16] Hl Hb. unfold sr_send_packet, u32.
  change (Z.of_nat PktHdr.size) with 24. rewrite Z.mod_small by lia. cbv zeta.
  destruct (print_hdrs_ok buf len ltac:(lia)) as [items Ep].
  rewrite (sbind_step _ _ _ _ _ (slift_step _ _ _ Ep)).
  rewrite (proj2 (Z.ltb_ge len (Z.of_nat Eth.size))) by (unfold_offs; simpl; lia).
  rewrite sget_step.
  rewrite (sbind_step _ _ _ _ _ (slift_step _ _ _
    (packet_message_spec (os_malloc (ticks w)) buf len iface nm H16 ltac:(lia) Hb))).
  rewrite (s32_small len) by lia.
  destruct (sr_log_packet_ok w buf len Hc ltac:(lia) ltac:(lia)) as (w1 & E1 & Hw1 & Hs1 & Ht1).
  rewrite (sbind_step _ _ _ _ _ E1).
  assert (Hi1 : ifs_ok (if_list w1)) by by rewrite (ws_ifs _ _ Hw1).
  rewrite (sbind_step _ _ _ _ _ (match_interface_ok w1 buf iface s Hi1 Hn ltac:(offs))).
  rewrite (ws_ifs _ _ Hw1). fold (passes (if_list w) s buf).
  destruct (passes (if_list w) s buf); cbn [negb].
  - rewrite (sbind_step _ _ _ _ _ (write_ok _ _ _)).
    eexists _, _. split_and!.
    + match goal with |- (if ?b then _ else _) ?st = _ =>
        instantiate (1 := st); instantiate (1 := if b then -1 else 0); by destruct b end.
    + etransitivity; [exact Hw1|]. by constructor.
    + cbn [out]. rewrite sent_app. by rewrite Hs1.
    + by exists (ticks w1).
  - exists (-1), w1. rewrite app_nil_r. done.
Qed.
End Sending.
