(* ===== verification/ArpHandler.v ===== *)
(** * ArpHandler: retrying and giving up on ARP requests (sr_arpcache.c, first half)

    [handle_arpreq] sends a request again when a second has passed, or after
    five tries answers every waiting packet with ICMP host unreachable and
    destroys the request; [sr_arpcache_sweepreqs] does this for every request
    on the queue, once a second, from the cleanup thread. *)

From S2P Require Import Prelude Memory Protocol Utils Iface Rt ArpCache World.

Definition ARP_PACKET_LEN : nat := Eth.size + Arp.size.
Definition ICMP_T3_PACKET_LEN : nat := Eth.size + Ip.size + IcmpT3.size.

(** ** Building packets *)
Definition create_arp_request (junk : list Z) (ifs : list sr_if) (ip : Z) (iface : list Z) :
    res (list Z) :=
  let packet := malloc junk ARP_PACKET_LEN in
  let arp_hdr := Eth.size in
  let! packet := store packet Eth.ether_dhost (replicate ETHER_ADDR_LEN 255) in
  let! i := get_interface_deref ifs iface in
  let! addr := load (if_addr i) 0 ETHER_ADDR_LEN in
  let! packet := store packet Eth.ether_shost addr in
  let! packet := store16 packet Eth.ether_type (htons ethertype_arp) in
  let! packet := store16 packet (arp_hdr + Arp.ar_hrd) (htons arp_hrd_ethernet) in
  let! packet := store16 packet (arp_hdr + Arp.ar_pro) (htons ethertype_ip) in
  let! packet := store8 packet (arp_hdr + Arp.ar_hln) (Z.of_nat ETHER_ADDR_LEN) in
  let! packet := store8 packet (arp_hdr + Arp.ar_pln) 4 in
  let! packet := store16 packet (arp_hdr + Arp.ar_op) (htons arp_op_request) in
  let! i := get_interface_deref ifs iface in
  let! addr := load (if_addr i) 0 ETHER_ADDR_LEN in
  let! packet := store packet (arp_hdr + Arp.ar_sha) addr in
  let! i := get_interface_deref ifs iface in
  let! packet := store32 packet (arp_hdr + Arp.ar_sip) (if_ip i) in
  let! packet := store packet (arp_hdr + Arp.ar_tha) (replicate ETHER_ADDR_LEN 0) in
  store32 packet (arp_hdr + Arp.ar_tip) ip.

(** The packet [sr_send_icmp_t3] sends; [packet] is the one it answers. *)
Definition build_icmp_t3 (junk : list Z) (ifs : list sr_if) (packet iface : list Z)
    (type code : Z) : res (list Z) :=
  let icmp_packet := malloc junk ICMP_T3_PACKET_LEN in
  let ip_hdr := Eth.size in
  let new_ip_hdr := Eth.size in
  let icmp_hdr := (Eth.size + Ip.size)%nat in
  (* Ethernet header *)
  let! shost := load packet Eth.ether_shost ETHER_ADDR_LEN in
  let! icmp_packet := store icmp_packet Eth.ether_dhost shost in
  let! i := get_interface_deref ifs iface in
  let! addr := load (if_addr i) 0 ETHER_ADDR_LEN in
  let! icmp_packet := store icmp_packet Eth.ether_shost addr in
  let! icmp_packet := store16 icmp_packet Eth.ether_type (htons ethertype_ip) in
  (* IP header *)
  let! icmp_packet := store_ip_v icmp_packet new_ip_hdr 4 in
  let! icmp_packet := store_ip_hl icmp_packet new_ip_hdr (Z.of_nat Ip.size / 4) in
  let! icmp_packet := store8 icmp_packet (new_ip_hdr + Ip.ip_tos) 0 in
  let! icmp_packet := store16 icmp_packet (new_ip_hdr + Ip.ip_len)
                        (htons (Z.of_nat (Ip.size + IcmpT3.size))) in
  let! icmp_packet := store16 icmp_packet (new_ip_hdr + Ip.ip_id) 0 in
  let! icmp_packet := store16 icmp_packet (new_ip_hdr + Ip.ip_off) (htons IP_DF) in
  let! icmp_packet := store8 icmp_packet (new_ip_hdr + Ip.ip_ttl) 64 in
  let! icmp_packet := store8 icmp_packet (new_ip_hdr + Ip.ip_p) ip_protocol_icmp in
  let! i := get_interface_deref ifs iface in
  let! icmp_packet := store32 icmp_packet (new_ip_hdr + Ip.ip_src) (if_ip i) in
  let! src := load32 packet (ip_hdr + Ip.ip_src) in
  let! icmp_packet := store32 icmp_packet (new_ip_hdr + Ip.ip_dst) src in
  let! icmp_packet := store16 icmp_packet (new_ip_hdr + Ip.ip_sum) 0 in
  let! hdr := from icmp_packet new_ip_hdr in
  let! sum := cksum hdr (Z.of_nat Ip.size) in
  let! icmp_packet := store16 icmp_packet (new_ip_hdr + Ip.ip_sum) sum in
  (* ICMP header *)
  let! icmp_packet := store8 icmp_packet (icmp_hdr + IcmpT3.icmp_type) type in
  let! icmp_packet := store8 icmp_packet (icmp_hdr + IcmpT3.icmp_code) code in
  let! icmp_packet := store16 icmp_packet (icmp_hdr + IcmpT3.unused) 0 in
  let! icmp_packet := store16 icmp_packet (icmp_hdr + IcmpT3.next_mtu) 0 in
  let! data := load packet ip_hdr ICMP_DATA_SIZE in
  let! icmp_packet := store icmp_packet (icmp_hdr + IcmpT3.data) data in
  let! icmp_packet := store16 icmp_packet (icmp_hdr + IcmpT3.icmp_sum) 0 in
  let! hdr := from icmp_packet icmp_hdr in
  let! sum := cksum hdr (Z.of_nat IcmpT3.size) in
  store16 icmp_packet (icmp_hdr + IcmpT3.icmp_sum) sum.

Section OS.
Context {os : OS}.

Definition icmp_t3 (packet iface : list Z) (type code : Z) : M (list Z) :=
  do! w := sget in
  slift (build_icmp_t3 (os_malloc (ticks w)) (if_list w) packet iface type code).
Definition sr_send_icmp_t3 (packet : list Z) (len : Z) (iface : list Z) (type code : Z) : M unit :=
  do! icmp_packet := icmp_t3 packet iface type code in
  run! sr_send_packet icmp_packet (Z.of_nat ICMP_T3_PACKET_LEN) iface in
  sret tt.

(** ** The request state machine *)
Definition handle_arpreq (req : loc) : M unit :=
  do! now := time in
  do! r := on_cache (deref req) in
  (* 1s timeout *)
  if 1 <=? now - rq_sent r then
    if 5 <=? rq_times_sent r then
      run! siter (fun pkt => sr_send_icmp_t3 (pk_buf pkt) (pk_len pkt) (pk_iface pkt) 3 1)
             (rq_packets r) in
      on_cache (sr_arpreq_destroy (Some req))
    else
      do! w := sget in
      do! p := slift (of_option NullDeref (head (rq_packets r))) in
      do! arp_req := slift (create_arp_request (os_malloc (ticks w)) (if_list w) (rq_ip r) (pk_iface p)) in
      run! sr_send_packet arp_req (Z.of_nat ARP_PACKET_LEN) (pk_iface p) in
      on_cache (write_req req (fun r => SrArpreq (rq_ip r) now (u32 (rq_times_sent r + 1))
                                          (rq_packets r) (rq_next r)))
  else sret tt.

(** The loop reads [req->next] after [handle_arpreq] returned. *)
Fixpoint sweep_loop (fuel : nat) (req : option loc) : M unit :=
  match fuel with
  | O => sfault Diverges
  | S fuel' =>
      match req with
      | None => sret tt
      | Some l =>
          run! handle_arpreq l in
          do! r := on_cache (deref l) in
          sweep_loop fuel' (rq_next r)
      end
  end.
Definition sr_arpcache_sweepreqs : M unit :=
  do! w := sget in sweep_loop (walk_fuel (cache w)) (requests (cache w)).

(** One turn of the [while (1)] of the cleanup thread, under the lock. *)
Definition sr_arpcache_timeout_turn : M unit :=
  do! curtime := time in
  run! on_cache (expire_entries curtime) in
  sr_arpcache_sweepreqs.
End OS.

(** ** Specification: the frames *)

(** A header completed with its checksum. *)
Definition seal_ip (h : ip_hdr) : ip_hdr :=
  set_sum h (htons (checksum_be (encode_ip (set_sum h 0)))).
Definition set_t3_sum (h : icmp_t3_hdr) (s : Z) : icmp_t3_hdr :=
  IcmpT3Hdr (t_type h) (t_code h) s (t_unused h) (t_mtu h) (t_data h).
Definition seal_t3 (h : icmp_t3_hdr) : icmp_t3_hdr :=
  set_t3_sum h (htons (checksum_be (encode_icmp_t3 (set_t3_sum h 0)))).

Definition arp_request_frame (i : sr_if) (ip : Z) : list Z :=
  encode_eth (EthHdr (replicate 6 255) (if_addr i) ethertype_arp)
  ++ encode_arp (ArpHdr arp_hrd_ethernet ethertype_ip 6 4 arp_op_request
                   (if_addr i) (if_ip i) (replicate 6 0) ip).

(** The answer to [packet] out of interface [i]: addressed to its sender, and
    quoting its IP header and eight bytes of payload. *)
Definition icmp_t3_frame (i : sr_if) (packet : list Z) (type code : Z) : list Z :=
  encode_eth (EthHdr (src_of packet) (if_addr i) ethertype_ip)
  ++ encode_ip (seal_ip (IpHdr 4 5 0 56 0 IP_DF 64 ip_protocol_icmp 0
                           (if_ip i) (le_word (take 4 (drop 26 packet)))))
  ++ encode_icmp_t3 (seal_t3 (IcmpT3Hdr type code 0 0 0 (take 28 (drop 14 packet)))).

(** ** Lemmas *)
Lemma bytes_ok_encode_ip h : ip_hdr_ok h -> bytes_ok (encode_ip h).
Proof.
  intros []. unfold encode_ip. rewrite !bytes_ok_app. split_and!; auto with router.
  rewrite !Forall_cons. split_and!; [unfold byte_ok; lia|done|done].
Qed.

Lemma create_arp_request_spec junk ifs ip iface s i :
  ifs_ok ifs -> name_of iface = Ok s -> find_if ifs s = Some i ->
  create_arp_request junk ifs ip iface = Ok (arp_request_frame i ip).
Proof.
  intros Hi Hn Hf. unfold create_arp_request.
  pose proof (get_interface_deref_ok _ _ _ _ Hi Hn Hf) as Hg. rewrite !Hg. cbn [bind].
  pose proof (find_if_ok _ _ _ Hi Hf) as Hok. pose proof (ifok_addr _ Hok) as Ha.
  pose proof (malloc_length junk ARP_PACKET_LEN) as HL. set (b := malloc junk _) in *. clearbody b.
  destruct i as [nm addr iip sp]; simpl in Ha. unfold arp_request_frame. cbn [if_addr if_ip].
  clear -Ha HL. change (length b = 42%nat) in HL. explode b. explode addr. reflexivity.
Qed.

(** Byte 14 after the two bit-field stores: nothing of the old byte is left. *)
Lemma vhl_byte b :
  byte_at (16 * ((le_word [byte_at (16 * (4 mod 16) + le_word [b] mod 16) 0] / 16) mod 16)
           + (20 / 4) mod 16) 0 = 69.
Proof.
  rewrite !le_word_1, !byte_at_0. change (4 mod 16) with 4. change ((20 / 4) mod 16) with 5.
  Z.div_mod_to_equations; lia.
Qed.

Lemma length_encode_t3 h : length (t_data h) = 28%nat -> length (encode_icmp_t3 h) = 36%nat.
Proof. intros H. unfold encode_icmp_t3. rewrite !length_app, H. done. Qed.

Lemma bytes_ok_encode_t3 h :
  byte_ok (t_type h) -> byte_ok (t_code h) -> bytes_ok (t_data h) -> bytes_ok (encode_icmp_t3 h).
Proof.
  intros. unfold encode_icmp_t3. rewrite !bytes_ok_app. split_and!; auto with router.
Qed.

(** The two checksums, over a header inside a longer block. *)
Lemma cksum_ip h rest :
  ip_hdr_ok h -> cksum (encode_ip h ++ rest) 20 = Ok (htons (checksum_be (encode_ip h))).
Proof.
  intros H. apply (cksum_prefix (encode_ip h) rest 20); [by apply bytes_ok_encode_ip|done|by vm_compute].
Qed.
Lemma cksum_t3 h :
  byte_ok (t_type h) -> byte_ok (t_code h) -> bytes_ok (t_data h) -> length (t_data h) = 28%nat ->
  cksum (encode_icmp_t3 h) 36 = Ok (htons (checksum_be (encode_icmp_t3 h))).
Proof.
  intros. rewrite <- (app_nil_r (encode_icmp_t3 h)) at 1.
  apply (cksum_prefix (encode_icmp_t3 h) [] 36);
    [by apply bytes_ok_encode_t3|by apply length_encode_t3|by vm_compute].
Qed.

(** [run_stores]: evaluate the loads and stores of a packet builder on blocks
    given element by element, up to the first checksum. *)
Ltac run_stores :=
  match goal with |- _ = ?r => let rhs := fresh "rhs" in set (rhs := r);
    cbv -[byte_at htons cksum le_word Z.add Z.mul Z.modulo Z.div rhs]; subst rhs end.

Lemma build_icmp_t3_spec junk ifs packet iface type code s i :
  ifs_ok ifs -> name_of iface = Ok s -> find_if ifs s = Some i ->
  bytes_ok packet -> (42 <= length packet)%nat -> byte_ok type -> byte_ok code ->
  build_icmp_t3 junk ifs packet iface type code = Ok (icmp_t3_frame i packet type code).
Proof.
  intros Hi Hn Hf Hp Hlen Ht Hc. unfold build_icmp_t3.
  pose proof (get_interface_deref_ok _ _ _ _ Hi Hn Hf) as Hg. rewrite !Hg. cbn [bind].
  pose proof (find_if_ok _ _ _ Hi Hf) as Hok. pose proof (ifok_addr _ Hok) as Ha.
  pose proof (ifok_ip _ Hok) as Hip.
  pose proof (malloc_length junk ICMP_T3_PACKET_LEN) as HL. set (b := malloc junk _) in *. clearbody b.
  destruct i as [nm addr iip sp]; simpl in Ha, Hip. unfold icmp_t3_frame. cbn [if_addr if_ip].
  destruct (split_at packet 42 Hlen) as (p & tl & -> & HLp).
  apply bytes_ok_app in Hp as [Hp _].
  clear -Ha HL HLp Hp Hip Ht Hc. change (length b = 70%nat) in HL.
  set (src := le_word (take 4 (drop 26 (p ++ tl)))). set (data := take 28 (drop 14 (p ++ tl))).
  assert (Hsrc : u32_ok src).
  { unfold src. rewrite drop_app_le, take_app_le by (rewrite ?length_drop; lia).
    pose proof (le_word_range (take 4 (drop 26 p)) ltac:(by apply Forall_take, Forall_drop)) as H.
    rewrite length_take, length_drop, HLp in H. exact H. }
  assert (Hdata : bytes_ok data /\ length data = 28%nat).
  { unfold data. rewrite drop_app_le, take_app_le by (rewrite ?length_drop; lia).
    split; [by apply Forall_take, Forall_drop|rewrite length_take, length_drop; lia]. }
  destruct Hdata as [Hdata Hdl].
  set (h := IpHdr 4 5 0 56 0 IP_DF 64 ip_protocol_icmp 0 iip src).
  assert (Hh : ip_hdr_ok h) by (constructor; unfold byte_ok, u16_ok; cbn; done || lia).
  set (h3 := IcmpT3Hdr type code 0 0 0 data).
  subst src data. explode b. explode addr. explode p. run_stores.
  rewrite vhl_byte, !(byte_at_0_small type), !(byte_at_0_small code) by done.
  match goal with |- context [cksum ?l 20] =>
    change (cksum l 20) with (cksum (encode_ip h ++ drop 20 l) 20) end.
  rewrite cksum_ip by done.
  match goal with |- context [cksum ?l 36] =>
    change (cksum l 36) with (cksum (encode_icmp_t3 h3) 36) end.
  rewrite cksum_t3 by done. reflexivity.
Qed.

(** ** Specification: one request, one sweep *)

(** The interface and the 16-byte name behind an interface pointer. *)
Definition if_of (ifs : list sr_if) (iface : list Z) : option sr_if :=
  match name_of iface with Ok s => find_if ifs s | Fault _ => None end.
Definition nm16 (iface : list Z) : list Z :=
  match strncpy 16 iface with Ok n => n | Fault _ => [] end.

(** A frame out of [iface], as the message sent; nothing without an interface. *)
Definition msg_out (ifs : list sr_if) (iface : list Z) (frame : sr_if -> list Z) : list (list Z) :=
  match if_of ifs iface with
  | Some i => [vns_message (nm16 iface) (frame i)]
  | None => []
  end.

Definition unreachable_msgs (ifs : list sr_if) (pkts : list sr_packet) : list (list Z) :=
  mjoin ((fun p => msg_out ifs (pk_iface p) (fun i => icmp_t3_frame i (pk_buf p) 3 1)) <$> pkts).
Definition request_msgs (ifs : list sr_if) (a : areq) : list (list Z) :=
  match q_pkts a with
  | p :: _ => msg_out ifs (pk_iface p) (fun i => arp_request_frame i (q_ip a))
  | [] => []
  end.

Definition due (now : Z) (a : areq) : bool := 1 <=? now - q_sent a.
Definition given_up (a : areq) : bool := 5 <=? q_times a.
Definition mark_sent (now : Z) (a : areq) : areq := Areq (q_ip a) now (q_times a + 1) (q_pkts a).

(** What handling one request does to the queue, and what it sends. *)
Definition spec_arpreq (ifs : list sr_if) (now : Z) (l : loc) (a : areq) (q : queue) :
    queue * list (list Z) :=
  if due now a then
    if given_up a then (q_remove l q, unreachable_msgs ifs (q_pkts a))
    else (q_alter l (mark_sent now) q, request_msgs ifs a)
  else (q, []).

(** A packet fit to wait on a request: it is a complete frame with the 28 bytes
    an ICMP error quotes, and its interface exists. *)
Record pkt_ok (ifs : list sr_if) (p : sr_packet) : Prop := {
  pok_len : length (pk_buf p) = Z.to_nat (pk_len p) /\ 42 <= pk_len p < 65536;
  pok_bytes : bytes_ok (pk_buf p);
  pok_iface : length (pk_iface p) = 32%nat;
  pok_if : is_Some (if_of ifs (pk_iface p)) }.

Record req_ok (ifs : list sr_if) (a : areq) : Prop := {
  rok_times : 0 <= q_times a <= 5;
  rok_pkts : Forall (pkt_ok ifs) (q_pkts a) }.

(** The invariant of the router between two handlers; [q] is the request queue
    and nothing else is allocated. *)
Record world_ok (w : world) (q : queue) : Prop := {
  wok_send : can_send w;
  wok_routes : Forall (fun r => length (rt_interface r) = 32%nat /\ route_if_ok (if_list w) r)
                      (routing_table w);
  wok_rep : cache_rep (cache w) q [];
  wok_macs : Forall (fun e => length (ae_mac e) = 6%nat /\ bytes_ok (ae_mac e)) (entries (cache w));
  wok_queue : queue_ok q;
  wok_reqs : Forall (fun p => req_ok (if_list w) p.2) q }.

Lemma wok_ifs w q : world_ok w q -> ifs_ok (if_list w).
Proof. intros H. apply (cs_ifs _ (wok_send _ _ H)). Qed.

(** ** Lemmas: frames *)
Lemma iface_named_32 iface : length iface = 32%nat ->
  exists s, iface_named iface s (nm16 iface) /\ forall ifs, if_of ifs iface = find_if ifs s.
Proof.
  intros H. destruct (cstr_ok sr_IFACE_NAMELEN iface) as [s Hs]; [by rewrite H|].
  destruct (strncpy_ok 16 iface) as [n Hn]; [lia|].
  exists s. split.
  - split; [done|]. unfold nm16. by rewrite Hn.
  - intros ifs. unfold if_of, name_of. by rewrite Hs.
Qed.

Lemma src_of_eth d s t rest :
  length d = 6%nat -> length s = 6%nat -> src_of (encode_eth (EthHdr d s t) ++ rest) = s.
Proof.
  intros Hd Hs. unfold src_of, encode_eth. cbn [e_dhost e_shost e_type].
  by rewrite <- !app_assoc, drop_app_length', take_app_length' by done.
Qed.

Lemma arp_request_frame_facts i ip :
  sr_if_ok i -> length (arp_request_frame i ip) = 42%nat /\ src_of (arp_request_frame i ip) = if_addr i.
Proof.
  intros Hi. pose proof (ifok_addr _ Hi) as Ha. split.
  - unfold arp_request_frame, encode_eth, encode_arp. rewrite !length_app. cbn. rewrite Ha. done.
  - by apply src_of_eth.
Qed.

Lemma icmp_t3_frame_facts i packet type code :
  sr_if_ok i -> (42 <= length packet)%nat ->
  length (icmp_t3_frame i packet type code) = 70%nat
  /\ src_of (icmp_t3_frame i packet type code) = if_addr i.
Proof.
  intros Hi Hp. pose proof (ifok_addr _ Hi) as Ha.
  assert (Hs : length (src_of packet) = 6%nat) by (unfold src_of; rewrite length_take, length_drop; lia).
  split.
  - unfold icmp_t3_frame. rewrite !length_app, length_encode_ip, length_encode_t3.
    + unfold encode_eth. rewrite !length_app. cbn [e_dhost e_shost]. by rewrite Hs, Ha.
    + cbn [t_data seal_t3 set_t3_sum]. rewrite length_take, length_drop. lia.
  - by apply src_of_eth.
Qed.

Section Handlers.
Context {os : OS}.

(** Sending a frame that carries its interface's own address. *)
Lemma send_own w frame iface i :
  can_send w -> length iface = 32%nat -> if_of (if_list w) iface = Some i ->
  src_of frame = if_addr i -> 14 <= Z.of_nat (length frame) < 65536 ->
  exists r w', sr_send_packet frame (Z.of_nat (length frame)) iface w = Ok (r, w')
    /\ world_same w w' /\ sent (out w') = sent (out w) ++ [vns_message (nm16 iface) frame].
Proof.
  intros Hi Hl Hif Hsrc Hlen. destruct (iface_named_32 iface Hl) as (s & Hn & Hs).
  rewrite Hs in Hif.
  destruct (send_spec w frame (Z.of_nat (length frame)) iface s (nm16 iface) Hi Hn) as (r & w' & E & Hw & Ho & _);
    [lia|lia|].
  exists r, w'. split_and!; [done|done|]. rewrite Ho. unfold passes.
  rewrite Hif, bool_decide_eq_true_2 by done. by rewrite Nat2Z.id, firstn_all.
Qed.

Lemma icmp_t3_spec w packet iface type code i :
  ifs_ok (if_list w) -> length iface = 32%nat -> if_of (if_list w) iface = Some i ->
  bytes_ok packet -> (42 <= length packet)%nat -> byte_ok type -> byte_ok code ->
  icmp_t3 packet iface type code w = Ok (icmp_t3_frame i packet type code, w).
Proof.
  intros Hi Hl Hif Hb Hp Ht Hc. unfold icmp_t3. rewrite sget_step.
  destruct (iface_named_32 iface Hl) as (s & [Hn _] & Hs). rewrite Hs in Hif.
  apply slift_step. by apply build_icmp_t3_spec with s.
Qed.

Lemma sr_send_icmp_t3_spec w packet len iface type code i :
  can_send w -> length iface = 32%nat -> if_of (if_list w) iface = Some i ->
  bytes_ok packet -> (42 <= length packet)%nat -> byte_ok type -> byte_ok code ->
  exists w', sr_send_icmp_t3 packet len iface type code w = Ok (tt, w') /\ world_same w w'
    /\ sent (out w') = sent (out w) ++ [vns_message (nm16 iface) (icmp_t3_frame i packet type code)].
Proof.
  intros Hi Hl Hif Hb Hp Ht Hc. unfold sr_send_icmp_t3.
  rewrite (sbind_step _ _ _ _ _ (icmp_t3_spec _ _ _ _ _ _ (cs_ifs _ Hi) Hl Hif Hb Hp Ht Hc)).
  destruct (iface_named_32 iface Hl) as (s & _ & Hs). pose proof Hif as Hf. rewrite Hs in Hf.
  pose proof (find_if_ok _ _ _ (cs_ifs _ Hi) Hf) as Hok.
  destruct (icmp_t3_frame_facts i packet type code Hok Hp) as [HL HS].
  destruct (send_own w (icmp_t3_frame i packet type code) iface i Hi Hl Hif HS ltac:(lia))
    as (r & w' & E & Hw & Ho).
  rewrite HL in E. change (Z.of_nat 70) with (Z.of_nat ICMP_T3_PACKET_LEN) in E.
  rewrite (sbind_step _ _ _ _ _ E). by exists w'.
Qed.

(** The [while (pkt)] loop of the give-up branch. *)
Lemma send_unreachables w pkts :
  can_send w -> Forall (pkt_ok (if_list w)) pkts ->
  exists w', siter (fun pkt => sr_send_icmp_t3 (pk_buf pkt) (pk_len pkt) (pk_iface pkt) 3 1) pkts w
             = Ok (tt, w') /\ world_same w w'
    /\ sent (out w') = sent (out w) ++ unreachable_msgs (if_list w) pkts.
Proof.
  intros Hi Hp. revert w Hi Hp. induction pkts as [|p pkts IH]; intros w Hi Hp.
  { exists w. split_and!; [done|reflexivity|by rewrite app_nil_r]. }
  apply Forall_cons in Hp as [[[HL HL42] Hb H32 [i Hif]] Hp]. cbn [siter].
  destruct (sr_send_icmp_t3_spec w (pk_buf p) (pk_len p) (pk_iface p) 3 1 i Hi H32 Hif Hb)
    as (w1 & E & Hw & Ho); [lia|done|done|].
  rewrite (sbind_step _ _ _ _ _ E).
  destruct (IH w1) as (w2 & E2 & Hw2 & Ho2); [by eapply can_send_same|by rewrite (ws_ifs _ _ Hw)|].
  exists w2. split_and!; [done|by etransitivity|].
  rewrite Ho2, Ho, (ws_ifs _ _ Hw), <- app_assoc. f_equal.
  unfold unreachable_msgs, msg_out. rewrite fmap_cons. simpl. by rewrite Hif.
Qed.
End Handlers.

(** ** Lemmas: the invariant *)
Lemma world_ok_same w w' q : world_ok w q -> world_same w w' -> world_ok w' q.
Proof.
  intros [] Hs. pose proof Hs as [E1 E2 E3 _].
  constructor; rewrite ?E1, ?E2, ?E3; try done. by eapply can_send_same.
Qed.

Lemma world_ok_cache w q c' q' :
  world_ok w q -> cache_rep c' q' [] ->
  Forall (fun e => length (ae_mac e) = 6%nat /\ bytes_ok (ae_mac e)) (entries c') ->
  queue_ok q' -> Forall (fun p => req_ok (if_list w) p.2) q' -> world_ok (set_cache w c') q'.
Proof. intros [[]] ????. by constructor. Qed.

Lemma on_cache_ok {A} (m : ST sr_arpcache A) w a c' :
  m (cache w) = Ok (a, c') -> on_cache m w = Ok (a, set_cache w c').
Proof. intros E. unfold on_cache. by rewrite E. Qed.

Lemma on_cache_fault {A} (m : ST sr_arpcache A) w f :
  m (cache w) = Fault f -> on_cache m w = Fault f.
Proof. intros E. unfold on_cache. by rewrite E. Qed.

Lemma set_cache_id w : set_cache w (cache w) = w.
Proof. by destruct w. Qed.

Lemma mark_sent_queue_ok now l q : queue_ok q -> queue_ok (q_alter l (mark_sent now) q).
Proof.
  intros [Hi Hp]. constructor; [by rewrite q_alter_ips|].
  by apply (q_alter_Forall (fun a => q_pkts a <> [])).
Qed.

Lemma q_alter_in l f q (P : areq -> Prop) :
  Forall (fun p => P p.2) q -> (forall a, (l, a) ∈ q -> P (f a)) ->
  Forall (fun p => P p.2) (q_alter l f q).
Proof.
  intros H Hf. unfold q_alter. apply Forall_fmap, Forall_forall. intros [l' a] Hin. simpl.
  rewrite Forall_forall in H. case_decide; cbn [fst snd] in *; subst; [auto|by apply (H _ Hin)].
Qed.

Lemma q_unique (q : queue) l a a' : NoDup q.*1 -> (l, a) ∈ q -> (l, a') ∈ q -> a = a'.
Proof.
  intros Hnd H1 H2. apply list_elem_of_lookup in H1 as [i Hi]. apply list_elem_of_lookup in H2 as [j Hj].
  assert (i = j) as ->.
  { apply (NoDup_lookup (q.*1) i j l Hnd); by rewrite list_lookup_fmap, ?Hi, ?Hj. }
  congruence.
Qed.

Section Retry.
Context {os : OS}.

Lemma time_ok w : exists w', time w = Ok (os_time (ticks w), w') /\ world_same w w'
  /\ out w' = out w /\ cache w' = cache w /\ ticks w' = S (ticks w).
Proof. eexists. split_and!; [done|by constructor|done..]. Qed.

(** What a handler that turned the queue into [q'] and sent [ms] left. *)
Record handled (w : world) (q' : queue) (ms : list (list Z)) (w' : world) : Prop := {
  hd_ok : world_ok w' q';
  hd_sent : sent (out w') = sent (out w) ++ ms;
  hd_ifs : if_list w' = if_list w;
  hd_routes : routing_table w' = routing_table w;
  hd_entries : entries (cache w') = entries (cache w) }.

Lemma handled_same w w1 q' ms w' :
  world_same w w1 -> out w1 = out w -> handled w1 q' ms w' -> handled w q' ms w'.
Proof. intros [E1 E2 E3 _] Eo []. constructor; congruence. Qed.

(** A change of the cache after some sending. *)
Lemma handled_cache w w2 c3 q' ms :
  world_same w w2 -> sent (out w2) = sent (out w) ++ ms ->
  world_ok (set_cache w2 c3) q' -> entries c3 = entries (cache w2) ->
  handled w q' ms (set_cache w2 c3).
Proof. intros [E1 E2 E3 _] Hs Hok He. constructor; simpl; congruence. Qed.

Lemma give_up_ok w q l a :
  world_ok w q -> (l, a) ∈ q ->
  exists w', (run! siter (fun pkt => sr_send_icmp_t3 (pk_buf pkt) (pk_len pkt) (pk_iface pkt) 3 1)
                     (q_pkts a) in
              on_cache (sr_arpreq_destroy (Some l))) w = Ok (tt, w')
    /\ handled w (q_remove l q) (unreachable_msgs (if_list w) (q_pkts a)) w'.
Proof.
  intros Hok Hin. pose proof (wok_reqs _ _ Hok) as Hreqs. rewrite Forall_forall in Hreqs.
  pose proof (Hreqs _ Hin) as Ha.
  destruct (send_unreachables w (q_pkts a) (wok_send _ _ Hok) (rok_pkts _ _ Ha)) as (w2 & E2 & Hw2 & Ho2).
  rewrite (sbind_step _ _ _ _ _ E2). pose proof (world_ok_same _ _ _ Hok Hw2) as Hok2.
  destruct (destroy_queued _ _ _ l (wok_rep _ _ Hok2) (in_queue_fst _ _ _ Hin)) as (c3 & E3 & Hr3 & He3).
  exists (set_cache w2 c3). split; [by apply on_cache_ok|].
  apply handled_cache; try done.
  apply (world_ok_cache _ _ _ _ Hok2 Hr3); [rewrite He3; apply (wok_macs _ _ Hok2)| |].
  - apply q_remove_ok, (wok_queue _ _ Hok2).
  - rewrite (ws_ifs _ _ Hw2), Forall_forall. intros p [_ Hp]%list_elem_of_filter. by apply Hreqs.
Qed.

(** The times counter of a live request does not wrap. *)
Lemma mark_sent_u32 now l q a :
  NoDup q.*1 -> (l, a) ∈ q -> 0 <= q_times a < 5 ->
  q_alter l (fun a => Areq (q_ip a) now (u32 (q_times a + 1)) (q_pkts a)) q
  = q_alter l (mark_sent now) q.
Proof.
  intros Hnd Hin Ht. unfold q_alter. apply list_fmap_ext.
  intros k [l' a'] Hk%list_elem_of_lookup_2. simpl. case_decide; [|done]. subst l'.
  rewrite (q_unique q l a' a Hnd Hk Hin). unfold mark_sent, u32. by rewrite Z.mod_small by lia.
Qed.

Lemma resend_ok w q l a now :
  world_ok w q -> (l, a) ∈ q -> given_up a = false ->
  exists w', (do! w := sget in
      do! p := slift (of_option NullDeref (head (q_pkts a))) in
      do! arp_req := slift (create_arp_request (os_malloc (ticks w)) (if_list w) (q_ip a) (pk_iface p)) in
      run! sr_send_packet arp_req (Z.of_nat ARP_PACKET_LEN) (pk_iface p) in
      on_cache (write_req l (fun r => SrArpreq (rq_ip r) now (u32 (rq_times_sent r + 1))
                                        (rq_packets r) (rq_next r)))) w = Ok (tt, w')
    /\ handled w (q_alter l (mark_sent now) q) (request_msgs (if_list w) a) w'.
Proof.
  intros Hok Hin Eg. pose proof (wok_reqs _ _ Hok) as Hreqs.
  pose proof (proj1 (Forall_forall _ _) Hreqs _ Hin) as Ha. cbn [snd] in Ha.
  rewrite sget_step.
  pose proof (proj1 (Forall_forall _ _) (qok_pkts _ (wok_queue _ _ Hok)) _ Hin) as Hne. cbn [snd] in Hne.
  pose proof (rok_pkts _ _ Ha) as Hpk. unfold request_msgs.
  destruct (q_pkts a) as [|p pkts]; [done|]. cbn [head of_option].
  rewrite (sbind_step _ _ _ _ _ (eq_refl : slift (Ok p) w = Ok (p, w))).
  apply Forall_cons in Hpk as [Hpk _]. destruct (pok_if _ _ Hpk) as [i Hif].
  destruct (iface_named_32 _ (pok_iface _ _ Hpk)) as (s & [Hn _] & Hs). pose proof Hif as Hf. rewrite Hs in Hf.
  rewrite (sbind_step _ _ _ _ _ (slift_step _ _ _ (create_arp_request_spec (os_malloc (ticks w)) _
    (q_ip a) (pk_iface p) s i (wok_ifs _ _ Hok) Hn Hf))).
  destruct (arp_request_frame_facts i (q_ip a) (find_if_ok _ _ _ (wok_ifs _ _ Hok) Hf)) as [HL HS].
  destruct (send_own w (arp_request_frame i (q_ip a)) (pk_iface p) i (wok_send _ _ Hok)
    (pok_iface _ _ Hpk) Hif HS ltac:(lia)) as (r & w2 & E2 & Hw2 & Ho2).
  rewrite HL in E2. change (Z.of_nat 42) with (Z.of_nat ARP_PACKET_LEN) in E2.
  rewrite (sbind_step _ _ _ _ _ E2). pose proof (world_ok_same _ _ _ Hok Hw2) as Hok2.
  assert (Ht : 0 <= q_times a < 5) by (pose proof (rok_times _ _ Ha); apply Z.leb_gt in Eg; lia).
  pose proof (rep_queue_nodup _ _ _ (wok_rep _ _ Hok)) as Hnd.
  destruct (write_req_rep _ _ _ l a (fun r => SrArpreq (rq_ip r) now (u32 (rq_times_sent r + 1))
    (rq_packets r) (rq_next r)) (fun a => Areq (q_ip a) now (u32 (q_times a + 1)) (q_pkts a))
    (wok_rep _ _ Hok2) Hin (fun _ => eq_refl)) as (c3 & E3 & Hr3 & He3 & _).
  rewrite (mark_sent_u32 now l q a Hnd Hin Ht) in Hr3.
  exists (set_cache w2 c3). split; [by apply on_cache_ok|].
  apply handled_cache; try done.
  - rewrite Ho2. unfold msg_out. by rewrite Hif.
  - apply (world_ok_cache _ _ _ _ Hok2 Hr3); [rewrite He3; apply (wok_macs _ _ Hok2)| |].
    + apply mark_sent_queue_ok, (wok_queue _ _ Hok).
    + rewrite (ws_ifs _ _ Hw2). apply (q_alter_in _ _ _ (req_ok (if_list w))); [done|].
      intros a' Hin'. rewrite (q_unique q l a' a Hnd Hin' Hin).
      constructor; [simpl; lia|apply (rok_pkts _ _ Ha)].
Qed.

(** Handling one queued request does what [spec_arpreq] says. *)
Lemma handle_arpreq_refines w q l a :
  world_ok w q -> (l, a) ∈ q ->
  let res := spec_arpreq (if_list w) (os_time (ticks w)) l a q in
  exists w', handle_arpreq l w = Ok (tt, w') /\ handled w res.1 res.2 w'.
Proof.
  intros Hw Hin res. unfold handle_arpreq.
  destruct (time_ok w) as (w1 & E1 & Hw1 & Ho1 & Hc1 & _). rewrite (sbind_step _ _ _ _ _ E1).
  pose proof (world_ok_same _ _ _ Hw Hw1) as Hok1.
  destruct (deref_queue _ _ _ _ _ (wok_rep _ _ Hok1) Hin) as [next Ed].
  rewrite (sbind_step _ _ _ _ _ (on_cache_ok _ _ _ _ Ed)), set_cache_id.
  subst res. unfold spec_arpreq. cbn [rq_sent rq_times_sent rq_packets rq_ip node].
  set (now := os_time (ticks w)). rewrite <- (ws_ifs _ _ Hw1).
  change (1 <=? now - q_sent a) with (due now a). change (5 <=? q_times a) with (given_up a).
  destruct (due now a); [destruct (given_up a) eqn:Eg|].
  - destruct (give_up_ok w1 q l a Hok1 Hin) as (w' & E & Hh).
    exists w'. split; [done|]. by eapply handled_same.
  - destruct (resend_ok w1 q l a now Hok1 Hin Eg) as (w' & E & Hh).
    exists w'. split; [done|]. by eapply handled_same.
  - exists w1. split; [done|]. apply (handled_same _ w1); [done|done|].
    constructor; try done. by rewrite app_nil_r.
Qed.
End Retry.

(** ** The sweep *)

(** What a sweep does to one request it keeps, and what it sends for it. *)
Definition sweep_req (now : Z) (p : loc * areq) : loc * areq :=
  if due now p.2 then (p.1, mark_sent now p.2) else p.
Definition sweep_msgs (ifs : list sr_if) (now : Z) (p : loc * areq) : list (list Z) :=
  if due now p.2 then request_msgs ifs p.2 else [].

Abbreviation retrying q := (Forall (fun p : loc * areq => given_up p.2 = false) q).

Section Sweep.
Context {os : OS}.

Lemma handled_trans w1 w2 w3 q2 q3 m2 m3 :
  handled w1 q2 m2 w2 -> handled w2 q3 m3 w3 -> handled w1 q3 (m2 ++ m3) w3.
Proof.
  intros [] []. constructor; try done; try congruence.
  rewrite app_assoc. congruence.
Qed.

Lemma sweep_step w pre l a suf fuel :
  world_ok w (pre ++ (l, a) :: suf) -> due (os_time (ticks w)) a && given_up a = false ->
  let now := os_time (ticks w) in
  exists next w', sweep_loop (S fuel) (Some l) w = sweep_loop fuel next w'
    /\ handled w (pre ++ sweep_req now (l, a) :: suf) (sweep_msgs (if_list w) now (l, a)) w'
    /\ lseg (heap (cache w')) next suf None.
Proof.
  intros Hw Hg now. assert (Hin : (l, a) ∈ pre ++ (l, a) :: suf) by (apply elem_of_app; right; by left).
  pose proof (rep_queue_nodup _ _ _ (wok_rep _ _ Hw)) as Hnd.
  destruct (handle_arpreq_refines w _ l a Hw Hin) as (w1 & E1 & Hh). fold now in Hh.
  assert (Heq : spec_arpreq (if_list w) now l a (pre ++ (l, a) :: suf)
    = (pre ++ sweep_req now (l, a) :: suf, sweep_msgs (if_list w) now (l, a))).
  { unfold spec_arpreq, sweep_req, sweep_msgs. cbn [fst snd]. fold now in Hg.
    destruct (due now a); [|done]. cbn [andb] in Hg. by rewrite Hg, q_alter_mid. }
  rewrite Heq in Hh. cbn [fst snd] in Hh. cbn [sweep_loop].
  rewrite (sbind_step _ _ _ _ _ E1). pose proof (wok_rep _ _ (hd_ok _ _ _ _ Hh)) as Hr.
  assert (Hl : exists a', sweep_req now (l, a) = (l, a')) by (unfold sweep_req; case_match; eauto).
  destruct Hl as [a' Hl]. rewrite Hl in Hr.
  destruct (deref_mid _ _ _ _ _ _ Hr) as (next & Ed & Hs).
  exists next, w1. rewrite (sbind_step _ _ _ _ _ (on_cache_ok _ _ _ _ Ed)), set_cache_id. done.
Qed.

(** A sweep that gives up on a request goes on to read the freed node. *)
Lemma sweep_gives_up w pre l a post fuel :
  world_ok w (pre ++ (l, a) :: post) -> due (os_time (ticks w)) a = true -> given_up a = true ->
  sweep_loop (S fuel) (Some l) w = Fault UseAfterFree.
Proof.
  intros Hw Hd Hg. assert (Hin : (l, a) ∈ pre ++ (l, a) :: post) by (apply elem_of_app; right; by left).
  destruct (handle_arpreq_refines w _ l a Hw Hin) as (w1 & E1 & Hh). cbn [sweep_loop].
  rewrite (sbind_step _ _ _ _ _ E1). unfold spec_arpreq in Hh. rewrite Hd, Hg in Hh. cbn [fst snd] in Hh.
  apply sbind_fault, on_cache_fault. eapply deref_gone; [apply (wok_rep _ _ (hd_ok _ _ _ _ Hh))|].
  rewrite app_nil_r. intros Hl. apply list_elem_of_fmap in Hl as ([l' a'] & -> & Hl).
  by apply list_elem_of_filter in Hl as [Hl _].
Qed.

(** Sweeping over requests that are not given up, up to the rest of the queue. *)
Lemma sweep_prefix todo : forall w pre rest req fuel,
  world_ok w (pre ++ todo ++ rest) -> retrying todo ->
  lseg (heap (cache w)) req (todo ++ rest) None ->
  exists nows next w', length nows = length todo
    /\ Forall (fun now => exists k, now = os_time k) nows
    /\ sweep_loop (length todo + fuel) req w = sweep_loop fuel next w'
    /\ handled w (pre ++ zip_with sweep_req nows todo ++ rest)
         (mjoin (zip_with (sweep_msgs (if_list w)) nows todo)) w'
    /\ lseg (heap (cache w')) next rest None.
Proof.
  induction todo as [|[l a] todo IH]; intros w pre rest req fuel Hw Hg Hreq.
  { exists [], req, w. split_and!; try done. constructor; try done. by rewrite app_nil_r. }
  apply Forall_cons in Hg as [Hg Hgs]. destruct Hreq as (-> & _).
  destruct (sweep_step w pre l a (todo ++ rest) (length todo + fuel) Hw ltac:(cbn [snd] in Hg; by rewrite Hg, andb_false_r))
    as (next & w1 & E1 & Hh1 & Hl1).
  set (now := os_time (ticks w)) in *.
  pose proof (hd_ok _ _ _ _ Hh1) as Hok1. rewrite cons_middle, app_assoc in Hok1.
  destruct (IH w1 _ rest next fuel Hok1 Hgs Hl1) as (nows & next' & w2 & HL & Hn & E2 & Hh2 & Hl2).
  exists (now :: nows), next', w2. split_and!; try done.
  - simpl. by rewrite HL.
  - apply Forall_cons. split; [by exists (ticks w)|done].
  - change (length ((l, a) :: todo) + fuel)%nat with (S (length todo + fuel)).
    by rewrite E1, E2.
  - cbn [zip_with mjoin list_join]. rewrite <- app_assoc in Hh2.
    rewrite (hd_ifs _ _ _ _ Hh1) in Hh2. by eapply handled_trans.
Qed.

(** A sweep over a queue with no request to give up on. *)
Lemma sweep_refines w q :
  world_ok w q -> retrying q ->
  exists nows w', length nows = length q /\ Forall (fun now => exists k, now = os_time k) nows
    /\ sr_arpcache_sweepreqs w = Ok (tt, w')
    /\ handled w (zip_with sweep_req nows q) (mjoin (zip_with (sweep_msgs (if_list w)) nows q)) w'.
Proof.
  intros Hw Hg. unfold sr_arpcache_sweepreqs.
  rewrite sget_step.
  pose proof (rep_fuel _ _ _ (wok_rep _ _ Hw)) as Hf.
  destruct (sweep_prefix q w [] [] (requests (cache w)) (walk_fuel (cache w) - length q))
    as (nows & next & w' & HL & Hn & E & Hh & Hl).
  - by rewrite app_nil_r.
  - done.
  - rewrite app_nil_r. apply (rep_chain _ _ _ (wok_rep _ _ Hw)).
  - exists nows, w'. split_and!; try done.
    + replace (walk_fuel (cache w)) with (length q + (walk_fuel (cache w) - length q))%nat by lia.
      rewrite E. simpl in Hl. subst next. by destruct (walk_fuel (cache w) - length q)%nat eqn:?; [lia|].
    + by rewrite app_nil_r in Hh.
Qed.

(** A sweep that comes to a request to be given up. *)
Lemma sweep_use_after_free w pre l a post :
  world_ok w (pre ++ (l, a) :: post) -> retrying pre -> given_up a = true ->
  (forall k, due (os_time k) a = true) ->
  sr_arpcache_sweepreqs w = Fault UseAfterFree.
Proof.
  intros Hw Hg Ha Hdue. unfold sr_arpcache_sweepreqs.
  rewrite sget_step.
  pose proof (rep_fuel _ _ _ (wok_rep _ _ Hw)) as Hf. rewrite length_app in Hf. simpl in Hf.
  destruct (sweep_prefix pre w [] ((l, a) :: post) (requests (cache w)) (walk_fuel (cache w) - length pre))
    as (nows & next & w1 & HL & Hn & E & Hh & Hl); [done|done| |].
  { apply (rep_chain _ _ _ (wok_rep _ _ Hw)). }
  replace (walk_fuel (cache w)) with (length pre + (walk_fuel (cache w) - length pre))%nat by lia.
  rewrite E. destruct Hl as (-> & _). destruct (walk_fuel (cache w) - length pre)%nat eqn:Ef; [lia|].
  pose proof (hd_ok _ _ _ _ Hh) as Hok. cbn [app] in Hok. set (pre' := zip_with _ _ _) in Hok.
  apply (sweep_gives_up w1 pre' l a post); [done|by rewrite Hdue|done].
Qed.
End Sweep.
