(* ===== verification/Router.v ===== *)
(** * Router: the packet handlers of sr_router.c

    [sr_handlepacket] and the functions it calls, statement by statement: the
    checks and early returns of [handle_ip_packet], the ICMP answers of
    [send_icmp_response], forwarding with the routing table and the ARP cache,
    and both branches of [handle_arp_packet].  The packet buffer the C code
    modifies in place is rebound at each store; it is a copy private to the
    call, so nothing else sees the changes. *)

From S2P Require Import Prelude Memory Protocol Utils Iface Rt ArpCache World ArpHandler.

Definition INIT_TTL : Z := 255.

(** The walk of [get_dst_interface]. *)
Fixpoint get_dst_interface (if_walker : list sr_if) (ip_dst : Z) : option sr_if :=
  match if_walker with
  | [] => None
  | i :: next => if if_ip i =? ip_dst then Some i else get_dst_interface next ip_dst
  end.

(** ** send_icmp_response *)

(** The ICMP part of the response, in the order of the two branches. *)
Definition fill_echo (response packet : list Z) (response_len type code : Z) : res (list Z) :=
  let icmp := (Eth.size + Ip.size)%nat in
  let icmp_len := response_len - Z.of_nat Eth.size - Z.of_nat Ip.size in
  let! data := load packet icmp (Z.to_nat icmp_len) in
  let! response := store response icmp data in
  let! response := store8 response (icmp + Icmp.icmp_type) type in
  let! response := store8 response (icmp + Icmp.icmp_code) code in
  let! response := store16 response (icmp + Icmp.icmp_sum) 0 in
  let! hdr := from response icmp in
  let! sum := cksum hdr (s32 icmp_len) in
  store16 response (icmp + Icmp.icmp_sum) sum.

Definition fill_error (response packet : list Z) (type code : Z) : res (list Z) :=
  let icmp := (Eth.size + Ip.size)%nat in
  let! response := store16 response (icmp + IcmpT3.next_mtu) 0 in
  let! response := store8 response (icmp + IcmpT3.icmp_type) type in
  let! response := store8 response (icmp + IcmpT3.icmp_code) code in
  let! response := store16 response (icmp + IcmpT3.unused) 0 in
  let! data := load packet Eth.size ICMP_DATA_SIZE in
  let! response := store response (icmp + IcmpT3.data) data in
  let! response := store16 response (icmp + IcmpT3.icmp_sum) 0 in
  let! hdr := from response icmp in
  let! sum := cksum hdr (Z.of_nat IcmpT3.size) in
  store16 response (icmp + IcmpT3.icmp_sum) sum.

(** The IP and Ethernet headers. *)
Definition fill_headers (response packet : list Z) (response_len : Z)
    (out_interface ip_interface : option sr_if) : res (list Z) :=
  let ip_hdr := Eth.size in
  let! ip_src := match ip_interface with
                 | None => let! o := of_option NullDeref out_interface in Ok (if_ip o)
                 | Some i => Ok (if_ip i)
                 end in
  let! hdr := load packet ip_hdr Ip.size in
  let! response := store response ip_hdr hdr in
  let! response := store8 response (ip_hdr + Ip.ip_ttl) INIT_TTL in
  let! response := store8 response (ip_hdr + Ip.ip_p) ip_protocol_icmp in
  let! response := store32 response (ip_hdr + Ip.ip_src) ip_src in
  let! src := load32 packet (ip_hdr + Ip.ip_src) in
  let! response := store32 response (ip_hdr + Ip.ip_dst) src in
  let! response := store16 response (ip_hdr + Ip.ip_len)
                     (htons (response_len - Z.of_nat Eth.size)) in
  let! response := store16 response (ip_hdr + Ip.ip_sum) 0 in
  let! hdr := from response ip_hdr in
  let! sum := cksum hdr (Z.of_nat Ip.size) in
  let! response := store16 response (ip_hdr + Ip.ip_sum) sum in
  let! out := of_option NullDeref out_interface in
  let! addr := load (if_addr out) 0 ETHER_ADDR_LEN in
  let! response := store response Eth.ether_shost addr in
  let! shost := load packet Eth.ether_shost ETHER_ADDR_LEN in
  let! response := store response Eth.ether_dhost shost in
  store16 response Eth.ether_type (htons ethertype_ip).

(** The response frame.  The [printf] after the ICMP part reads
    [response_icmp_hdr->icmp_sum] through the outer pointer, which is never
    initialised (both branches declare their own): what it finds is not
    specified and not used, but when the pointer leads to no readable memory the
    process dies.  [wild] says whether it can be read. *)
Definition build_icmp_response (wild : bool) (ifs : list sr_if) (packet : list Z) (len : Z)
    (interface : list Z) (type code : Z) (ip_interface : option sr_if) : res (list Z * Z) :=
  let response_len := if type =? 0 then len else Z.of_nat (IcmpT3.size + Eth.size + Ip.size) in
  let response := calloc (Z.to_nat response_len) in
  let! out_interface := sr_get_interface ifs interface in
  let! response := if type =? 0 then fill_echo response packet response_len type code
                   else fill_error response packet type code in
  let! _ := if wild then Ok tt else Fault WildRead in
  let! response := fill_headers response packet response_len out_interface ip_interface in
  Ok (response, response_len).

(** ** handle_arp_packet, the reply to a request *)
Definition build_arp_reply (packet : list Z) (len : Z) (iface : sr_if) : res (list Z) :=
  let arp_hdr := Eth.size in
  let response := replicate (Z.to_nat len) 0 in   (* malloc + memset *)
  let! addr := load (if_addr iface) 0 ETHER_ADDR_LEN in
  let! response := store response Eth.ether_shost addr in
  let! shost := load packet Eth.ether_shost ETHER_ADDR_LEN in
  let! response := store response Eth.ether_dhost shost in
  let! response := store16 response Eth.ether_type (htons ethertype_arp) in
  let! hdr := load packet arp_hdr Arp.size in
  let! response := store response arp_hdr hdr in
  let! response := store16 response (arp_hdr + Arp.ar_op) (htons arp_op_reply) in
  let! sha := load packet (arp_hdr + Arp.ar_sha) ETHER_ADDR_LEN in
  let! response := store response (arp_hdr + Arp.ar_tha) sha in
  let! response := store response (arp_hdr + Arp.ar_sha) addr in
  let! response := store32 response (arp_hdr + Arp.ar_sip) (if_ip iface) in
  let! sip := load32 packet (arp_hdr + Arp.ar_sip) in
  store32 response (arp_hdr + Arp.ar_tip) sip.

(** The copy of a waiting packet, addressed to the host that answered. *)
Definition readdress (junk : list Z) (pkt : sr_packet) (packet : list Z) (iface : option sr_if) :
    res (list Z) :=
  let arp_hdr := Eth.size in
  let send_packet := malloc junk (Z.to_nat (pk_len pkt)) in
  let! data := load (pk_buf pkt) 0 (Z.to_nat (pk_len pkt)) in
  let! send_packet := store send_packet 0 data in
  let! sha := load packet (arp_hdr + Arp.ar_sha) ETHER_ADDR_LEN in
  let! send_packet := store send_packet Eth.ether_dhost sha in
  let! i := of_option NullDeref iface in
  let! addr := load (if_addr i) 0 ETHER_ADDR_LEN in
  store send_packet Eth.ether_shost addr.

(** The frame of [send_arp_reply]; [arp_hdr] starts at the ARP header. *)
Definition build_send_arp_reply (junk arp_hdr : list Z) (iface : sr_if) : res (list Z) :=
  let arp_reply := malloc junk (Eth.size + Arp.size) in
  let new_arp_hdr := Eth.size in
  let! sha := load arp_hdr Arp.ar_sha ETHER_ADDR_LEN in
  let! arp_reply := store arp_reply Eth.ether_dhost sha in
  let! addr := load (if_addr iface) 0 ETHER_ADDR_LEN in
  let! arp_reply := store arp_reply Eth.ether_shost addr in
  let! arp_reply := store16 arp_reply Eth.ether_type (htons ethertype_arp) in
  let! arp_reply := store16 arp_reply (new_arp_hdr + Arp.ar_hrd) (htons arp_hrd_ethernet) in
  let! arp_reply := store16 arp_reply (new_arp_hdr + Arp.ar_pro) (htons ethertype_ip) in
  let! arp_reply := store8 arp_reply (new_arp_hdr + Arp.ar_hln) (Z.of_nat ETHER_ADDR_LEN) in
  let! arp_reply := store8 arp_reply (new_arp_hdr + Arp.ar_pln) 4 in
  let! arp_reply := store16 arp_reply (new_arp_hdr + Arp.ar_op) (htons arp_op_reply) in
  let! arp_reply := store arp_reply (new_arp_hdr + Arp.ar_sha) addr in
  let! arp_reply := store32 arp_reply (new_arp_hdr + Arp.ar_sip) (if_ip iface) in
  let! arp_reply := store arp_reply (new_arp_hdr + Arp.ar_tha) sha in
  let! sip := load32 arp_hdr Arp.ar_sip in
  store32 arp_reply (new_arp_hdr + Arp.ar_tip) sip.

Section OS.
Context {os : OS}.

Definition icmp_response (packet : list Z) (len : Z) (interface : list Z)
    (type code : Z) (ip_interface : option sr_if) : M (list Z * Z) :=
  do! w := sget in
  slift (build_icmp_response (os_wild_read (ticks w)) (if_list w) packet len interface type code ip_interface).
Definition send_icmp_response (packet : list Z) (len : Z) (interface : list Z)
    (type code : Z) (ip_interface : option sr_if) : M unit :=
  if len <? Z.of_nat (Eth.size + Ip.size) then sret tt
  else
    do! r := icmp_response packet len interface type code ip_interface in
    run! sr_send_packet r.1 r.2 interface in
    sret tt.

(** ** handle_ip_packet *)

(** What is to become of the packet: nothing, an ICMP answer, or, with its new
    header, the route it is to take.  In the code the answer and the forwarding
    are the last thing each branch does. *)
Inductive verdict :=
| Drop
| Answer (packet : list Z) (type code : Z) (ip_interface : option sr_if)
| Route (packet : list Z) (rt : sr_rt).

(** The packet is for the router itself. *)
Definition handle_local (packet : list Z) (len : Z) (interface : list Z)
    (ip_interface : sr_if) : M verdict :=
  let icmp_hdr := (Eth.size + Ip.size)%nat in
  do! w := sget in
  do! _ := slift (sr_get_interface (if_list w) interface) in
  do! hdr := slift (from packet Eth.size) in
  do! protocol := slift (ip_protocol hdr) in
  if protocol =? ip_protocol_icmp then
    do! icmp_sum := slift (load16 packet (icmp_hdr + Icmp.icmp_sum)) in
    do! packet := slift (store16 packet (icmp_hdr + Icmp.icmp_sum) 0) in
    do! hdr := slift (from packet icmp_hdr) in
    do! header_checksum :=
       slift (cksum hdr (s32 (len - Z.of_nat Eth.size - Z.of_nat Ip.size))) in
    if negb (header_checksum =? icmp_sum) then sret Drop
    else
      do! icmp_type := slift (load8 packet (icmp_hdr + Icmp.icmp_type)) in
      if negb (icmp_type =? 8) then sret Drop
      else sret (Answer packet 0 0 (Some ip_interface))
  else if (protocol =? ip_protocol_tcp) || (protocol =? ip_protocol_udp) then
    sret (Answer packet 3 3 (Some ip_interface))
  else sret Drop.

(** The packet is for somebody else. *)
Definition handle_transit (packet : list Z) : M verdict :=
  let ip_hdr := Eth.size in
  do! ttl := slift (load8 packet (ip_hdr + Ip.ip_ttl)) in
  let ttl := u8 (ttl - 1) in
  do! packet := slift (store8 packet (ip_hdr + Ip.ip_ttl) ttl) in
  if ttl =? 0 then sret (Answer packet 11 0 None)
  else
    do! packet := slift (store16 packet (ip_hdr + Ip.ip_sum) 0) in
    do! hdr := slift (from packet ip_hdr) in
    do! sum := slift (cksum hdr (Z.of_nat Ip.size)) in
    do! packet := slift (store16 packet (ip_hdr + Ip.ip_sum) sum) in
    do! ip_dst := slift (load32 packet (ip_hdr + Ip.ip_dst)) in
    do! w := sget in
    match sr_longest_prefix_match (routing_table w) ip_dst with
    | None => sret (Answer packet 3 0 None)
    | Some longest_match_rt => sret (Route packet longest_match_rt)
    end.

(** The code before anything is sent. *)
Definition ip_verdict (packet : list Z) (len : Z) (interface : list Z) : M verdict :=
  let ip_hdr := Eth.size in
  if len <? Z.of_nat (Eth.size + Ip.size) then sret Drop
  else
    do! header_checksum := slift (load16 packet (ip_hdr + Ip.ip_sum)) in
    do! packet := slift (store16 packet (ip_hdr + Ip.ip_sum) 0) in
    do! hdr := slift (from packet ip_hdr) in
    do! sum := slift (cksum hdr (Z.of_nat Ip.size)) in
    if negb (header_checksum =? sum) then sret Drop
    else
      do! ip_dst := slift (load32 packet (ip_hdr + Ip.ip_dst)) in
      do! w := sget in
      match get_dst_interface (if_list w) ip_dst with
      | Some ip_interface => handle_local packet len interface ip_interface
      | None => handle_transit packet
      end.

(** The next hop's address is known: the two addresses are filled in. *)
Definition known_frame (packet : list Z) (rt : sr_rt) (arp_entry : sr_arpentry) : M (list Z) :=
  do! w := sget in
  do! i := slift (get_interface_deref (if_list w) (rt_interface rt)) in
  do! addr := slift (load (if_addr i) 0 ETHER_ADDR_LEN) in
  do! packet := slift (store packet Eth.ether_shost addr) in
  do! mac := slift (load (ae_mac arp_entry) 0 ETHER_ADDR_LEN) in
  slift (store packet Eth.ether_dhost mac).
Definition send_known (packet : list Z) (len : Z) (rt : sr_rt) (arp_entry : sr_arpentry) : M unit :=
  do! packet := known_frame packet rt arp_entry in
  run! sr_send_packet packet len (rt_interface rt) in
  sret tt.

(** The packet has a route: send it on, or wait for the next hop's address. *)
Definition forward (packet : list Z) (len : Z) (rt : sr_rt) : M unit :=
  do! w := sget in
  match sr_arpcache_lookup (cache w) (rt_gw rt) with
  | Some arp_entry => send_known packet len rt arp_entry
  | None =>
      do! arp_req := on_cache (sr_arpcache_queuereq (rt_gw rt) (Some packet) len
                                 (Some (rt_interface rt))) in
      handle_arpreq arp_req
  end.

Definition handle_ip_packet (packet : list Z) (len : Z) (interface : list Z) : M unit :=
  do! v := ip_verdict packet len interface in
  match v with
  | Drop => sret tt
  | Answer packet type code ip_interface =>
      send_icmp_response packet len interface type code ip_interface
  | Route packet rt => forward packet len rt
  end.

(** ** handle_arp_packet *)

(** The loop over the packets that waited for the answer. *)
Definition waiting_copy (packet : list Z) (iface : option sr_if) (pkt : sr_packet) : M (list Z) :=
  do! w := sget in slift (readdress (os_malloc (ticks w)) pkt packet iface).
Definition send_waiting (packet : list Z) (iface : option sr_if) (pkt : sr_packet) : M unit :=
  do! send_packet := waiting_copy packet iface pkt in
  run! sr_send_packet send_packet (pk_len pkt) (pk_iface pkt) in
  sret tt.

(** [sr_arpcache_insert] asks for the time only when it found a free slot. *)
Definition arpcache_insert (mac : list Z) (ip : Z) : M (option loc) :=
  do! w := sget in
  do! now := (if (free_slot (entries (cache w)) =? SR_ARPCACHE_SZ)%nat then sret 0 else time) in
  on_cache (sr_arpcache_insert now mac ip).

(** What is to become of the packet: nothing, a reply to the request, or the
    mapping a reply brings, with the interface it came in on. *)
Inductive arp_verdict :=
| ArpDrop
| ArpAnswer (response : list Z)
| ArpLearn (iface : option sr_if) (sha : list Z) (sip : Z).

(** The code before anything is sent or learnt. *)
Definition arp_decide (packet : list Z) (len : Z) (interface : list Z) : M arp_verdict :=
  let arp_hdr := Eth.size in
  do! w := sget in
  do! iface := slift (sr_get_interface (if_list w) interface) in
  do! op := slift (load16 packet (arp_hdr + Arp.ar_op)) in
  if ntohs op =? arp_op_request then
    do! tip := slift (load32 packet (arp_hdr + Arp.ar_tip)) in
    do! i := slift (of_option NullDeref iface) in
    if tip =? if_ip i then
      do! response := slift (build_arp_reply packet len i) in
      sret (ArpAnswer response)
    else sret ArpDrop
  else if ntohs op =? arp_op_reply then
    do! sha := slift (load packet (arp_hdr + Arp.ar_sha) ETHER_ADDR_LEN) in
    do! sip := slift (load32 packet (arp_hdr + Arp.ar_sip)) in
    sret (ArpLearn iface sha sip)
  else sret ArpDrop.

(** A reply: the packets that waited for it are sent. *)
Definition handle_arp_answer (packet : list Z) (iface : option sr_if) (sha : list Z) (sip : Z) : M unit :=
  do! cached_arp_req := arpcache_insert sha sip in
  match cached_arp_req with
  | None => sret tt
  | Some l =>
      do! r := on_cache (deref l) in
      run! siter (send_waiting packet iface) (rq_packets r) in
      on_cache (sr_arpreq_destroy (Some l))
  end.

Definition handle_arp_packet (packet : list Z) (len : Z) (interface : list Z) : M unit :=
  do! v := arp_decide packet len interface in
  match v with
  | ArpDrop => sret tt
  | ArpAnswer response =>
      run! sr_send_packet response len interface in sret tt
  | ArpLearn iface sha sip => handle_arp_answer packet iface sha sip
  end.

Definition send_arp_reply (arp_hdr interface : list Z) : M unit :=
  do! w := sget in
  do! o := slift (sr_get_interface (if_list w) interface) in
  match o with
  | None => sret tt
  | Some iface =>
      do! arp_reply := slift (build_send_arp_reply (os_malloc (ticks w)) arp_hdr iface) in
      run! sr_send_packet arp_reply (Z.of_nat (Eth.size + Arp.size)) interface in
      sret tt
  end.

Definition sr_handlepacket (packet : list Z) (len : Z) (interface : list Z) : M unit :=
  do! type := slift (ethertype packet) in
  if type =? ethertype_ip then handle_ip_packet packet len interface
  else if type =? ethertype_arp then handle_arp_packet packet len interface
  else sret tt.
End OS.
