(* ===== verification/RouterSpec.v ===== *)
(** * RouterSpec: what the packet handlers do

    The frames the handlers of Router.v build, as encoded headers, and the
    lemmas that each builder produces its frame; then one lemma per outcome of
    each handler, and the invariant of the whole router. *)

From S2P Require Import Prelude Memory Protocol Utils Iface Rt ArpCache World ArpHandler Router.

(** ** The frames *)

(** The header of an ICMP answer: the request's, turned round. *)
Definition reply_ip (h : ip_hdr) (len ip_src : Z) : ip_hdr :=
  seal_ip (IpHdr (i_v h) (i_hl h) (i_tos h) len (i_id h) (i_off h) INIT_TTL ip_protocol_icmp 0
             ip_src (i_src h)).

(** The echo reply to a request with ICMP body [type :: code :: s0 :: s1 :: data]. *)
Definition echo_body (data : list Z) : list Z :=
  [0; 0] ++ be_bytes2 (checksum_be ([0; 0; 0; 0] ++ data)) ++ data.
Definition echo_reply_frame (out : sr_if) (ip_src : Z) (e : eth_hdr) (h : ip_hdr) (data : list Z) :
    list Z :=
  encode_eth (EthHdr (e_shost e) (if_addr out) ethertype_ip)
  ++ encode_ip (reply_ip h (24 + Z.of_nat (length data)) ip_src) ++ echo_body data.

(** An ICMP error about the packet with header [h] and payload [payload]. *)
Definition icmp_error_frame (out : sr_if) (ip_src : Z) (e : eth_hdr) (h : ip_hdr)
    (payload : list Z) (type code : Z) : list Z :=
  encode_eth (EthHdr (e_shost e) (if_addr out) ethertype_ip)
  ++ encode_ip (reply_ip h 56 ip_src)
  ++ encode_icmp_t3 (seal_t3 (IcmpT3Hdr type code 0 0 0 (encode_ip h ++ take 8 payload))).

(** The forwarded packet: new Ethernet addresses before the header [h], which
    has one hop less and a new checksum. *)
Definition forward_frame (out : sr_if) (mac : list Z) (e : eth_hdr) (h : ip_hdr) (payload : list Z) :
    list Z :=
  encode_eth (EthHdr mac (if_addr out) (e_type e)) ++ encode_ip h ++ payload.

(** The answer to an ARP request [a], padded with zeros to its length. *)
Definition arp_reply_frame (i : sr_if) (e : eth_hdr) (a : arp_hdr) (pad : nat) : list Z :=
  encode_eth (EthHdr (e_shost e) (if_addr i) ethertype_arp)
  ++ encode_arp (ArpHdr (a_hrd a) (a_pro a) (a_hln a) (a_pln a) arp_op_reply
                   (if_addr i) (if_ip i) (a_sha a) (a_sip a))
  ++ replicate pad 0.

(** A waiting frame with its addresses filled in. *)
Definition readdressed (sha addr frame : list Z) : list Z := sha ++ addr ++ drop 12 frame.

(** ** Lemmas: the builders *)
Lemma byte_at_htons0 n : byte_at (htons n) 0 = byte_at n 1.
Proof. pose proof (le_bytes2_htons n) as H. by injection H. Qed.
Lemma byte_at_htons1 n : byte_at (htons n) 1 = byte_at n 0.
Proof. pose proof (le_bytes2_htons n) as H. by injection H. Qed.

Lemma fill_headers_spec P I rest e h payload out ipo n :
  length P = 14%nat -> length I = 20%nat -> eth_hdr_ok e -> ip_hdr_ok h -> sr_if_ok out ->
  u32_ok (if_ip (default out ipo)) -> u16_ok (n - 14) ->
  fill_headers (P ++ I ++ rest) (encode_eth e ++ encode_ip h ++ payload) n (Some out) ipo
  = Ok (encode_eth (EthHdr (e_shost e) (if_addr out) ethertype_ip)
        ++ encode_ip (reply_ip h (n - 14) (if_ip (default out ipo))) ++ rest).
Proof.
  intros HP HI [Hed Hes _] Hh Hout Hip Hn. unfold fill_headers.
  pose proof (ifok_addr _ Hout) as Ha. set (src := if_ip (default out ipo)) in *.
  replace (match ipo with None => let! o := of_option NullDeref (Some out) in Ok (if_ip o)
           | Some i => Ok (if_ip i) end) with (Ok src) by (unfold src; by destruct ipo).
  cbn [bind of_option]. change (Z.of_nat Eth.size) with 14. set (m := n - 14) in *.
  assert (H1 : ip_hdr_ok (IpHdr (i_v h) (i_hl h) (i_tos h) m (i_id h) (i_off h) INIT_TTL
                 ip_protocol_icmp 0 src (i_src h))).
  { destruct Hh. by constructor. }
  set (h1 := IpHdr _ _ _ m _ _ _ _ _ _ _) in H1.
  destruct out as [nm addr oip sp]; cbn [if_addr] in *.
  destruct e as [d s t]; cbn [e_dhost e_shost] in *.
  assert (Hsrc : le_word (le_bytes4 (i_src h)) = i_src h) by apply (le_word_le4 _ (iok_src _ Hh)).
  unfold le_bytes4 in Hsrc.
  clearbody m src. clear -HP HI Hed Hes Ha H1 Hsrc. explode P. explode I. explode addr. explode d. explode s.
  destruct h as [v hl tos hlen id off ttl p sum hsrc hdst]. cbn [i_src] in *. run_stores.
  rewrite Hsrc, byte_at_htons0, byte_at_htons1.
  match goal with |- context [cksum ?l 20] =>
    change (cksum l 20) with (cksum (encode_ip h1 ++ rest) 20) end.
  rewrite cksum_ip by done. reflexivity.
Qed.

Lemma from_at P l off : length P = off -> from (P ++ l) off = Ok l.
Proof.
  intros <-. rewrite from_ok by lens. by rewrite drop_app_length.
Qed.

Lemma fill_echo_spec P Z0 Q t c s0 s1 data :
  length P = 34%nat -> length Q = 34%nat -> length Z0 = (4 + length data)%nat -> bytes_ok data ->
  Z.of_nat (length data) < 65536 ->
  fill_echo (P ++ Z0) (Q ++ t :: c :: s0 :: s1 :: data) (38 + Z.of_nat (length data)) 0 0
  = Ok (P ++ echo_body data).
Proof.
  intros HP HQ HZ Hb Hmax. unfold fill_echo.
  change (Z.of_nat Eth.size) with 14. change (Z.of_nat Ip.size) with 20.
  change (Eth.size + Ip.size)%nat with 34%nat.
  replace (38 + Z.of_nat (length data) - 14 - 20) with (Z.of_nat (4 + length data)) by lia.
  rewrite Nat2Z.id.
  pose proof (load_at Q (t :: c :: s0 :: s1 :: data) [] 34 (4 + length data) HQ eq_refl) as El.
  rewrite app_nil_r in El. rewrite (bind_step _ _ _ El).
  rewrite (bind_step _ _ _ (store_at_end P Z0 34 (t :: c :: s0 :: s1 :: data) HP HZ)).
  set (n := Z.of_nat (4 + length data)).
  assert (En : s32 n = n) by (apply s32_small; clear -Hmax; subst n; lia).
  pose proof (cksum_prefix ([0; 0; 0; 0] ++ data) [] (4 + length data)) as Ec.
  rewrite app_nil_r in Ec. fold n in Ec. cbn [app] in Ec. unfold echo_body. cbn [app].
  set (ck := checksum_be (0 :: 0 :: 0 :: 0 :: data)) in *.
  assert (Ec' : cksum (0 :: 0 :: 0 :: 0 :: data) n = Ok (htons ck)).
  { apply Ec; [by rewrite !Forall_cons|done|]. unfold n, cksum_max_len. lia. }
  clearbody n ck. rewrite En. clear -HP Ec'. explode P. run_stores.
  change (byte_at 0 0) with 0. change (byte_at 0 1) with 0. rewrite Ec'.
  rewrite byte_at_htons0, byte_at_htons1. reflexivity.
Qed.

Lemma fill_error_spec e h payload type code :
  eth_hdr_ok e -> ip_hdr_ok h -> bytes_ok payload -> (8 <= length payload)%nat ->
  byte_ok type -> byte_ok code ->
  fill_error (calloc 70) (encode_eth e ++ encode_ip h ++ payload) type code
  = Ok (replicate 34 0
        ++ encode_icmp_t3 (seal_t3 (IcmpT3Hdr type code 0 0 0 (encode_ip h ++ take 8 payload)))).
Proof.
  intros [Hed Hes _] Hh Hb Hl Ht Hc.
  destruct (split_at payload 8 Hl) as (p8 & tl & -> & H8). apply bytes_ok_app in Hb as [Hb _].
  rewrite (take_app_length' p8) by done.
  set (h3 := IcmpT3Hdr type code 0 0 0 (encode_ip h ++ p8)).
  assert (Hd : bytes_ok (t_data h3)).
  { cbn [t_data h3]. apply bytes_ok_app. split; [by apply bytes_ok_encode_ip|done]. }
  destruct e as [d s t]; cbn [e_dhost e_shost] in *.
  assert (Hdl : length (t_data h3) = 28%nat) by (cbn [t_data h3]; rewrite length_app, length_encode_ip; lia).
  destruct h as [v hl tos hlen id off ttl p sum hsrc hdst].
  unfold fill_error. clear -Hed Hes H8 Hd Hdl Ht Hc. explode d. explode s. explode p8. run_stores.
  rewrite !(byte_at_0_small type), !(byte_at_0_small code) by done.
  match goal with |- context [cksum ?l 36] =>
    change (cksum l 36) with (cksum (encode_icmp_t3 h3) 36) end.
  rewrite cksum_t3 by done. reflexivity.
Qed.

Section Response.
Context (ifs : list sr_if) (interface s : list Z) (out : sr_if).
Context (Hifs : ifs_ok ifs) (Hn : name_of interface = Ok s) (Hf : find_if ifs s = Some out).

(** The echo reply. *)
Lemma build_echo_reply e h t c s0 s1 data ipo :
  eth_hdr_ok e -> ip_hdr_ok h -> bytes_ok data -> Z.of_nat (length data) < 65000 ->
  match ipo with Some i => sr_if_ok i | None => True end ->
  let payload := t :: c :: s0 :: s1 :: data in
  let len := 38 + Z.of_nat (length data) in
  build_icmp_response true ifs (encode_eth e ++ encode_ip h ++ payload) len interface 0 0 ipo
  = Ok (echo_reply_frame out (if_ip (default out ipo)) e h data, len).
Proof.
  intros He Hh Hb Hmax Hipo payload len. unfold build_icmp_response.
  pose proof (find_if_ok _ _ _ Hifs Hf) as Hout.
  rewrite (sr_get_interface_spec _ _ _ Hifs Hn), Hf. cbn [Z.eqb bind].
  assert (Hc : calloc (Z.to_nat len) = replicate 14 0 ++ replicate 20 0 ++ replicate (4 + length data) 0).
  { unfold calloc. rewrite <- !replicate_add. f_equal. lia. }
  rewrite Hc, app_assoc. rewrite (app_assoc (encode_eth e)). subst payload len.
  rewrite fill_echo_spec; [|done| |by rewrite length_replicate|done|lia].
  2:{ by rewrite length_app, length_encode_eth, length_encode_ip. }
  cbn [bind]. rewrite <- !app_assoc.
  rewrite fill_headers_spec; try done.
  - cbn [bind]. unfold echo_reply_frame. do 4 f_equal. f_equal. f_equal. lia.
  - destruct ipo as [i|]; [apply (ifok_ip _ Hipo)|apply (ifok_ip _ Hout)].
  - unfold u16_ok. lia.
Qed.

(** An error. *)
Lemma build_icmp_error e h payload type code ipo len :
  eth_hdr_ok e -> ip_hdr_ok h -> bytes_ok payload -> (8 <= length payload)%nat ->
  1 <= type < 256 -> byte_ok code ->
  match ipo with Some i => sr_if_ok i | None => True end ->
  build_icmp_response true ifs (encode_eth e ++ encode_ip h ++ payload) len interface type code ipo
  = Ok (icmp_error_frame out (if_ip (default out ipo)) e h payload type code, 70).
Proof.
  intros He Hh Hb Hl Ht Hc Hipo. unfold build_icmp_response.
  pose proof (find_if_ok _ _ _ Hifs Hf) as Hout.
  rewrite (sr_get_interface_spec _ _ _ Hifs Hn), Hf. cbn [bind].
  rewrite (proj2 (Z.eqb_neq type 0)) by lia.
  change (Z.to_nat (Z.of_nat (IcmpT3.size + Eth.size + Ip.size))) with 70%nat.
  change (Z.of_nat (IcmpT3.size + Eth.size + Ip.size)) with 70.
  rewrite fill_error_spec; [|done..|unfold byte_ok; lia|done]. cbn [bind].
  change (replicate 34 0) with (replicate 14 0 ++ replicate 20 0). rewrite <- app_assoc.
  rewrite fill_headers_spec; try done.
  destruct ipo as [i|]; [apply (ifok_ip _ Hipo)|apply (ifok_ip _ Hout)].
Qed.

End Response.

Lemma build_arp_reply_spec i e a rest :
  sr_if_ok i -> eth_hdr_ok e -> arp_hdr_ok a ->
  build_arp_reply (encode_eth e ++ encode_arp a ++ rest) (42 + Z.of_nat (length rest)) i
  = Ok (arp_reply_frame i e a (length rest)).
Proof.
  intros Hi [Hed Hes _] Ha. pose proof (ifok_addr _ Hi) as Hia. pose proof (ifok_ip _ Hi) as Hip.
  unfold build_arp_reply.
  replace (Z.to_nat (42 + Z.of_nat (length rest))) with (42 + length rest)%nat by lia.
  rewrite replicate_add. unfold arp_reply_frame. generalize (replicate (length rest) 0). intros pad.
  destruct i as [nm addr iip sp]; cbn [if_addr if_ip] in *.
  destruct e as [d s t]; cbn [e_dhost e_shost] in *. pose proof (aok_sha _ Ha) as Hs6.
  pose proof (aok_tha _ Ha) as Ht6. pose proof (le_word_le4 _ (aok_sip _ Ha)) as Hsip.
  unfold le_bytes4 in Hsip.
  destruct a as [hrd pro hln pln op sha sip tha tip]; cbn [a_sha a_tha a_sip] in *.
  clear -Hed Hes Hia Hs6 Ht6 Hsip. explode d. explode s. explode addr. explode sha. explode tha. run_stores.
  rewrite Hsip. reflexivity.
Qed.

Lemma build_send_arp_reply_spec junk i a rest :
  sr_if_ok i -> arp_hdr_ok a ->
  build_send_arp_reply junk (encode_arp a ++ rest) i
  = Ok (encode_eth (EthHdr (a_sha a) (if_addr i) ethertype_arp)
        ++ encode_arp (ArpHdr arp_hrd_ethernet ethertype_ip 6 4 arp_op_reply
                         (if_addr i) (if_ip i) (a_sha a) (a_sip a))).
Proof.
  intros Hi Ha. pose proof (ifok_addr _ Hi) as Hia. unfold build_send_arp_reply.
  pose proof (malloc_length junk (Eth.size + Arp.size)) as HL. set (b := malloc junk _) in *. clearbody b.
  destruct i as [nm addr iip sp]; cbn [if_addr if_ip] in *.
  pose proof (aok_sha _ Ha) as Hs6. pose proof (aok_tha _ Ha) as Ht6.
  pose proof (le_word_le4 _ (aok_sip _ Ha)) as Hsip. unfold le_bytes4 in Hsip.
  destruct a as [hrd pro hln pln op sha sip tha tip]; cbn [a_sha a_tha a_sip] in *.
  change (length b = 42%nat) in HL.
  clear -HL Hia Hs6 Ht6 Hsip. explode b. explode addr. explode sha. explode tha. run_stores.
  rewrite Hsip. reflexivity.
Qed.

(** The members of the ARP header [handle_arp_packet] reads. *)
Lemma arp_members e a rest :
  eth_hdr_ok e -> arp_hdr_ok a ->
  let f := encode_eth e ++ encode_arp a ++ rest in
  load16 f (Eth.size + Arp.ar_op) = Ok (htons (a_op a))
  /\ load f (Eth.size + Arp.ar_sha) ETHER_ADDR_LEN = Ok (a_sha a)
  /\ load32 f (Eth.size + Arp.ar_sip) = Ok (a_sip a)
  /\ load32 f (Eth.size + Arp.ar_tip) = Ok (a_tip a).
Proof.
  intros [Hed Hes _] Ha. pose proof (le_word_le4 _ (aok_sip _ Ha)) as Hsip.
  pose proof (le_word_le4 _ (aok_tip _ Ha)) as Htip. pose proof (aok_sha _ Ha) as Hs6.
  pose proof (aok_tha _ Ha) as Ht6. pose proof (le_word_le2 _ (htons_range (a_op a))) as Hop.
  rewrite le_bytes2_htons in Hop. destruct e as [d s t]; cbn [e_dhost e_shost] in *.
  destruct a as [hrd pro hln pln op sha sip tha tip]; cbn [a_op a_sha a_tha a_sip a_tip] in *.
  clear -Hed Hes Hs6 Ht6 Hsip Htip Hop. explode d. explode s. explode sha. explode tha.
  split_and!; [by rewrite <- Hop|done|by rewrite <- Hsip at 2|by rewrite <- Htip at 2].
Qed.

Lemma readdress_spec junk pkt ifs e a rest i :
  pkt_ok ifs pkt -> sr_if_ok i -> eth_hdr_ok e -> arp_hdr_ok a ->
  readdress junk pkt (encode_eth e ++ encode_arp a ++ rest) (Some i)
  = Ok (readdressed (a_sha a) (if_addr i) (pk_buf pkt)).
Proof.
  intros Hp Hi He Ha. pose proof (ifok_addr _ Hi) as Hia. destruct (pok_len _ _ Hp) as [HL HL42].
  unfold readdress, readdressed.
  rewrite <- HL. rewrite (bind_step _ _ _ (load_ok (pk_buf pkt) 0 (length (pk_buf pkt)) ltac:(lia))).
  cbn [drop]. rewrite firstn_all.
  set (m := malloc junk _). assert (Hm : length m = length (pk_buf pkt)) by apply malloc_length.
  pose proof (store_at_end [] m 0 (pk_buf pkt) eq_refl Hm) as E. cbn [app] in E.
  rewrite (bind_step _ _ _ E). clear E.
  destruct (arp_members e a rest He Ha) as (_ & El & _).
  rewrite (bind_step _ _ _ El).
  destruct (split_at (pk_buf pkt) 6 ltac:(lia)) as (b1 & r & Eb & H1). rewrite Eb in *.
  rewrite length_app in HL.
  destruct (split_at r 6 ltac:(lia)) as (b2 & tl & -> & H2).
  pose proof (aok_sha _ Ha) as Hs6.
  pose proof (store_at [] b1 (b2 ++ tl) Eth.ether_dhost (a_sha a) eq_refl ltac:(lia)) as Es.
  cbn [app] in Es. rewrite (bind_step _ _ _ Es). cbn [of_option bind].
  pose proof (load_at [] (if_addr i) [] 0 ETHER_ADDR_LEN eq_refl Hia) as Ea.
  rewrite app_nil_r in Ea. cbn [app] in Ea. rewrite (bind_step _ _ _ Ea).
  rewrite (store_at (a_sha a) b2 tl Eth.ether_shost (if_addr i) Hs6 ltac:(lia)).
  by rewrite (app_assoc b1), drop_app_length' by (rewrite length_app; lia).
Qed.
