(* ===== verification/Handlers.v ===== *)
(** * Handlers: the packet handlers refine their specification

    [spec_ip] and [spec_arp] say, as functions of the received headers, which
    messages a packet makes the router send and how it changes the request
    queue and the ARP table.  The theorems say that the handlers of Router.v,
    run on the encoded frame, do exactly that, fault nowhere and keep the
    invariant [world_ok]; but a packet that is answered with an ICMP message may
    kill the process, at the uninitialised pointer of [send_icmp_response]
    ([wild_death]). *)

From S2P Require Import Prelude Memory Protocol Utils Iface Rt ArpCache World ArpHandler Router RouterSpec.

(** ** Specification *)

Definition ip_sum_ok (h : ip_hdr) : bool :=
  i_sum h =? htons (checksum_be (encode_ip (set_sum h 0))).

(** A packet for the router, out of [i] again; [ipi] has its destination. *)
Definition local_msgs (nm : list Z) (i ipi : sr_if) (e : eth_hdr) (h : ip_hdr) (payload : list Z) :
    list (list Z) :=
  if i_p h =? ip_protocol_icmp then
    match payload with
    | t :: c :: s0 :: s1 :: data =>
        if (le_word [s0; s1] =? htons (checksum_be (t :: c :: 0 :: 0 :: data))) && (t =? 8)
        then [vns_message nm (echo_reply_frame i (if_ip ipi) e h data)] else []
    | _ => []
    end
  else if (i_p h =? ip_protocol_tcp) || (i_p h =? ip_protocol_udp)
  then [vns_message nm (icmp_error_frame i (if_ip ipi) e (set_sum h 0) payload 3 3)]
  else [].

(** The copy of a name that [sr_arpcache_queuereq] keeps. *)
Definition name32 (iface : list Z) : list Z :=
  match strncpy sr_IFACE_NAMELEN iface with Ok n => n | Fault _ => [] end.

(** A packet as it waits on a request: its header is complete but for the
    Ethernet addresses. *)
Definition waiting_frame (e : eth_hdr) (h : ip_hdr) (payload : list Z) : list Z :=
  encode_eth e ++ encode_ip h ++ payload.

(** Sending a packet with header [h] along route [r]: to the next hop if its
    address is in the ARP table, and onto the request queue otherwise. *)
Definition spec_forward (w : world) (now : Z) (e : eth_hdr) (h : ip_hdr) (payload : list Z)
    (r : sr_rt) (q : queue) : queue * list (list Z) :=
  match sr_arpcache_lookup (cache w) (rt_gw r) with
  | Some entry =>
      (q, msg_out (if_list w) (rt_interface r) (fun o => forward_frame o (ae_mac entry) e h payload))
  | None =>
      let frame := waiting_frame e h payload in
      let p := SrPacket frame (Z.of_nat (length frame)) (name32 (rt_interface r)) in
      let lq := spec_queuereq (brk (cache w)) (rt_gw r) p q in
      match q_find (rt_gw r) lq.2 with
      | Some (l, a) => spec_arpreq (if_list w) now l a lq.2
      | None => (lq.2, [])
      end
  end.

(** A packet for somebody else. *)
Definition spec_transit (w : world) (now : Z) (nm : list Z) (i : sr_if) (e : eth_hdr) (h : ip_hdr)
    (payload : list Z) (q : queue) : queue * list (list Z) :=
  let h1 := set_ttl (set_sum h 0) (u8 (i_ttl h - 1)) in
  if i_ttl h1 =? 0 then
    (q, [vns_message nm (icmp_error_frame i (if_ip i) e h1 payload 11 0)])
  else
    let h2 := seal_ip h1 in
    match sr_longest_prefix_match (routing_table w) (i_dst h) with
    | None => (q, [vns_message nm (icmp_error_frame i (if_ip i) e h2 payload 3 0)])
    | Some r => spec_forward w now e h2 payload r q
    end.

Definition spec_ip (w : world) (now : Z) (nm : list Z) (i : sr_if) (e : eth_hdr) (h : ip_hdr)
    (payload : list Z) (q : queue) : queue * list (list Z) :=
  if ip_sum_ok h then
    match get_dst_interface (if_list w) (i_dst h) with
    | Some ipi => (q, local_msgs nm i ipi e h payload)
    | None => spec_transit w now nm i e h payload q
    end
  else (q, []).

(** The packets that are answered with an ICMP message: those for the router
    ([local_msgs]), and those for somebody else whose hop count runs out or that
    have no route. *)
Definition local_answered (h : ip_hdr) (payload : list Z) : bool :=
  if i_p h =? ip_protocol_icmp then
    match payload with
    | t :: c :: s0 :: s1 :: data =>
        (le_word [s0; s1] =? htons (checksum_be (t :: c :: 0 :: 0 :: data))) && (t =? 8)
    | _ => false
    end
  else (i_p h =? ip_protocol_tcp) || (i_p h =? ip_protocol_udp).
Definition icmp_answered (ifs : list sr_if) (rts : list sr_rt) (h : ip_hdr) (payload : list Z) : bool :=
  ip_sum_ok h
  && match get_dst_interface ifs (i_dst h) with
     | Some _ => local_answered h payload
     | None => (u8 (i_ttl h - 1) =? 0)
               || match sr_longest_prefix_match rts (i_dst h) with Some _ => false | None => true end
     end.

(** Building such an answer follows the uninitialised pointer: this packet kills
    the process when the pointer leads nowhere. *)
Definition wild_death {os : OS} (w : world) (h : ip_hdr) (payload : list Z) : bool :=
  icmp_answered (if_list w) (routing_table w) h payload && negb (os_wild_read (ticks w)).

(** A waiting packet, sent when the answer [sha] came in on [i]: with [i]'s
    address as its source, whatever interface it goes out of; so it leaves only
    when that interface has the same address. *)
Definition waiting_msgs (ifs : list sr_if) (i : sr_if) (sha : list Z) (p : sr_packet) : list (list Z) :=
  match if_of ifs (pk_iface p) with
  | Some j => if bool_decide (if_addr i = if_addr j)
              then [vns_message (nm16 (pk_iface p)) (readdressed sha (if_addr i) (pk_buf p))] else []
  | None => []
  end.

(** An ARP packet: the queue, the table, and what is sent. *)
Definition spec_arp (w : world) (now : Z) (nm : list Z) (i : sr_if) (e : eth_hdr) (a : arp_hdr)
    (pad : nat) (q : queue) : queue * list sr_arpentry * list (list Z) :=
  let es := entries (cache w) in
  if a_op a =? arp_op_request then
    (q, es, if a_tip a =? if_ip i then [vns_message nm (arp_reply_frame i e a pad)] else [])
  else if a_op a =? arp_op_reply then
    let es' := spec_entries now (a_sha a) (a_sip a) es in
    match q_find (a_sip a) q with
    | Some (l, r) => (q_remove l q, es', mjoin (waiting_msgs (if_list w) i (a_sha a) <$> q_pkts r))
    | None => (q, es', [])
    end
  else (q, es, []).

(** ** Lemmas: the tables *)
Lemma lookup_In c ip e : sr_arpcache_lookup c ip = Some e -> e ∈ entries c /\ hits ip e = true.
Proof.
  unfold sr_arpcache_lookup. rewrite lookup_loop_rev. destruct (List.find _ _) eqn:E; [|done].
  intros [= <-]. apply List.find_some in E as [Hin Hh]. split; [|done].
  by apply list_elem_of_In, in_rev.
Qed.

Lemma get_dst_interface_In ifs ip i : get_dst_interface ifs ip = Some i -> i ∈ ifs /\ if_ip i = ip.
Proof.
  induction ifs as [|j ifs IH]; [done|]. simpl. destruct (Z.eqb_spec (if_ip j) ip) as [E|].
  - intros [= <-]. split; [by left|done].
  - intros H. destruct (IH H). split; [by right|done].
Qed.

Lemma lpm_In rts ip r : sr_longest_prefix_match rts ip = Some r -> r ∈ rts.
Proof.
  unfold sr_longest_prefix_match.
  assert (G : forall best m, lpm_loop rts ip best m = Some r -> r ∈ rts \/ best = Some r).
  { induction rts as [|x rts IH]; intros best m; simpl; [auto|].
    case_match; intros [H'|H']%IH; try (left; by right); auto.
    left. injection H' as <-. by left. }
  intros H. by apply G in H as [H|H].
Qed.

Lemma q_find_alter ip l f q :
  (forall a, q_ip (f a) = q_ip a) ->
  q_find ip (q_alter l f q)
  = (fun p => if decide (p.1 = l) then (p.1, f p.2) else p) <$> q_find ip q.
Proof.
  intros Hf. induction q as [|p q IH]; [done|]. unfold q_find, q_alter in *. cbn [map List.find].
  assert (E : q_ip (if decide (p.1 = l) then (p.1, f p.2) else p).2 = q_ip p.2).
  { case_decide; [apply Hf|done]. }
  rewrite E. destruct (q_ip p.2 =? ip); [done|apply IH].
Qed.

(** The request a packet was put on is found again. *)
Lemma spec_queuereq_find fresh ip p q :
  exists a, q_find ip (spec_queuereq fresh ip p q).2 = Some ((spec_queuereq fresh ip p q).1, a).
Proof.
  unfold spec_queuereq. destruct (q_find ip q) as [[l a]|] eqn:E; cbn [fst snd].
  - exists (add_pkt p a). rewrite q_find_alter by done. rewrite E. simpl. by rewrite decide_True.
  - exists (Areq ip 0 0 [p]). unfold q_find. cbn [List.find q_ip snd]. by rewrite Z.eqb_refl.
Qed.

Lemma spec_queuereq_reqs ifs fresh ip p q :
  Forall (fun x => req_ok ifs x.2) q -> pkt_ok ifs p ->
  Forall (fun x => req_ok ifs x.2) (spec_queuereq fresh ip p q).2.
Proof.
  intros Hq Hp. unfold spec_queuereq. destruct (q_find ip q) as [[l a]|]; cbn [snd].
  - apply (q_alter_Forall (req_ok ifs)); [|done]. intros b [Ht Hb]. constructor; [done|].
    by apply Forall_cons.
  - apply Forall_cons. split; [|done]. constructor; simpl; [lia|]. by apply Forall_cons.
Qed.

(** ** Lemmas: answering *)
Section Answers.
Context {os : OS}.

Lemma handled_out w w' q ms :
  world_ok w q -> world_same w w' -> sent (out w') = sent (out w) ++ ms -> handled w q ms w'.
Proof.
  intros Hw Hs Ho. constructor; [by eapply world_ok_same|done|apply (ws_ifs _ _ Hs)|
    apply (ws_routes _ _ Hs)|by rewrite (ws_cache _ _ Hs)].
Qed.

(** A handler that only sent [ms]. *)
Record answered (w : world) (ms : list (list Z)) (w' : world) : Prop := {
  an_same : world_same w w';
  an_sent : sent (out w') = sent (out w) ++ ms }.

Lemma handled_answered w q ms w' : world_ok w q -> answered w ms w' -> handled w q ms w'.
Proof. intros Hw []. by apply handled_out. Qed.

Lemma answered_ret w : answered w [] w.
Proof. constructor; [reflexivity|by rewrite app_nil_r]. Qed.

(** An ICMP answer out of the interface [interface] names, which is [i]. *)
Record answer_is (ifs : list sr_if) (interface : list Z) (i : sr_if) (packet : list Z) (len type code : Z)
    (ipo : option sr_if) (frame : list Z) : Prop := {
  ai_len : 34 <= len;
  ai_build : build_icmp_response true ifs packet len interface type code ipo
             = Ok (frame, Z.of_nat (length frame));
  ai_src : src_of frame = if_addr i;
  ai_size : 14 <= Z.of_nat (length frame) < 70000 }.

Section Named.
Context (ifs : list sr_if) (Hifs : ifs_ok ifs).
Context (interface s nm : list Z) (i : sr_if).
Context (Hn : iface_named interface s nm) (Hf : find_if ifs s = Some i).

Let Hi : sr_if_ok i := find_if_ok _ _ _ Hifs Hf.

(** Sending a frame that carries the address of the interface. *)
Lemma send_named w frame :
  can_send w -> if_list w = ifs -> src_of frame = if_addr i -> 14 <= Z.of_nat (length frame) < 70000 ->
  exists w', (run! sr_send_packet frame (Z.of_nat (length frame)) interface in sret tt) w = Ok (tt, w')
    /\ answered w [vns_message nm frame] w'.
Proof.
  intros Hs Hw Hsrc Hl.
  destruct (send_spec w frame (Z.of_nat (length frame)) interface s nm Hs Hn)
    as (r & w' & E & Hs' & Ho & _); [lia|lia|].
  exists w'. rewrite (sbind_step _ _ _ _ _ E). split; [done|]. constructor; [done|].
  rewrite Ho. unfold passes. by rewrite Hw, Hf, bool_decide_eq_true_2, Nat2Z.id, firstn_all.
Qed.

(** The wild read comes after the ICMP part. *)
Lemma build_wild l packet len type code ipo r :
  build_icmp_response true l packet len interface type code ipo = Ok r ->
  build_icmp_response false l packet len interface type code ipo = Fault WildRead.
Proof.
  unfold build_icmp_response. intros (o & E1 & H)%bind_Ok_inv. rewrite (bind_step _ _ _ E1). cbv zeta in H |- *.
  apply bind_Ok_inv in H as (response & E2 & _). by rewrite (bind_step _ _ _ E2).
Qed.

Lemma icmp_response_step w packet len type code ipo frame :
  if_list w = ifs -> answer_is ifs interface i packet len type code ipo frame ->
  icmp_response packet len interface type code ipo w
  = if os_wild_read (ticks w) then Ok ((frame, Z.of_nat (length frame)), w) else Fault WildRead.
Proof.
  intros Hw [_ E _ _]. unfold icmp_response. rewrite sget_step, Hw. unfold slift.
  destruct (os_wild_read (ticks w)); [by rewrite E|by rewrite (build_wild _ _ _ _ _ _ _ E)].
Qed.

Lemma send_answer w packet len type code ipo frame :
  can_send w -> if_list w = ifs -> answer_is ifs interface i packet len type code ipo frame ->
  if os_wild_read (ticks w) then
    exists w', send_icmp_response packet len interface type code ipo w = Ok (tt, w')
      /\ answered w [vns_message nm frame] w'
  else send_icmp_response packet len interface type code ipo w = Fault WildRead.
Proof.
  intros Hs Hw Ha. pose proof Ha as [Hlen _ Hsrc Hl]. unfold send_icmp_response.
  rewrite (proj2 (Z.ltb_ge len _)) by (unfold_offs; simpl; lia).
  pose proof (icmp_response_step _ _ _ _ _ _ _ Hw Ha) as E. destruct (os_wild_read (ticks w)).
  - rewrite (sbind_step _ _ _ _ _ E). by apply send_named.
  - by apply sbind_fault.
Qed.

Lemma echo_is e h t c s0 s1 data ipo :
  eth_hdr_ok e -> ip_hdr_ok h -> bytes_ok data -> Z.of_nat (length data) < 65000 ->
  match ipo with Some i => sr_if_ok i | None => True end ->
  answer_is ifs interface i (encode_eth e ++ encode_ip h ++ t :: c :: s0 :: s1 :: data)
    (38 + Z.of_nat (length data)) 0 0 ipo (echo_reply_frame i (if_ip (default i ipo)) e h data).
Proof.
  intros He Hh Hb Hmax Hipo.
  pose proof (build_echo_reply _ interface s i Hifs (in_name _ _ _ Hn) Hf
    e h t c s0 s1 data ipo He Hh Hb Hmax Hipo) as E. cbv zeta in E.
  assert (HL : length (echo_reply_frame i (if_ip (default i ipo)) e h data) = (38 + length data)%nat).
  { unfold echo_reply_frame, echo_body. rewrite !length_app, length_encode_eth, length_encode_ip.
    - simpl. lia.
    - constructor; [apply (eok_shost _ He)|apply (ifok_addr _ Hi)|done]. }
  constructor; [lia| |by apply src_of_eth, (ifok_addr _ Hi); apply (eok_shost _ He)|lia].
  rewrite E, HL. do 2 f_equal. lia.
Qed.

Lemma error_is e h payload type code ipo len :
  eth_hdr_ok e -> ip_hdr_ok h -> bytes_ok payload -> (8 <= length payload)%nat -> 34 <= len ->
  1 <= type < 256 -> byte_ok code ->
  match ipo with Some i => sr_if_ok i | None => True end ->
  answer_is ifs interface i (encode_eth e ++ encode_ip h ++ payload) len type code ipo
    (icmp_error_frame i (if_ip (default i ipo)) e h payload type code).
Proof.
  intros He Hh Hb Hl Hlen Ht Hc Hipo.
  pose proof (build_icmp_error _ interface s i Hifs (in_name _ _ _ Hn) Hf
    e h payload type code ipo len He Hh Hb Hl Ht Hc Hipo) as E.
  assert (HL : length (icmp_error_frame i (if_ip (default i ipo)) e h payload type code) = 70%nat).
  { unfold icmp_error_frame. rewrite !length_app, length_encode_eth, length_encode_ip, length_encode_t3.
    - done.
    - cbn [t_data seal_t3 set_t3_sum]. rewrite length_app, length_encode_ip, length_take. lia.
    - constructor; [apply (eok_shost _ He)|apply (ifok_addr _ Hi)|done]. }
  constructor; [done| |by apply src_of_eth, (ifok_addr _ Hi); apply (eok_shost _ He)|lia].
  by rewrite E, HL.
Qed.
End Named.

(** *** Packets for the router *)
Lemma icmp_ops (P : list Z) t c s0 s1 data :
  length P = 34%nat ->
  let f a b := P ++ t :: c :: a :: b :: data in
  let icmp := (Eth.size + Ip.size)%nat in
  load16 (f s0 s1) (icmp + Icmp.icmp_sum) = Ok (le_word [s0; s1])
  /\ store16 (f s0 s1) (icmp + Icmp.icmp_sum) 0 = Ok (f 0 0)
  /\ from (f 0 0) icmp = Ok (t :: c :: 0 :: 0 :: data)
  /\ load8 (f 0 0) (icmp + Icmp.icmp_type) = Ok t.
Proof.
  intros HP f icmp. subst f. cbv beta. explode P.
  split_and!; [done|done|done|]. change (Ok (le_word [t]) = Ok t). by rewrite le_word_1.
Qed.

(** *** Packets to forward *)
Lemma store_shost e rest a :
  eth_hdr_ok e -> length a = 6%nat ->
  store (encode_eth e ++ rest) Eth.ether_shost a
  = Ok (encode_eth (EthHdr (e_dhost e) a (e_type e)) ++ rest).
Proof.
  intros [Hd Hs _] Ha. unfold encode_eth. cbn [e_dhost e_shost e_type]. rewrite <- !app_assoc.
  by apply store_at; [|rewrite Hs].
Qed.
Lemma store_dhost e rest a :
  eth_hdr_ok e -> length a = 6%nat ->
  store (encode_eth e ++ rest) Eth.ether_dhost a
  = Ok (encode_eth (EthHdr a (e_shost e) (e_type e)) ++ rest).
Proof.
  intros [Hd Hs _] Ha. unfold encode_eth. cbn [e_dhost e_shost e_type]. rewrite <- !app_assoc.
  apply (store_at []); [done|by rewrite Hd].
Qed.
Lemma load_whole (a : list Z) n : length a = n -> load a 0 n = Ok a.
Proof. intros H. rewrite load_ok by lia. rewrite drop_0, take_ge by lia. done. Qed.

Lemma length_waiting e h payload :
  eth_hdr_ok e -> length (waiting_frame e h payload) = (34 + length payload)%nat.
Proof. intros He. unfold waiting_frame. rewrite !length_app, length_encode_eth, length_encode_ip by done. lia. Qed.

Lemma bytes_ok_waiting e h payload :
  bytes_ok (encode_eth e) -> ip_hdr_ok h -> bytes_ok payload -> bytes_ok (waiting_frame e h payload).
Proof. intros He Hh Hp. unfold waiting_frame. rewrite !bytes_ok_app. by split_and!; [|apply bytes_ok_encode_ip|]. Qed.

Section Forward.
Context (w : world) (Hifs : ifs_ok (if_list w)).
Context (e : eth_hdr) (h : ip_hdr) (payload : list Z) (r : sr_rt).
Context (He : eth_hdr_ok e) (Hh : ip_hdr_ok h) (Hbe : bytes_ok (encode_eth e)).
Context (Hb : bytes_ok payload) (H8 : (8 <= length payload)%nat)
        (Hmax : Z.of_nat (length payload) < 65000).
Context (Hr32 : length (rt_interface r) = 32%nat) (Hr : route_if_ok (if_list w) r).

(** The frame that goes out when the next hop's address is known. *)
Lemma known_frame_ok entry :
  length (ae_mac entry) = 6%nat ->
  exists s o, iface_named (rt_interface r) s (nm16 (rt_interface r)) /\ find_if (if_list w) s = Some o
    /\ sr_if_ok o
    /\ known_frame (waiting_frame e h payload) r entry w = Ok (forward_frame o (ae_mac entry) e h payload, w)
    /\ length (forward_frame o (ae_mac entry) e h payload) = (34 + length payload)%nat
    /\ if_of (if_list w) (rt_interface r) = Some o.
Proof.
  intros Hm. unfold known_frame, waiting_frame. rewrite sget_step.
  destruct (iface_named_32 _ Hr32) as (s & Hn & Hs). destruct Hr as (s' & o & Hn' & Hf).
  assert (s' = s) as -> by (destruct Hn; congruence).
  pose proof (find_if_ok _ _ _ Hifs Hf) as Ho. pose proof (ifok_addr _ Ho) as Ha.
  rewrite (sbind_step _ _ _ _ _ (slift_step _ _ _ (get_interface_deref_ok _ _ _ _ Hifs Hn' Hf))).
  rewrite (sbind_step _ _ _ _ _ (slift_step _ _ _ (load_whole _ _ Ha))).
  rewrite (sbind_step _ _ _ _ _ (slift_step _ _ _ (store_shost e (encode_ip h ++ payload) _ He Ha))).
  rewrite (sbind_step _ _ _ _ _ (slift_step _ _ _ (load_whole _ _ Hm))).
  assert (He' : eth_hdr_ok (EthHdr (e_dhost e) (if_addr o) (e_type e))) by (destruct He; by constructor).
  exists s, o. rewrite Hs.
  split_and!; [done|done|done|by rewrite (slift_step _ _ _ (store_dhost _ (encode_ip h ++ payload) _ He' Hm))| |done].
  apply (length_waiting (EthHdr (ae_mac entry) (if_addr o) (e_type e))). destruct He. by constructor.
Qed.

Lemma send_known_ok entry :
  can_send w -> length (ae_mac entry) = 6%nat ->
  exists w', send_known (waiting_frame e h payload) (34 + Z.of_nat (length payload)) r entry w = Ok (tt, w')
    /\ answered w (msg_out (if_list w) (rt_interface r)
                      (fun o => forward_frame o (ae_mac entry) e h payload)) w'.
Proof.
  intros Hsend Hm. destruct (known_frame_ok entry Hm) as (s & o & Hn & Hf & Ho & E & HL & Hof).
  unfold send_known. rewrite (sbind_step _ _ _ _ _ E). unfold msg_out. rewrite Hof.
  replace (34 + Z.of_nat (length payload)) with
    (Z.of_nat (length (forward_frame o (ae_mac entry) e h payload))) by lia.
  apply (send_named (if_list w) (rt_interface r) s (nm16 (rt_interface r)) o Hn Hf); [done|done| |lia].
  apply src_of_eth; [done|apply (ifok_addr _ Ho)].
Qed.

(** The packet as the queue keeps it. *)
Lemma waiting_packet_ok nm :
  strncpy sr_IFACE_NAMELEN (rt_interface r) = Ok nm ->
  let frame := waiting_frame e h payload in
  pkt_ok (if_list w) (SrPacket frame (Z.of_nat (length frame)) nm).
Proof.
  intros Hnm frame. pose proof (length_waiting e h payload He) as HL. fold frame in HL.
  constructor; [cbn; lia|by apply bytes_ok_waiting|by apply (strncpy_length _ _ _ Hnm)|].
  destruct Hr as (s & o & Hn & Hf). cbn [pk_iface]. unfold if_of, name_of.
  rewrite (cstr_strncpy _ _ _ Hnm). unfold name_of in Hn. rewrite Hn. by exists o.
Qed.

(** Queueing it. *)
Lemma queue_waiting c q d :
  cache_rep c q d ->
  let frame := waiting_frame e h payload in
  let p := SrPacket frame (Z.of_nat (length frame)) (name32 (rt_interface r)) in
  pkt_ok (if_list w) p
  /\ exists c', sr_arpcache_queuereq (rt_gw r) (Some frame) (34 + Z.of_nat (length payload))
                  (Some (rt_interface r)) c
               = Ok ((spec_queuereq (brk c) (rt_gw r) p q).1, c')
    /\ cache_rep c' (spec_queuereq (brk c) (rt_gw r) p q).2 d /\ entries c' = entries c.
Proof.
  intros Hrep frame. pose proof (length_waiting e h payload He) as HL. fold frame in HL.
  destruct (strncpy_ok sr_IFACE_NAMELEN (rt_interface r)) as [nm Hnm]; [by rewrite Hr32|].
  assert (H32 : name32 (rt_interface r) = nm) by (unfold name32; by rewrite Hnm). rewrite H32.
  split; [by apply waiting_packet_ok|].
  replace (34 + Z.of_nat (length payload)) with (Z.of_nat (length frame)) by lia.
  destruct (queuereq_refines _ _ _ (rt_gw r) frame (Z.of_nat (length frame)) (rt_interface r) nm
    Hrep ltac:(lia) ltac:(lia) Hnm) as (c' & E & Hrep' & Hent & _).
  rewrite Nat2Z.id, firstn_all in E, Hrep'. by exists c'.
Qed.

Context (q : queue) (Hw : world_ok w q).

Lemma forward_miss :
  sr_arpcache_lookup (cache w) (rt_gw r) = None ->
  let res := spec_forward w (os_time (ticks w)) e h payload r q in
  exists w', forward (waiting_frame e h payload) (34 + Z.of_nat (length payload)) r w = Ok (tt, w')
    /\ handled w res.1 res.2 w'.
Proof.
  intros El res. subst res. unfold forward, spec_forward.
  rewrite sget_step, El.
  destruct (queue_waiting (cache w) q [] (wok_rep _ _ Hw)) as (Hp & c' & E & Hrep & Hent).
  rewrite (sbind_step _ _ _ _ _ (on_cache_ok _ _ _ _ E)). cbv zeta. set (p := SrPacket _ _ _) in *.
  destruct (spec_queuereq_find (brk (cache w)) (rt_gw r) p q) as [a Efind]. rewrite Efind.
  set (q2 := (spec_queuereq (brk (cache w)) (rt_gw r) p q).2) in *.
  assert (Hw2 : world_ok (set_cache w c') q2).
  { apply (world_ok_cache _ _ _ _ Hw Hrep).
    - rewrite Hent. apply (wok_macs _ _ Hw).
    - apply spec_queuereq_ok, (wok_queue _ _ Hw).
    - apply spec_queuereq_reqs; [apply (wok_reqs _ _ Hw)|done]. }
  destruct (handle_arpreq_refines _ _ _ a Hw2 (proj1 (find_spec_ip _ _ _ _ Efind))) as (w' & E' & Hh').
  exists w'. split; [done|]. cbn [if_list set_cache ticks] in Hh'. destruct Hh'.
  constructor; cbn [if_list routing_table cache set_cache entries out] in *; congruence || done.
Qed.

Lemma forward_refines :
  let res := spec_forward w (os_time (ticks w)) e h payload r q in
  exists w', forward (waiting_frame e h payload) (34 + Z.of_nat (length payload)) r w = Ok (tt, w')
    /\ handled w res.1 res.2 w'.
Proof.
  destruct (sr_arpcache_lookup (cache w) (rt_gw r)) as [entry|] eqn:El; [|by apply forward_miss].
  pose proof (lookup_In _ _ _ El) as [Hin _].
  pose proof (proj1 (Forall_forall _ _) (wok_macs _ _ Hw) _ Hin) as [Hm _].
  destruct (send_known_ok entry (wok_send _ _ Hw) Hm) as (w' & E & Ha). exists w'. unfold forward, spec_forward.
  rewrite sget_step, El.
  split; [done|]. by apply handled_answered.
Qed.
End Forward.

Lemma seal_ip_ok h : ip_hdr_ok h -> ip_hdr_ok (seal_ip h).
Proof. intros Hh. apply set_sum_ok; [done|]. apply htons_range. Qed.

Lemma u8_range z : byte_ok (u8 z).
Proof. apply Z.mod_pos_bound. lia. Qed.

Section Receive.
Context (w : world) (Hifs : ifs_ok (if_list w)).
Context (interface s nm : list Z) (i : sr_if).
Context (Hn : iface_named interface s nm) (Hf : find_if (if_list w) s = Some i).
Context (e : eth_hdr) (h : ip_hdr) (payload : list Z).
Context (He : eth_hdr_ok e) (Hh : ip_hdr_ok h) (Hbe : bytes_ok (encode_eth e)).
Context (Hb : bytes_ok payload) (H8 : (8 <= length payload)%nat)
        (Hmax : Z.of_nat (length payload) < 65000).

(** What is left to do, where [spec] is what the whole handler does to a queue,
    and [ans] whether it answers. *)
Definition verdict_is (spec : queue -> queue * list (list Z)) (ans : bool) (v : verdict) : Prop :=
  match v with
  | Drop => ans = false /\ forall q, spec q = (q, [])
  | Answer packet type code ipo => ans = true /\ exists frame,
      answer_is (if_list w) interface i packet (34 + Z.of_nat (length payload)) type code ipo frame
      /\ forall q, spec q = (q, [vns_message nm frame])
  | Route packet r => ans = false /\ r ∈ routing_table w
      /\ exists h', packet = waiting_frame e h' payload /\ ip_hdr_ok h'
          /\ forall q, spec q = spec_forward w (os_time (ticks w)) e h' payload r q
  end.

Lemma handle_transit_verdict :
  exists v, handle_transit (encode_eth e ++ encode_ip (set_sum h 0) ++ payload) w = Ok (v, w)
    /\ verdict_is (spec_transit w (os_time (ticks w)) nm i e h payload)
         ((u8 (i_ttl h - 1) =? 0)
          || match sr_longest_prefix_match (routing_table w) (i_dst h) with Some _ => false | None => true end) v.
Proof.
  unfold handle_transit, spec_transit.
  pose proof (length_encode_eth _ He) as HE.
  rewrite (sbind_step _ _ _ _ _ (slift_step _ _ _ (load8_ip_ttl (encode_eth e) payload Eth.size HE _))).
  cbn [i_ttl set_sum set_ttl]. set (ttl := u8 (i_ttl h - 1)).
  pose proof (u8_range (i_ttl h - 1)) as Ht. fold ttl in Ht.
  rewrite (sbind_step _ _ _ _ _ (slift_step _ _ _
    (store8_ip_ttl (encode_eth e) payload Eth.size (set_sum h 0) ttl HE Ht))).
  set (h1 := set_ttl (set_sum h 0) ttl).
  assert (Hh1 : ip_hdr_ok h1) by (by apply set_ttl_ok, Ht; apply set_sum_ok).
  destruct (ttl =? 0); cbn [orb].
  { eexists. split; [done|]. split; [done|]. eexists. split; [|done].
    apply (error_is _ Hifs interface s nm i Hn Hf e h1 payload 11 0 None); done || lia. }
  rewrite (sbind_step _ _ _ _ _ (slift_step _ _ _ (store16_ip_sum (encode_eth e) payload Eth.size h1 0 HE))).
  change (set_sum h1 0) with h1.
  rewrite (sbind_step _ _ _ _ _ (slift_step _ _ _ (from_at (encode_eth e) _ Eth.size HE))).
  rewrite (sbind_step _ _ _ _ _ (slift_step _ _ _ (cksum_ip h1 payload Hh1))).
  rewrite (sbind_step _ _ _ _ _ (slift_step _ _ _ (store16_ip_sum (encode_eth e) payload Eth.size h1 _ HE))).
  change (set_sum h1 (htons (checksum_be (encode_ip h1)))) with (seal_ip h1).
  pose proof (seal_ip_ok _ Hh1) as Hh2.
  rewrite (sbind_step _ _ _ _ _ (slift_step _ _ _ (load32_ip_dst (encode_eth e) payload Eth.size HE _ Hh2))).
  rewrite sget_step.
  change (i_dst (seal_ip h1)) with (i_dst h).
  destruct (sr_longest_prefix_match (routing_table w) (i_dst h)) as [r|] eqn:El.
  - eexists. split; [done|]. split; [done|]. split; [by eapply lpm_In|]. by exists (seal_ip h1).
  - eexists. split; [done|]. split; [done|]. eexists. split; [|done].
    apply (error_is _ Hifs interface s nm i Hn Hf e (seal_ip h1) payload 3 0 None); done || lia.
Qed.

Lemma handle_local_verdict h0 ipi :
  ip_hdr_ok h0 -> sr_if_ok ipi ->
  exists v, handle_local (encode_eth e ++ encode_ip h0 ++ payload) (34 + Z.of_nat (length payload))
              interface ipi w = Ok (v, w)
    /\ verdict_is (fun q => (q, if i_p h0 =? ip_protocol_icmp then local_msgs nm i ipi e h0 payload
                    else if (i_p h0 =? ip_protocol_tcp) || (i_p h0 =? ip_protocol_udp)
                    then [vns_message nm (icmp_error_frame i (if_ip ipi) e h0 payload 3 3)] else []))
         (local_answered h0 payload) v.
Proof.
  intros Hh0 Hipi. unfold handle_local, verdict_is, local_answered.
  set (P := encode_eth e ++ encode_ip h0).
  assert (HP : length P = 34%nat) by (unfold P; by rewrite length_app, length_encode_eth).
  rewrite sget_step.
  rewrite (sbind_step _ _ _ _ _ (slift_step _ _ _
    (sr_get_interface_spec _ _ _ Hifs (in_name _ _ _ Hn)))).
  rewrite (sbind_step _ _ _ _ _ (slift_step _ _ _ (from_at (encode_eth e) _ Eth.size (length_encode_eth _ He)))).
  assert (Ep : ip_protocol (encode_ip h0 ++ payload) = Ok (i_p h0)) by by (change (Ok (le_word [i_p h0]) = Ok (i_p h0)); by rewrite le_word_1).
  rewrite (sbind_step _ _ _ _ _ (slift_step _ _ _ Ep)).
  destruct (i_p h0 =? ip_protocol_icmp) eqn:Eic.
  2:{ destruct (_ || _); [|by exists Drop]. eexists. split; [done|]. split; [done|]. eexists. split; [|done].
      apply (error_is _ Hifs interface s nm i Hn Hf e h0 payload 3 3 (Some ipi)); done || lia. }
  revert Hb H8 Hmax.
  destruct payload as [|t [|c [|s0 [|s1 data]]]]; intros Hb H8 Hmax; simpl in H8; try lia.
  destruct (icmp_ops P t c s0 s1 data HP) as (E1 & E2 & E3 & E4). rewrite (app_assoc (encode_eth e)). fold P.
  rewrite (sbind_step _ _ _ _ _ (slift_step _ _ _ E1)), (sbind_step _ _ _ _ _ (slift_step _ _ _ E2)).
  rewrite (sbind_step _ _ _ _ _ (slift_step _ _ _ E3)).
  repeat (apply Forall_cons in Hb as [? Hb]).
  pose proof (cksum_prefix (t :: c :: 0 :: 0 :: data) [] (4 + length data)) as Ec. rewrite app_nil_r in Ec.
  assert (El : s32 (34 + Z.of_nat (length (t :: c :: s0 :: s1 :: data)) - Z.of_nat Eth.size - Z.of_nat Ip.size)
    = Z.of_nat (4 + length data)).
  { unfold_offs. cbn [length] in *. unfold s32, u32. rewrite Z.mod_small by lia.
    rewrite (proj2 (Z.ltb_lt _ _)) by lia. lia. }
  rewrite El. assert (Hm : Z.of_nat (4 + length data) <= cksum_max_len) by (unfold cksum_max_len; cbn [length] in *; lia).
  rewrite (sbind_step _ _ _ _ _ (slift_step _ _ _ (Ec ltac:(by rewrite !Forall_cons) eq_refl Hm))).
  unfold local_msgs. rewrite Eic, (Z.eqb_sym (htons _)).
  destruct (le_word [s0; s1] =? _); cbn [negb andb]; [|by exists Drop].
  rewrite (sbind_step _ _ _ _ _ (slift_step _ _ _ E4)).
  destruct (Z.eqb_spec t 8) as [->|Ht]; cbn [negb]; [|by exists Drop].
  eexists. split; [done|]. split; [done|]. eexists. split; [|done].
  unfold P. rewrite <- (app_assoc (encode_eth e)).
  replace (34 + Z.of_nat _) with (38 + Z.of_nat (length data)) by (cbn [length]; lia).
  apply (echo_is _ Hifs interface s nm i Hn Hf e h0 8 c 0 0 data (Some ipi)); cbn [length] in *; done || lia.
Qed.

Lemma ip_verdict_ok :
  exists v, ip_verdict (encode_eth e ++ encode_ip h ++ payload)
              (34 + Z.of_nat (length payload)) interface w = Ok (v, w)
    /\ verdict_is (spec_ip w (os_time (ticks w)) nm i e h payload)
         (icmp_answered (if_list w) (routing_table w) h payload) v.
Proof.
  unfold ip_verdict, spec_ip, icmp_answered, ip_sum_ok.
  pose proof (length_encode_eth _ He) as HE.
  rewrite (proj2 (Z.ltb_ge _ _)) by (unfold_offs; simpl; lia).
  rewrite (sbind_step _ _ _ _ _ (slift_step _ _ _ (load16_ip_sum (encode_eth e) payload Eth.size HE _ Hh))).
  rewrite (sbind_step _ _ _ _ _ (slift_step _ _ _ (store16_ip_sum (encode_eth e) payload Eth.size h 0 HE))).
  rewrite (sbind_step _ _ _ _ _ (slift_step _ _ _ (from_at (encode_eth e) _ Eth.size HE))).
  assert (Hh0 : ip_hdr_ok (set_sum h 0)) by by apply set_sum_ok.
  rewrite (sbind_step _ _ _ _ _ (slift_step _ _ _ (cksum_ip _ payload Hh0))).
  destruct (_ =? _); cbn [negb andb].
  2:{ by exists Drop. }
  rewrite (sbind_step _ _ _ _ _ (slift_step _ _ _ (load32_ip_dst (encode_eth e) payload Eth.size HE _ Hh0))).
  rewrite sget_step.
  change (i_dst (set_sum h 0)) with (i_dst h).
  destruct (get_dst_interface (if_list w) (i_dst h)) as [ipi|] eqn:Ed; [|apply handle_transit_verdict].
  apply get_dst_interface_In in Ed as [Hin _].
  pose proof (proj1 (Forall_forall _ _) Hifs _ Hin) as Hipi.
  destruct (handle_local_verdict (set_sum h 0) ipi Hh0 Hipi) as (v & E & Hv). exists v. split; [done|].
  unfold local_msgs, local_answered in *. cbn [set_sum i_p] in *. by destruct (i_p h =? ip_protocol_icmp).
Qed.
End Receive.

Lemma handle_ip_refines w q interface s nm i e h payload :
  world_ok w q -> iface_named interface s nm -> find_if (if_list w) s = Some i ->
  eth_hdr_ok e -> ip_hdr_ok h -> bytes_ok (encode_eth e) -> bytes_ok payload ->
  (8 <= length payload)%nat -> Z.of_nat (length payload) < 65000 ->
  let res := spec_ip w (os_time (ticks w)) nm i e h payload q in
  let run := handle_ip_packet (encode_eth e ++ encode_ip h ++ payload) (34 + Z.of_nat (length payload)) interface w in
  if wild_death w h payload then run = Fault WildRead
  else exists w', run = Ok (tt, w') /\ handled w res.1 res.2 w'.
Proof.
  intros Hw Hn Hf He Hh Hbe Hb H8 Hmax res run. subst res run. unfold handle_ip_packet, wild_death.
  destruct (ip_verdict_ok w (wok_ifs _ _ Hw) interface s nm i Hn Hf e h payload He Hh Hb H8 Hmax)
    as (v & E & Hv). rewrite (sbind_step _ _ _ _ _ E).
  destruct v as [|packet type code ipo|packet r]; cbn [verdict_is] in Hv.
  - destruct Hv as [-> ->]. exists w. split; [done|]. by apply handled_answered, answered_ret.
  - destruct Hv as (-> & frame & Ha & ->).
    pose proof (send_answer (if_list w) interface s nm i Hn Hf w packet _ type code ipo frame (wok_send _ _ Hw) eq_refl Ha)
      as H. cbn [andb]. destruct (os_wild_read (ticks w)); [|done]. destruct H as (w1 & E1 & Ha1).
    exists w1. split; [done|]. by apply handled_answered.
  - destruct Hv as (-> & Hin & h' & -> & Hh' & ->).
    pose proof (proj1 (Forall_forall _ _) (wok_routes _ _ Hw) _ Hin) as [Hr32 Hr].
    by apply (forward_refines w (wok_ifs _ _ Hw)).
Qed.

(** ** Lemmas: ARP packets *)

(** [handled], for a handler that also changes the ARP table. *)
Record arp_handled (w : world) (r : queue * list sr_arpentry * list (list Z)) (w' : world) : Prop := {
  ah_ok : world_ok w' r.1.1;
  ah_entries : entries (cache w') = r.1.2;
  ah_sent : sent (out w') = sent (out w) ++ r.2;
  ah_ifs : if_list w' = if_list w;
  ah_routes : routing_table w' = routing_table w }.

Lemma arp_handled_of w q ms w' : handled w q ms w' -> arp_handled w (q, entries (cache w), ms) w'.
Proof. intros []. by constructor. Qed.

Lemma src_of_readdressed sha addr frame :
  length sha = 6%nat -> length addr = 6%nat -> src_of (readdressed sha addr frame) = addr.
Proof. intros H1 H2. unfold src_of, readdressed. by rewrite drop_app_length', take_app_length' by done. Qed.

(** The frame of a waiting packet. *)
Lemma waiting_copy_ok w ifs e a rest i p :
  eth_hdr_ok e -> arp_hdr_ok a -> sr_if_ok i -> pkt_ok ifs p ->
  waiting_copy (encode_eth e ++ encode_arp a ++ rest) (Some i) p w
    = Ok (readdressed (a_sha a) (if_addr i) (pk_buf p), w)
  /\ length (readdressed (a_sha a) (if_addr i) (pk_buf p)) = Z.to_nat (pk_len p).
Proof.
  intros He Ha Hi Hp. destruct (pok_len _ _ Hp) as [HL HL42]. split.
  - unfold waiting_copy. rewrite sget_step. apply slift_step.
    apply (readdress_spec (os_malloc (ticks w)) p ifs e a rest i Hp Hi He Ha).
  - unfold readdressed. rewrite !length_app, length_drop, (aok_sha _ Ha), (ifok_addr _ Hi). lia.
Qed.

Lemma send_waiting_ok w e a rest i p :
  can_send w -> eth_hdr_ok e -> arp_hdr_ok a -> sr_if_ok i -> pkt_ok (if_list w) p ->
  exists w', send_waiting (encode_eth e ++ encode_arp a ++ rest) (Some i) p w = Ok (tt, w')
    /\ answered w (waiting_msgs (if_list w) i (a_sha a) p) w'.
Proof.
  intros Hs He Ha Hi Hp. unfold send_waiting. destruct (pok_len _ _ Hp) as [HL HL42].
  destruct (waiting_copy_ok w _ e a rest i p He Ha Hi Hp) as [E0 Hf].
  rewrite (sbind_step _ _ _ _ _ E0). set (f := readdressed (a_sha a) (if_addr i) (pk_buf p)) in *.
  destruct (iface_named_32 _ (pok_iface _ _ Hp)) as (s & Hn & Hs').
  destruct (send_spec w f (pk_len p) (pk_iface p) s (nm16 (pk_iface p)) Hs Hn) as (r & w1 & E & Hw1 & Ho & _);
    [lia|lia|].
  rewrite (sbind_step _ _ _ _ _ E). exists w1. split; [done|]. constructor; [done|]. rewrite Ho.
  unfold passes, waiting_msgs. rewrite <- Hf, firstn_all, Hs'. unfold f.
  rewrite (src_of_readdressed _ _ _ (aok_sha _ Ha) (ifok_addr _ Hi)).
  by destruct (find_if (if_list w) s).
Qed.

Lemma send_waitings w e a rest i pkts :
  can_send w -> eth_hdr_ok e -> arp_hdr_ok a -> sr_if_ok i -> Forall (pkt_ok (if_list w)) pkts ->
  exists w', siter (send_waiting (encode_eth e ++ encode_arp a ++ rest) (Some i)) pkts w = Ok (tt, w')
    /\ world_same w w'
    /\ sent (out w') = sent (out w) ++ mjoin (waiting_msgs (if_list w) i (a_sha a) <$> pkts).
Proof.
  intros Hifs He Ha Hi Hp. revert w Hifs Hp. induction pkts as [|p pkts IH]; intros w Hifs Hp.
  { exists w. split_and!; [done|reflexivity|by rewrite app_nil_r]. }
  apply Forall_cons in Hp as [Hp Hps]. cbn [siter].
  destruct (send_waiting_ok w e a rest i p Hifs He Ha Hi Hp) as (w1 & E & [Hw1 Ho]).
  rewrite (sbind_step _ _ _ _ _ E).
  destruct (IH w1) as (w2 & E2 & Hw2 & Ho2); [by eapply can_send_same|by rewrite (ws_ifs _ _ Hw1)|].
  exists w2. split_and!; [done|by etransitivity|].
  by rewrite Ho2, Ho, (ws_ifs _ _ Hw1), <- app_assoc.
Qed.

Lemma arpcache_insert_ok w q d mac ip :
  cache_rep (cache w) q d -> length mac = 6%nat ->
  exists w', arpcache_insert mac ip w = Ok (fst <$> q_find ip q, w')
    /\ if_list w' = if_list w /\ routing_table w' = routing_table w /\ out w' = out w
    /\ logfile w' = logfile w
    /\ entries (cache w') = spec_entries (os_time (ticks w)) mac ip (entries (cache w))
    /\ match q_find ip q with
       | Some (l, a) => cache_rep (cache w') (q_remove l q) ((l, a) :: d)
       | None => cache_rep (cache w') q d
       end.
Proof.
  intros Hw Hm. unfold arpcache_insert.
  rewrite sget_step.
  destruct (free_slot (entries (cache w)) =? SR_ARPCACHE_SZ)%nat eqn:Ef.
  - rewrite (sbind_step _ _ _ _ _ (eq_refl : sret 0 w = Ok (0, w))).
    destruct (insert_refines _ _ _ 0 mac ip Hw Hm) as (c' & E & He & Hr).
    exists (set_cache w c'). rewrite (on_cache_ok _ _ _ _ E). split_and!; try done.
    cbn [cache set_cache]. rewrite He. unfold spec_entries. by rewrite Ef.
  - destruct (time_ok w) as (w1 & E1 & Hw1 & Ho1 & Hc1 & _). rewrite (sbind_step _ _ _ _ _ E1).
    destruct (insert_refines _ _ _ (os_time (ticks w)) mac ip Hw Hm) as (c' & E & He & Hr).
    rewrite <- Hc1 in E. exists (set_cache w1 c'). rewrite (on_cache_ok _ _ _ _ E).
    destruct Hw1. by split_and!.
Qed.

(** Whatever is put in the table by an insertion, it is well-formed. *)
Lemma spec_entries_Forall (P : sr_arpentry -> Prop) now mac ip es :
  Forall P es -> P (SrArpentry mac ip now true) -> Forall P (spec_entries now mac ip es).
Proof. intros. unfold spec_entries. case_match; [done|]. by apply Forall_insert. Qed.

Section ReceiveArp.
Context (w : world) (Hifs : ifs_ok (if_list w)).
Context (interface s nm : list Z) (i : sr_if).
Context (Hn : iface_named interface s nm) (Hf : find_if (if_list w) s = Some i).
Context (e : eth_hdr) (a : arp_hdr) (rest : list Z).
Context (He : eth_hdr_ok e) (Ha : arp_hdr_ok a) (Hsha : bytes_ok (a_sha a))
        (Hmax : Z.of_nat (length rest) < 65000).

Let Hi : sr_if_ok i := find_if_ok _ _ _ Hifs Hf.

(** What is left to do. *)
Definition arp_verdict_is (v : arp_verdict) : Prop :=
  match v with
  | ArpDrop => forall now q, spec_arp w now nm i e a (length rest) q = (q, entries (cache w), [])
  | ArpAnswer response => response = arp_reply_frame i e a (length rest)
      /\ length response = (42 + length rest)%nat /\ src_of response = if_addr i
      /\ forall now q, spec_arp w now nm i e a (length rest) q = (q, entries (cache w), [vns_message nm response])
  | ArpLearn iface sha sip => iface = Some i /\ sha = a_sha a /\ sip = a_sip a
      /\ (a_op a =? arp_op_request) = false /\ (a_op a =? arp_op_reply) = true
  end.

Lemma arp_decide_ok :
  exists v, arp_decide (encode_eth e ++ encode_arp a ++ rest) (42 + Z.of_nat (length rest))
              interface w = Ok (v, w) /\ arp_verdict_is v.
Proof.
  unfold arp_decide, arp_verdict_is, spec_arp.
  destruct (arp_members e a rest He Ha) as (E1 & E2 & E3 & E4).
  rewrite sget_step.
  rewrite (sbind_step _ _ _ _ _ (slift_step _ _ _
    (sr_get_interface_spec _ _ _ Hifs (in_name _ _ _ Hn)))), Hf.
  rewrite (sbind_step _ _ _ _ _ (slift_step _ _ _ E1)). unfold ntohs.
  rewrite htons_involutive. unfold u16. rewrite (Z.mod_small (a_op a)) by apply (aok_op _ Ha).
  destruct (a_op a =? arp_op_request).
  - rewrite (sbind_step _ _ _ _ _ (slift_step _ _ _ E4)).
    rewrite (sbind_step _ _ _ _ _ (slift_step _ _ _ (eq_refl : of_option NullDeref (Some i) = Ok i))).
    destruct (a_tip a =? if_ip i); [|by exists ArpDrop].
    rewrite (sbind_step _ _ _ _ _ (slift_step _ _ _ (build_arp_reply_spec i e a rest Hi He Ha))).
    eexists. split; [done|]. cbv beta iota. split_and!; [done| | |done].
    + assert (Hs6 : length (e_shost e) = 6%nat) by apply He.
      unfold arp_reply_frame. rewrite !length_app, length_replicate, length_encode_eth, length_encode_arp.
      * lia.
      * destruct Ha. by constructor; try apply Hi.
      * by constructor; try apply Hi.
    + apply src_of_eth; [apply He|apply (ifok_addr _ Hi)].
  - destruct (a_op a =? arp_op_reply); [|by exists ArpDrop].
    rewrite (sbind_step _ _ _ _ _ (slift_step _ _ _ E2)), (sbind_step _ _ _ _ _ (slift_step _ _ _ E3)).
    by eexists.
Qed.

Context (q : queue) (Hw : world_ok w q).

(** The reply branch. *)
Lemma arp_reply_refines :
  let now := os_time (ticks w) in
  let es' := spec_entries now (a_sha a) (a_sip a) (entries (cache w)) in
  exists w', handle_arp_answer (encode_eth e ++ encode_arp a ++ rest) (Some i) (a_sha a) (a_sip a) w = Ok (tt, w')
    /\ arp_handled w
         match q_find (a_sip a) q with
         | Some (l, r) => (q_remove l q, es', mjoin (waiting_msgs (if_list w) i (a_sha a) <$> q_pkts r))
         | None => (q, es', [])
         end w'.
Proof.
  intros now es'. unfold handle_arp_answer.
  destruct (arpcache_insert_ok w q [] _ (a_sip a) (wok_rep _ _ Hw) (aok_sha _ Ha)) as (w1 & E & Hi1 & Hr1 & Ho1 & Hs1 & He1 & Hrep).
  assert (Hs2 : can_send w1) by (destruct (wok_send _ _ Hw); by constructor; rewrite ?Hi1, ?Hs1).
  clear Hs1. rename Hs2 into Hs1.
  rewrite (sbind_step _ _ _ _ _ E). fold now in He1. fold es' in He1.
  assert (Hm : Forall (fun e => length (ae_mac e) = 6%nat /\ bytes_ok (ae_mac e)) es').
  { apply spec_entries_Forall; [apply (wok_macs _ _ Hw)|]. split; [apply (aok_sha _ Ha)|done]. }
  pose proof Hw as [W1 W2 W3 W4 W5 W6]. clear W1.
  destruct (q_find (a_sip a) q) as [[l r]|] eqn:Eq; cbn [fmap option_fmap option_map fst].
  2:{ exists w1. split; [done|]. constructor; cbn [fst snd]; try done.
      - constructor; rewrite ?Hi1, ?Hr1, ?He1; done.
      - by rewrite Ho1, app_nil_r. }
  apply find_spec_ip in Eq as [Hin _].
  pose proof (proj1 (Forall_forall _ _) W6 _ Hin) as [_ Hpk]. cbn [snd] in Hpk.
  assert (Hd : exists next, deref l (cache w1) = Ok (node r next, cache w1)).
  { pose proof (rep_detached _ _ _ Hrep) as Hd. apply Forall_cons in Hd as [[next Hd] _].
    exists next. unfold deref. cbn [fst snd] in Hd. by rewrite Hd. }
  destruct Hd as [next Hd]. rewrite (sbind_step _ _ _ _ _ (on_cache_ok _ _ _ _ Hd)), set_cache_id.
  destruct (send_waitings w1 e a rest i (q_pkts r)) as (w2 & E2 & Hw2 & Ho2); [done|done|done|done|by rewrite Hi1|].
  cbn [rq_packets node]. rewrite (sbind_step _ _ _ _ _ E2).
  rewrite <- (ws_cache _ _ Hw2) in Hrep.
  destruct (destroy_detached _ _ _ l r Hrep) as (c3 & E3 & Hr3 & He3).
  exists (set_cache w2 c3). split; [by apply on_cache_ok|].
  pose proof (can_send_same _ _ Hw2 Hs1) as [S1 S2]. destruct Hw2 as [V1 V2 V3 _].
  constructor; cbn [fst snd cache set_cache out if_list routing_table]; try congruence.
  constructor; cbn [cache set_cache if_list routing_table]; rewrite ?V1, ?V2, ?Hi1, ?Hr1, ?He3, ?V3, ?He1; try done.
  - by apply q_remove_ok.
  - rewrite Forall_forall in W6 |- *. intros p [_ Hp]%list_elem_of_filter. by apply W6.
Qed.

Lemma handle_arp_refines :
  exists w', handle_arp_packet (encode_eth e ++ encode_arp a ++ rest)
               (42 + Z.of_nat (length rest)) interface w = Ok (tt, w')
    /\ arp_handled w (spec_arp w (os_time (ticks w)) nm i e a (length rest) q) w'.
Proof.
  unfold handle_arp_packet. destruct arp_decide_ok as (v & E & Hv).
  rewrite (sbind_step _ _ _ _ _ E). destruct v as [|response|iface sha sip]; cbn [arp_verdict_is] in Hv.
  - rewrite Hv. exists w. split; [done|]. by apply arp_handled_of, handled_answered, answered_ret.
  - destruct Hv as (_ & HL & Hs & ->).
    replace (42 + Z.of_nat (length rest)) with (Z.of_nat (length response)) by lia.
    destruct (send_named (if_list w) interface s nm i Hn Hf w response (wok_send _ _ Hw) eq_refl Hs ltac:(lia))
      as (w1 & E1 & Ha1). exists w1. split; [done|]. by apply arp_handled_of, handled_answered.
  - destruct Hv as (-> & -> & -> & E1 & E2). unfold spec_arp. rewrite E1, E2.
    apply arp_reply_refines.
Qed.
End ReceiveArp.
End Answers.
