(* ===== verification/Safety.v ===== *)
(** * Safety: the invariant of the running router

    [sr_handlepacket] on any frame, not only on encoded headers; the turns of
    the cleanup thread; and the states reachable from the initial one by any
    sequence of both.  The states are those between whole packets and whole
    turns; what happens between the actions of the two threads is in Threads.v
    and the files after it. *)

From S2P Require Import Prelude Memory Protocol Utils Iface Rt ArpCache World ArpHandler Router RouterSpec Handlers.

(** A received frame: [iface] is the name the server sent with it. *)
Record frame_ok (w : world) (frame iface : list Z) : Prop := {
  fok_bytes : bytes_ok frame;
  fok_len : 42 <= Z.of_nat (length frame) < 65000;
  fok_iface : exists s nm i, iface_named iface s nm /\ find_if (if_list w) s = Some i }.

Lemma frame_ok_ifs w w' frame iface :
  if_list w' = if_list w -> frame_ok w frame iface -> frame_ok w' frame iface.
Proof. intros E []. constructor; by rewrite ?E. Qed.

Section OS.
Context {os : OS}.

Lemma ethertype_eth e rest : eth_hdr_ok e -> ethertype (encode_eth e ++ rest) = Ok (e_type e).
Proof.
  intros [Hd Hs Ht]. destruct e as [d s t]; cbn [e_dhost e_shost e_type] in *. explode d. explode s.
  unfold ethertype. change (Ok (ntohs (le_word (be_bytes2 t))) = Ok t). by rewrite le_word_be2.
Qed.

(** The frame as headers, for either protocol. *)
Lemma frame_headers frame :
  bytes_ok frame -> 42 <= Z.of_nat (length frame) ->
  exists e body, frame = encode_eth e ++ body /\ eth_hdr_ok e /\ bytes_ok (encode_eth e)
    /\ bytes_ok body /\ length frame = (14 + length body)%nat.
Proof.
  intros Hb Hl. destruct (split_at frame 14 ltac:(lia)) as (p & body & -> & Hp).
  apply bytes_ok_app in Hb as [Hbp Hb]. destruct (encode_eth_surj p Hbp Hp) as (e & -> & He & _).
  exists e, body. split_and!; try done. rewrite length_app. lia.
Qed.

(** Any frame, of any kind, leaves the router in order, unless answering it
    kills the process. *)
Lemma sr_handlepacket_ok w q frame iface :
  world_ok w q -> frame_ok w frame iface ->
  (exists w' q', sr_handlepacket frame (Z.of_nat (length frame)) iface w = Ok (tt, w')
    /\ world_ok w' q' /\ if_list w' = if_list w /\ routing_table w' = routing_table w)
  \/ (sr_handlepacket frame (Z.of_nat (length frame)) iface w = Fault WildRead /\ os_wild_read (ticks w) = false).
Proof.
  intros Hw [Hb Hl (s & nm & i & Hn & Hf)].
  destruct (frame_headers frame Hb ltac:(lia)) as (e & body & -> & He & Hbe & Hbb & HL).
  rewrite HL in *. unfold sr_handlepacket.
  rewrite (sbind_step _ _ _ _ _ (slift_step _ _ _ (ethertype_eth e body He))).
  destruct (e_type e =? ethertype_ip).
  { destruct (split_at body 20 ltac:(lia)) as (p & payload & -> & Hp).
    apply bytes_ok_app in Hbb as [Hbp Hbb]. destruct (encode_ip_surj p Hbp Hp) as (h & -> & Hh).
    rewrite length_app, length_encode_ip in *.
    replace (Z.of_nat (14 + (20 + length payload))) with (34 + Z.of_nat (length payload)) in * by lia.
    pose proof (handle_ip_refines w q iface s nm i e h payload Hw Hn Hf He Hh Hbe Hbb ltac:(lia) ltac:(lia)) as H.
    cbv zeta in H. unfold wild_death in H. destruct (icmp_answered _ _ _ _), (os_wild_read (ticks w));
      cbn [andb negb] in H; try (destruct H as (w' & E & [H1 _ H2 H3 _]); left; by eauto 7). by right. }
  left. destruct (e_type e =? ethertype_arp).
  { destruct (split_at body 28 ltac:(lia)) as (p & rest & -> & Hp).
    apply bytes_ok_app in Hbb as [Hbp Hbb]. destruct (encode_arp_surj p Hbp Hp) as (a & -> & Ha & Hs).
    rewrite length_app, length_encode_arp in * by done.
    replace (Z.of_nat (14 + (28 + length rest))) with (42 + Z.of_nat (length rest)) in * by lia.
    destruct (handle_arp_refines w (wok_ifs _ _ Hw) iface s nm i Hn Hf e a rest He Ha Hs ltac:(lia) q Hw)
      as (w' & E & [H1 _ _ H2 H3]). eauto 7. }
  by exists w, q.
Qed.

(** ** The cleanup thread *)

(** Every request was kept when it was looked at. *)
Definition kept (nows : list Z) (q : queue) : Prop :=
  Forall2 (fun now p => due now p.2 && given_up p.2 = false) nows q.

(** A sweep looks at every request once, or dies when it gives one up. *)
Lemma sweep_cases todo : forall w pre req fuel,
  world_ok w (pre ++ todo) -> lseg (heap (cache w)) req todo None -> (length todo < fuel)%nat ->
  (exists nows w', Forall (fun now => exists k, now = os_time k) nows /\ kept nows todo
     /\ sweep_loop fuel req w = Ok (tt, w')
     /\ handled w (pre ++ zip_with sweep_req nows todo)
          (mjoin (zip_with (sweep_msgs (if_list w)) nows todo)) w')
  \/ (sweep_loop fuel req w = Fault UseAfterFree /\ exists p, p ∈ todo /\ given_up p.2 = true).
Proof.
  induction todo as [|[l a] todo IH]; intros w pre req [|fuel] Hw Hreq Hf; simpl in Hf; try lia.
  { simpl in Hreq. subst. left. exists [], w. split_and!; [done|by constructor|done|].
    constructor; try done. by rewrite app_nil_r. }
  destruct Hreq as (-> & _). set (now := os_time (ticks w)).
  destruct (due now a && given_up a) eqn:Eg.
  - right. apply andb_true_iff in Eg as [Ed Eg].
    split; [by eapply sweep_gives_up|exists (l, a); split; [by left|done]].
  - destruct (sweep_step w pre l a todo fuel Hw Eg) as (next & w1 & E1 & Hh & Hl). fold now in Hh. rewrite E1.
    pose proof (hd_ok _ _ _ _ Hh) as Hok. rewrite cons_middle, app_assoc in Hok.
    destruct (IH w1 _ next fuel Hok Hl ltac:(lia)) as [(nows & w' & Hn & Hk & E & Hh2)|(E & p & Hp & Hg)].
    + left. exists (now :: nows), w'. split_and!; [|by constructor|done|].
      * apply Forall_cons. split; [by exists (ticks w)|done].
      * cbn [zip_with mjoin list_join]. rewrite <- app_assoc in Hh2.
        rewrite (hd_ifs _ _ _ _ Hh) in Hh2. by eapply handled_trans.
    + right. split; [done|]. exists p. split; [by right|done].
Qed.

(** A turn: the entries expire, then the sweep. *)
Lemma timeout_turn_cases w q :
  world_ok w q ->
  (exists nows w', Forall (fun now => exists k, now = os_time k) nows /\ kept nows q
     /\ sr_arpcache_timeout_turn w = Ok (tt, w')
     /\ arp_handled w (zip_with sweep_req nows q, expire_entry (os_time (ticks w)) <$> entries (cache w),
          mjoin (zip_with (sweep_msgs (if_list w)) nows q)) w')
  \/ (sr_arpcache_timeout_turn w = Fault UseAfterFree /\ exists p, p ∈ q /\ given_up p.2 = true).
Proof.
  intros Hw. unfold sr_arpcache_timeout_turn.
  destruct (time_ok w) as (w1 & E1 & Hw1 & Ho & _). rewrite (sbind_step _ _ _ _ _ E1).
  pose proof (world_ok_same _ _ _ Hw Hw1) as Hok1. set (now := os_time (ticks w)).
  destruct (expire_rep _ _ _ now (wok_rep _ _ Hok1)) as (c' & Ec & Hr & He).
  rewrite (sbind_step _ _ _ _ _ (on_cache_ok _ _ _ _ Ec)).
  assert (Hw2 : world_ok (set_cache w1 c') q).
  { apply (world_ok_cache _ _ _ _ Hok1 Hr).
    - rewrite He. apply Forall_fmap. eapply Forall_impl; [apply (wok_macs _ _ Hok1)|].
      intros e H. simpl. unfold expire_entry. by case_match.
    - apply (wok_queue _ _ Hok1).
    - apply (wok_reqs _ _ Hok1). }
  unfold sr_arpcache_sweepreqs. rewrite sget_step. destruct Hw1 as [Hi Ht Hc _].
  destruct (sweep_cases q (set_cache w1 c') [] (requests c') (walk_fuel c') Hw2 (rep_chain _ _ _ Hr)
    (rep_fuel _ _ _ Hr)) as [(nows & w' & Hn & Hk & E & H)|H]; [left|by right].
  exists nows, w'. split_and!; [done|done|done|]. destruct H as [H1 H2 H3 H4 H5]. cbn [if_list set_cache] in *.
  rewrite Hi in H2. constructor; [done| | | |]; cbn [fst snd].
  - by rewrite H5, <- Hc.
  - rewrite H2. cbn [out set_cache]. by rewrite Ho.
  - by rewrite H3.
  - by rewrite H4.
Qed.

Lemma timeout_turn_total w q :
  world_ok w q ->
  (exists w' q', sr_arpcache_timeout_turn w = Ok (tt, w') /\ world_ok w' q'
     /\ if_list w' = if_list w /\ routing_table w' = routing_table w)
  \/ sr_arpcache_timeout_turn w = Fault UseAfterFree.
Proof.
  intros [(nows & w' & _ & _ & E & [])|[E _]]%timeout_turn_cases; [left|by right]. by exists w', (zip_with sweep_req nows q).
Qed.

(** ** Reachable states *)
Inductive router_step : world -> world -> Prop :=
| step_packet w w' frame iface :
    frame_ok w frame iface ->
    sr_handlepacket frame (Z.of_nat (length frame)) iface w = Ok (tt, w') -> router_step w w'
| step_timeout w w' :
    sr_arpcache_timeout_turn w = Ok (tt, w') -> router_step w w'.

(** The router after [sr_init], with interfaces and checked routes. *)
Record router_start (w : world) : Prop := {
  rs_send : can_send w;
  rs_names : Forall (fun r => length (rt_interface r) = 32%nat) (routing_table w);
  rs_routes : Forall (route_if_ok (if_list w)) (routing_table w);
  rs_cache : cache w = sr_arpcache_init }.

Definition reachable (w : world) : Prop := exists w0, router_start w0 /\ rtc router_step w0 w.

Lemma start_ok w : router_start w -> world_ok w [].
Proof.
  intros [Hi Hn Hr Hc]. constructor; rewrite ?Hc; try done.
  - apply Forall_and. done.
  - constructor; simpl; try done; [by constructor|].
    intros l. rewrite lookup_empty. split; [by intros []|by intros H%elem_of_nil].
  - cbn [entries sr_arpcache_init]. apply Forall_replicate. split; [done|].
    apply bytes_ok_replicate. unfold byte_ok; lia.
  - constructor; [by constructor|done].
Qed.

Lemma router_step_ok w w' q : router_step w w' -> world_ok w q -> exists q', world_ok w' q'.
Proof.
  intros [w1 w2 frame iface Hfr E|w1 w2 E] Hw.
  - destruct (sr_handlepacket_ok _ _ _ _ Hw Hfr) as [(w3 & q' & E' & Hok & _)|[E' _]]; rewrite E in E'; [|done].
    injection E' as <-. by exists q'.
  - destruct (timeout_turn_total _ _ Hw) as [(w3 & q' & E' & Hok & _)|E']; rewrite E in E'; [|done].
    injection E' as <-. by exists q'.
Qed.

Lemma reachable_ok w : reachable w -> exists q, world_ok w q.
Proof.
  intros (w0 & H0%start_ok & Hr). assert (Hq : exists q, world_ok w0 q) by by exists [].
  clear H0. induction Hr as [w|w1 w2 w3 H12 _ IH]; [done|].
  apply IH. destruct Hq as [q Hq]. by eapply router_step_ok.
Qed.
End OS.
