(* ===== verification/Delivery.v ===== *)
(** * Delivery: a packet from its arrival to its next hop

    The specifications of Handlers.v put together over several packets: a
    transit packet whose next hop is unknown waits and an ARP request goes out;
    the answer brings the packet on its way; the packets after it go at once. *)

From S2P Require Import Prelude Memory Protocol Utils Iface Rt ArpCache World ArpHandler Router RouterSpec Handlers Safety.

(** An IP packet in a frame, as the handlers get it. *)
Record ip_frame_ok (e : eth_hdr) (h : ip_hdr) (payload : list Z) : Prop := {
  if_eth : eth_hdr_ok e;
  if_type : e_type e = ethertype_ip;
  if_hdr : ip_hdr_ok h;
  if_ebytes : bytes_ok (encode_eth e);
  if_pbytes : bytes_ok payload;
  if_least : (8 <= length payload)%nat;
  if_most : Z.of_nat (length payload) < 65000 }.

(** A packet with header [h] is for somebody behind route [r]. *)
Record transit (w : world) (r : sr_rt) (h : ip_hdr) : Prop := {
  tr_sum : ip_sum_ok h = true;
  tr_dst : get_dst_interface (if_list w) (i_dst h) = None;
  tr_ttl : u8 (i_ttl h - 1) <> 0;
  tr_route : sr_longest_prefix_match (routing_table w) (i_dst h) = Some r }.

(** The header it leaves with. *)
Definition lowered (h : ip_hdr) : ip_hdr := seal_ip (set_ttl (set_sum h 0) (u8 (i_ttl h - 1))).

Lemma spec_ip_transit w now nm i e h payload q r :
  transit w r h -> spec_ip w now nm i e h payload q = spec_forward w now e (lowered h) payload r q.
Proof.
  intros [Hs Hd Ht Hr]. unfold spec_ip, spec_transit. rewrite Hs, Hd. cbv zeta. cbn [i_ttl set_ttl].
  by rewrite (proj2 (Z.eqb_neq _ _) Ht), Hr.
Qed.

Lemma transit_same w w' r h :
  if_list w' = if_list w -> routing_table w' = routing_table w -> transit w r h -> transit w' r h.
Proof. intros Ei Er []. by constructor; rewrite ?Ei, ?Er. Qed.

(** It is not answered with an ICMP message. *)
Lemma transit_survives {os : OS} w r h payload : transit w r h -> wild_death w h payload = false.
Proof.
  intros [_ Hd Ht Hr]. unfold wild_death, icmp_answered.
  rewrite Hd, Hr, (proj2 (Z.eqb_neq _ _) Ht). cbn [orb]. by rewrite andb_false_r.
Qed.

(** ** The names of an interface *)
Lemma name32_ok iface : length iface = 32%nat -> strncpy sr_IFACE_NAMELEN iface = Ok (name32 iface).
Proof.
  intros H. destruct (strncpy_ok sr_IFACE_NAMELEN iface) as [nm E]; [by rewrite H|]. unfold name32. by rewrite E.
Qed.

Lemma if_of_name32 ifs iface : length iface = 32%nat -> if_of ifs (name32 iface) = if_of ifs iface.
Proof. intros H. unfold if_of, name_of. by rewrite (cstr_strncpy _ _ _ (name32_ok _ H)). Qed.

Lemma nm16_name32 iface : length iface = 32%nat -> nm16 (name32 iface) = nm16 iface.
Proof.
  intros H. unfold nm16. rewrite (strncpy_strncpy 16 sr_IFACE_NAMELEN iface (name32 iface)); [done| |by apply name32_ok].
  unfold sr_IFACE_NAMELEN. lia.
Qed.

(** ** The packet waits *)
Definition waiting (e : eth_hdr) (h : ip_hdr) (payload : list Z) (r : sr_rt) : sr_packet :=
  let frame := waiting_frame e h payload in
  SrPacket frame (Z.of_nat (length frame)) (name32 (rt_interface r)).

Lemma pk_iface_waiting e h payload r : pk_iface (waiting e h payload r) = name32 (rt_interface r).
Proof. done. Qed.

Lemma spec_forward_miss w now e h payload r q o :
  world_ok w q -> length (rt_interface r) = 32%nat -> if_of (if_list w) (rt_interface r) = Some o ->
  sr_arpcache_lookup (cache w) (rt_gw r) = None -> q_find (rt_gw r) q = None -> 1 <= now ->
  spec_forward w now e h payload r q
  = ((brk (cache w), Areq (rt_gw r) now 1 [waiting e h payload r]) :: q,
     [vns_message (nm16 (rt_interface r)) (arp_request_frame o (rt_gw r))]).
Proof.
  intros Hw H32 Ho Hl Hq Hnow. unfold spec_forward. rewrite Hl. cbv zeta.
  change (SrPacket (waiting_frame e h payload) _ _) with (waiting e h payload r). unfold spec_queuereq. rewrite Hq. cbn [snd].
  unfold q_find. cbn [List.find q_ip snd]. rewrite Z.eqb_refl. unfold spec_arpreq, due, given_up. cbn [q_sent q_times].
  rewrite (proj2 (Z.leb_le 1 (now - 0))) by lia. cbn [Z.leb Z.compare Pos.compare Pos.compare_cont].
  unfold request_msgs, msg_out. cbn [q_pkts pk_iface q_ip].
  rewrite pk_iface_waiting, (if_of_name32 _ _ H32), (nm16_name32 _ H32), Ho.
  match goal with |- (?a, ?b) = (?c, _) => cut (a = c); [by intros ->|] end.
  assert (Hf : brk (cache w) ∉ q.*1).
  { pose proof (rep_brk _ _ _ (wok_rep _ _ Hw)) as Hb. rewrite app_nil_r in Hb. intros Hin.
    rewrite Forall_forall in Hb. specialize (Hb _ Hin). lia. }
  unfold q_alter at 1. cbn [map fst snd]. rewrite decide_True by done. f_equal.
  by apply q_alter_notin.
Qed.

(** ** The answer *)
Lemma spec_arp_answer w now nm o e a pad q l sent_at times p :
  a_op a = arp_op_reply -> l ∉ q.*1 -> if_of (if_list w) (pk_iface p) = Some o ->
  spec_arp w now nm o e a pad ((l, Areq (a_sip a) sent_at times [p]) :: q)
  = (q, spec_entries now (a_sha a) (a_sip a) (entries (cache w)),
     [vns_message (nm16 (pk_iface p)) (readdressed (a_sha a) (if_addr o) (pk_buf p))]).
Proof.
  intros Hop Hl Hp. unfold spec_arp. rewrite Hop. cbn [Z.eqb Pos.eqb arp_op_reply arp_op_request].
  unfold q_find. cbn [List.find q_ip snd]. rewrite Z.eqb_refl. f_equal; [f_equal|].
  - unfold q_remove. rewrite filter_cons_False by (intros H; by apply H). by apply q_remove_notin.
  - cbn [q_pkts fmap list_fmap mjoin list_join]. unfold waiting_msgs.
    by rewrite Hp, bool_decide_eq_true_2.
Qed.

Lemma readdressed_waiting mac addr e h payload :
  eth_hdr_ok e ->
  readdressed mac addr (waiting_frame e h payload) = encode_eth (EthHdr mac addr (e_type e)) ++ encode_ip h ++ payload.
Proof.
  intros [Hd Hs _]. destruct e as [d s t]. cbn [e_dhost e_shost e_type] in *. explode d. explode s.
  unfold readdressed, waiting_frame, encode_eth. cbn [e_dhost e_shost e_type app drop]. by rewrite <- !app_assoc.
Qed.

(** ** The packets after it *)
Lemma lookup_None_hits es ip e : lookup_loop es ip None = None -> e ∈ es -> hits ip e = false.
Proof.
  rewrite lookup_loop_rev. destruct (List.find _ _) eqn:E; [done|]. intros _ Hin.
  apply (List.find_none _ _ E). apply in_rev. rewrite rev_involutive. by apply list_elem_of_In.
Qed.

Lemma lookup_answered es ip mac now :
  length es = SR_ARPCACHE_SZ -> (free_slot es < SR_ARPCACHE_SZ)%nat -> lookup_loop es ip None = None ->
  lookup_loop (spec_entries now mac ip es) ip None = Some (SrArpentry mac ip now true).
Proof.
  intros Hl Hf Hn. rewrite lookup_after_insert, lookup_loop_rev by done.
  destruct (List.find _ _) as [e|] eqn:E; [|done]. apply List.find_some in E as [Hin Hh].
  rewrite (lookup_None_hits es ip e Hn) in Hh; [done|].
  apply in_rev in Hin. apply list_elem_of_In in Hin. rewrite <- (take_drop (S (free_slot es)) es).
  apply elem_of_app. by right.
Qed.

Lemma spec_forward_known w now e h payload r q o mac at_time :
  if_of (if_list w) (rt_interface r) = Some o ->
  sr_arpcache_lookup (cache w) (rt_gw r) = Some (SrArpentry mac (rt_gw r) at_time true) ->
  spec_forward w now e h payload r q
  = (q, [vns_message (nm16 (rt_interface r)) (forward_frame o mac e h payload)]).
Proof. intros Ho Hl. unfold spec_forward, msg_out. by rewrite Hl, Ho. Qed.

(** ** All of it *)
Section OS.
Context {os : OS}.

Lemma handle_ip_frame w q interface s nm i e h payload :
  world_ok w q -> iface_named interface s nm -> find_if (if_list w) s = Some i -> ip_frame_ok e h payload ->
  let res := spec_ip w (os_time (ticks w)) nm i e h payload q in
  let run := sr_handlepacket (encode_eth e ++ encode_ip h ++ payload) (34 + Z.of_nat (length payload)) interface w in
  if wild_death w h payload then run = Fault WildRead
  else exists w', run = Ok (tt, w') /\ handled w res.1 res.2 w'.
Proof.
  intros Hw Hn Hf [He Ht Hh Heb Hpb Hlo Hhi] res run. subst run. unfold sr_handlepacket.
  rewrite (sbind_step _ _ _ _ _ (slift_step _ _ _ (ethertype_eth e (encode_ip h ++ payload) He))), Ht.
  by apply (handle_ip_refines w q interface s nm i).
Qed.

Lemma handle_arp_frame w q interface s nm i e a rest :
  world_ok w q -> iface_named interface s nm -> find_if (if_list w) s = Some i ->
  eth_hdr_ok e -> e_type e = ethertype_arp -> arp_hdr_ok a -> bytes_ok (a_sha a) ->
  Z.of_nat (length rest) < 65000 ->
  exists w', sr_handlepacket (encode_eth e ++ encode_arp a ++ rest) (42 + Z.of_nat (length rest))
               interface w = Ok (tt, w')
    /\ arp_handled w (spec_arp w (os_time (ticks w)) nm i e a (length rest) q) w'.
Proof.
  intros Hw Hn Hf He Ht Ha Hs Hmax. unfold sr_handlepacket.
  rewrite (sbind_step _ _ _ _ _ (slift_step _ _ _ (ethertype_eth e (encode_arp a ++ rest) He))), Ht.
  by apply (handle_arp_refines w (wok_ifs _ _ Hw) interface s nm i Hn Hf).
Qed.

(** A packet that goes at once. *)
Lemma direct_ok w q interface s nm i e h payload r o mac at_time :
  world_ok w q -> iface_named interface s nm -> find_if (if_list w) s = Some i -> ip_frame_ok e h payload ->
  transit w r h -> if_of (if_list w) (rt_interface r) = Some o ->
  sr_arpcache_lookup (cache w) (rt_gw r) = Some (SrArpentry mac (rt_gw r) at_time true) ->
  exists w', sr_handlepacket (encode_eth e ++ encode_ip h ++ payload) (34 + Z.of_nat (length payload)) interface w
             = Ok (tt, w')
    /\ handled w q [vns_message (nm16 (rt_interface r)) (forward_frame o mac e (lowered h) payload)] w'.
Proof.
  intros Hw Hn Hf Hp Ht Ho Hl. pose proof (handle_ip_frame w q interface s nm i e h payload Hw Hn Hf Hp) as H.
  cbv zeta in H. rewrite (transit_survives _ _ _ _ Ht) in H. destruct H as (w' & E & H).
  rewrite (spec_ip_transit _ _ _ _ _ _ _ _ _ Ht), (spec_forward_known _ _ _ _ _ _ _ o mac at_time Ho Hl) in H. eauto.
Qed.

(** The first packet, and the answer that brings it on its way. *)
Lemma resolve_ok w q interface s nm i e h payload r o interface' s' nm' e' a rest :
  world_ok w q -> iface_named interface s nm -> find_if (if_list w) s = Some i -> ip_frame_ok e h payload ->
  transit w r h -> if_of (if_list w) (rt_interface r) = Some o ->
  sr_arpcache_lookup (cache w) (rt_gw r) = None -> q_find (rt_gw r) q = None -> 1 <= os_time (ticks w) ->
  iface_named interface' s' nm' -> find_if (if_list w) s' = Some o ->
  eth_hdr_ok e' -> e_type e' = ethertype_arp -> arp_hdr_ok a -> bytes_ok (a_sha a) ->
  a_op a = arp_op_reply -> a_sip a = rt_gw r -> Z.of_nat (length rest) < 65000 ->
  exists w1 w2 q1 now,
    sr_handlepacket (encode_eth e ++ encode_ip h ++ payload) (34 + Z.of_nat (length payload)) interface w = Ok (tt, w1)
    /\ handled w q1 [vns_message (nm16 (rt_interface r)) (arp_request_frame o (rt_gw r))] w1
    /\ sr_handlepacket (encode_eth e' ++ encode_arp a ++ rest) (42 + Z.of_nat (length rest)) interface' w1 = Ok (tt, w2)
    /\ arp_handled w1 (q, spec_entries now (a_sha a) (rt_gw r) (entries (cache w)),
         [vns_message (nm16 (rt_interface r)) (forward_frame o (a_sha a) e (lowered h) payload)]) w2.
Proof.
  intros Hw Hn Hf Hp Ht Ho Hl Hq Hnow Hn' Hf' He' Ht' Ha Hs Hop Hsip Hmax.
  pose proof (handle_ip_frame w q interface s nm i e h payload Hw Hn Hf Hp) as H1.
  cbv zeta in H1. rewrite (transit_survives _ _ _ _ Ht) in H1. destruct H1 as (w1 & E1 & H1).
  assert (H32 : length (rt_interface r) = 32%nat).
  { pose proof (wok_routes _ _ Hw) as Hr. rewrite Forall_forall in Hr. apply (Hr r (lpm_In _ _ _ (tr_route _ _ _ Ht))). }
  rewrite (spec_ip_transit _ _ _ _ _ _ _ _ _ Ht), (spec_forward_miss _ _ _ _ _ _ _ o Hw H32 Ho Hl Hq Hnow) in H1.
  cbn [fst snd] in H1. pose proof (hd_ok _ _ _ _ H1) as Hw1.
  destruct (handle_arp_frame w1 _ interface' s' nm' o e' a rest Hw1 Hn') as (w2 & E2 & H2); try done.
  { by rewrite (hd_ifs _ _ _ _ H1). }
  rewrite <- Hsip in H2. rewrite spec_arp_answer in H2; [|done| |].
  - rewrite pk_iface_waiting, (nm16_name32 _ H32), (hd_entries _ _ _ _ H1), Hsip in H2.
    change (pk_buf (waiting e (lowered h) payload r)) with (waiting_frame e (lowered h) payload) in H2.
    rewrite (readdressed_waiting _ _ _ _ _ (if_eth _ _ _ Hp)) in H2. by eexists w1, w2, _, _.
  - pose proof (rep_queue_nodup _ _ _ (wok_rep _ _ Hw1)) as Hnd. by apply NoDup_cons in Hnd as [? _].
  - by rewrite pk_iface_waiting, (if_of_name32 _ _ H32), (hd_ifs _ _ _ _ H1).
Qed.
End OS.
