(* ===== verification/Abstract.v ===== *)
(** * Abstract: the router without its memory

    The router as a machine on its tables alone: interfaces, routes, the ARP
    table and, instead of a heap of linked nodes, the list of the requests that
    are waiting for an answer, one for each address.  Its steps are the arrival
    of a frame ([arrive]) and a turn of the cleanup thread ([sweep]), in which a
    request that is given up is taken off the list.  [happens_refines] shows
    that the code is an implementation of this machine as long as no turn gives
    up a request, and dies in a use after free when one does; and that the only
    other thing that can stop it is an ICMP answer ([answers]) whose building
    follows the uninitialised pointer to nowhere.  [run_fate]
    follows a waiting packet through a run of the machine. *)

From S2P Require Import Prelude Memory Protocol Utils Iface Rt ArpCache World ArpHandler Router RouterSpec Handlers Safety Delivery.

Record arouter := Arouter {
  r_ifs : list sr_if;
  r_routes : list sr_rt;
  r_table : list sr_arpentry;
  r_queue : list areq }.
Definition set_queue (a : arouter) (rs : list areq) : arouter := Arouter (r_ifs a) (r_routes a) (r_table a) rs.
Definition set_table (a : arouter) (es : list sr_arpentry) : arouter := Arouter (r_ifs a) (r_routes a) es (r_queue a).

(** ** Its operations *)

Definition for_ip (ip : Z) (rs : list areq) : option areq := List.find (fun r => q_ip r =? ip) rs.
(** The requests for [ip] changed by [f], or dropped. *)
Definition revise (ip : Z) (f : areq -> option areq) (rs : list areq) : list areq :=
  omap (fun r => if q_ip r =? ip then f r else Some r) rs.
Definition enqueue (ip : Z) (p : sr_packet) (rs : list areq) : list areq :=
  match for_ip ip rs with
  | Some _ => revise ip (fun r => Some (add_pkt p r)) rs
  | None => Areq ip 0 0 [p] :: rs
  end.

(** A request that is due is sent once more, or given up. *)
Definition serve (ifs : list sr_if) (now : Z) (r : areq) : option areq * list (list Z) :=
  if due now r then
    if given_up r then (None, unreachable_msgs ifs (q_pkts r)) else (Some (mark_sent now r), request_msgs ifs r)
  else (Some r, []).

Definition a_forward (now : Z) (a : arouter) (e : eth_hdr) (h : ip_hdr) (payload : list Z) (rt : sr_rt) :
    arouter * list (list Z) :=
  match lookup_loop (r_table a) (rt_gw rt) None with
  | Some entry =>
      (a, msg_out (r_ifs a) (rt_interface rt) (fun o => forward_frame o (ae_mac entry) e h payload))
  | None =>
      let frame := waiting_frame e h payload in
      let p := SrPacket frame (Z.of_nat (length frame)) (name32 (rt_interface rt)) in
      let rs := enqueue (rt_gw rt) p (r_queue a) in
      match for_ip (rt_gw rt) rs with
      | Some r => let s := serve (r_ifs a) now r in
                  (set_queue a (revise (rt_gw rt) (fun _ => s.1) rs), s.2)
      | None => (set_queue a rs, [])
      end
  end.

Definition a_transit (now : Z) (a : arouter) (nm : list Z) (i : sr_if) (e : eth_hdr) (h : ip_hdr)
    (payload : list Z) : arouter * list (list Z) :=
  let h1 := set_ttl (set_sum h 0) (u8 (i_ttl h - 1)) in
  if i_ttl h1 =? 0 then (a, [vns_message nm (icmp_error_frame i (if_ip i) e h1 payload 11 0)])
  else
    let h2 := seal_ip h1 in
    match sr_longest_prefix_match (r_routes a) (i_dst h) with
    | None => (a, [vns_message nm (icmp_error_frame i (if_ip i) e h2 payload 3 0)])
    | Some rt => a_forward now a e h2 payload rt
    end.

Definition a_ip (now : Z) (a : arouter) (nm : list Z) (i : sr_if) (e : eth_hdr) (h : ip_hdr) (payload : list Z) :
    arouter * list (list Z) :=
  if ip_sum_ok h then
    match get_dst_interface (r_ifs a) (i_dst h) with
    | Some ipi => (a, local_msgs nm i ipi e h payload)
    | None => a_transit now a nm i e h payload
    end
  else (a, []).

Definition a_arp (now : Z) (a : arouter) (nm : list Z) (i : sr_if) (e : eth_hdr) (h : arp_hdr) (pad : nat) :
    arouter * list (list Z) :=
  if a_op h =? arp_op_request then
    (a, if a_tip h =? if_ip i then [vns_message nm (arp_reply_frame i e h pad)] else [])
  else if a_op h =? arp_op_reply then
    let a' := set_table a (spec_entries now (a_sha h) (a_sip h) (r_table a)) in
    match for_ip (a_sip h) (r_queue a) with
    | Some r => (set_queue a' (revise (a_sip h) (fun _ => None) (r_queue a)),
                 mjoin (waiting_msgs (r_ifs a) i (a_sha h) <$> q_pkts r))
    | None => (a', [])
    end
  else (a, []).

(** A frame on the interface named [iface]. *)
Definition arrive (now : Z) (a : arouter) (frame iface : list Z) : arouter * list (list Z) :=
  match if_of (r_ifs a) iface, decode_eth frame with
  | Some i, Ok e =>
      if e_type e =? ethertype_ip then
        match decode_ip frame Eth.size with
        | Ok h => a_ip now a (nm16 iface) i e h (drop 34 frame)
        | Fault _ => (a, [])
        end
      else if e_type e =? ethertype_arp then
        match decode_arp frame Eth.size with
        | Ok h => a_arp now a (nm16 iface) i e h (length frame - 42)
        | Fault _ => (a, [])
        end
      else (a, [])
  | _, _ => (a, [])
  end.

(** Whether a frame is an IP packet that is answered with an ICMP message. *)
Definition answers (a : arouter) (frame : list Z) : bool :=
  match decode_eth frame, decode_ip frame Eth.size with
  | Ok e, Ok h => (e_type e =? ethertype_ip) && icmp_answered (r_ifs a) (r_routes a) h (drop 34 frame)
  | _, _ => false
  end.

(** A turn: entries expire, and every request is served at its own time. *)
Definition sweep (now : Z) (nows : list Z) (a : arouter) : arouter * list (list Z) :=
  (Arouter (r_ifs a) (r_routes a) (expire_entry now <$> r_table a)
     (omap fst (zip_with (serve (r_ifs a)) nows (r_queue a))),
   mjoin (snd <$> zip_with (serve (r_ifs a)) nows (r_queue a))).

(** ** Its runs *)
Inductive event :=
| Arrival (frame iface : list Z)
| Turn.

Section OS.
Context {os : OS}.

Inductive abs_step (a : arouter) : event -> list (list Z) -> arouter -> Prop :=
| abs_arrival k frame iface :
    abs_step a (Arrival frame iface) (arrive (os_time k) a frame iface).2 (arrive (os_time k) a frame iface).1
| abs_turn k nows :
    length nows = length (r_queue a) -> Forall (fun now => exists k, now = os_time k) nows ->
    abs_step a Turn (sweep (os_time k) nows a).2 (sweep (os_time k) nows a).1.

Inductive abs_run : arouter -> list event -> list (list Z) -> arouter -> Prop :=
| abs_nil a : abs_run a [] [] a
| abs_cons a1 a2 a3 ev evs ms1 ms2 :
    abs_step a1 ev ms1 a2 -> abs_run a2 evs ms2 a3 -> abs_run a1 (ev :: evs) (ms1 ++ ms2) a3.

(** The code on the same events. *)
Definition happen (ev : event) : M unit :=
  match ev with
  | Arrival frame iface => sr_handlepacket frame (Z.of_nat (length frame)) iface
  | Turn => sr_arpcache_timeout_turn
  end.
Definition happens (evs : list event) : M unit := siter happen evs.
End OS.

Definition event_ok (w : world) (ev : event) : Prop :=
  match ev with Arrival frame iface => frame_ok w frame iface | Turn => True end.

(** What the memory of the router stands for. *)
Definition abstraction (w : world) (q : queue) : arouter :=
  Arouter (if_list w) (routing_table w) (entries (cache w)) (snd <$> q).

(** ** Lemmas: the queue as a list of requests *)
Lemma for_ip_abs ip (q : queue) : for_ip ip (snd <$> q) = snd <$> q_find ip q.
Proof.
  induction q as [|p q IH]; [done|]. unfold for_ip, q_find in *. rewrite fmap_cons. cbn [List.find].
  by destruct (q_ip p.2 =? ip).
Qed.

Lemma revise_other ip f rs : ip ∉ q_ip <$> rs -> revise ip f rs = rs.
Proof.
  induction rs as [|r rs IH]; [done|]. rewrite fmap_cons, not_elem_of_cons. intros [Hne Hni].
  unfold revise in *. cbn [omap list_omap]. rewrite (proj2 (Z.eqb_neq _ _)) by congruence. by rewrite IH.
Qed.

Lemma revise_mid ip f pre r post :
  NoDup ((q_ip <$> pre) ++ q_ip r :: (q_ip <$> post)) -> q_ip r = ip ->
  revise ip f (pre ++ r :: post) = pre ++ option_list (f r) ++ post.
Proof.
  intros Hnd <-.
  apply NoDup_app in Hnd as (_ & H1 & [H2 _]%NoDup_cons).
  unfold revise. rewrite omap_app. cbn [omap list_omap]. rewrite Z.eqb_refl.
  pose proof (revise_other (q_ip r) f pre) as E1. pose proof (revise_other (q_ip r) f post H2) as E2.
  unfold revise in *. rewrite E1, E2 by (intros H; apply (H1 _ H); by left). by destruct (f r).
Qed.

Lemma queue_ips (q : queue) : (fun p => q_ip p.2) <$> q = q_ip <$> (snd <$> q).
Proof. by rewrite <- list_fmap_compose. Qed.

Section Queue.
Context (q : queue) (l : loc) (a : areq).
Context (Hnd : NoDup q.*1) (Hq : queue_ok q) (Hin : (l, a) ∈ q).

Lemma alter_abs f : snd <$> q_alter l f q = revise (q_ip a) (fun r => Some (f r)) (snd <$> q).
Proof using Hnd Hq Hin.
  pose proof (qok_ips _ Hq) as Hi. rewrite queue_ips in Hi.
  apply list_elem_of_split in Hin as (q1 & q2 & ->). rewrite q_alter_mid by done.
  rewrite !fmap_app, !fmap_cons in *. by rewrite revise_mid.
Qed.

Lemma remove_abs : snd <$> q_remove l q = revise (q_ip a) (fun _ => None) (snd <$> q).
Proof using Hnd Hq Hin.
  pose proof (qok_ips _ Hq) as Hi. rewrite queue_ips in Hi.
  apply list_elem_of_split in Hin as (q1 & q2 & ->). rewrite q_remove_mid by done.
  rewrite !fmap_app, !fmap_cons in *. by rewrite revise_mid.
Qed.

Lemma arpreq_abs ifs now :
  let s := serve ifs now a in
  (spec_arpreq ifs now l a q).2 = s.2
  /\ snd <$> (spec_arpreq ifs now l a q).1 = revise (q_ip a) (fun _ => s.1) (snd <$> q).
Proof using Hnd Hq Hin.
  pose proof (qok_ips _ Hq) as Hi. rewrite queue_ips in Hi.
  unfold spec_arpreq, serve. destruct (due now a); [destruct (given_up a)|]; cbn [fst snd]; split; try done.
  - by apply remove_abs.
  - rewrite alter_abs. apply list_elem_of_split in Hin as (q1 & q2 & ->).
    rewrite !fmap_app, !fmap_cons in *. by rewrite !revise_mid.
  - apply list_elem_of_split in Hin as (q1 & q2 & ->).
    rewrite !fmap_app, !fmap_cons in *. by rewrite revise_mid.
Qed.
End Queue.

Lemma queuereq_abs fresh ip p (q : queue) :
  NoDup q.*1 -> queue_ok q -> snd <$> (spec_queuereq fresh ip p q).2 = enqueue ip p (snd <$> q).
Proof.
  intros Hnd Hq. unfold spec_queuereq, enqueue. rewrite for_ip_abs.
  destruct (q_find ip q) as [[l a]|] eqn:E; [|done]. apply find_spec_ip in E as [Hin <-]. cbn [fmap option_fmap option_map snd].
  by apply (alter_abs q l a).
Qed.

Lemma queuereq_nodup fresh ip p (q : queue) :
  NoDup q.*1 -> fresh ∉ q.*1 -> NoDup (spec_queuereq fresh ip p q).2.*1.
Proof.
  intros Hnd Hf. unfold spec_queuereq. destruct (q_find ip q) as [[l a]|]; cbn [snd].
  - by rewrite q_alter_fst.
  - by apply NoDup_cons.
Qed.

(** ** Lemmas: the handlers *)
Section Handlers.
Context {os : OS} (w : world) (q : queue) (Hw : world_ok w q).

Let Hnd : NoDup q.*1 := rep_queue_nodup _ _ _ (wok_rep _ _ Hw).
Let Hq : queue_ok q := wok_queue _ _ Hw.

Lemma brk_fresh : brk (cache w) ∉ q.*1.
Proof using Hw.
  pose proof (rep_brk _ _ _ (wok_rep _ _ Hw)) as Hb. rewrite app_nil_r, Forall_forall in Hb.
  intros Hin. specialize (Hb _ Hin). lia.
Qed.

Lemma set_queue_id : set_queue (abstraction w q) (snd <$> q) = abstraction w q.
Proof using. done. Qed.

Lemma spec_forward_abs now e h payload r :
  let s := spec_forward w now e h payload r q in
  a_forward now (abstraction w q) e h payload r = (set_queue (abstraction w q) (snd <$> s.1), s.2).
Proof using Hw Hnd Hq.
  unfold spec_forward, a_forward, sr_arpcache_lookup. cbn [r_table r_ifs r_queue abstraction].
  destruct (lookup_loop _ _ _) as [entry|]; [done|]. cbv zeta.
  set (p := SrPacket _ _ _). rewrite <- (queuereq_abs (brk (cache w))), for_ip_abs by done.
  pose proof (spec_queuereq_ok (brk (cache w)) (rt_gw r) p q Hq) as Hq2.
  pose proof (queuereq_nodup (brk (cache w)) (rt_gw r) p q Hnd brk_fresh) as Hnd2.
  destruct (q_find (rt_gw r) _) as [[l a]|] eqn:Ef; [|done]. cbn [fmap option_fmap option_map snd].
  apply find_spec_ip in Ef as [Hin Ei].
  destruct (arpreq_abs _ l a Hnd2 Hq2 Hin (if_list w) now) as [E1 E2]. rewrite Ei in E2. by rewrite E1, E2.
Qed.

Lemma spec_ip_abs now nm i e h payload :
  let s := spec_ip w now nm i e h payload q in
  a_ip now (abstraction w q) nm i e h payload = (set_queue (abstraction w q) (snd <$> s.1), s.2).
Proof using Hw Hnd Hq.
  unfold spec_ip, a_ip. destruct (ip_sum_ok h); [|done]. cbn [r_ifs abstraction].
  destruct (get_dst_interface _ _); [done|]. unfold spec_transit, a_transit. cbv zeta.
  destruct (_ =? 0); [done|]. cbn [r_routes abstraction].
  destruct (sr_longest_prefix_match _ _); [|done]. apply spec_forward_abs.
Qed.

Lemma spec_arp_abs now nm i e h pad :
  let s := spec_arp w now nm i e h pad q in
  a_arp now (abstraction w q) nm i e h pad
  = (Arouter (if_list w) (routing_table w) s.1.2 (snd <$> s.1.1), s.2).
Proof using Hnd Hq.
  unfold spec_arp, a_arp. destruct (_ =? arp_op_request); [done|].
  destruct (_ =? arp_op_reply); [|done]. cbv zeta. cbn [r_queue r_table abstraction]. rewrite for_ip_abs.
  destruct (q_find _ q) as [[l a]|] eqn:Ef; [|done]. apply find_spec_ip in Ef as [Hin <-].
  cbn [fmap option_fmap option_map fst snd]. by rewrite (remove_abs q l a Hnd Hq Hin).
Qed.
End Handlers.

(** ** The code refines the machine *)

(** The code went from [w] to [w'] as the machine did with result [r]. *)
Record refines (w : world) (r : arouter * list (list Z)) (w' : world) : Prop := {
  rf_abs : exists q', world_ok w' q' /\ abstraction w' q' = r.1;
  rf_sent : sent (out w') = sent (out w) ++ r.2 }.

Section Refinement.
Context {os : OS}.

Lemma refines_handled w q res w' : handled w res.1 res.2 w' ->
  refines w (set_queue (abstraction w q) (snd <$> res.1), res.2) w'.
Proof using.
  intros [H1 H2 H3 H4 H5]. constructor; [|done]. exists res.1. split; [done|].
  unfold abstraction, set_queue. cbn [r_ifs r_routes r_table fst]. congruence.
Qed.

Lemma arrival_refines w q frame iface :
  world_ok w q -> frame_ok w frame iface ->
  let run := sr_handlepacket frame (Z.of_nat (length frame)) iface w in
  if answers (abstraction w q) frame && negb (os_wild_read (ticks w)) then run = Fault WildRead
  else exists w', run = Ok (tt, w') /\ refines w (arrive (os_time (ticks w)) (abstraction w q) frame iface) w'.
Proof using.
  intros Hw [Hb Hl (s & nm & i & Hn & Hf)].
  destruct (frame_headers frame Hb ltac:(lia)) as (e & body & -> & He & Hbe & Hbb & HL). rewrite HL in *.
  assert (Hif : if_of (if_list w) iface = Some i) by (unfold if_of; by rewrite (in_name _ _ _ Hn)).
  assert (Hnm : nm16 iface = nm) by (unfold nm16; by rewrite (in_16 _ _ _ Hn)).
  unfold sr_handlepacket, arrive, answers. cbn [r_ifs r_routes abstraction]. rewrite Hif, Hnm, (decode_encode_eth_app _ _ He).
  rewrite (sbind_step _ _ _ _ _ (slift_step _ _ _ (ethertype_eth e body He))).
  pose proof (length_encode_eth _ He) as HE.
  destruct (e_type e =? ethertype_ip) eqn:Et.
  { destruct (split_at body 20 ltac:(lia)) as (p & payload & -> & Hp).
    apply bytes_ok_app in Hbb as [Hbp Hbb]. destruct (encode_ip_surj p Hbp Hp) as (h & -> & Hh).
    rewrite length_app, length_encode_ip in *.
    replace (Z.of_nat (14 + (20 + length payload))) with (34 + Z.of_nat (length payload)) in * by lia.
    pose proof (handle_ip_refines w q iface s nm i e h payload Hw Hn Hf He Hh Hbe Hbb ltac:(lia) ltac:(lia)) as H.
    cbv zeta in H. unfold wild_death in H.
    pose proof (decode_encode_ip_app (encode_eth e) h payload Hh) as Ed. rewrite HE in Ed.
    change 14%nat with Eth.size in Ed. rewrite Ed.
    replace (drop 34 _) with payload by (rewrite app_assoc, drop_app_length'; [done|by rewrite length_app, HE]).
    cbn [andb]. destruct (_ && _); [done|]. destruct H as (w' & E & H). exists w'. split; [done|].
    rewrite (spec_ip_abs w q Hw). by apply refines_handled. }
  replace (match decode_ip _ _ with Ok _ => _ | Fault _ => false end) with false by (by destruct (decode_ip _ _)).
  cbn [andb].
  destruct (e_type e =? ethertype_arp).
  { destruct (split_at body 28 ltac:(lia)) as (p & rest & -> & Hp).
    apply bytes_ok_app in Hbb as [Hbp Hbb]. destruct (encode_arp_surj p Hbp Hp) as (a & -> & Ha & Hs).
    rewrite length_app, length_encode_arp in * by done.
    replace (Z.of_nat (14 + (28 + length rest))) with (42 + Z.of_nat (length rest)) in * by lia.
    destruct (handle_arp_refines w (wok_ifs _ _ Hw) iface s nm i Hn Hf e a rest He Ha Hs ltac:(lia) q Hw)
      as (w' & E & [H1 H2 H3 H4 H5]). exists w'. split; [done|].
    pose proof (decode_encode_arp_app (encode_eth e) a rest Ha) as Ed. rewrite HE in Ed.
    change 14%nat with Eth.size in Ed. rewrite Ed.
    replace (_ - 42)%nat with (length rest) by (rewrite !length_app, length_encode_arp, HE by done; lia).
    rewrite (spec_arp_abs w q Hw). constructor; [|done]. eexists. split; [exact H1|]. cbn [fst].
    unfold abstraction. congruence. }
  exists w. split; [done|]. constructor; [by exists q|]. by rewrite app_nil_r.
Qed.

(** A request that is kept is served like any other. *)
Lemma serve_kept now ifs p :
  due now p.2 && given_up p.2 = false ->
  serve ifs now p.2 = (Some (sweep_req now p).2, sweep_msgs ifs now p).
Proof using. unfold serve, sweep_req, sweep_msgs. destruct (due now p.2); [|done]. cbn [andb]. by intros ->. Qed.

Lemma sweep_abs nows ifs (q : queue) :
  kept nows q ->
  zip_with (serve ifs) nows (snd <$> q)
  = zip (Some <$> (snd <$> zip_with sweep_req nows q)) (zip_with (sweep_msgs ifs) nows q).
Proof using.
  induction 1 as [|now p nows q Hk _ IH]; [done|].
  cbn [fmap list_fmap zip_with]. rewrite (serve_kept now ifs p Hk). by rewrite <- IH.
Qed.

Lemma omap_fst_zip {A B} (l : list A) (k : list B) :
  length k = length l -> omap fst (zip (Some <$> l) k) = l /\ snd <$> zip (Some <$> l) k = k.
Proof using.
  revert k. induction l as [|x l IH]; intros [|y k] E; simpl in E; try done.
  cbn. by destruct (IH k ltac:(lia)) as [-> ->].
Qed.

Lemma turn_refines w q :
  world_ok w q ->
  (exists nows w', sr_arpcache_timeout_turn w = Ok (tt, w') /\ length nows = length q
     /\ Forall (fun now => exists k, now = os_time k) nows
     /\ refines w (sweep (os_time (ticks w)) nows (abstraction w q)) w')
  \/ (sr_arpcache_timeout_turn w = Fault UseAfterFree /\ Exists (fun r => given_up r = true) (r_queue (abstraction w q))).
Proof using.
  intros Hw. destruct (timeout_turn_cases w q Hw) as [(nows & w' & Hn & Hk & E & [H1 H2 H3 H4 H5])|(E & p & Hp & Hg)].
  - left. exists nows, w'. split_and!; [done|by eapply Forall2_length|done|].
    pose proof (Forall2_length _ _ _ Hk) as HL.
    destruct (omap_fst_zip (snd <$> zip_with sweep_req nows q) (zip_with (sweep_msgs (if_list w)) nows q)) as [E1 E2].
    { by rewrite length_fmap, !length_zip_with. }
    rewrite <- sweep_abs in E1, E2 by done. constructor; cbn [fst snd sweep r_ifs r_routes r_table r_queue abstraction] in *.
    + eexists. split; [exact H1|]. unfold abstraction. congruence.
    + by rewrite H3, E2.
  - right. split; [done|]. apply Exists_exists. exists p.2. split; [|done].
    cbn [r_queue abstraction]. apply list_elem_of_fmap. by exists p.
Qed.

(** ** Runs *)
Lemma a_forward_ifs now a e h payload rt : r_ifs (a_forward now a e h payload rt).1 = r_ifs a.
Proof using. unfold a_forward. repeat case_match; done. Qed.

Lemma arrive_ifs now a frame iface : r_ifs (arrive now a frame iface).1 = r_ifs a.
Proof using.
  unfold arrive, a_ip, a_arp, a_transit. repeat (case_match; try done). apply a_forward_ifs.
Qed.

Lemma step_ifs a ev ms a' : abs_step a ev ms a' -> r_ifs a' = r_ifs a.
Proof using. intros [k frame iface|k nows _ _]; [apply arrive_ifs|done]. Qed.

(** What can stop the code: a turn when a request is to be given up, and a frame
    to answer when the uninitialised pointer leads nowhere. *)
Inductive stops (a : arouter) : event -> fault -> Prop :=
| stops_given_up : Exists (fun r => given_up r = true) (r_queue a) -> stops a Turn UseAfterFree
| stops_wild frame iface k :
    answers a frame = true -> os_wild_read k = false -> stops a (Arrival frame iface) WildRead.

(** One event. *)
Lemma happen_refines w q ev :
  world_ok w q -> event_ok w ev ->
  (exists w' ms a, happen ev w = Ok (tt, w') /\ abs_step (abstraction w q) ev ms a /\ refines w (a, ms) w')
  \/ exists f, happen ev w = Fault f /\ stops (abstraction w q) ev f.
Proof using.
  intros Hw. destruct ev as [frame iface|]; cbn [event_ok happen].
  - intros Hf. pose proof (arrival_refines w q frame iface Hw Hf) as H. cbv zeta in H.
    destruct (answers _ _) eqn:Ea, (os_wild_read (ticks w)) eqn:Ew; cbn [andb negb] in H;
      [|right; exists WildRead; split; [done|by apply (stops_wild _ _ _ (ticks w))]| |];
      left; destruct H as (w' & E & H).
    all: exists w', (arrive (os_time (ticks w)) (abstraction w q) frame iface).2,
      (arrive (os_time (ticks w)) (abstraction w q) frame iface).1;
      (split_and!; [done|constructor|by rewrite <- surjective_pairing]).
  - intros _. destruct (turn_refines w q Hw) as [(nows & w' & E & HL & Hn & H)|[E Hg]];
      [left|right; exists UseAfterFree; split; [done|by apply stops_given_up]].
    eexists w', _, _. split_and!; [done|apply (abs_turn _ (ticks w) nows); [|done]|done].
    cbn [r_queue abstraction]. by rewrite length_fmap.
Qed.

Lemma happens_refines evs : forall w q,
  world_ok w q -> Forall (event_ok w) evs ->
  (exists w' ms a, happens evs w = Ok (tt, w') /\ abs_run (abstraction w q) evs ms a /\ refines w (a, ms) w')
  \/ (exists f evs1 ev evs2 ms a, happens evs w = Fault f /\ evs = evs1 ++ ev :: evs2
        /\ abs_run (abstraction w q) evs1 ms a /\ stops a ev f).
Proof using.
  induction evs as [|ev evs IH]; intros w q Hw Hev.
  { left. exists w, [], (abstraction w q). split_and!; [done|constructor|].
    constructor; [by exists q|]. by rewrite app_nil_r. }
  apply Forall_cons in Hev as [He Hev]. unfold happens. cbn [siter].
  destruct (happen_refines w q ev Hw He) as [(w1 & m1 & a1 & E1 & Ha1 & [(q1 & Hw1 & Hq1) Hs1])|(f & E & Hg)].
  - rewrite (sbind_step _ _ _ _ _ E1). cbn [fst snd] in *. subst a1.
    assert (Hev1 : Forall (event_ok w1) evs).
    { eapply Forall_impl; [exact Hev|]. intros [frame iface|]; [|done].
      apply frame_ok_ifs. apply (step_ifs _ _ _ _ Ha1). }
    destruct (IH w1 q1 Hw1 Hev1) as [(w2 & m2 & a2 & E2 & Ha2 & [H2 Hs2])|(f & evs1 & ev1 & evs2 & ms & a & E2 & -> & Ha & Hg)].
    + left. exists w2, (m1 ++ m2), a2. split_and!; [done|by eapply abs_cons|].
      constructor; [done|]. cbn [fst snd] in *. by rewrite Hs2, Hs1, app_assoc.
    + right. exists f, (ev :: evs1), ev1, evs2, (m1 ++ ms), a.
      split_and!; [done|done|by eapply abs_cons|done].
  - right. rewrite (sbind_fault _ _ _ _ E). exists f, [], ev, evs, [], (abstraction w q).
    split_and!; [done|done|constructor|done].
Qed.
End Refinement.

(** ** What becomes of a waiting packet *)

(** The packet [p] waits for the address of [ip]. *)
Definition waits (ip : Z) (p : sr_packet) (rs : list areq) : Prop :=
  exists r, r ∈ rs /\ q_ip r = ip /\ p ∈ q_pkts r.

(** It stops waiting when the answer comes, and leaves for the host that
    answered; unless the answer came in on an interface with another address
    than its own, when it is lost; or [ip] is given up, and a host-unreachable
    message that quotes the packet is written.  The message goes out of [j], the
    interface the packet was to leave by, towards [ip] and not back to the
    sender, whose Ethernet address it carries all the same. *)
Inductive fate (ifs : list sr_if) (ip : Z) (p : sr_packet) (ms : list (list Z)) : event -> Prop :=
| fate_answered frame iface h i j :
    if_of ifs iface = Some i -> decode_arp frame Eth.size = Ok h -> a_op h = arp_op_reply -> a_sip h = ip ->
    if_of ifs (pk_iface p) = Some j ->
    (if_addr i = if_addr j -> vns_message (nm16 (pk_iface p)) (readdressed (a_sha h) (if_addr j) (pk_buf p)) ∈ ms) ->
    fate ifs ip p ms (Arrival frame iface)
| fate_unreachable ev j :
    if_of ifs (pk_iface p) = Some j ->
    vns_message (nm16 (pk_iface p)) (icmp_t3_frame j (pk_buf p) 3 1) ∈ ms -> fate ifs ip p ms ev.

Lemma fate_more ifs ip p ms ms1 ms2 ev : fate ifs ip p ms ev -> fate ifs ip p (ms1 ++ ms ++ ms2) ev.
Proof.
  intros [frame iface h i j Hi Hh Ho Hip Hj Hm|ev' j Hj Hm].
  - eapply fate_answered; [done..|]. intros E. apply elem_of_app. right. apply elem_of_app. left. auto.
  - eapply fate_unreachable; [done|]. apply elem_of_app. right. apply elem_of_app. by left.
Qed.

(** *** Lemmas: requests that stay *)

(** What a request turns into while it is on the list. *)
Record grown (r r' : areq) : Prop := {
  gr_ip : q_ip r' = q_ip r;
  gr_pkts : q_pkts r ⊆ q_pkts r' }.
#[export] Instance grown_reflexive : Reflexive grown.
Proof. by constructor. Qed.

Lemma grown_add p r : grown r (add_pkt p r).
Proof. constructor; [done|]. intros x Hx. by right. Qed.

Lemma serve_grown ifs now r r' : (serve ifs now r).1 = Some r' -> grown r r'.
Proof. unfold serve. repeat case_match; intros [= <-]; done. Qed.

Lemma serve_given_up ifs now r : (serve ifs now r).1 = None -> (serve ifs now r).2 = unreachable_msgs ifs (q_pkts r).
Proof. unfold serve. by repeat case_match. Qed.

Section Revise.
Context (ip : Z) (f : areq -> option areq) (rs : list areq).
Context (Hf : forall r r', r ∈ rs -> q_ip r = ip -> f r = Some r' -> grown r r').

Lemma revise_ips : sublist (q_ip <$> revise ip f rs) (q_ip <$> rs).
Proof using Hf.
  induction rs as [|r rs' IH]; [done|]. unfold revise in *. cbn [omap list_omap]. rewrite fmap_cons.
  assert (IH' : sublist (q_ip <$> omap (fun r => if q_ip r =? ip then f r else Some r) rs') (q_ip <$> rs')).
  { apply IH. intros x y Hx. apply Hf. by right. }
  destruct (Z.eqb_spec (q_ip r) ip) as [E|]; [|by constructor].
  destruct (f r) as [r'|] eqn:Ef; [|by constructor].
  rewrite fmap_cons, (gr_ip _ _ (Hf r r' ltac:(by left) E Ef)). by constructor.
Qed.

Lemma revise_waits i p :
  waits i p rs -> waits i p (revise ip f rs) \/ exists r, r ∈ rs /\ q_ip r = ip /\ i = ip /\ p ∈ q_pkts r /\ f r = None.
Proof using Hf.
  intros (r & Hr & Hi & Hp). destruct (Z.eqb_spec (q_ip r) ip) as [E|E].
  - destruct (f r) as [r'|] eqn:Ef.
    + left. destruct (Hf r r' Hr E Ef) as [Ei Ep]. exists r'. split_and!; [|congruence|by apply Ep].
      apply list_elem_of_omap. exists r. split; [done|]. by rewrite (proj2 (Z.eqb_eq _ _) E).
    + right. exists r. split_and!; congruence || done.
  - left. exists r. split_and!; [|done|done]. apply list_elem_of_omap. exists r. split; [done|].
    by rewrite (proj2 (Z.eqb_neq _ _) E).
Qed.
End Revise.

Lemma for_ip_Some ip rs r : for_ip ip rs = Some r -> r ∈ rs /\ q_ip r = ip.
Proof. intros [H E%Z.eqb_eq]%List.find_some. split; [by apply list_elem_of_In|done]. Qed.

Lemma for_ip_unique ip rs r0 r :
  NoDup (q_ip <$> rs) -> for_ip ip rs = Some r0 -> r ∈ rs -> q_ip r = ip -> r = r0.
Proof.
  intros Hnd [H0 E0]%for_ip_Some Hr E. apply list_elem_of_lookup in H0 as [i Hi]. apply list_elem_of_lookup in Hr as [j Hj].
  assert (i = j) as ->; [|congruence].
  apply (NoDup_lookup _ i j ip Hnd); rewrite list_lookup_fmap; [rewrite Hi|rewrite Hj]; simpl; congruence.
Qed.

Lemma for_ip_None ip rs r : for_ip ip rs = None -> r ∈ rs -> q_ip r <> ip.
Proof. intros E Hr%list_elem_of_In. by apply Z.eqb_neq, (List.find_none _ _ E). Qed.

Lemma enqueue_ips ip p rs : NoDup (q_ip <$> rs) -> NoDup (q_ip <$> enqueue ip p rs).
Proof.
  intros Hnd. unfold enqueue. destruct (for_ip ip rs) eqn:E.
  - eapply sublist_NoDup; [exact Hnd|]. apply revise_ips. intros x y _ _ [= <-]. apply grown_add.
  - rewrite fmap_cons. apply NoDup_cons. split; [|done]. intros (r & Er & Hr)%list_elem_of_fmap.
    by apply (for_ip_None _ _ _ E Hr).
Qed.

Lemma enqueue_waits ip p rs i p' : waits i p' rs -> waits i p' (enqueue ip p rs).
Proof.
  intros Hw. unfold enqueue. destruct (for_ip ip rs).
  - destruct (revise_waits ip (fun r => Some (add_pkt p r)) rs) with (i := i) (p := p')
      as [H|(r & _ & _ & _ & _ & H)]; [|done|done|done].
    intros x y _ _ [= <-]. apply grown_add.
  - destruct Hw as (r & Hr & H). exists r. split; [by right|done].
Qed.

(** *** Lemmas: one step *)

(** A step that keeps one request for an address, and of whose waiting packets
    each goes on waiting or meets its fate. *)
Record accounted (a : arouter) (ev : event) (r : arouter * list (list Z)) : Prop := {
  ac_ips : NoDup (q_ip <$> r_queue r.1);
  ac_fate ip p : waits ip p (r_queue a) -> is_Some (if_of (r_ifs a) (pk_iface p)) ->
    waits ip p (r_queue r.1) \/ fate (r_ifs a) ip p r.2 ev }.

Lemma unreachable_told ifs pkts p :
  p ∈ pkts -> is_Some (if_of ifs (pk_iface p)) ->
  exists j, if_of ifs (pk_iface p) = Some j
    /\ vns_message (nm16 (pk_iface p)) (icmp_t3_frame j (pk_buf p) 3 1) ∈ unreachable_msgs ifs pkts.
Proof.
  intros Hp [j Hj]. exists j. split; [done|]. apply list_elem_of_join.
  eexists. split; [|apply list_elem_of_fmap; by exists p]. unfold msg_out. rewrite Hj. by left.
Qed.

Section Step.
Context (a : arouter) (ev : event) (Hnd : NoDup (q_ip <$> r_queue a)).

Lemma accounted_same r : r_queue r.1 = r_queue a -> accounted a ev r.
Proof using Hnd. intros E. constructor; rewrite E; [done|]. by left. Qed.

Lemma forward_accounted now e h payload rt : accounted a ev (a_forward now a e h payload rt).
Proof using Hnd.
  unfold a_forward. destruct (lookup_loop _ _ _); [by apply accounted_same|]. cbv zeta.
  set (p0 := SrPacket _ _ _). set (rs := enqueue _ p0 _).
  pose proof (enqueue_ips (rt_gw rt) p0 _ Hnd) as Hnd1. fold rs in Hnd1.
  destruct (for_ip (rt_gw rt) rs) as [r0|] eqn:E0.
  2:{ constructor; cbn [fst snd r_queue set_queue]; [done|]. intros ip p Hp _. left. by apply enqueue_waits. }
  assert (Hf : forall r r', r ∈ rs -> q_ip r = rt_gw rt -> (serve (r_ifs a) now r0).1 = Some r' -> grown r r').
  { intros r r' Hr Ei Hs. rewrite (for_ip_unique _ _ _ _ Hnd1 E0 Hr Ei). by eapply serve_grown. }
  constructor; cbn [fst snd r_queue set_queue].
  - eapply sublist_NoDup; [exact Hnd1|]. by apply revise_ips.
  - intros ip p Hp Hif. apply (enqueue_waits (rt_gw rt) p0) in Hp. fold rs in Hp.
    destruct (revise_waits (rt_gw rt) _ rs Hf ip p Hp) as [H|(r & Hr & Ei & -> & Hpr & Hs)]; [by left|right].
    rewrite (for_ip_unique _ _ _ _ Hnd1 E0 Hr Ei) in Hpr. rewrite (serve_given_up _ _ _ Hs).
    destruct (unreachable_told _ _ _ Hpr Hif) as (j & Hj & Hm). by eapply fate_unreachable.
Qed.

Lemma ip_accounted now nm i e h payload : accounted a ev (a_ip now a nm i e h payload).
Proof using Hnd.
  unfold a_ip, a_transit. repeat (case_match; try by apply accounted_same). apply forward_accounted.
Qed.
End Step.

(** An answer: the packets that waited for it. *)
Lemma arp_accounted now a nm i e h pad frame iface :
  NoDup (q_ip <$> r_queue a) -> if_of (r_ifs a) iface = Some i -> decode_arp frame Eth.size = Ok h ->
  accounted a (Arrival frame iface) (a_arp now a nm i e h pad).
Proof.
  intros Hnd Hi Hh. unfold a_arp. destruct (_ =? arp_op_request); [by apply accounted_same|].
  destruct (Z.eqb_spec (a_op h) arp_op_reply) as [Ho|]; [|by apply accounted_same]. cbv zeta.
  destruct (for_ip (a_sip h) (r_queue a)) as [r0|] eqn:E0; [|by apply accounted_same].
  constructor; cbn [fst snd r_queue set_queue].
  - eapply sublist_NoDup; [exact Hnd|]. by apply revise_ips.
  - intros ip p Hp [j Hj].
    destruct (revise_waits (a_sip h) (fun _ => None) (r_queue a) ltac:(done) ip p Hp)
      as [H|(r & Hr & Ei & -> & Hpr & _)]; [by left|right].
    rewrite (for_ip_unique _ _ _ _ Hnd E0 Hr Ei) in Hpr. eapply fate_answered; try done.
    intros E. apply list_elem_of_join. eexists. split; [|apply list_elem_of_fmap; by exists p].
    unfold waiting_msgs. rewrite Hj, bool_decide_eq_true_2 by done. rewrite E. by left.
Qed.

Lemma arrive_accounted now a frame iface :
  NoDup (q_ip <$> r_queue a) -> accounted a (Arrival frame iface) (arrive now a frame iface).
Proof.
  intros Hnd. unfold arrive. destruct (if_of _ _) as [i|] eqn:Hi; [|by apply accounted_same].
  destruct (decode_eth frame) as [e|]; [|by apply accounted_same].
  destruct (_ =? ethertype_ip).
  { destruct (decode_ip _ _) as [h|]; [by apply ip_accounted|by apply accounted_same]. }
  destruct (_ =? ethertype_arp); [|by apply accounted_same].
  destruct (decode_arp _ _) as [h|] eqn:Eh; [by apply arp_accounted|by apply accounted_same].
Qed.

(** A sweep. *)
Lemma sweep_ips ifs nows rs : sublist (q_ip <$> omap fst (zip_with (serve ifs) nows rs)) (q_ip <$> rs).
Proof.
  revert nows. induction rs as [|r rs IH]; intros [|now nows]; try apply sublist_nil_l.
  cbn [zip_with omap list_omap]. rewrite fmap_cons. destruct (serve ifs now r).1 as [r'|] eqn:E; [|by constructor].
  rewrite fmap_cons, (gr_ip _ _ (serve_grown _ _ _ _ E)). by constructor.
Qed.

Lemma sweep_waits ifs nows rs ip p :
  length nows = length rs -> waits ip p rs ->
  waits ip p (omap fst (zip_with (serve ifs) nows rs))
  \/ exists r, p ∈ q_pkts r /\ unreachable_msgs ifs (q_pkts r) ∈ snd <$> zip_with (serve ifs) nows rs.
Proof.
  intros HL (r & Hr & Hi & Hp). apply list_elem_of_lookup in Hr as [k Hk].
  destruct (lookup_lt_is_Some_2 nows k) as [now Hn]; [apply lookup_lt_Some in Hk; lia|].
  assert (Hz : zip_with (serve ifs) nows rs !! k = Some (serve ifs now r)) by (rewrite lookup_zip_with, Hn; simpl; by rewrite Hk).
  apply list_elem_of_lookup_2 in Hz. destruct (serve ifs now r).1 as [r'|] eqn:E.
  - left. destruct (serve_grown _ _ _ _ E) as [Ei Ep]. exists r'. split_and!; [|congruence|by apply Ep].
    apply list_elem_of_omap. by eexists.
  - right. exists r. split; [done|]. apply list_elem_of_fmap. exists (serve ifs now r).
    by rewrite (serve_given_up _ _ _ E).
Qed.

Lemma sweep_accounted now nows a :
  NoDup (q_ip <$> r_queue a) -> length nows = length (r_queue a) -> accounted a Turn (sweep now nows a).
Proof.
  intros Hnd HL. constructor; cbn [fst snd sweep r_queue].
  - eapply sublist_NoDup; [exact Hnd|apply sweep_ips].
  - intros ip p Hp Hif. destruct (sweep_waits (r_ifs a) nows _ ip p HL Hp) as [H|(r & Hpr & Hm)]; [by left|right].
    destruct (unreachable_told _ _ _ Hpr Hif) as (j & Hj & Hj'). eapply fate_unreachable; [done|].
    apply list_elem_of_join. by eexists.
Qed.

(** *** Runs *)
Section RunFate.
Context {os : OS}.

Lemma step_accounted a ev ms a' :
  NoDup (q_ip <$> r_queue a) -> abs_step a ev ms a' -> accounted a ev (a', ms).
Proof.
  intros Hnd [k frame iface|k nows HL _].
  - rewrite <- surjective_pairing. by apply arrive_accounted.
  - by apply sweep_accounted.
Qed.

Lemma run_fate a evs ms a' :
  abs_run a evs ms a' -> NoDup (q_ip <$> r_queue a) -> forall ip p,
  waits ip p (r_queue a) -> is_Some (if_of (r_ifs a) (pk_iface p)) ->
  waits ip p (r_queue a') \/ exists ev, ev ∈ evs /\ fate (r_ifs a) ip p ms ev.
Proof.
  induction 1 as [a|a1 a2 a3 ev evs ms1 ms2 Hs Hr IH]; intros Hnd ip p Hp Hif; [by left|].
  destruct (step_accounted _ _ _ _ Hnd Hs) as [Hnd2 Hf]. cbn [fst snd] in *.
  destruct (Hf ip p Hp Hif) as [Hp2|Hfate].
  - rewrite <- (step_ifs _ _ _ _ Hs) in Hif |- *. destruct (IH Hnd2 ip p Hp2 Hif) as [H|(ev' & Hev & H)]; [by left|right].
    exists ev'. split; [by right|]. rewrite <- (app_nil_r ms2). by apply fate_more.
  - right. exists ev. split; [by left|]. by apply (fate_more _ _ _ ms1 []).
Qed.
End RunFate.
