(* ===== verification/Wire.v ===== *)
(** * Wire: what the router puts on the wire

    Every handler sends through [sr_send_packet], so every message is a
    well-formed VNSPACKET that carries the address of its interface
    ([wire_ok]); and what is written to the dump file are whole records
    ([record_ok]).  The handlers are run through a relation between the states
    before and after them: [quiet] for code that leaves the tables and the cache
    alone, [orderly] for the rest. *)

From S2P Require Import Prelude Memory Protocol Utils Iface Rt ArpCache Dump World ArpHandler Router.

(** A message that the router may send: the name is one of its interfaces and
    the frame has at least a header and that interface's source address. *)
Definition wire_ok (ifs : list sr_if) (msg : list Z) : Prop :=
  exists iface nm i frame, msg = vns_message nm frame
    /\ strncpy 16 iface = Ok nm /\ sr_get_interface ifs iface = Ok (Some i)
    /\ src_of frame = take 6 (if_addr i) /\ (14 <= length frame)%nat.

(** The output grew by such messages, and the dump file by records that can be
    read back, all of whose packet is there. *)
Record wired (w w' : world) : Prop := {
  wd_sent : exists ms, sent (out w') = sent (out w) ++ ms /\ Forall (wire_ok (if_list w)) ms;
  wd_log : exists rs, logged (out w') = logged (out w) ++ mjoin (encode_record <$> rs)
    /\ Forall (fun r => record_ok r /\ ph_len r.1 = ph_caplen r.1) rs }.

Definition quiet (w w' : world) : Prop := world_same w w' /\ wired w w'.
Definition orderly (w w' : world) : Prop :=
  if_list w' = if_list w /\ routing_table w' = routing_table w /\ wired w w'.

(** When the action returns, the states before and after it are related. *)
Definition obeys {A} (R : relation world) (m : M A) : Prop :=
  forall w a w', m w = Ok (a, w') -> R w w'.

(** ** The relations *)
Lemma wired_out w w' : sent (out w') = sent (out w) -> logged (out w') = logged (out w) -> wired w w'.
Proof. intros E1 E2. split; exists []; by rewrite ?E1, ?E2, app_nil_r. Qed.

Lemma wired_refl w : wired w w.
Proof. by apply wired_out. Qed.

Lemma wired_trans w1 w2 w3 : if_list w2 = if_list w1 -> wired w1 w2 -> wired w2 w3 -> wired w1 w3.
Proof.
  intros Ei [(ms & E1 & H1) (rs & L1 & R1)] [(ms' & E2 & H2) (rs' & L2 & R2)]. split.
  - exists (ms ++ ms'). rewrite E2, E1, app_assoc. split; [done|]. apply Forall_app. by rewrite Ei in H2.
  - exists (rs ++ rs'). rewrite L2, L1, fmap_app, join_app, app_assoc. split; [done|]. by apply Forall_app.
Qed.

#[export] Instance quiet_preorder : PreOrder quiet.
Proof.
  split; [intros w; split; [reflexivity|apply wired_refl]|].
  intros w1 w2 w3 [S1 W1] [S2 W2]. split; [by etransitivity|].
  eapply wired_trans; [apply (ws_ifs _ _ S1)|done|done].
Qed.

#[export] Instance orderly_preorder : PreOrder orderly.
Proof.
  split; [intros w; split_and!; [done|done|apply wired_refl]|].
  intros w1 w2 w3 (I1 & R1 & W1) (I2 & R2 & W2). split_and!; [congruence|congruence|].
  by eapply wired_trans.
Qed.

Lemma quiet_orderly w w' : quiet w w' -> orderly w w'.
Proof. intros [[] ?]. done. Qed.

(** ** Actions *)
Section Obeys.
Context (R : relation world) `{!PreOrder R}.

Lemma obeys_ret {A} (a : A) : obeys R (sret a).
Proof. by intros w ? w' [= _ <-]. Qed.
Lemma obeys_get : obeys R sget.
Proof. by intros w ? w' [= _ <-]. Qed.
Lemma obeys_fault {A} f : obeys R (sfault f : M A).
Proof. by intros w a w'. Qed.
Lemma obeys_lift {A} (m : res A) : obeys R (slift m).
Proof. intros w a w'. unfold slift. destruct m; [|done]. by intros [= _ <-]. Qed.
Lemma obeys_bind {A B} (m : M A) (k : A -> M B) :
  obeys R m -> (forall a, obeys R (k a)) -> obeys R (sbind m k).
Proof.
  intros Hm Hk w b w2 (a & w1 & E1 & E2)%sbind_Ok_inv. etransitivity; [by eapply Hm|by eapply Hk].
Qed.
Lemma obeys_iter {A} (f : A -> M unit) l : (forall a, obeys R (f a)) -> obeys R (siter f l).
Proof.
  intros Hf. induction l as [|x l IH]; [apply obeys_ret|]. by apply obeys_bind.
Qed.
Lemma obeys_if {A} (b : bool) (m1 m2 : M A) : obeys R m1 -> obeys R m2 -> obeys R (if b then m1 else m2).
Proof. by destruct b. Qed.
End Obeys.

Lemma obeys_orderly {A} (m : M A) : obeys quiet m -> obeys orderly m.
Proof. intros H w a w' E. by eapply quiet_orderly, H. Qed.

(** [obey]: go through an action; what is left are the calls with lemmas of
    their own. *)
Ltac obey :=
  cbv zeta;
  lazymatch goal with
  | |- obeys _ (sret _) => apply obeys_ret; tc_solve
  | |- obeys _ sget => apply obeys_get; tc_solve
  | |- obeys _ (sfault _) => apply obeys_fault
  | |- obeys _ (slift _) => apply obeys_lift; tc_solve
  | |- obeys _ (sbind _ _) => apply obeys_bind; [tc_solve|obey|intros ?; obey]
  | |- obeys _ (siter _ _) => apply obeys_iter; [tc_solve|intros ?; obey]
  | |- obeys _ (if ?b then _ else _) => apply obeys_if; obey
  | |- obeys _ (match ?x with _ => _ end) => destruct x; obey
  | |- _ => auto with router
  end.

Section OS.
Context {os : OS}.

Lemma tick_quiet : obeys quiet tick.
Proof. intros w a w' [= <- <-]. split; [by constructor|by apply wired_out]. Qed.
#[local] Hint Resolve tick_quiet : router.

Lemma time_quiet : obeys quiet time.
Proof. unfold time. obey. Qed.

Lemma byte_at_u32 z i : 0 <= i < 4 -> byte_at (u32 z) i = byte_at z i.
Proof.
  intros Hi. unfold byte_at, u32. assert (E : 4294967296 = 256 ^ i * (256 * 256 ^ (3 - i))).
  { rewrite <- (Z.pow_succ_r 256 (3 - i)), <- Z.pow_add_r by lia.
    by replace (i + Z.succ (3 - i)) with 4 by lia. }
  pose proof (Z.pow_pos_nonneg 256 i ltac:(lia) ltac:(lia)).
  pose proof (Z.pow_pos_nonneg 256 (3 - i) ltac:(lia) ltac:(lia)).
  rewrite E, Z.rem_mul_r, (Z.mul_comm (256 ^ i)), Z.div_add by lia.
  rewrite (Z.div_small (z mod 256 ^ i)) by (by apply Z.mod_pos_bound).
  by rewrite Z.add_0_l, Z.rem_mul_r, (Z.mul_comm 256), Z.mod_add, Z.mod_mod by lia.
Qed.
Lemma be_bytes4_u32 z : be_bytes4 (u32 z) = be_bytes4 z.
Proof. unfold be_bytes4. by rewrite !byte_at_u32 by lia. Qed.
Lemma le_bytes4_u32 z : le_bytes4 (u32 z) = le_bytes4 z.
Proof. unfold le_bytes4. by rewrite !byte_at_u32 by lia. Qed.

(** *** The dump file *)
Lemma u32_range z : u32_ok (u32 z).
Proof. by apply Z.mod_pos_bound. Qed.

(** A record is written whole, with the members cut to their size. *)
Lemma fwrite_inv bs w a w' :
  fwrite bs w = Ok (a, w') -> world_same w w' /\ sent (out w') = sent (out w)
    /\ logged (out w') = logged (out w) ++ (if decide (logfile w = Dumping) then bs else []).
Proof.
  unfold fwrite. rewrite sget_step. destruct (logfile w) eqn:E; try done; intros [= _ <-];
    (cbn [out]; split_and!; [by constructor|by rewrite sent_app; cbn; rewrite app_nil_r|]);
    rewrite logged_app; f_equal; apply app_nil_r.
Qed.

Lemma sr_dump_quiet tv size buf : obeys quiet (sr_dump (PcapPkthdr tv size size) buf).
Proof.
  intros w a w' H. unfold sr_dump in H. cbn [ph_caplen] in H.
  apply sbind_Ok_inv in H as (u & w1 & (S1 & O1 & L1)%fwrite_inv & H).
  apply sbind_Ok_inv in H as (data & w2 & E & H). unfold slift in E.
  destruct (load _ _ _) as [d|] eqn:El; [|done]. injection E as -> <-.
  apply fwrite_inv in H as (S2 & O2 & L2).
  split; [by etransitivity|]. split; [exists []; by rewrite O2, O1, app_nil_r|].
  rewrite (ws_log _ _ S1) in L2. case_decide; [|exists []; by rewrite L2, L1, !app_nil_r].
  set (r := (PcapPkthdr (u32 tv.1, u32 tv.2) (u32 size) (u32 size), data)).
  exists [r]. rewrite L2, L1, <- app_assoc. split.
  - f_equal. change (mjoin (encode_record <$> [r])) with (encode_record r ++ []). rewrite app_nil_r.
    unfold encode_record, encode_sf_pkthdr, r. cbn [fst snd ph_ts ph_caplen ph_len].
    by rewrite !le_bytes4_u32.
  - apply Forall_singleton. split; [|done]. constructor; cbn; try apply u32_range.
    unfold load in El. case_match eqn:Hb; [|done]. injection El as <-. apply Nat.leb_le in Hb.
    pose proof (u32_range size) as Hr. rewrite drop_0, length_take. unfold u32_ok in Hr. lia.
Qed.

Lemma sr_log_packet_quiet buf len : obeys quiet (sr_log_packet buf len).
Proof.
  unfold sr_log_packet, gettimeofday. apply obeys_bind; [tc_solve|apply obeys_get; tc_solve|intros w].
  destruct (logfile w); [apply obeys_ret; tc_solve| | |];
    (apply obeys_bind; [tc_solve|obey|intros tv]; rewrite log_header_eq; apply sr_dump_quiet).
Qed.

(** *** Sending *)
(** What the message was, when it could be built. *)
Lemma packet_message_inv junk buf len iface msg :
  0 <= len -> packet_message junk buf len (u32 (len + 24)) iface = Ok msg ->
  exists nm, strncpy 16 iface = Ok nm /\ (Z.to_nat len <= length buf)%nat
    /\ msg = vns_message nm (take (Z.to_nat len) buf).
Proof.
  intros H0 E.
  assert (Eu : packet_message junk buf len (u32 (len + 24)) iface = packet_message junk buf len (len + 24) iface).
  { unfold packet_message, store32. by rewrite !le_bytes4_htonl, be_bytes4_u32. }
  rewrite Eu in E. clear Eu. pose proof E as E'. unfold packet_message in E. inv_ok.
  destruct (strncpy 16 iface) as [nm|] eqn:En; [|done].
  assert (Hl : (Z.to_nat len <= length buf)%nat).
  { match goal with H : load buf 0 _ = Ok _ |- _ => unfold load in H; case_match eqn:Hc; [|done] end.
    apply Nat.leb_le in Hc. lia. }
  exists nm. split_and!; [done|done|].
  rewrite (packet_message_spec junk buf len iface nm En H0 Hl) in E'. by injection E'.
Qed.

(** The address check of [sr_send_packet]. *)
Lemma match_interface_inv buf iface w ok w' :
  sr_ether_addrs_match_interface buf iface w = Ok (ok, w') ->
  w' = w /\ (ok = true -> exists i, sr_get_interface (if_list w) iface = Ok (Some i)
    /\ take 6 (drop 6 buf) = take 6 (if_addr i) /\ (12 <= length buf)%nat).
Proof.
  unfold sr_ether_addrs_match_interface. intros (w1 & w2 & E1 & H)%sbind_Ok_inv.
  injection E1 as <- <-. apply sbind_Ok_inv in H as (o & w2 & E2 & H).
  unfold slift in E2. destruct (sr_get_interface (if_list w) iface) as [o'|] eqn:Eg; [|done].
  injection E2 as -> <-. destruct o as [i|]; [|by injection H as <- <-].
  unfold slift, load in H. unfold sbind in H.
  destruct (Eth.ether_shost + ETHER_ADDR_LEN <=? length buf)%nat eqn:Hb; [|done].
  destruct (0 + ETHER_ADDR_LEN <=? length (if_addr i))%nat; [|done].
  injection H as <- <-. split; [done|]. intros Hd%bool_decide_eq_true. exists i.
  apply Nat.leb_le in Hb. done.
Qed.

Lemma sr_send_packet_quiet buf len iface : obeys quiet (sr_send_packet buf len iface).
Proof.
  intros w r w' H. unfold sr_send_packet in H. cbv zeta in H.
  change (Z.of_nat PktHdr.size) with 24 in H. change (Z.of_nat Eth.size) with 14 in H.
  apply sbind_Ok_inv in H as (x & w1 & E1 & H). unfold slift in E1.
  destruct (print_hdrs buf len); [|done]. injection E1 as _ <-.
  destruct (Z.ltb_spec len 14); [by injection H as _ <-|].
  apply sbind_Ok_inv in H as (w0 & w1 & [= <- <-] & H).
  apply sbind_Ok_inv in H as (msg & w1 & E1 & H). unfold slift in E1.
  destruct (packet_message _ _ _ _ _) as [msg'|] eqn:Em; [|done]. injection E1 as -> <-.
  apply packet_message_inv in Em as (nm & Hn & Hl & ->); [|lia].
  apply sbind_Ok_inv in H as (u & w1 & E1 & H). pose proof (sr_log_packet_quiet _ _ _ _ _ E1) as Q1.
  apply sbind_Ok_inv in H as (ok & w2 & E2 & H). apply match_interface_inv in E2 as [-> Hok].
  destruct ok; cbn [negb] in H; [|by injection H as _ <-].
  destruct (Hok eq_refl) as (i & Hg & Hs & _).
  apply sbind_Ok_inv in H as (ret & w2 & [= <- <-] & H).
  etransitivity; [exact Q1|]. match type of H with (if ?b then _ else _) ?st = _ =>
    assert (w' = st) as -> by (destruct b; by injection H as _ <-) end.
  split; [by constructor|]. split; [|exists []; cbn [out]; by rewrite logged_app].
  exists [vns_message nm (take (Z.to_nat len) buf)]. cbn [out if_list]. rewrite sent_app. split; [done|]. apply Forall_singleton.
  exists iface, nm, i, (take (Z.to_nat len) buf).
  split_and!; [done|done|done| |rewrite length_take; lia].
  unfold src_of. rewrite skipn_firstn_comm, take_take. rewrite <- Hs. f_equal. lia.
Qed.

(** *** The handlers *)
Hint Resolve time_quiet sr_send_packet_quiet : router.

Lemma sr_send_icmp_t3_quiet packet len iface type code :
  obeys quiet (sr_send_icmp_t3 packet len iface type code).
Proof. unfold sr_send_icmp_t3, icmp_t3. obey. Qed.

Lemma send_waiting_quiet packet iface pkt : obeys quiet (send_waiting packet iface pkt).
Proof. unfold send_waiting, waiting_copy. obey. Qed.

Lemma send_known_quiet packet len rt entry : obeys quiet (send_known packet len rt entry).
Proof. unfold send_known, known_frame. obey. Qed.

Lemma send_icmp_response_quiet packet len interface type code o :
  obeys quiet (send_icmp_response packet len interface type code o).
Proof. unfold send_icmp_response, icmp_response. obey. Qed.
Hint Resolve send_icmp_response_quiet : router.

Lemma ip_verdict_quiet packet len interface : obeys quiet (ip_verdict packet len interface).
Proof. unfold ip_verdict, handle_local, handle_transit. obey. Qed.

Lemma arp_decide_quiet packet len interface : obeys quiet (arp_decide packet len interface).
Proof. unfold arp_decide. obey. Qed.

Lemma send_arp_reply_quiet arp_hdr interface : obeys quiet (send_arp_reply arp_hdr interface).
Proof. unfold send_arp_reply. obey. Qed.

(** Code that changes the cache. *)
Lemma on_cache_orderly {A} (m : ST sr_arpcache A) : obeys orderly (on_cache m).
Proof.
  intros w a w'. unfold on_cache. destruct (m (cache w)) as [[]|]; [|done].
  intros [= _ <-]. split_and!; [done|done|by apply wired_out].
Qed.
Hint Resolve on_cache_orderly obeys_orderly sr_send_icmp_t3_quiet send_waiting_quiet send_known_quiet
  ip_verdict_quiet arp_decide_quiet : router.

Lemma arpcache_insert_orderly mac ip : obeys orderly (arpcache_insert mac ip).
Proof. unfold arpcache_insert. obey. Qed.

Lemma handle_arpreq_orderly req : obeys orderly (handle_arpreq req).
Proof. unfold handle_arpreq. obey. Qed.
Hint Resolve arpcache_insert_orderly handle_arpreq_orderly : router.

Lemma sr_handlepacket_orderly packet len interface : obeys orderly (sr_handlepacket packet len interface).
Proof.
  unfold sr_handlepacket, handle_ip_packet, handle_arp_packet, handle_arp_answer, forward. obey.
Qed.

Lemma sweep_loop_orderly fuel req : obeys orderly (sweep_loop fuel req).
Proof.
  revert req. induction fuel as [|fuel IH]; intros req; cbn [sweep_loop]; obey.
Qed.
Hint Resolve sweep_loop_orderly : router.

Lemma timeout_turn_orderly : obeys orderly sr_arpcache_timeout_turn.
Proof. unfold sr_arpcache_timeout_turn, sr_arpcache_sweepreqs. obey. Qed.
End OS.

#[export] Hint Resolve time_quiet sr_send_packet_quiet sr_send_icmp_t3_quiet send_waiting_quiet
  send_known_quiet ip_verdict_quiet arp_decide_quiet on_cache_orderly obeys_orderly
  arpcache_insert_orderly : router.
