(* ===== verification/Sha1.v ===== *)
(** * Sha1: the hash of sha1.c

    The context and the five functions of sha1.c, with the four loops of
    [SHA1ProcessMessageBlock] and the index arithmetic of [SHA1PadMessage] as
    the code has them; the message block is a buffer, so an index outside it
    would be a fault.  The specification is FIPS 180-4: padding to whole
    blocks, the schedule and the eighty rounds with one function [ft] and
    rotation by arithmetic.  [sha1_run] is what [sr_handle_auth_request] does:
    reset, any number of inputs, result. *)

From S2P Require Import Prelude Memory.

(** ** The context *)
Record SHA1Context := SHA1Ctx {
  Message_Digest : list Z;
  Length_Low : Z;
  Length_High : Z;
  Message_Block : list Z;
  Message_Block_Index : nat;
  Computed : bool;
  Corrupted : bool }.

Definition set_digest (c : SHA1Context) (d : list Z) : SHA1Context :=
  SHA1Ctx d (Length_Low c) (Length_High c) (Message_Block c) (Message_Block_Index c)
    (Computed c) (Corrupted c).
Definition set_index (c : SHA1Context) (i : nat) : SHA1Context :=
  SHA1Ctx (Message_Digest c) (Length_Low c) (Length_High c) (Message_Block c) i
    (Computed c) (Corrupted c).
Definition set_corrupted (c : SHA1Context) : SHA1Context :=
  SHA1Ctx (Message_Digest c) (Length_Low c) (Length_High c) (Message_Block c)
    (Message_Block_Index c) (Computed c) true.

(** ** Operations *)
Definition mask32 (x : Z) : Z := Z.land x 4294967295.

Definition SHA1CircularShift (bits word : Z) : Z :=
  Z.lor (mask32 (Z.shiftl word bits)) (Z.shiftr word (32 - bits)).

Definition digest_iv : list Z := [1732584193; 4023233417; 2562383102; 271733878; 3285377520].

(** The block is whatever the stack held. *)
Definition SHA1Reset (c : SHA1Context) : SHA1Context :=
  SHA1Ctx digest_iv 0 0 (Message_Block c) 0 false false.

(** *** SHA1ProcessMessageBlock *)
Definition K : list Z := [1518500249; 1859775393; 2400959708; 3395469782].

(** First loop: the words of the block, most significant byte first. *)
Fixpoint block_words (b : list Z) : list Z :=
  match b with
  | b0 :: b1 :: b2 :: b3 :: b' =>
      Z.lor (Z.lor (Z.lor (Z.shiftl b0 24) (Z.shiftl b1 16)) (Z.shiftl b2 8)) b3 :: block_words b'
  | _ => []
  end.

(** Second loop: [n] more words of [W]. *)
Fixpoint schedule (n : nat) (W : list Z) : list Z :=
  match n with
  | O => W
  | S n' =>
      let t := length W in
      let w i := nth (t - i) W 0 in
      schedule n' (W ++ [SHA1CircularShift 1
                           (Z.lxor (Z.lxor (Z.lxor (w 3%nat) (w 8%nat)) (w 14%nat)) (w 16%nat))])
  end.

Definition word_not (x : Z) : Z := u32 (Z.lnot x).

Definition f_if (B C D : Z) : Z := Z.lor (Z.land B C) (Z.land (word_not B) D).
Definition f_xor (B C D : Z) : Z := Z.lxor (Z.lxor B C) D.
Definition f_maj (B C D : Z) : Z := Z.lor (Z.lor (Z.land B C) (Z.land B D)) (Z.land C D).

(** The body the four loops share but for the function and the constant; the
    state is A, B, C, D, E. *)
Definition sha_round (f : Z -> Z -> Z -> Z) (k : Z) (st : list Z) (w : Z) : list Z :=
  match st with
  | [A; B; C; D; E] =>
      let temp := mask32 (SHA1CircularShift 5 A + f B C D + E + w + k) in
      [temp; A; SHA1CircularShift 30 B; C; D]
  | _ => st
  end.
Definition sha_loop (f : Z -> Z -> Z -> Z) (k : Z) (W : list Z) (lo n : nat) (st : list Z) : list Z :=
  fold_left (sha_round f k) (take n (drop lo W)) st.

Definition process_block (digest block : list Z) : list Z :=
  let W := schedule 64 (block_words block) in
  let st := sha_loop f_if (nth 0 K 0) W 0 20 digest in
  let st := sha_loop f_xor (nth 1 K 0) W 20 20 st in
  let st := sha_loop f_maj (nth 2 K 0) W 40 20 st in
  let st := sha_loop f_xor (nth 3 K 0) W 60 20 st in
  zip_with (fun d x => mask32 (d + x)) digest st.

Definition SHA1ProcessMessageBlock (c : SHA1Context) : SHA1Context :=
  set_index (set_digest c (process_block (Message_Digest c) (Message_Block c))) 0.

(** *** SHA1Input *)

(** [Message_Block[Message_Block_Index++] = b] *)
Definition put_byte (c : SHA1Context) (b : Z) : res SHA1Context :=
  let! blk := store (Message_Block c) (Message_Block_Index c) [b] in
  Ok (SHA1Ctx (Message_Digest c) (Length_Low c) (Length_High c) blk (S (Message_Block_Index c))
        (Computed c) (Corrupted c)).

(** The 64-bit length counter. *)
Definition count_byte (c : SHA1Context) : SHA1Context :=
  let low := mask32 (Length_Low c + 8) in
  if low =? 0 then
    let high := mask32 (Length_High c + 1) in
    SHA1Ctx (Message_Digest c) low high (Message_Block c) (Message_Block_Index c) (Computed c)
      (if high =? 0 then true else Corrupted c)
  else
    SHA1Ctx (Message_Digest c) low (Length_High c) (Message_Block c) (Message_Block_Index c)
      (Computed c) (Corrupted c).

(** The [while (length-- && !context->Corrupted)] loop. *)
Fixpoint input_loop (c : SHA1Context) (message_array : list Z) (length : nat) : res SHA1Context :=
  match length with
  | O => Ok c
  | S length' =>
      if Corrupted c then Ok c
      else
        match message_array with
        | [] => Fault OutOfBounds
        | m :: message_array' =>
            let! c := put_byte c (Z.land m 255) in
            let c := count_byte c in
            let c := if (Message_Block_Index c =? 64)%nat then SHA1ProcessMessageBlock c else c in
            input_loop c message_array' length'
        end
  end.

Definition SHA1Input (c : SHA1Context) (message_array : list Z) (length : nat) : res SHA1Context :=
  if (length =? 0)%nat then Ok c
  else if Computed c || Corrupted c then Ok (set_corrupted c)
  else input_loop c message_array length.

(** *** SHA1PadMessage *)

(** [while (Message_Block_Index < limit) Message_Block[Message_Block_Index++] = 0;]
    with at most [fuel] turns; [fuel = limit] is enough. *)
Fixpoint pad_loop (fuel : nat) (c : SHA1Context) (limit : nat) : res SHA1Context :=
  match fuel with
  | O => Ok c
  | S fuel' =>
      if (Message_Block_Index c <? limit)%nat
      then let! c := put_byte c 0 in pad_loop fuel' c limit
      else Ok c
  end.

Definition length_octets (c : SHA1Context) : list Z :=
  let byte x n := Z.land (Z.shiftr x n) 255 in
  [byte (Length_High c) 24; byte (Length_High c) 16; byte (Length_High c) 8; byte (Length_High c) 0;
   byte (Length_Low c) 24; byte (Length_Low c) 16; byte (Length_Low c) 8; byte (Length_Low c) 0].

Definition SHA1PadMessage (c : SHA1Context) : res SHA1Context :=
  let! c :=
    (if (55 <? Message_Block_Index c)%nat then
       let! c := put_byte c 128 in
       let! c := pad_loop 64 c 64 in
       let c := SHA1ProcessMessageBlock c in
       pad_loop 56 c 56
     else
       let! c := put_byte c 128 in
       pad_loop 56 c 56) in
  let! blk := store (Message_Block c) 56 (length_octets c) in
  Ok (SHA1ProcessMessageBlock
        (SHA1Ctx (Message_Digest c) (Length_Low c) (Length_High c) blk (Message_Block_Index c)
           (Computed c) (Corrupted c))).

Definition SHA1Result (c : SHA1Context) : res (bool * SHA1Context) :=
  if Corrupted c then Ok (false, c)
  else if negb (Computed c) then
    let! c := SHA1PadMessage c in
    Ok (true, SHA1Ctx (Message_Digest c) (Length_Low c) (Length_High c) (Message_Block c)
                (Message_Block_Index c) true (Corrupted c))
  else Ok (true, c).

(** Reset, one input per chunk, result. *)
Fixpoint sha1_inputs (c : SHA1Context) (chunks : list (list Z)) : res SHA1Context :=
  match chunks with
  | [] => Ok c
  | m :: chunks' => let! c := SHA1Input c m (length m) in sha1_inputs c chunks'
  end.
Definition sha1_run (c : SHA1Context) (chunks : list (list Z)) : res (bool * SHA1Context) :=
  let! c := sha1_inputs (SHA1Reset c) chunks in SHA1Result c.

(** ** Specification: FIPS 180-4 *)
Module Fips.
Definition rotl (n x : Z) : Z := (x * 2 ^ n) mod 2 ^ 32 + x / 2 ^ (32 - n).
Definition Ch (x y z : Z) : Z := Z.lxor (Z.land x y) (Z.land (word_not x) z).
Definition Parity (x y z : Z) : Z := Z.lxor x (Z.lxor y z).
Definition Maj (x y z : Z) : Z := Z.lxor (Z.land x y) (Z.lxor (Z.land x z) (Z.land y z)).
Definition ft (t : nat) : Z -> Z -> Z -> Z :=
  if (t <? 20)%nat then Ch else if (t <? 40)%nat then Parity else if (t <? 60)%nat then Maj else Parity.
Definition Kt (t : nat) : Z :=
  if (t <? 20)%nat then 1518500249 else if (t <? 40)%nat then 1859775393
  else if (t <? 60)%nat then 2400959708 else 3395469782.

(** The words of a block, and the schedule by its recurrence. *)
Fixpoint words (b : list Z) : list Z :=
  match b with
  | b0 :: b1 :: b2 :: b3 :: b' => (((b0 * 256 + b1) * 256 + b2) * 256 + b3) :: words b'
  | _ => []
  end.
Fixpoint expand (n : nat) (W : list Z) : list Z :=
  match n with
  | O => W
  | S n' =>
      let w i := nth (length W - i) W 0 in
      expand n' (W ++ [rotl 1 (Z.lxor (w 3%nat) (Z.lxor (w 8%nat) (Z.lxor (w 14%nat) (w 16%nat))))])
  end.

Definition step (t : nat) (w : Z) (st : list Z) : list Z :=
  match st with
  | [a; b; c; d; e] =>
      [(rotl 5 a + ft t b c d + e + Kt t + w) mod 2 ^ 32; a; rotl 30 b; c; d]
  | _ => st
  end.
Fixpoint steps (t : nat) (W st : list Z) : list Z :=
  match W with [] => st | w :: W' => steps (S t) W' (step t w st) end.

Definition compress (H block : list Z) : list Z :=
  zip_with (fun h x => (h + x) mod 2 ^ 32) H (steps 0 (expand 64 (words block)) H).

Definition be_bytes8 (n : Z) : list Z := be_bytes4 (n / 2 ^ 32) ++ be_bytes4 n.
(** The zero bytes between the end mark and the length. *)
Definition zeros (n : nat) : nat := (119 - n mod 64) mod 64.
Definition pad (m : list Z) : list Z :=
  m ++ [128] ++ replicate (zeros (length m)) 0 ++ be_bytes8 (8 * Z.of_nat (length m)).
Fixpoint blocks (n : nat) (H m : list Z) : list Z :=
  match n with O => H | S n' => blocks n' (compress H (take 64 m)) (drop 64 m) end.
Definition sha1 (m : list Z) : list Z :=
  blocks (length (pad m) / 64) digest_iv (pad m).
End Fips.

(** ** Lemmas: words *)
Definition word_ok (x : Z) : Prop := 0 <= x < 4294967296.
Abbreviation words_ok := (Forall word_ok).

Lemma mask32_mod x : mask32 x = x mod 2 ^ 32.
Proof. unfold mask32. change 4294967295 with (Z.ones 32). by rewrite Z.land_ones. Qed.

Lemma word_ok_mod x : word_ok (x mod 2 ^ 32).
Proof. unfold word_ok. change (2 ^ 32) with 4294967296. apply Z.mod_pos_bound. lia. Qed.
#[local] Hint Resolve word_ok_mod : router.

Lemma word_ok_testbit x i : word_ok x -> 32 <= i -> Z.testbit x i = false.
Proof.
  intros [H0 H1] Hi. destruct (Z.eq_dec x 0) as [->|]; [apply Z.bits_0|].
  apply Z.bits_above_log2; [done|]. apply Z.log2_lt_pow2; [lia|].
  apply Z.lt_le_trans with (2 ^ 32); [done|]. by apply Z.pow_le_mono_r.
Qed.

(** A number below [2^n] and a multiple of [2^n] have no bit in common. *)
Lemma add_lor a b n : 0 <= n -> 0 <= b < 2 ^ n -> Z.lor (a * 2 ^ n) b = a * 2 ^ n + b.
Proof.
  intros Hn Hb. assert (H : Z.land (a * 2 ^ n) b = 0).
  { apply Z.bits_inj'. intros i Hi. rewrite Z.land_spec, Z.bits_0.
    destruct (Z_lt_le_dec i n) as [Hlt|Hge]; [by rewrite Z.mul_pow2_bits_low|].
    assert (Hz : Z.testbit b i = false); [|by rewrite Hz, andb_false_r].
    destruct (Z.eq_dec b 0) as [->|]; [apply Z.bits_0|]. apply Z.bits_above_log2; [lia|].
    apply Z.log2_lt_pow2; [lia|]. apply Z.lt_le_trans with (2 ^ n); [lia|]. by apply Z.pow_le_mono_r. }
  by rewrite <- Z.lxor_lor, Z.add_nocarry_lxor.
Qed.

Lemma SHA1CircularShift_rotl b w :
  0 < b < 32 -> word_ok w -> SHA1CircularShift b w = Fips.rotl b w.
Proof.
  intros Hb Hw. unfold SHA1CircularShift, Fips.rotl, word_ok in *.
  rewrite mask32_mod, Z.shiftl_mul_pow2, Z.shiftr_div_pow2 by lia.
  assert (H32 : 2 ^ 32 = 2 ^ (32 - b) * 2 ^ b) by (rewrite <- Z.pow_add_r by lia; f_equal; lia).
  rewrite H32, Zmult_mod_distr_r. apply add_lor; [lia|].
  split; [apply Z.div_pos; lia|]. apply Z.div_lt_upper_bound; [lia|]. rewrite <- H32. change (2 ^ 32) with 4294967296. lia.
Qed.

Lemma rotl_ok b w : 0 < b < 32 -> word_ok w -> word_ok (Fips.rotl b w).
Proof.
  intros Hb Hw. unfold Fips.rotl, word_ok in *.
  assert (H32 : 2 ^ 32 = 2 ^ (32 - b) * 2 ^ b) by (rewrite <- Z.pow_add_r by lia; f_equal; lia).
  rewrite H32, Zmult_mod_distr_r.
  pose proof (Z.mod_pos_bound w (2 ^ (32 - b)) ltac:(lia)) as Hm.
  assert (Hq : 0 <= w / 2 ^ (32 - b) < 2 ^ b).
  { split; [apply Z.div_pos; lia|]. apply Z.div_lt_upper_bound; [lia|]. rewrite <- H32. change (2 ^ 32) with 4294967296. lia. }
  change 4294967296 with (2 ^ 32). rewrite H32. nia.
Qed.

Lemma lxor_ok a b : word_ok a -> word_ok b -> word_ok (Z.lxor a b).
Proof.
  intros Ha Hb. pose proof (word_ok_testbit a) as Ta. pose proof (word_ok_testbit b) as Tb.
  assert (H : Z.lxor a b = Z.lxor a b mod 2 ^ 32).
  { apply Z.bits_inj'. intros i Hi. destruct (Z_lt_le_dec i 32).
    - by rewrite Z.mod_pow2_bits_low.
    - rewrite Z.mod_pow2_bits_high, Z.lxor_spec, Ta, Tb by (done || lia). done. }
  rewrite H. auto with router.
Qed.

Lemma word_not_testbit x i : 0 <= i -> Z.testbit (word_not x) i = (i <? 32) && negb (Z.testbit x i).
Proof.
  intros Hi. unfold word_not, u32. change 4294967296 with (2 ^ 32). destruct (Z.ltb_spec i 32).
  - by rewrite Z.mod_pow2_bits_low, Z.lnot_spec.
  - by rewrite Z.mod_pow2_bits_high.
Qed.

(** The code's round functions are the standard's. *)
Ltac bitwise := apply Z.bits_inj'; let i := fresh "i" in let Hi := fresh "Hi" in intros i Hi;
  repeat (rewrite Z.lor_spec || rewrite Z.land_spec || rewrite Z.lxor_spec
          || rewrite word_not_testbit by done);
  repeat match goal with |- context [Z.testbit ?x i] => destruct (Z.testbit x i) end;
  try (destruct (i <? 32)); done.
Lemma f_if_Ch B C D : f_if B C D = Fips.Ch B C D.
Proof. unfold f_if, Fips.Ch. bitwise. Qed.
Lemma f_xor_Parity B C D : f_xor B C D = Fips.Parity B C D.
Proof. unfold f_xor, Fips.Parity. by rewrite Z.lxor_assoc. Qed.
Lemma f_maj_Maj B C D : f_maj B C D = Fips.Maj B C D.
Proof. unfold f_maj, Fips.Maj. bitwise. Qed.

(** The words of a block, four bytes at a time. *)
Lemma bytes_quad_ind (P : list Z -> Prop) :
  P [] -> (forall a, P [a]) -> (forall a b, P [a; b]) -> (forall a b c, P [a; b; c]) ->
  (forall a b c d l, P l -> P (a :: b :: c :: d :: l)) -> forall l, P l.
Proof.
  intros H0 H1 H2 H3 H4. refine (fix IH l := match l with [] => H0 | [a] => H1 a | [a; b] => H2 a b
    | [a; b; c] => H3 a b c | a :: b :: c :: d :: l' => H4 a b c d l' (IH l') end).
Qed.

Lemma block_words_spec b :
  bytes_ok b -> block_words b = Fips.words b /\ words_ok (Fips.words b)
                /\ length (Fips.words b) = (length b / 4)%nat.
Proof.
  induction b as [| | | |b0 b1 b2 b3 l IH] using bytes_quad_ind; intros Hb; try (by split_and!).
  rewrite !Forall_cons in Hb. destruct Hb as (H0 & H1 & H2 & H3 & Hb).
  destruct (IH Hb) as (E & Hok & HL). unfold byte_ok in *. cbn [block_words Fips.words]. split_and!.
  - rewrite E. f_equal. rewrite !Z.shiftl_mul_pow2 by lia.
    rewrite add_lor by lia.
    replace (b0 * 2 ^ 24 + b1 * 2 ^ 16) with ((b0 * 2 ^ 8 + b1) * 2 ^ 16) by lia. rewrite add_lor by lia.
    replace ((b0 * 2 ^ 8 + b1) * 2 ^ 16 + b2 * 2 ^ 8) with ((b0 * 2 ^ 16 + b1 * 2 ^ 8 + b2) * 2 ^ 8) by lia.
    rewrite add_lor by lia. lia.
  - apply Forall_cons. split; [unfold word_ok; lia|done].
  - cbn [length]. rewrite HL. change (S (S (S (S (length l))))) with (1 * 4 + length l)%nat.
    rewrite Nat.add_comm, Nat.div_add by lia. lia.
Qed.

Lemma nth_word_ok W i : words_ok W -> word_ok (nth i W 0).
Proof.
  intros H. destruct (nth_in_or_default i W 0) as [Hin| ->]; [|unfold word_ok; lia].
  rewrite Forall_forall in H. apply H. by apply list_elem_of_In.
Qed.

Lemma schedule_expand n W :
  words_ok W -> schedule n W = Fips.expand n W /\ words_ok (Fips.expand n W)
                /\ length (Fips.expand n W) = (length W + n)%nat.
Proof.
  revert W. induction n as [|n IH]; intros W HW; [split_and!; [done|done|simpl; lia]|].
  cbn [schedule Fips.expand]. rewrite !Z.lxor_assoc.
  assert (Hx : word_ok (Z.lxor (nth (length W - 3) W 0) (Z.lxor (nth (length W - 8) W 0)
    (Z.lxor (nth (length W - 14) W 0) (nth (length W - 16) W 0))))).
  { by repeat apply lxor_ok; apply nth_word_ok. }
  rewrite SHA1CircularShift_rotl by done.
  destruct (IH (W ++ [Fips.rotl 1 (Z.lxor (nth (length W - 3) W 0) (Z.lxor (nth (length W - 8) W 0)
    (Z.lxor (nth (length W - 14) W 0) (nth (length W - 16) W 0))))])) as (E & Hok & HL).
  - apply Forall_app. split; [done|]. apply Forall_singleton. by apply rotl_ok.
  - split_and!; [done|done|]. rewrite HL, length_app. simpl. lia.
Qed.

(** ** Lemmas: the rounds *)
Abbreviation state_ok st := (words_ok st /\ length st = 5%nat).

Lemma step_ok t w st : state_ok st -> state_ok (Fips.step t w st).
Proof.
  intros [H HL]. explode st. repeat (apply Forall_cons in H as [? H]).
  split; [|done]. cbn [Fips.step]. rewrite !Forall_cons.
  split_and!; try done; auto with router. by apply rotl_ok.
Qed.

Lemma sha_round_step f k t w st :
  state_ok st -> (forall B C D, f B C D = Fips.ft t B C D) -> k = Fips.Kt t ->
  sha_round f k st w = Fips.step t w st.
Proof.
  intros [H HL] Hf ->. explode st. repeat (apply Forall_cons in H as [? H]).
  cbn [sha_round Fips.step]. rewrite Hf, mask32_mod, !SHA1CircularShift_rotl by done.
  do 2 f_equal. lia.
Qed.

(** One of the four loops is a stretch of the standard's rounds. *)
Lemma sha_loop_steps f k W t st :
  state_ok st ->
  (forall i, (i < length W)%nat ->
     (forall B C D, f B C D = Fips.ft (t + i) B C D) /\ k = Fips.Kt (t + i)) ->
  fold_left (sha_round f k) W st = Fips.steps t W st /\ state_ok (Fips.steps t W st).
Proof.
  revert t st. induction W as [|w W IH]; intros t st Hst Hf; [done|]. cbn [fold_left Fips.steps].
  destruct (Hf 0%nat ltac:(simpl; lia)) as [Hf0 Hk0]. rewrite Nat.add_0_r in *.
  rewrite (sha_round_step f k t w st Hst Hf0 Hk0). apply IH; [by apply step_ok|].
  intros i Hi. destruct (Hf (S i) ltac:(simpl; lia)) as [H1 H2].
  rewrite <- Nat.add_succ_comm in H1, H2. done.
Qed.

Lemma steps_app t W1 W2 st :
  Fips.steps t (W1 ++ W2) st = Fips.steps (t + length W1) W2 (Fips.steps t W1 st).
Proof.
  revert t st. induction W1 as [|w W1 IH]; intros t st; simpl; [by rewrite Nat.add_0_r|].
  by rewrite IH, Nat.add_succ_r.
Qed.

(** The range of rounds in which a round function and a constant are used. *)
Lemma round_range f k W t lo st :
  state_ok st -> length W = 20%nat ->
  (forall j, (lo <= j < lo + 20)%nat -> (forall B C D, f B C D = Fips.ft j B C D) /\ k = Fips.Kt j) ->
  t = lo ->
  fold_left (sha_round f k) W st = Fips.steps t W st /\ state_ok (Fips.steps t W st).
Proof. intros Hst HL Hf ->. apply sha_loop_steps; [done|]. intros i Hi. apply Hf. lia. Qed.


Lemma segment {A} (pre l post : list A) k n :
  length pre = k -> length l = n -> take n (drop k (pre ++ l ++ post)) = l.
Proof. intros. by rewrite drop_app_length', take_app_length'. Qed.

Lemma ft_range j : ((0 <= j < 20)%nat -> Fips.ft j = Fips.Ch /\ Fips.Kt j = 1518500249)
  /\ ((20 <= j < 40)%nat -> Fips.ft j = Fips.Parity /\ Fips.Kt j = 1859775393)
  /\ ((40 <= j < 60)%nat -> Fips.ft j = Fips.Maj /\ Fips.Kt j = 2400959708)
  /\ ((60 <= j < 80)%nat -> Fips.ft j = Fips.Parity /\ Fips.Kt j = 3395469782).
Proof.
  unfold Fips.ft, Fips.Kt.
  destruct (Nat.ltb_spec j 20), (Nat.ltb_spec j 40), (Nat.ltb_spec j 60); split_and!; intros; done || lia.
Qed.

(** The four loops over the schedule are the eighty rounds. *)
Lemma loops_steps W st :
  length W = 80%nat -> state_ok st ->
  sha_loop f_xor (nth 3 K 0) W 60 20 (sha_loop f_maj (nth 2 K 0) W 40 20
    (sha_loop f_xor (nth 1 K 0) W 20 20 (sha_loop f_if (nth 0 K 0) W 0 20 st)))
  = Fips.steps 0 W st /\ state_ok (Fips.steps 0 W st).
Proof.
  intros HL Hst.
  destruct (split_at W 20 ltac:(lia)) as (W1 & R1 & -> & H1). rewrite length_app in HL.
  destruct (split_at R1 20 ltac:(lia)) as (W2 & R2 & -> & H2). rewrite length_app in HL.
  destruct (split_at R2 20 ltac:(lia)) as (W3 & W4 & -> & H3). rewrite length_app in HL.
  assert (H4 : length W4 = 20%nat) by lia. unfold sha_loop.
  pose proof (segment [] W1 (W2 ++ W3 ++ W4) 0 20 eq_refl H1) as E1. cbn [app] in E1.
  pose proof (segment (W1 ++ W2) W3 W4 40 20 ltac:(lens) H3) as E3. rewrite <- app_assoc in E3.
  pose proof (segment (W1 ++ W2 ++ W3) W4 [] 60 20 ltac:(lens) H4) as E4.
  rewrite app_nil_r, <- !app_assoc in E4.
  rewrite E1, (segment W1 W2 (W3 ++ W4) 20 20 H1 H2), E3, E4, !steps_app, H1, H2, H3. cbn [Nat.add].
  clear E1 E3 E4 HL.
  assert (Hr : forall f k j, Fips.ft j = f /\ Fips.Kt j = k ->
    (forall B C D, f B C D = Fips.ft j B C D) /\ k = Fips.Kt j) by (intros f k j [-> ->]; done).
  destruct (round_range f_if (nth 0 K 0) W1 0 0 st Hst H1) as [-> S1]; [|done|].
  { intros j Hj. setoid_rewrite f_if_Ch. by apply Hr, ft_range. }
  destruct (round_range f_xor (nth 1 K 0) W2 20 20 _ S1 H2) as [-> S2]; [|done|].
  { intros j Hj. setoid_rewrite f_xor_Parity. by apply Hr, ft_range. }
  destruct (round_range f_maj (nth 2 K 0) W3 40 40 _ S2 H3) as [-> S3]; [|done|].
  { intros j Hj. setoid_rewrite f_maj_Maj. by apply Hr, ft_range. }
  apply (round_range f_xor (nth 3 K 0) W4 60 60 _ S3 H4); [|done].
  intros j Hj. setoid_rewrite f_xor_Parity. by apply Hr, ft_range.
Qed.

Lemma sum_ok H st : state_ok H -> state_ok st -> state_ok (zip_with (fun h x => (h + x) mod 2 ^ 32) H st).
Proof.
  intros [_ HL] [_ HL']. explode H. explode st. split; [|done]. cbn [zip_with].
  rewrite !Forall_cons. split_and!; auto with router.
Qed.

(** [SHA1ProcessMessageBlock] computes the compression function. *)
Lemma process_block_compress digest block :
  state_ok digest -> bytes_ok block -> length block = 64%nat ->
  process_block digest block = Fips.compress digest block /\ state_ok (Fips.compress digest block).
Proof.
  intros Hd Hb HL. unfold process_block, Fips.compress.
  destruct (block_words_spec block Hb) as (-> & Hok & HLw).
  destruct (schedule_expand 64 _ Hok) as (-> & _ & HLw2). rewrite HLw, HL in HLw2.
  destruct (loops_steps _ digest HLw2 Hd) as [-> Hst]. split; [|by apply sum_ok].
  apply zip_with_ext; [intros; apply mask32_mod|done|done].
Qed.

(** ** Lemmas: the stream of blocks *)
Lemma blocks_app k j dn x H :
  length dn = (64 * k)%nat -> Fips.blocks (k + j) H (dn ++ x) = Fips.blocks j (Fips.blocks k H dn) x.
Proof.
  revert dn H. induction k as [|k IH]; intros dn H HL.
  { apply nil_length_inv in HL as ->. done. }
  destruct (split_at dn 64 ltac:(lia)) as (b & dn' & -> & Hb). rewrite length_app in HL.
  cbn [Nat.add Fips.blocks]. rewrite <- !app_assoc, !take_app_length', !drop_app_length' by done.
  apply IH. lia.
Qed.

Lemma blocks_snoc k dn b H :
  length dn = (64 * k)%nat -> length b = 64%nat ->
  Fips.blocks (S k) H (dn ++ b) = Fips.compress (Fips.blocks k H dn) b.
Proof.
  intros HL Hb. rewrite <- (Nat.add_1_r k), blocks_app by done. simpl.
  by rewrite take_ge by lia.
Qed.

Lemma state_ok_iv : state_ok digest_iv.
Proof. split; [|done]. unfold digest_iv. rewrite !Forall_cons. unfold word_ok. split_and!; done || lia. Qed.

(** What a context knows about the message [m] put into it so far: whole blocks
    [dn] are hashed, the rest [rm] is in the block. *)
Record ctx_rep (m : list Z) (c : SHA1Context) : Prop := {
  cr_split : exists dn k rm tl, m = dn ++ rm /\ length dn = (64 * k)%nat
    /\ Message_Digest c = Fips.blocks k digest_iv dn
    /\ Message_Block c = rm ++ tl /\ Message_Block_Index c = length rm /\ (length rm < 64)%nat;
  cr_digest : state_ok (Message_Digest c);
  cr_block : length (Message_Block c) = 64%nat /\ bytes_ok (Message_Block c);
  cr_length : word_ok (Length_Low c) /\ word_ok (Length_High c)
    /\ Length_Low c + 2 ^ 32 * Length_High c = 8 * Z.of_nat (length m);
  cr_flags : Computed c = false /\ Corrupted c = false }.

Lemma reset_rep c :
  length (Message_Block c) = 64%nat -> bytes_ok (Message_Block c) -> ctx_rep [] (SHA1Reset c).
Proof.
  intros HL Hb. constructor; cbn; try done.
  - exists [], 0%nat, [], (Message_Block c). split_and!; try done. simpl. lia.
  - apply state_ok_iv.
Qed.

(** The length counter. *)
Lemma count_byte_spec c (n : Z) :
  word_ok (Length_Low c) -> word_ok (Length_High c) -> Corrupted c = false ->
  Length_Low c + 2 ^ 32 * Length_High c = 8 * n -> 8 * (n + 1) < 2 ^ 64 ->
  exists low high, count_byte c = SHA1Ctx (Message_Digest c) low high (Message_Block c)
      (Message_Block_Index c) (Computed c) false
    /\ word_ok low /\ word_ok high /\ low + 2 ^ 32 * high = 8 * (n + 1).
Proof.
  unfold count_byte, word_ok. rewrite mask32_mod. intros Hl Hh Hc E Hmax.
  set (low := (Length_Low c + 8) mod 2 ^ 32).
  assert (Hlow : 0 <= low < 2 ^ 32) by (apply Z.mod_pos_bound; lia).
  assert (Hdm : Length_Low c + 8 = 2 ^ 32 * ((Length_Low c + 8) / 2 ^ 32) + low) by (apply Z.div_mod; lia).
  change (2 ^ 32) with 4294967296 in *. change (2 ^ 64) with 18446744073709551616 in *.
  destruct (Z.eqb_spec low 0) as [H0|H0].
  - assert (Hq : (Length_Low c + 8) / 4294967296 = 1) by lia.
    assert (Hhi : mask32 (Length_High c + 1) = Length_High c + 1).
    { rewrite mask32_mod. apply Z.mod_small. change (2 ^ 32) with 4294967296. lia. }
    rewrite Hhi, (proj2 (Z.eqb_neq _ _)) by lia. eexists _, _. split; [by rewrite Hc|]. lia.
  - eexists _, _. split; [by rewrite Hc|]. assert ((Length_Low c + 8) / 4294967296 = 0); [|lia].
    apply Z.div_small. lia.
Qed.

(** A byte stored after [rm]. *)
Lemma put_byte_spec c rm x tl b :
  Message_Block c = rm ++ x :: tl -> Message_Block_Index c = length rm ->
  put_byte c b = Ok (SHA1Ctx (Message_Digest c) (Length_Low c) (Length_High c) (rm ++ b :: tl)
                       (S (length rm)) (Computed c) (Corrupted c)).
Proof.
  intros E1 E2. unfold put_byte. rewrite E1, E2.
  by rewrite (bind_step _ _ _ (store_app rm [x] tl [b] eq_refl)).
Qed.

Lemma process_block_rep m c b :
  state_ok (Message_Digest c) -> length (Message_Block c) = 64%nat -> bytes_ok (Message_Block c) ->
  Message_Digest c = Fips.blocks b digest_iv m -> length m = (64 * b)%nat ->
  Message_Digest (SHA1ProcessMessageBlock c) = Fips.blocks (S b) digest_iv (m ++ Message_Block c)
  /\ state_ok (Message_Digest (SHA1ProcessMessageBlock c)).
Proof.
  intros Hd HL Hb E Hm. cbn [SHA1ProcessMessageBlock set_index set_digest Message_Digest].
  destruct (process_block_compress _ _ Hd Hb HL) as [-> Hok]. split; [|done].
  by rewrite blocks_snoc, <- E.
Qed.

(** One turn of the input loop. *)
Lemma input_byte_rep m c b :
  ctx_rep m c -> byte_ok b -> 8 * (Z.of_nat (length m) + 1) < 2 ^ 64 ->
  exists c', (let! c := put_byte c (Z.land b 255) in
              let c := count_byte c in
              Ok (if (Message_Block_Index c =? 64)%nat then SHA1ProcessMessageBlock c else c)) = Ok c'
    /\ ctx_rep (m ++ [b]) c'.
Proof.
  intros [(dn & k & rm & tl & Hm & Hdn & Hdig & Hblk & Hidx & Hrm) Hd [HL Hb] (Hlo & Hhi & Hlen) [Hcomp Hcor]] Hby Hmax.
  replace (Z.land b 255) with b.
  2:{ change 255 with (Z.ones 8). rewrite Z.land_ones by lia. symmetry. by apply Z.mod_small. }
  destruct tl as [|x tl]; [rewrite Hblk, app_nil_r in HL; lia|].
  rewrite (bind_step _ _ _ (put_byte_spec c rm x tl b Hblk Hidx)).
  set (c1 := SHA1Ctx _ _ _ (rm ++ b :: tl) _ _ _).
  destruct (count_byte_spec c1 (Z.of_nat (length m)) Hlo Hhi Hcor Hlen Hmax) as (low & high & E & Hlo' & Hhi' & Hlen').
  cbv zeta. rewrite E. cbn [Message_Block_Index c1 Message_Digest Message_Block Computed]. clear E.
  rewrite Hblk in *. rewrite length_app in HL. cbn [length] in HL.
  apply bytes_ok_app in Hb as [Hb1 Hb2]. apply Forall_cons in Hb2 as [_ Hb2].
  assert (Hb' : bytes_ok (rm ++ b :: tl)) by (rewrite bytes_ok_app, Forall_cons; done).
  assert (Hlen'' : low + 2 ^ 32 * high = 8 * Z.of_nat (length (m ++ [b]))) by (rewrite length_app; simpl; lia).
  eexists. split; [done|]. destruct (Nat.eqb_spec (S (length rm)) 64) as [H64|H64].
  - set (c2 := SHA1Ctx _ _ _ _ _ _ _). assert (tl = []) as -> by (apply nil_length_inv; lia).
    destruct (process_block_rep dn c2 k Hd) as [E1 E2]; [cbn; rewrite length_app; simpl; lia|done|done|done|].
    constructor; cbn [SHA1ProcessMessageBlock set_index Message_Block Message_Block_Index Computed Corrupted Length_Low Length_High c2 set_digest] in *; try done.
    + exists (dn ++ rm ++ [b]), (S k), [], (rm ++ [b]). rewrite !length_app, app_nil_r, Hdn, Hm.
      split_and!; [by rewrite app_assoc|simpl; lia|done|done|done|simpl; lia].
    + split; [rewrite length_app; simpl; lia|done].
  - constructor; cbn [Message_Block Message_Block_Index Message_Digest Computed Corrupted Length_Low Length_High]; try done.
    + exists dn, k, (rm ++ [b]), tl. rewrite length_app. cbn [length].
      split_and!; [by rewrite Hm, app_assoc|done|done|by rewrite <- app_assoc|lia|lia].
    + split; [rewrite length_app; simpl; lia|done].
Qed.

Lemma input_loop_rep ms : forall m c,
  ctx_rep m c -> bytes_ok ms -> 8 * Z.of_nat (length m + length ms) < 2 ^ 64 ->
  exists c', input_loop c ms (length ms) = Ok c' /\ ctx_rep (m ++ ms) c'.
Proof.
  induction ms as [|b ms IH]; intros m c Hc Hb Hmax.
  { exists c. split; [done|]. by rewrite app_nil_r. }
  apply Forall_cons in Hb as [Hby Hb]. cbn [length] in Hmax.
  destruct (input_byte_rep m c b Hc Hby ltac:(lia)) as (c1 & E & Hc1).
  cbn [length input_loop]. destruct (cr_flags _ _ Hc) as [_ ->].
  destruct (put_byte c (Z.land b 255)) as [c0|] eqn:Ep; [|discriminate]. cbn [bind] in *. injection E as ->.
  destruct (IH (m ++ [b]) c1 Hc1 Hb) as (c' & E' & Hc'); [rewrite length_app; simpl; lia|].
  exists c'. by rewrite <- app_assoc in Hc'.
Qed.

Lemma SHA1Input_rep m c ms :
  ctx_rep m c -> bytes_ok ms -> 8 * Z.of_nat (length m + length ms) < 2 ^ 64 ->
  exists c', SHA1Input c ms (length ms) = Ok c' /\ ctx_rep (m ++ ms) c'.
Proof.
  intros Hc Hb Hmax. unfold SHA1Input. destruct (cr_flags _ _ Hc) as [-> ->]. cbn [orb].
  destruct (Nat.eqb_spec (length ms) 0) as [H0|]; [|by apply input_loop_rep].
  apply nil_length_inv in H0 as ->. exists c. by rewrite app_nil_r.
Qed.

Lemma sha1_inputs_rep chunks : forall m c,
  ctx_rep m c -> Forall bytes_ok chunks -> 8 * Z.of_nat (length (m ++ mjoin chunks)) < 2 ^ 64 ->
  exists c', sha1_inputs c chunks = Ok c' /\ ctx_rep (m ++ mjoin chunks) c'.
Proof.
  induction chunks as [|ms chunks IH]; intros m c Hc Hb Hmax.
  { exists c. split; [done|]. simpl. by rewrite app_nil_r. }
  apply Forall_cons in Hb as [Hms Hb]. cbn [mjoin list_join] in *. rewrite app_assoc in Hmax |- *.
  destruct (SHA1Input_rep m c ms Hc Hms) as (c1 & E & Hc1); [rewrite !length_app in Hmax; lia|].
  cbn [sha1_inputs]. rewrite (bind_step _ _ _ E). by apply IH.
Qed.

(** ** Lemmas: padding *)
Lemma pad_loop_spec n : forall c rm tl limit fuel,
  Message_Block c = rm ++ tl -> Message_Block_Index c = length rm ->
  limit = (length rm + n)%nat -> (n <= length tl)%nat -> (n < fuel)%nat \/ (n = fuel)%nat ->
  pad_loop fuel c limit = Ok (SHA1Ctx (Message_Digest c) (Length_Low c) (Length_High c)
    ((rm ++ replicate n 0) ++ drop n tl) limit (Computed c) (Corrupted c)).
Proof.
  induction n as [|n IH]; intros c rm tl limit fuel E1 E2 Hlim Htl Hf.
  { assert (H : pad_loop fuel c limit = Ok c).
    { destruct fuel; [done|]. cbn [pad_loop]. by rewrite (proj2 (Nat.ltb_ge _ _)) by lia. }
    rewrite H. subst limit. rewrite Nat.add_0_r, <- E2, app_nil_r, drop_0, <- E1. by destruct c. }
  destruct tl as [|x tl]; [simpl in Htl; lia|]. destruct fuel as [|fuel]; [lia|].
  cbn [pad_loop]. rewrite (proj2 (Nat.ltb_lt _ _)) by lia.
  rewrite (bind_step _ _ _ (put_byte_spec c rm x tl 0 E1 E2)). simpl in Htl.
  rewrite (IH _ (rm ++ [0]) tl limit fuel); cbn [Message_Block Message_Block_Index];
    rewrite ?length_app; try (simpl; lia).
  - cbn [replicate drop Message_Digest Length_Low Length_High Computed Corrupted].
    by rewrite <- (app_assoc rm [0]).
  - by rewrite <- app_assoc.
Qed.

Lemma byte_shiftr x i : 0 <= i -> Z.land (Z.shiftr x (8 * i)) 255 = byte_at x i.
Proof.
  intros Hi. unfold byte_at. change 255 with (Z.ones 8). rewrite Z.land_ones, Z.shiftr_div_pow2 by lia.
  by rewrite Z.pow_mul_r by lia.
Qed.

Lemma octets_be4 x :
  [Z.land (Z.shiftr x 24) 255; Z.land (Z.shiftr x 16) 255; Z.land (Z.shiftr x 8) 255;
   Z.land (Z.shiftr x 0) 255] = be_bytes4 x.
Proof.
  unfold be_bytes4. rewrite <- (byte_shiftr x 3), <- (byte_shiftr x 2), <- (byte_shiftr x 1),
    <- (byte_shiftr x 0) by lia. done.
Qed.

Lemma length_octets_spec c n :
  word_ok (Length_Low c) -> word_ok (Length_High c) ->
  Length_Low c + 2 ^ 32 * Length_High c = n -> length_octets c = Fips.be_bytes8 n.
Proof.
  intros Hl Hh E. unfold Fips.be_bytes8, word_ok in *.
  change (length_octets c) with
    ([Z.land (Z.shiftr (Length_High c) 24) 255; Z.land (Z.shiftr (Length_High c) 16) 255;
      Z.land (Z.shiftr (Length_High c) 8) 255; Z.land (Z.shiftr (Length_High c) 0) 255]
     ++ [Z.land (Z.shiftr (Length_Low c) 24) 255; Z.land (Z.shiftr (Length_Low c) 16) 255;
      Z.land (Z.shiftr (Length_Low c) 8) 255; Z.land (Z.shiftr (Length_Low c) 0) 255]).
  rewrite !octets_be4.
  assert (H1 : n / 2 ^ 32 = Length_High c).
  { subst n. rewrite Z.add_comm, Z.mul_comm, Z.div_add_l by lia.
    rewrite (Z.div_small (Length_Low c)) by (change (2 ^ 32) with 4294967296; lia). lia. }
  assert (H2 : forall i, 0 <= i < 4 -> byte_at n i = byte_at (Length_Low c) i).
  { intros i Hi. subst n. unfold byte_at.
    replace (2 ^ 32) with (2 ^ 8 * 2 ^ (8 * (3 - i)) * 256 ^ i).
    2:{ change 256 with (2 ^ 8). rewrite <- Z.pow_mul_r, <- !Z.pow_add_r by lia. f_equal. lia. }
    replace (2 ^ 8 * 2 ^ (8 * (3 - i)) * 256 ^ i * Length_High c)
      with (2 ^ 8 * 2 ^ (8 * (3 - i)) * Length_High c * 256 ^ i) by lia.
    rewrite Z.div_add by (apply Z.pow_nonzero; lia).
    replace (2 ^ 8 * 2 ^ (8 * (3 - i)) * Length_High c) with (2 ^ (8 * (3 - i)) * Length_High c * 256) by lia.
    by rewrite Z.mod_add. }
  rewrite H1. unfold be_bytes4 at 4. by rewrite !H2 by lia.
Qed.

Lemma bytes_ok_be4 z : bytes_ok (be_bytes4 z).
Proof. unfold be_bytes4. rewrite !Forall_cons. split_and!; auto with router. Qed.

(** The last block: [P] is padded up to the length. *)
Lemma last_block_spec c P k dn n :
  state_ok (Message_Digest c) -> length (Message_Block c) = 64%nat -> take 56 (Message_Block c) = P ->
  bytes_ok P -> Message_Digest c = Fips.blocks k digest_iv dn -> length dn = (64 * k)%nat ->
  length_octets c = Fips.be_bytes8 n ->
  exists c', (let! blk := store (Message_Block c) 56 (length_octets c) in
    Ok (SHA1ProcessMessageBlock
        (SHA1Ctx (Message_Digest c) (Length_Low c) (Length_High c) blk (Message_Block_Index c)
           (Computed c) (Corrupted c)))) = Ok c'
    /\ Message_Digest c' = Fips.blocks (S k) digest_iv (dn ++ P ++ Fips.be_bytes8 n)
    /\ Corrupted c' = Corrupted c /\ Computed c' = Computed c.
Proof.
  intros Hd HL <- HP E Hdn Ho. rewrite Ho.
  pose proof (take_drop 56 (Message_Block c)) as Hs.
  assert (HLt : length (take 56 (Message_Block c)) = 56%nat) by (rewrite length_take; lia).
  assert (HLd : length (drop 56 (Message_Block c)) = 8%nat) by (rewrite length_drop; lia).
  pose proof (store_at_end _ _ 56 (Fips.be_bytes8 n) HLt HLd) as Est. rewrite Hs in Est.
  rewrite (bind_step _ _ _ Est).
  eexists. split; [done|]. set (c1 := SHA1Ctx _ _ _ (take 56 (Message_Block c) ++ Fips.be_bytes8 n) _ _ _).
  destruct (process_block_rep dn c1 k Hd) as [E1 _]; [|cbn [Message_Block c1]|done|done|done].
  - cbn [Message_Block c1]. rewrite length_app, HLt. done.
  - unfold Fips.be_bytes8. rewrite !bytes_ok_app. split_and!; [done|apply bytes_ok_be4..].
Qed.

Lemma blocks_pad m dn k rm :
  m = dn ++ rm -> length dn = (64 * k)%nat -> (length rm < 64)%nat ->
  Fips.sha1 m = if (55 <? length rm)%nat
    then Fips.blocks (S (S k)) digest_iv
           ((dn ++ (rm ++ [128]) ++ replicate (63 - length rm) 0) ++ replicate 56 0
            ++ Fips.be_bytes8 (8 * Z.of_nat (length m)))
    else Fips.blocks (S k) digest_iv
           (dn ++ ((rm ++ [128]) ++ replicate (55 - length rm) 0)
            ++ Fips.be_bytes8 (8 * Z.of_nat (length m))).
Proof.
  intros Hm Hdn Hrm. unfold Fips.sha1, Fips.pad, Fips.zeros.
  assert (Hmod : (length m mod 64 = length rm)%nat).
  { rewrite Hm, length_app, Hdn, Nat.mul_comm, Nat.add_comm, Nat.Div0.mod_add. by apply Nat.mod_small. }
  rewrite Hmod. destruct (Nat.ltb_spec 55 (length rm)) as [Hlt|Hge].
  - rewrite (Nat.mod_small (119 - length rm)) by lia.
    replace (119 - length rm)%nat with ((63 - length rm) + 56)%nat by lia.
    replace (length _ / 64)%nat with (S (S k)).
    + rewrite replicate_add, Hm, <- !app_assoc. done.
    + apply (Nat.div_unique _ _ _ 0); [lia|].
      rewrite !length_app, !length_replicate, Hm, length_app, Hdn. simpl. lia.
  - replace ((119 - length rm) mod 64)%nat with (55 - length rm)%nat.
    2:{ apply (Nat.mod_unique _ _ 1); lia. }
    replace (length _ / 64)%nat with (S k).
    + rewrite Hm, <- !app_assoc. done.
    + apply (Nat.div_unique _ _ _ 0); [lia|].
      rewrite !length_app, !length_replicate, Hm, length_app, Hdn. simpl. lia.
Qed.

Lemma SHA1PadMessage_spec m c :
  ctx_rep m c ->
  exists c', SHA1PadMessage c = Ok c' /\ Message_Digest c' = Fips.sha1 m
    /\ Corrupted c' = false.
Proof.
  intros [(dn & k & rm & tl & Hm & Hdn & Hdig & Hblk & Hidx & Hrm) Hd [HL Hb] (Hlo & Hhi & Hlen) [Hcomp Hcor]].
  destruct tl as [|x tl]; [rewrite Hblk, app_nil_r in HL; lia|].
  unfold SHA1PadMessage. rewrite Hidx, (blocks_pad m dn k rm Hm Hdn Hrm).
  rewrite (put_byte_spec c rm x tl 128 Hblk Hidx). cbn [bind].
  set (c1 := SHA1Ctx _ _ _ (rm ++ 128 :: tl) _ _ _).
  rewrite Hblk in *. rewrite length_app in HL. cbn [length] in HL.
  apply bytes_ok_app in Hb as [Hb1 Hb2]. apply Forall_cons in Hb2 as [_ Hb2].
  assert (E1 : Message_Block c1 = (rm ++ [128]) ++ tl) by by rewrite <- app_assoc.
  assert (E1i : Message_Block_Index c1 = length (rm ++ [128])) by (rewrite length_app; simpl; lia).
  assert (Hb128 : bytes_ok (rm ++ [128])).
  { rewrite bytes_ok_app, Forall_singleton. unfold byte_ok. split; [done|lia]. }
  assert (H0 : byte_ok 0) by (unfold byte_ok; lia).
  destruct (Nat.ltb_spec 55 (length rm)) as [Hlt|Hge].
  - rewrite (pad_loop_spec (63 - length rm) c1 (rm ++ [128]) tl 64 64 E1 E1i) by (rewrite ?length_app; simpl; lia).
    rewrite (drop_ge tl), app_nil_r by lia. cbn [bind]. set (c2 := SHA1Ctx _ _ _ _ 64 _ _).
    set (B := (rm ++ [128]) ++ replicate (63 - length rm) 0) in *.
    assert (HB : length B = 64%nat) by (unfold B; rewrite !length_app, length_replicate; simpl; lia).
    assert (HBb : bytes_ok B) by (unfold B; rewrite bytes_ok_app; split; [done|by apply bytes_ok_replicate]).
    destruct (process_block_rep dn c2 k Hd HB HBb Hdig Hdn) as [E2 S2].
    rewrite (pad_loop_spec 56 (SHA1ProcessMessageBlock c2) [] B 56 56 eq_refl eq_refl) by (simpl; lia).
    cbn [bind app]. set (c3 := SHA1Ctx _ _ _ _ 56 _ _).
    destruct (last_block_spec c3 (replicate 56 0) (S k) (dn ++ B) (8 * Z.of_nat (length m)) S2)
      as (c' & E & Ed & Ec & _); try done.
    + cbn [c3 Message_Block]. rewrite length_app, length_replicate, length_drop. lia.
    + by apply bytes_ok_replicate.
    + rewrite length_app. lia.
    + by apply length_octets_spec.
    + exists c'. split_and!; [done|by rewrite Ed|by rewrite Ec].
  - rewrite (pad_loop_spec (55 - length rm) c1 (rm ++ [128]) tl 56 56 E1 E1i) by (rewrite ?length_app; simpl; lia).
    cbn [bind]. set (c3 := SHA1Ctx _ _ _ _ 56 _ _).
    destruct (last_block_spec c3 ((rm ++ [128]) ++ replicate (55 - length rm) 0) k dn (8 * Z.of_nat (length m)) Hd)
      as (c' & E & Ed & Ec & _); try done.
    + cbn [c3 Message_Block]. rewrite !length_app, length_replicate, length_drop. simpl. lia.
    + cbn [c3 Message_Block]. apply take_app_length'. rewrite !length_app, length_replicate. simpl. lia.
    + rewrite bytes_ok_app. split; [done|by apply bytes_ok_replicate].
    + by apply length_octets_spec.
    + exists c'. split_and!; [done|by rewrite Ed|by rewrite Ec].
Qed.

(** Reset, inputs, result: the standard's hash of all the input. *)
Lemma sha1_run_spec c chunks :
  length (Message_Block c) = 64%nat -> bytes_ok (Message_Block c) -> Forall bytes_ok chunks ->
  8 * Z.of_nat (length (mjoin chunks)) < 2 ^ 64 ->
  exists c', sha1_run c chunks = Ok (true, c') /\ Message_Digest c' = Fips.sha1 (mjoin chunks)
    /\ Computed c' = true.
Proof.
  intros HL Hb Hc Hmax. unfold sha1_run.
  destruct (sha1_inputs_rep chunks [] _ (reset_rep c HL Hb) Hc Hmax) as (c1 & E & Hr).
  rewrite (bind_step _ _ _ E). unfold SHA1Result. destruct (cr_flags _ _ Hr) as [-> ->]. cbn [negb].
  destruct (SHA1PadMessage_spec _ _ Hr) as (c2 & E2 & Hd & _). rewrite (bind_step _ _ _ E2).
  eexists. split_and!; [done|done|done].
Qed.

(** A digest has five words, whatever is hashed. *)
Lemma steps_length W : forall t st, length st = 5%nat -> length (Fips.steps t W st) = 5%nat.
Proof.
  induction W as [|w W IH]; intros t st H; [done|]. cbn [Fips.steps]. apply IH. explode st. reflexivity.
Qed.
Lemma blocks_length n : forall H p, length H = 5%nat -> length (Fips.blocks n H p) = 5%nat.
Proof.
  induction n as [|n IH]; intros H p HL; [done|]. cbn [Fips.blocks]. apply IH.
  unfold Fips.compress. rewrite length_zip_with, steps_length by done. lia.
Qed.
Lemma sha1_length m : length (Fips.sha1 m) = 5%nat.
Proof. by apply blocks_length. Qed.

(** Two inputs, the second out of a longer buffer, and the result. *)
Lemma input_loop_prefix a b : forall c, input_loop c (a ++ b) (length a) = input_loop c a (length a).
Proof.
  induction a as [|x a IH]; intros c; [by destruct b|]. cbn [app length input_loop].
  destruct (Corrupted c); [done|]. destruct (put_byte c _); [|done]. cbn [bind]. apply IH.
Qed.

Lemma hash_two c a b rest :
  length (Message_Block c) = 64%nat -> bytes_ok (Message_Block c) -> bytes_ok a -> bytes_ok b ->
  Z.of_nat (length a) < 4294967296 -> Z.of_nat (length b) < 4294967296 ->
  exists c1 c2 c3, SHA1Input (SHA1Reset c) a (length a) = Ok c1
    /\ SHA1Input c1 (b ++ rest) (length b) = Ok c2 /\ SHA1Result c2 = Ok (true, c3)
    /\ Message_Digest c3 = Fips.sha1 (a ++ b).
Proof.
  intros HL Hc Ha Hb Hla Hlb. assert (H64 : 2 ^ 64 = 18446744073709551616) by done.
  destruct (SHA1Input_rep _ _ a (reset_rep c HL Hc) Ha) as (c1 & E1 & R1); [simpl; lia|].
  destruct (SHA1Input_rep _ _ b R1 Hb) as (c2 & E2 & R2); [simpl; lia|].
  destruct (SHA1PadMessage_spec _ _ R2) as (c3 & E3 & Hdig & _).
  eexists c1, c2, _. split_and!; [done| | |].
  - rewrite <- E2. unfold SHA1Input. by rewrite input_loop_prefix.
  - unfold SHA1Result. destruct (cr_flags _ _ R2) as [-> ->]. cbn [negb]. by rewrite (bind_step _ _ _ E3).
  - done.
Qed.
