(* ===== verification/Vns.v ===== *)
(** * Vns: the connection to the server (sr_vns_comm.c, vnscommand.h)

    Reading a command from the stream, the commands themselves, and opening the
    session.  What the socket delivers is a list of [rx]: pieces of any size,
    interruptions by signals, errors, and the end of the stream, which stays at
    the end however often it is read.  Sending is in World.v.

    Of the host, [Net] gives the results of [send], [gethostbyname], [socket] and
    [connect], the file "auth_key", and which files can be opened for writing. *)

From S2P Require Import Prelude Memory Protocol Utils Iface Rt ArpCache World ArpHandler Router Sha1.

(** ** vnscommand.h *)
Definition VNSOPEN : Z := 1.
Definition VNSCLOSE : Z := 2.
Definition VNSBANNER : Z := 8.
Definition VNSHWINFO : Z := 16.
Definition IDSIZE : nat := 32.
Definition VNS_RTABLE : Z := 32.
Definition VNS_OPEN_TEMPLATE : Z := 64.
Definition VNS_AUTH_REQUEST : Z := 128.
Definition VNS_AUTH_REPLY : Z := 256.
Definition VNS_AUTH_STATUS : Z := 512.

Definition HWINTERFACE : Z := 1.
Definition HWSPEED : Z := 2.
Definition HWSUBNET : Z := 4.
Definition HWFIXEDIP : Z := 16.
Definition HWETHER : Z := 32.
Definition HWETHIP : Z := 64.
Definition HWMASK : Z := 128.

(** mLen, mType *)
Module Base.
Definition mLen : nat := 0.
Definition mType : nat := mLen + 4.
Definition size : nat := mType + 4.
End Base.

(** c_open *)
Module Open.
Definition topoID : nat := Base.size.
Definition pad : nat := topoID + 2.
Definition mVirtualHostID : nat := pad + 2.
Definition mUID : nat := mVirtualHostID + IDSIZE.
Definition mPass : nat := mUID + IDSIZE.
Definition size : nat := mPass + IDSIZE.
End Open.

(** c_open_template *)
Module OpenTemplate.
Definition templateName : nat := Base.size.
Definition mVirtualHostID : nat := templateName + 30.
Definition size : nat := mVirtualHostID + IDSIZE.
End OpenTemplate.

(** c_hw_entry *)
Module HwEntry.
Definition mKey : nat := 0.
Definition value : nat := mKey + 4.
Definition size : nat := value + 32.
End HwEntry.

(** c_rtable, c_auth_reply, c_auth_status *)
Module Rtable.
Definition mVirtualHostID : nat := Base.size.
Definition rtable : nat := mVirtualHostID + IDSIZE.
End Rtable.
Module AuthReply.
Definition usernameLen : nat := Base.size.
Definition username : nat := usernameLen + 4.
Definition size : nat := username.
End AuthReply.
Module AuthStatus.
Definition auth_ok : nat := Base.size.
Definition msg : nat := auth_ok + 1.
End AuthStatus.

(** ** The stream *)
Inductive rx :=
| Data (bs : list Z)     (** bytes that arrive together *)
| Eintr                  (** a signal interrupts the call *)
| RxError                (** the call fails *)
| Eof.                   (** the server closed the connection *)

(** The result of one [recv] or [read] of [n] bytes. *)
Inductive rx_result := Got (bs : list Z) | Interrupted | Failed.

Definition recv (n : nat) (input : list rx) : res (rx_result * list rx) :=
  match input with
  | [] => Fault Blocked
  | Data bs :: rest =>
      if (length bs <=? n)%nat then Ok (Got bs, rest)
      else Ok (Got (take n bs), Data (drop n bs) :: rest)
  | Eintr :: rest => Ok (Interrupted, rest)
  | RxError :: rest => Ok (Failed, rest)
  | Eof :: _ => Ok (Got [], input)
  end.

(** The inner [do ... while (errno == EINTR)]: [None] is an error. *)
Fixpoint recv_retry (fuel : nat) (n : nat) (input : list rx) : res (option (list Z) * list rx) :=
  match fuel with
  | O => Fault Diverges
  | S fuel' =>
      let! r := recv n input in
      match r.1 with
      | Got bs => Ok (Some bs, r.2)
      | Interrupted => recv_retry fuel' n r.2
      | Failed => Ok (None, r.2)
      end
  end.

(** The outer loop: [n] more bytes are wanted. *)
Fixpoint read_bytes (fuel : nat) (n : nat) (input : list rx) : res (option (list Z) * list rx) :=
  match n with
  | O => Ok (Some [], input)
  | S _ =>
      match fuel with
      | O => Fault Diverges
      | S fuel' =>
          let! r := recv_retry fuel n input in
          match r.1 with
          | None => Ok (None, r.2)
          | Some bs =>
              let! r' := read_bytes fuel' (n - length bs) r.2 in
              Ok ((fun bs' => bs ++ bs') <$> r'.1, r'.2)
          end
      end
  end.

(** ** The session *)
Class Net := {
  (** [send(fd, buf, n, 0)] *)
  net_send : nat -> Z -> Z;
  (** [gethostbyname]: whether the server's name has an address *)
  net_resolves : list Z -> bool;
  (** whether [socket] gives a socket *)
  net_socket : bool;
  (** whether [connect] to the port of that server succeeds *)
  net_connects : Z -> list Z -> bool;
  (** the contents of the file "auth_key" *)
  net_auth_key : option (list Z);
  (** whether [fopen] opens a file of that name for writing *)
  net_fopen_w : list Z -> bool }.

Record session := Session {
  sr : world;
  input : list rx;
  sock_open : bool;
  rtable_file : option (list Z * list Z);  (** the routing table file written *)
  user : list Z;
  host : list Z;
  template : list Z;
  topo_id : Z }.

Definition set_sr (s : session) (w : world) : session :=
  Session w (input s) (sock_open s) (rtable_file s) (user s) (host s) (template s) (topo_id s).
Definition set_input (s : session) (i : list rx) : session :=
  Session (sr s) i (sock_open s) (rtable_file s) (user s) (host s) (template s) (topo_id s).

Definition on_world {A} (m : M A) : ST session A :=
  fun s => match m (sr s) with Ok (a, w) => Ok (a, set_sr s w) | Fault f => Fault f end.
Definition read_stream (fuel n : nat) : ST session (option (list Z)) :=
  fun s => match read_bytes fuel n (input s) with
           | Ok (a, i) => Ok (a, set_input s i)
           | Fault f => Fault f
           end.
Definition set_sock (s : session) (b : bool) : session :=
  Session (sr s) (input s) b (rtable_file s) (user s) (host s) (template s) (topo_id s).
Definition close_socket : ST session unit := smodify (fun s => set_sock s false).
Definition write_rtable (name contents : list Z) : ST session unit :=
  smodify (fun s => Session (sr s) (input s) (sock_open s) (Some (name, contents)) (user s) (host s)
                      (template s) (topo_id s)).

(** A new [struct sr_if], as [malloc] leaves it. *)
Definition fresh_if (junk : list Z) : sr_if :=
  let b := malloc junk 56 in
  SrIf (take 32 b) (take 6 (drop 32 b)) (le_word (take 4 (drop 40 b))) (le_word (take 4 (drop 44 b))).

Section OS.
Context {os : OS} {net : Net}.

(** ** The commands *)

Definition update_ifs (f : list Z -> list sr_if -> res (list sr_if)) : M unit :=
  do! w := sget in
  do! ifs := slift (f (os_malloc (ticks w)) (if_list w)) in
  smodify (fun w => set_ifs w ifs).

(** The [switch] of [sr_handle_hwinfo]. *)
Definition hw_switch (key : Z) (value : list Z) : M unit :=
  if key =? HWFIXEDIP then sret tt
  else if key =? HWINTERFACE then
    update_ifs (fun junk ifs => sr_add_interface (fresh_if junk) ifs value)
  else if key =? HWSPEED then sret tt
  else if key =? HWSUBNET then sret tt
  else if key =? HWMASK then sret tt
  else if key =? HWETHIP then
    do! ip := slift (load32 value 0) in
    update_ifs (fun _ ifs => sr_set_ether_ip ifs ip)
  else if key =? HWETHER then
    update_ifs (fun _ ifs => sr_set_ether_addr ifs value)
  else sret tt.

(** One turn of its loop, at the entry at [entry]. *)
Definition hw_entry (hwinfo : list Z) (entry : nat) : M unit :=
  do! key := slift (load32 hwinfo (entry + HwEntry.mKey)) in
  do! value := slift (from hwinfo (entry + HwEntry.value)) in
  hw_switch (ntohl key) value.

Definition sr_handle_hwinfo (hwinfo : list Z) : M Z :=
  do! mLen := slift (load32 hwinfo Base.mLen) in
  (* the subtraction and the division are in [size_t], the result in [int] *)
  let num_entries := s32 ((ntohl mLen - 2 * 4) mod 2 ^ 64 / Z.of_nat HwEntry.size) in
  run! siter (fun i => hw_entry hwinfo (Base.size + i * HwEntry.size)) (seq 0 (Z.to_nat num_entries)) in
  do! w := sget in
  do! _ := slift (sr_print_if_list (if_list w)) in
  sret num_entries.

Definition sr_handle_rtable (rtable : list Z) : ST session Z :=
  (* fn has room for "rtable.", 32 characters and the NUL *)
  do! id := slift (from rtable Rtable.mVirtualHostID) in
  do! name := slift (cstring id) in
  if (IDSIZE <? length name)%nat then sfault OutOfBounds
  else
    let fn := [114; 116; 97; 98; 108; 101; 46] ++ name in
    if net_fopen_w fn then
      do! mLen := slift (load32 rtable Base.mLen) in
      let n := u32 (ntohl mLen - 8 - Z.of_nat IDSIZE) in
      if Z.of_nat (length rtable) <? Z.of_nat Rtable.rtable + n then sfault OutOfBounds
      else
        do! contents := slift (load rtable Rtable.rtable (Z.to_nat n)) in
        run! write_rtable fn contents in
        sret 1
    else sret 0.

Definition AUTH_KEY_LEN : nat := 64.
Definition SHA1_LEN : nat := 20.

Definition fresh_sha1 (junk : list Z) : SHA1Context :=
  SHA1Ctx [] 0 0 (malloc junk 64) 0 false false.

(** The reply built around the digest. *)
Definition auth_reply (junk user : list Z) (digest : list Z) : res (list Z * Z) :=
  let! len_username := strlen user in
  let len := (AuthReply.size + len_username + SHA1_LEN)%nat in
  let buf := malloc junk len in
  let! buf := store32 buf Base.mLen (htonl (Z.of_nat len)) in
  let! buf := store32 buf Base.mType (htonl VNS_AUTH_REPLY) in
  let! buf := store32 buf AuthReply.usernameLen (htonl (Z.of_nat len_username)) in
  let! name := cstring user in
  let! buf := store buf AuthReply.username (name ++ [0]) in
  let digest := map htonl digest in
  let! buf := store buf (AuthReply.username + len_username) (mjoin (map le_bytes4 digest)) in
  Ok (buf, Z.of_nat len).

(** [send]: the message and its result are recorded. *)
Definition send (buf : list Z) (len : Z) : M Z :=
  do! k := tick in
  let ret := net_send k len in
  run! emit (Write buf ret) in
  sret ret.

Definition sr_handle_auth_request (user req : list Z) : M Z :=
  do! w := sget in
  let junk := os_malloc (ticks w) in
  match net_auth_key with
  | None => sret 0
  | Some fp =>
      match fst (fgets AUTH_KEY_LEN fp) with
      | [] => sret 0
      | line =>
          do! auth_key := slift (store (malloc junk (AUTH_KEY_LEN + 1)) 0 (line ++ [0])) in
          do! mLen := slift (load32 req Base.mLen) in
          do! salt := slift (from req Base.size) in
          do! sha1 := slift (SHA1Input (SHA1Reset (fresh_sha1 junk)) salt
                               (Z.to_nat (u32 (ntohl mLen - Z.of_nat Base.size)))) in
          do! sha1 := slift (SHA1Input sha1 auth_key AUTH_KEY_LEN) in
          do! r := slift (SHA1Result sha1) in
          if negb r.1 then sret 0
          else
            do! m := slift (auth_reply junk user (Message_Digest r.2)) in
            do! sent := send m.1 m.2 in
            if negb (sent =? m.2) then sret 0 else sret 1
      end
  end.

(** Both branches print the user name. *)
Definition sr_handle_auth_status (user status : list Z) : M Z :=
  do! auth_ok := slift (load8 status AuthStatus.auth_ok) in
  do! _ := slift (cstring user) in
  if auth_ok =? 0 then
    do! msg := slift (from status AuthStatus.msg) in
    do! _ := slift (cstring msg) in
    sret auth_ok
  else sret auth_ok.

(** Returns true when the frame is an ARP request for another address. *)
Definition sr_arp_req_not_for_us (packet : list Z) (len : Z) (interface : list Z) : M bool :=
  do! w := sget in
  do! iface := slift (sr_get_interface (if_list w) interface) in
  if len <? Z.of_nat (Eth.size + Arp.size) then sret false
  else
    do! i := slift (of_option AssertFailure iface) in
    do! type := slift (load16 packet Eth.ether_type) in
    if negb (type =? htons ethertype_arp) then sret false
    else
      do! op := slift (load16 packet (Eth.size + Arp.ar_op)) in
      if negb (op =? htons arp_op_request) then sret false
      else
        do! tip := slift (load32 packet (Eth.size + Arp.ar_tip)) in
        sret (negb (tip =? if_ip i)).

(** The VNSPACKET branch. *)
Definition handle_vnspacket (buf : list Z) (len : Z) : M unit :=
  do! packet := slift (from buf PktHdr.size) in
  do! interface := slift (from buf Base.size) in
  let plen := u32 (len - Z.of_nat (PktHdr.size + Eth.size) + Z.of_nat Eth.size) in
  do! not_for_us := sr_arp_req_not_for_us packet plen interface in
  if not_for_us then sret tt
  else
    do! mLen := slift (load32 buf Base.mLen) in
    run! sr_log_packet packet (s32 (ntohl mLen - Z.of_nat PktHdr.size)) in
    sr_handlepacket packet plen interface.

(** ** sr_read_from_server_expect *)

(** The first half: a whole command from the stream; [None] is the return
    value -1.  Its type is left in host order, as the code does. *)
Definition read_command (fuel : nat) : ST session (option (list Z * Z)) :=
  do! r := read_stream fuel 4 in
  match r with
  | None => sret None
  | Some word =>
      let len := s32 (ntohl (le_word word)) in
      if (10000 <? len) || (len <? 0) then run! close_socket in sret None
      else
        do! s := sget in
        let buf := malloc (os_malloc (ticks (sr s))) (Z.to_nat len) in
        do! buf := slift (store32 buf 0 (htonl len)) in
        do! r := read_stream fuel (Z.to_nat (len - 4)) in
        match r with
        | None => run! close_socket in sret None
        | Some body =>
            do! buf := slift (store buf 4 body) in
            sret (Some (buf, len))
        end
  end.

(** The second half: the [switch]. *)
Definition dispatch (buf : list Z) (len command : Z) : ST session Z :=
  if command =? VNSPACKET then run! on_world (handle_vnspacket buf len) in sret 1
  else if command =? VNSCLOSE then
    do! msg := slift (from buf Base.size) in
    do! _ := slift (cstring msg) in
    sret 0
  else if command =? VNSBANNER then
    do! msg := slift (from buf Base.size) in
    do! _ := slift (cstring msg) in
    sret 1
  else if command =? VNSHWINFO then
    do! _ := on_world (sr_handle_hwinfo buf) in
    do! s := sget in
    do! bad := slift (sr_verify_routing_table (if_list (sr s)) (routing_table (sr s))) in
    if negb (bad =? 0) then sret (-1) else sret 1
  else if command =? VNS_RTABLE then
    do! ok := sr_handle_rtable buf in
    sret (if ok =? 0 then -1 else 1)
  else if command =? VNS_AUTH_REQUEST then
    do! s := sget in
    do! ok := on_world (sr_handle_auth_request (user s) buf) in
    sret (if ok =? 0 then -1 else 1)
  else if command =? VNS_AUTH_STATUS then
    do! s := sget in
    do! ok := on_world (sr_handle_auth_status (user s) buf) in
    sret (if ok =? 0 then -1 else 1)
  else sret 1.

(** What follows the reading. *)
Definition obey_command (expected_cmd : Z) (c : option (list Z * Z)) : ST session Z :=
  match c with
  | None => sret (-1)
  | Some (buf, len) =>
      do! type := slift (load32 buf Base.mType) in
      let command := s32 (ntohl type) in
      do! buf := slift (store32 buf Base.mType command) in
      if negb (expected_cmd =? 0) && negb (command =? expected_cmd) && negb (command =? VNSCLOSE)
      then sret (-1)
      else dispatch buf len command
  end.

Definition sr_read_from_server_expect (fuel : nat) (expected_cmd : Z) : ST session Z :=
  do! c := read_command fuel in
  obey_command expected_cmd c.

Definition sr_read_from_server (fuel : nat) : ST session Z := sr_read_from_server_expect fuel 0.

(** ** sr_connect_to_server *)

(** The opening message and its length. *)
Definition open_template_message (junk template host : list Z) : res (list Z) :=
  let ot := malloc junk OpenTemplate.size in
  let! ot := store32 ot Base.mLen (htonl (Z.of_nat OpenTemplate.size)) in
  let! ot := store32 ot Base.mType (htonl VNS_OPEN_TEMPLATE) in
  let! name := strncpy 30 template in
  let! ot := store ot OpenTemplate.templateName name in
  let! id := strncpy IDSIZE host in
  store ot OpenTemplate.mVirtualHostID id.

Definition open_message (topo : Z) (host user : list Z) : res (list Z) :=
  let command := calloc Open.size in
  let! command := store32 command Base.mLen (htonl (Z.of_nat Open.size)) in
  let! command := store32 command Base.mType (htonl VNSOPEN) in
  let! command := store16 command Open.topoID (htons topo) in
  let! id := strncpy IDSIZE host in
  let! command := store command Open.mVirtualHostID id in
  let! uid := strncpy IDSIZE user in
  store command Open.mUID uid.

(** The second half: the opening message, and the table of a template. *)
Definition open_session (fuel : nat) : ST session Z :=
  do! s := sget in
  do! n := slift (strlen (template s)) in
  do! buf := slift (if (0 <? n)%nat
                    then open_template_message (os_malloc (ticks (sr s))) (template s) (host s)
                    else open_message (topo_id s) (host s) (user s)) in
  do! sent := on_world (send buf (Z.of_nat (length buf))) in
  if negb (sent =? Z.of_nat (length buf)) then sret (-1)
  else if (0 <? n)%nat then
    do! r := sr_read_from_server_expect fuel VNS_RTABLE in
    if negb (r =? 1) then sret (-1) else sret 0
  else sret 0.

(** [port] is an unsigned short.  The socket is closed when [connect] fails,
    and left open when anything later does. *)
Definition sr_connect_to_server (fuel : nat) (port : Z) (server : list Z) : ST session Z :=
  if negb (net_resolves server) then sret (-1)
  else if negb net_socket then sret (-1)
  else
    run! smodify (fun s => set_sock s true) in
    if negb (net_connects port server) then run! close_socket in sret (-1)
    else
      do! r := sr_read_from_server_expect fuel VNS_AUTH_REQUEST in
      if negb (r =? 1) then sret (-1)
      else
        do! r := sr_read_from_server_expect fuel VNS_AUTH_STATUS in
        if negb (r =? 1) then sret (-1) else open_session fuel.
End OS.
