(* ===== verification/VnsSpec.v ===== *)
(** * VnsSpec: what the connection to the server does

    Reading a command does not depend on how the stream cuts it up, and never
    ends once the server is gone; then one section per command: the hardware
    description builds the interface list, the authentication reply carries the
    salted hash, a packet reaches [sr_handlepacket], and a session that starts
    well stays well. *)

From S2P Require Import Prelude Memory Protocol Utils Iface Rt ArpCache World ArpHandler Router RouterSpec Handlers Safety Sha1 Vns.

(** ** The stream *)

(** [delivers i m rest]: reading on from [i] yields the bytes [m], with signals
    in between, and leaves [rest]. *)
Inductive delivers : list rx -> list Z -> list rx -> Prop :=
| dl_done rest : delivers rest [] rest
| dl_eintr i m rest : m <> [] -> delivers i m rest -> delivers (Eintr :: i) m rest
| dl_data bs i m rest : bs <> [] -> delivers i m rest -> delivers (Data bs :: i) (bs ++ m) rest
| dl_split bs bs' i : bs <> [] -> bs' <> [] -> delivers (Data (bs ++ bs') :: i) bs (Data bs' :: i).

Lemma delivers_nil i rest : delivers i [] rest -> i = rest.
Proof.
  remember [] as m eqn:E. intros H. destruct H as [| |bs i m rest Hbs H|]; try done.
  by apply app_eq_nil in E as [-> _].
Qed.

Lemma delivers_app i a b rest :
  delivers i (a ++ b) rest -> exists mid, delivers i a mid /\ delivers mid b rest.
Proof.
  remember (a ++ b) as m eqn:E. intros H. revert a b E.
  induction H as [rest|i m rest Hm H IH|bs i m rest Hbs H IH|bs bs' i Hbs Hbs']; intros a b E.
  - symmetry in E. apply app_eq_nil in E as [-> ->]. exists rest. split; constructor.
  - subst m. destruct (IH a b eq_refl) as (mid & Ha & Hb). destruct a as [|x a].
    + exists (Eintr :: i). split; [constructor|by constructor].
    + exists mid. split; [by constructor|done].
  - apply app_eq_app in E as (l & [[-> ->]|[-> ->]]).
    + destruct l as [|x l].
      * exists i. rewrite app_nil_r in *. split; [|done].
        rewrite <- (app_nil_r a) at 2. constructor; [done|constructor].
      * destruct a as [|y a].
        -- exists (Data (x :: l) :: i). split; [constructor|by constructor].
        -- exists (Data (x :: l) :: i). split; [by apply (dl_split (y :: a) (x :: l))|by constructor].
    + destruct (IH l b eq_refl) as (mid & Ha & Hb). exists mid. split; [by constructor|done].
  - subst bs. destruct b as [|x b].
    + rewrite app_nil_r in *. exists (Data bs' :: i). split; [by constructor|constructor].
    + destruct a as [|y a].
      * exists (Data ((x :: b) ++ bs') :: i). split; [constructor|by constructor].
      * exists (Data ((x :: b) ++ bs') :: i). split; [|by constructor].
        rewrite <- app_assoc. by apply (dl_split (y :: a) ((x :: b) ++ bs')).
Qed.

Definition no_data (i : list rx) : Prop := match i with Data _ :: _ => False | _ => True end.

Lemma recv_split bs bs' i :
  bs' <> [] -> recv (length bs) (Data (bs ++ bs') :: i) = Ok (Got bs, Data bs' :: i).
Proof.
  intros Hbs'. assert (Hl : (0 < length bs')%nat) by (destruct bs'; [done|simpl; lia]).
  cbn [recv]. rewrite (proj2 (Nat.leb_gt _ _)) by (rewrite length_app; lia).
  by rewrite take_app_length, drop_app_length.
Qed.

(** Skipping the signals, the next piece arrives. *)
Lemma recv_retry_delivers i m rest n fuel :
  delivers i m rest -> m <> [] -> (length m <= n)%nat -> length m = n \/ no_data rest ->
  (length i < fuel)%nat ->
  exists bs m' i', recv_retry fuel n i = Ok (Some bs, i') /\ m = bs ++ m' /\ bs <> []
    /\ delivers i' m' rest /\ (m' = [] \/ (length i' < length i)%nat).
Proof.
  intros H Hm Hn Hor Hf. revert fuel Hf.
  induction H as [rest|i m rest _ H IH|bs i m rest Hbs H IH|bs bs' i Hbs Hbs']; intros [|fuel] Hf;
    simpl in Hf; try lia; [done| | |].
  - destruct (IH Hm Hn Hor fuel ltac:(lia)) as (bs & m' & i' & E & H1 & H2 & H3 & H4).
    exists bs, m', i'. split_and!; try done. simpl. destruct H4; [by left|right; lia].
  - cbn [recv_retry recv]. rewrite length_app in Hn. rewrite (proj2 (Nat.leb_le _ _)) by lia.
    exists bs, m, i. split_and!; try done. right. simpl. lia.
  - destruct Hor as [<-|[]]. cbn [recv_retry]. rewrite recv_split by done. cbn [bind fst snd].
    exists bs, [], (Data bs' :: i). rewrite app_nil_r.
    split; [done|]. split; [done|]. split; [done|]. split; [constructor|by left].
Qed.

(** A command in any number of pieces is read whole, and no more. *)
Lemma read_bytes_delivers fuel : forall i m rest,
  delivers i m rest -> (length i < fuel)%nat -> read_bytes fuel (length m) i = Ok (Some m, rest).
Proof.
  induction fuel as [|fuel IH]; intros i m rest H Hf; [lia|].
  destruct m as [|x m].
  { by rewrite (delivers_nil _ _ H). }
  destruct (recv_retry_delivers i (x :: m) rest (length (x :: m)) (S fuel) H ltac:(done) ltac:(lia) ltac:(by left) Hf)
    as (bs & m' & i' & E & Em & Hbs & H' & Hsh).
  assert (Hgo : read_bytes (S fuel) (length (x :: m)) i
    = let! r := recv_retry (S fuel) (length (x :: m)) i in
      match r.1 with None => Ok (None, r.2)
      | Some bs => let! r' := read_bytes fuel (length (x :: m) - length bs) r.2 in
                   Ok ((fun bs' => bs ++ bs') <$> r'.1, r'.2) end) by done.
  rewrite Hgo, E, Em, length_app. cbn [bind fst snd].
  replace (length bs + length m' - length bs)%nat with (length m') by lia.
  destruct Hsh as [->|Hsh].
  - assert (Hr : read_bytes fuel 0 i' = Ok (Some [], i')) by by destruct fuel. cbn [length].
    by rewrite Hr, (delivers_nil _ _ H').
  - rewrite (IH i' m' rest H') by lia. done.
Qed.

(** Once the server is gone in the middle of a command, reading never ends. *)
Lemma recv_retry_eof k n r fuel :
  recv_retry fuel n (replicate k Eintr ++ Eof :: r) = Fault Diverges
  \/ recv_retry fuel n (replicate k Eintr ++ Eof :: r) = Ok (Some [], Eof :: r).
Proof.
  revert fuel. induction k as [|k IH]; intros [|fuel]; [by left|by right|by left|]. apply IH.
Qed.

Lemma read_bytes_eof fuel : forall k n r,
  (0 < n)%nat -> read_bytes fuel n (replicate k Eintr ++ Eof :: r) = Fault Diverges.
Proof.
  induction fuel as [|fuel IH]; intros k [|n] r Hn; try lia; [done|].
  cbn [read_bytes]. destruct (recv_retry_eof k (S n) r (S fuel)) as [E|E]; rewrite E; [done|].
  cbn [bind fst snd]. rewrite Nat.sub_0_r. pose proof (IH 0%nat (S n) r ltac:(lia)) as E0.
  cbn [length] in *. rewrite ?Nat.sub_0_r. simpl in E0 |- *. by rewrite E0.
Qed.

(** With too little fuel for the signals, reading diverges too. *)
Lemma recv_retry_small i m rest n fuel :
  delivers i m rest -> m <> [] -> (length m <= n)%nat -> length m = n \/ no_data rest ->
  recv_retry fuel n i = Fault Diverges
  \/ exists bs m' i', recv_retry fuel n i = Ok (Some bs, i') /\ m = bs ++ m' /\ bs <> []
       /\ delivers i' m' rest.
Proof.
  intros H Hm Hn Hor. revert fuel.
  induction H as [rest|i m rest _ H IH|bs i m rest Hbs H IH|bs bs' i Hbs Hbs']; intros [|fuel];
    try (by left); [by apply IH| |]; right.
  - cbn [recv_retry recv]. rewrite length_app in Hn. rewrite (proj2 (Nat.leb_le _ _)) by lia.
    by exists bs, m, i.
  - destruct Hor as [<-|[]]. cbn [recv_retry]. rewrite recv_split by done. cbn [bind fst snd].
    exists bs, [], (Data bs' :: i). rewrite app_nil_r.
    split; [done|]. split; [done|]. split; [done|constructor].
Qed.

Lemma read_bytes_either fuel : forall i m rest,
  delivers i m rest ->
  read_bytes fuel (length m) i = Fault Diverges \/ read_bytes fuel (length m) i = Ok (Some m, rest).
Proof.
  induction fuel as [|fuel IH]; intros i [|x m] rest H;
    try (right; by rewrite (delivers_nil _ _ H)); [by left|].
  cbn [length read_bytes].
  destruct (recv_retry_small i (x :: m) _ (S (length m)) (S fuel) H ltac:(done) ltac:(simpl; lia) ltac:(by left))
    as [E|(bs & m' & i' & E & Em & Hbs & H')]; rewrite E; [by left|]. cbn [bind fst snd].
  apply (f_equal length) in Em as Hl. rewrite length_app in Hl. cbn [length] in Hl.
  replace (S (length m) - length bs)%nat with (length m') by lia.
  destruct (IH i' m' rest H') as [E'|E']; rewrite E'; [by left|right]. by rewrite Em.
Qed.

Lemma read_bytes_spins fuel : forall i m n k r,
  delivers i m (replicate k Eintr ++ Eof :: r) -> (length m < n)%nat ->
  read_bytes fuel n i = Fault Diverges.
Proof.
  induction fuel as [|fuel IH]; intros i m [|n] k r H Hn; try lia; [done|].
  destruct m as [|x m].
  { rewrite (delivers_nil _ _ H). apply read_bytes_eof. lia. }
  cbn [read_bytes].
  assert (Hnd : no_data (replicate k Eintr ++ Eof :: r)) by by destruct k.
  destruct (recv_retry_small i (x :: m) _ (S n) (S fuel) H ltac:(done) ltac:(lia) (or_intror Hnd))
    as [E|(bs & m' & i' & E & Em & Hbs & H')]; rewrite E; [done|].
  assert (Hl : (0 < length bs)%nat) by (destruct bs; [done|simpl; lia]).
  rewrite Em, length_app in Hn. cbn [bind fst snd].
  by rewrite (IH i' m' (S n - length bs)%nat k r H') by lia.
Qed.

Lemma delivers_length i m rest : delivers i m rest -> (length rest <= length i)%nat.
Proof. induction 1; simpl; lia. Qed.

(** ** Reading a command *)

(** A command as it is sent, and as the handlers get it: its type in the byte
    order of the host. *)
Definition command_bytes (command : Z) (body : list Z) : list Z :=
  be_bytes4 (8 + Z.of_nat (length body)) ++ be_bytes4 command ++ body.
Definition received_bytes (command : Z) (body : list Z) : list Z :=
  be_bytes4 (8 + Z.of_nat (length body)) ++ le_bytes4 command ++ body.

Lemma ntohl_be4 z : u32_ok z -> ntohl (le_word (be_bytes4 z)) = z.
Proof.
  intros H. unfold ntohl. rewrite <- le_bytes4_htonl, le_word_bytes4. unfold u32.
  rewrite Z.mod_small by apply htonl_range. rewrite htonl_involutive. by apply Z.mod_small.
Qed.

Lemma length_be4 z : length (be_bytes4 z) = 4%nat.
Proof. done. Qed.
Lemma length_le4 z : length (le_bytes4 z) = 4%nat.
Proof. done. Qed.

Section Read.
Context {os : OS} {net : Net}.

Lemma read_stream_ok fuel s m rest :
  delivers (input s) m rest -> (length (input s) < fuel)%nat ->
  read_stream fuel (length m) s = Ok (Some m, set_input s rest).
Proof. intros H Hf. unfold read_stream. by rewrite (read_bytes_delivers fuel _ _ _ H Hf). Qed.

Lemma read_command_ok fuel s command body rest :
  Z.of_nat (length body) <= 9992 -> delivers (input s) (command_bytes command body) rest ->
  (length (input s) < fuel)%nat ->
  read_command fuel s
  = Ok (Some (command_bytes command body, 8 + Z.of_nat (length body)), set_input s rest).
Proof.
  intros Hl Hd Hf. unfold read_command, command_bytes in *.
  set (n := 8 + Z.of_nat (length body)) in *. apply delivers_app in Hd as (mid & H1 & H2).
  pose proof (read_stream_ok fuel s _ _ H1 Hf) as E1. rewrite length_be4 in E1.
  rewrite (sbind_step _ _ _ _ _ E1), ntohl_be4 by (unfold u32_ok; lia). rewrite s32_small by lia.
  rewrite (proj2 (Z.ltb_ge 10000 n)), (proj2 (Z.ltb_ge n 0)) by lia. cbn [orb].
  set (s1 := set_input s mid). rewrite sget_step.
  set (b := malloc _ (Z.to_nat n)). assert (Hb : length b = Z.to_nat n) by apply malloc_length.
  clearbody b. destruct (split_at b 4 ltac:(lia)) as (b1 & b2 & -> & Hb1). rewrite length_app in Hb.
  unfold store32. rewrite le_bytes4_htonl. set (tl := be_bytes4 command ++ body) in *.
  assert (Htl : length tl = Z.to_nat (n - 4)) by (unfold tl; rewrite length_app, length_be4; lia).
  rewrite (sbind_step _ _ _ _ _ (slift_step _ _ s1 (store_at [] b1 b2 0 (be_bytes4 n) eq_refl Hb1))).
  assert (Hf1 : (length (input s1) < fuel)%nat) by (cbn; pose proof (delivers_length _ _ _ H1); lia).
  pose proof (read_stream_ok fuel s1 tl rest H2 Hf1) as E2. rewrite Htl in E2.
  rewrite (sbind_step _ _ _ _ _ E2). cbn [app].
  rewrite (sbind_step _ _ _ _ _ (slift_step _ _ _ (store_at_end (be_bytes4 n) b2 4 tl eq_refl ltac:(lia)))).
  done.
Qed.

(** The server closes the connection before the whole command has arrived. *)
Lemma closed_spins fuel s command body m k r expected :
  Z.of_nat (length body) <= 9992 -> m `prefix_of` command_bytes command body ->
  (length m < length (command_bytes command body))%nat ->
  delivers (input s) m (replicate k Eintr ++ Eof :: r) ->
  sr_read_from_server_expect fuel expected s = Fault Diverges.
Proof.
  intros Hl [tl Htl] Hlt Hd. unfold sr_read_from_server_expect, read_command. rewrite sbind_assoc.
  destruct (Nat.lt_ge_cases (length m) 4) as [H4|H4].
  { apply sbind_fault. unfold read_stream. by rewrite (read_bytes_spins fuel _ m 4 k r Hd H4). }
  destruct (split_at m 4 H4) as (w & m2 & -> & Hw). unfold command_bytes in Htl, Hlt.
  rewrite <- app_assoc in Htl. apply app_inj_1 in Htl as [<- Htl]; [|done].
  set (n := 8 + Z.of_nat (length body)) in *.
  apply delivers_app in Hd as (mid & H1 & H2). unfold read_stream at 1.
  destruct (read_bytes_either fuel _ _ _ H1) as [E|E]; rewrite Hw in E.
  { apply sbind_fault. by rewrite E. }
  erewrite sbind_step by (rewrite E; done). cbv beta iota.
  rewrite ntohl_be4, s32_small by (unfold u32_ok; lia).
  rewrite (proj2 (Z.ltb_ge 10000 n)), (proj2 (Z.ltb_ge n 0)) by lia. cbn [orb].
  set (s1 := set_input s mid). rewrite sbind_assoc, sget_step.
  set (b := malloc _ (Z.to_nat n)). assert (Hb : length b = Z.to_nat n) by apply malloc_length.
  clearbody b. rewrite sbind_assoc. unfold store32.
  erewrite sbind_step by (apply slift_step, store_ok; rewrite length_le4; lia).
  rewrite sbind_assoc. apply sbind_fault. unfold read_stream.
  rewrite !length_app, !length_be4 in Hlt.
  change (input s1) with mid. by rewrite (read_bytes_spins fuel _ m2 (Z.to_nat (n - 4)) k r H2) by lia.
Qed.

(** Its type, which the code leaves in the buffer in host order. *)
Lemma command_type command body :
  0 <= command < 2147483648 ->
  exists t, load32 (command_bytes command body) Base.mType = Ok t /\ s32 (ntohl t) = command
    /\ store32 (command_bytes command body) Base.mType command = Ok (received_bytes command body).
Proof.
  intros Hc. exists (le_word (be_bytes4 command)).
  pose proof (load_at (be_bytes4 (8 + Z.of_nat (length body))) (be_bytes4 command) body 4 4 eq_refl eq_refl) as El.
  split_and!.
  - unfold command_bytes, load32, Base.mType, Base.mLen. cbn [Nat.add]. by rewrite (bind_step _ _ _ El).
  - by rewrite ntohl_be4, s32_small by (unfold u32_ok; lia).
  - apply (store_at (be_bytes4 (8 + Z.of_nat (length body))) (be_bytes4 command) body 4 (le_bytes4 command) eq_refl eq_refl).
Qed.

Lemma obey_command_ok s command body expected :
  0 <= command < 2147483648 -> expected = 0 \/ command = expected \/ command = VNSCLOSE ->
  obey_command expected (Some (command_bytes command body, 8 + Z.of_nat (length body))) s
  = dispatch (received_bytes command body) (8 + Z.of_nat (length body)) command s.
Proof.
  intros Hc Hexp. destruct (command_type command body Hc) as (t & E1 & E2 & E3). unfold obey_command.
  rewrite (sbind_step _ _ _ _ _ (slift_step _ _ s E1)), E2, (sbind_step _ _ _ _ _ (slift_step _ _ s E3)).
  replace (negb (expected =? 0) && negb (command =? expected) && negb (command =? VNSCLOSE)) with false; [done|].
  symmetry. rewrite <- !negb_orb. apply negb_false_iff.
  destruct Hexp as [->|[->| ->]]; rewrite ?Z.eqb_refl, ?orb_true_r; done.
Qed.

(** What [sr_read_from_server_expect] does with the command it read. *)
Lemma expect_ok fuel s command body rest expected :
  Z.of_nat (length body) <= 9992 -> 0 <= command < 2147483648 ->
  expected = 0 \/ command = expected \/ command = VNSCLOSE ->
  delivers (input s) (command_bytes command body) rest -> (length (input s) < fuel)%nat ->
  sr_read_from_server_expect fuel expected s
  = dispatch (received_bytes command body) (8 + Z.of_nat (length body)) command (set_input s rest).
Proof.
  intros Hl Hc Hexp Hd Hf. unfold sr_read_from_server_expect.
  rewrite (sbind_step _ _ _ _ _ (read_command_ok fuel s command body rest Hl Hd Hf)).
  by apply obey_command_ok.
Qed.

(** A length the code refuses: the session is over. *)
Lemma bad_length fuel s n rest expected :
  u32_ok n -> 10000 < s32 n \/ s32 n < 0 -> delivers (input s) (be_bytes4 n) rest ->
  (length (input s) < fuel)%nat ->
  exists s', sr_read_from_server_expect fuel expected s = Ok (-1, s') /\ sock_open s' = false
    /\ sr s' = sr s.
Proof.
  intros Hn Hbad Hd Hf. unfold sr_read_from_server_expect, read_command.
  pose proof (read_stream_ok fuel s _ _ Hd Hf) as E1. rewrite length_be4 in E1.
  eexists. rewrite sbind_assoc, (sbind_step _ _ _ _ _ E1), ntohl_be4 by done.
  replace ((10000 <? s32 n) || (s32 n <? 0)) with true.
  2:{ symmetry. apply orb_true_iff. rewrite !Z.ltb_lt. done. }
  done.
Qed.

(** A command shorter than its own header makes the code write or read
    outside the block. *)
Lemma short_command fuel s n body rest expected :
  0 <= n < 8 -> length body = Z.to_nat (n - 4) -> delivers (input s) (be_bytes4 n ++ body) rest ->
  (length (input s) < fuel)%nat ->
  sr_read_from_server_expect fuel expected s = Fault OutOfBounds.
Proof.
  intros Hn Hb Hd Hf. unfold sr_read_from_server_expect, read_command.
  apply delivers_app in Hd as (mid & H1 & H2).
  pose proof (read_stream_ok fuel s _ _ H1 Hf) as E1. rewrite length_be4 in E1.
  rewrite sbind_assoc, (sbind_step _ _ _ _ _ E1), ntohl_be4, s32_small by (unfold u32_ok; lia).
  rewrite (proj2 (Z.ltb_ge 10000 n)), (proj2 (Z.ltb_ge n 0)) by lia. cbn [orb]. rewrite sbind_assoc.
  set (s1 := set_input s mid). rewrite sget_step, sbind_assoc.
  set (b := malloc _ (Z.to_nat n)). assert (Hbl : length b = Z.to_nat n) by apply malloc_length. clearbody b.
  unfold store32. rewrite le_bytes4_htonl. destruct (Z_lt_le_dec n 4).
  { unfold slift. rewrite store_oob by (rewrite length_be4; lia). done. }
  destruct (split_at b 4 ltac:(lia)) as (b1 & b2 & -> & Hb1). rewrite length_app in Hbl.
  rewrite (sbind_step _ _ _ _ _ (slift_step _ _ s1 (store_at [] b1 b2 0 (be_bytes4 n) eq_refl Hb1))).
  assert (Hf1 : (length (input s1) < fuel)%nat) by (cbn; pose proof (delivers_length _ _ _ H1); lia).
  pose proof (read_stream_ok fuel s1 body rest H2 Hf1) as E2. rewrite Hb in E2.
  rewrite sbind_assoc, (sbind_step _ _ _ _ _ E2), sbind_assoc. cbn [app].
  rewrite (sbind_step _ _ _ _ _ (slift_step _ _ _ (store_at_end (be_bytes4 n) b2 4 body eq_refl ltac:(lia)))).
  rewrite (sbind_step _ _ _ _ _ (eq_refl : sret _ _ = Ok (_, _))).
  unfold obey_command, load32, Base.mType, Base.mLen. unfold slift, sbind at 1. rewrite load_oob; [done|].
  rewrite length_app, length_be4. lia.
Qed.
End Read.

(** ** The hardware description *)

(** The entries that describe interfaces, each by its name, its address and
    its IP address; and a message of entries. *)
Definition describe_if (i : sr_if) : list (Z * list Z) :=
  [(HWINTERFACE, if_name i); (HWETHER, if_addr i ++ replicate 26 0);
   (HWETHIP, le_bytes4 (if_ip i) ++ replicate 28 0)].
Definition describe (ifs : list sr_if) : list (Z * list Z) := mjoin (describe_if <$> ifs).
Definition entries_bytes (es : list (Z * list Z)) : list Z :=
  mjoin ((fun e => be_bytes4 e.1 ++ e.2) <$> es).

(** The same interface, but for the speed, which nothing sets. *)
Definition same_if (i j : sr_if) : Prop :=
  if_name i = if_name j /\ if_addr i = if_addr j /\ if_ip i = if_ip j.

(** A name as the server sends it: padded with zeros after its end. *)
Record if_described (i : sr_if) : Prop := {
  ides_ok : sr_if_ok i;
  ides_name : strncpy sr_IFACE_NAMELEN (if_name i) = Ok (if_name i);
  ides_text : is_Ok (cstring (if_name i)) }.

Section HwInfo.
Context {os : OS}.

Lemma hw_switch_app key v post w :
  length v = 32%nat -> hw_switch key (v ++ post) w = hw_switch key v w.
Proof.
  intros Hv. unfold hw_switch, update_ifs, sr_add_interface, sr_set_ether_addr.
  rewrite strncpy_app by (rewrite Hv; done).
  assert (E4 : load32 (v ++ post) 0 = load32 v 0).
  { unfold load32. rewrite !load_ok by (rewrite ?length_app; lia).
    by rewrite !drop_0, take_app_le by lia. }
  assert (E6 : load (v ++ post) 0 6 = load v 0 6).
  { rewrite !load_ok by (rewrite ?length_app; lia). by rewrite !drop_0, take_app_le by lia. }
  by rewrite E4, E6.
Qed.

Lemma hw_entry_at pre key v post w :
  u32_ok key -> length v = 32%nat ->
  hw_entry (pre ++ be_bytes4 key ++ v ++ post) (length pre) w = hw_switch key v w.
Proof.
  intros Hk Hv. unfold hw_entry, HwEntry.value, HwEntry.mKey. cbn [Nat.add]. rewrite Nat.add_0_r.
  rewrite (sbind_step _ _ _ _ _ (slift_step _ _ w
    (load32_at pre (be_bytes4 key) (v ++ post) _ eq_refl eq_refl))).
  rewrite (app_assoc pre).
  rewrite (sbind_step _ _ _ _ _ (slift_step _ _ w (from_at (pre ++ be_bytes4 key) (v ++ post) (length pre + 4)
    ltac:(rewrite length_app; done)))).
  by rewrite ntohl_be4, hw_switch_app.
Qed.

(** The loop over the message is the loop over its entries. *)
Lemma hw_loop es : forall pre k w,
  Forall (fun e => u32_ok e.1 /\ length e.2 = 32%nat) es -> length pre = (Base.size + k * HwEntry.size)%nat ->
  siter (fun i => hw_entry (pre ++ entries_bytes es) (Base.size + i * HwEntry.size)) (seq k (length es)) w
  = siter (fun e => hw_switch e.1 e.2) es w.
Proof.
  induction es as [|[key v] es IH]; intros pre k w Hes Hpre; [done|].
  apply Forall_cons in Hes as [[Hk Hv] Hes]. cbn [fst snd] in *. cbn [length seq siter].
  change (entries_bytes ((key, v) :: es)) with ((be_bytes4 key ++ v) ++ entries_bytes es).
  unfold sbind at 1 2. rewrite <- Hpre at 1. rewrite <- (app_assoc (be_bytes4 key)).
  rewrite (hw_entry_at pre key v (entries_bytes es) w Hk Hv).
  cbn [fst snd]. destruct (hw_switch key v w) as [[[] w1]|]; [|done].
  rewrite <- (IH (pre ++ be_bytes4 key ++ v) (S k) w1 Hes).
  - by rewrite <- !app_assoc.
  - rewrite !length_app, Hpre, Hv, length_be4. unfold HwEntry.size, HwEntry.value, HwEntry.mKey. lia.
Qed.

(** Nothing but the interface list changed. *)
Record ifs_only (w w' : world) : Prop := {
  io_routes : routing_table w' = routing_table w; io_cache : cache w' = cache w;
  io_out : out w' = out w; io_log : logfile w' = logfile w; io_ticks : ticks w' = ticks w }.

#[export] Instance ifs_only_preorder : PreOrder ifs_only.
Proof. split; [intros w; by constructor|]. intros w1 w2 w3 [] []. constructor; congruence. Qed.

Lemma set_ether_addr_app ifs i addr :
  (6 <= length addr)%nat ->
  sr_set_ether_addr (ifs ++ [i]) addr
  = Ok (ifs ++ [SrIf (if_name i) (take 6 addr) (if_ip i) (if_speed i)]).
Proof.
  intros H. unfold sr_set_ether_addr. destruct (ifs ++ [i]) eqn:E; [by destruct ifs|]. rewrite <- E.
  rewrite (bind_step _ _ _ (load_ok addr 0 6 ltac:(lia))), drop_0. by rewrite update_last_app.
Qed.

(** The three entries of an interface add it to the list. *)
Lemma hw_interface w i :
  if_described i ->
  exists j w', siter (fun e => hw_switch e.1 e.2) (describe_if i) w = Ok (tt, w')
    /\ if_list w' = if_list w ++ [j] /\ same_if i j /\ ifs_only w w'.
Proof.
  intros [[_ Ha _ Hip] Hnm _]. unfold describe_if. cbn [siter fst snd].
  unfold hw_switch, update_ifs. cbn [Z.eqb Pos.eqb HWFIXEDIP HWINTERFACE HWSPEED HWSUBNET HWMASK HWETHIP HWETHER].
  set (u := fresh_if (os_malloc (ticks w))).
  set (n0 := SrIf (if_name i) (if_addr u) (if_ip u) (if_speed u)).
  set (n1 := SrIf (if_name i) (if_addr i) (if_ip u) (if_speed u)).
  set (n2 := SrIf (if_name i) (if_addr i) (if_ip i) (if_speed u)).
  exists n2, (set_ifs w (if_list w ++ [n2])).
  assert (E0 : sr_add_interface u (if_list w) (if_name i) = Ok (if_list w ++ [n0])).
  { unfold sr_add_interface. rewrite Hnm. cbn [bind]. by destruct (if_list w). }
  assert (E1 : sr_set_ether_addr (if_list w ++ [n0]) (if_addr i ++ replicate 26 0) = Ok (if_list w ++ [n1])).
  { rewrite set_ether_addr_app by (rewrite length_app; lia). by rewrite take_app_length'. }
  assert (E2 : sr_set_ether_ip (if_list w ++ [n1]) (if_ip i) = Ok (if_list w ++ [n2])) by apply update_last_app.
  assert (E3 : load32 (le_bytes4 (if_ip i) ++ replicate 28 0) 0 = Ok (if_ip i)).
  { unfold load32. rewrite load_ok by (simpl; lia). cbn [bind].
    rewrite drop_0, take_app_length' by done. by rewrite le_word_le4. }
  unfold sbind, slift, sget, smodify, sret. cbn [if_list ticks set_ifs].
  split; [|by split_and!]. fold u. rewrite E0. cbn [if_list ticks set_ifs].
  rewrite E1. cbn [if_list ticks set_ifs]. rewrite E3. cbn [if_list ticks set_ifs]. by rewrite E2.
Qed.

Lemma hw_interfaces ifs : forall w,
  Forall if_described ifs ->
  exists l w', siter (fun e => hw_switch e.1 e.2) (describe ifs) w = Ok (tt, w')
    /\ if_list w' = if_list w ++ l /\ Forall2 same_if ifs l /\ ifs_only w w'.
Proof.
  induction ifs as [|i ifs IH]; intros w Hd.
  { exists [], w. rewrite app_nil_r. by split_and!. }
  apply Forall_cons in Hd as [Hi Hd]. destruct (hw_interface w i Hi) as (j & w1 & E1 & L1 & S1 & O1).
  destruct (IH w1 Hd) as (l & w2 & E2 & L2 & S2 & O2). exists (j :: l), w2.
  assert (Happ : forall (f : Z * list Z -> M unit) (a b : list (Z * list Z)) w w1,
    siter f a w = Ok (tt, w1) -> siter f (a ++ b) w = siter f b w1).
  { intros f a b. clear. induction a as [|x a IH]; intros w w1; [by intros [= ->]|].
    cbn [siter app]. unfold sbind. destruct (f x w) as [[[] w2]|]; [|done]. apply IH. }
  unfold describe. rewrite fmap_cons. change (mjoin (?x :: ?y)) with (x ++ mjoin y).
  rewrite (Happ _ _ _ _ _ E1). rewrite L2, L1, <- app_assoc. split_and!; [done|done|by constructor|].
  by etransitivity.
Qed.

Lemma length_entries_bytes es :
  Forall (fun e : Z * list Z => length e.2 = 32%nat) es -> length (entries_bytes es) = (36 * length es)%nat.
Proof.
  induction 1 as [|e es He _ IH]; [done|]. unfold entries_bytes in *. rewrite fmap_cons.
  change (mjoin (?x :: ?y)) with (x ++ mjoin y). rewrite !length_app, IH, He, length_be4. simpl. lia.
Qed.

Lemma describe_ok ifs : Forall if_described ifs ->
  Forall (fun e => u32_ok e.1 /\ length e.2 = 32%nat) (describe ifs)
  /\ length (describe ifs) = (3 * length ifs)%nat.
Proof.
  induction 1 as [|i ifs [[Hn Ha _ _] _ _] _ [IH1 IH2]]; [done|].
  change (describe (i :: ifs)) with (describe_if i ++ describe ifs).
  rewrite Forall_app, length_app, IH2. split; [split; [|done]|simpl; lia].
  unfold describe_if. rewrite !Forall_cons. cbn [fst snd]. unfold u32_ok. rewrite length_app, Ha.
  by split_and!.
Qed.

Lemma same_if_print ifs l :
  Forall2 same_if ifs l -> Forall if_described ifs -> Forall (fun i => is_Ok (sr_print_if i)) l.
Proof.
  induction 1 as [|i j ifs l (En & Ea & Ei) _ IH]; [done|].
  intros [[[H1 H2 _ _] _ Ht] Hd]%Forall_cons. constructor; [|by apply IH].
  apply sr_print_if_ok; [by rewrite <- En|congruence].
Qed.

(** The message that describes interfaces, handled. *)
Lemma hwinfo_spec w ifs :
  Forall if_described ifs -> (length ifs <= 92)%nat ->
  Forall (fun i => is_Ok (sr_print_if i)) (if_list w) ->
  exists l w', sr_handle_hwinfo (received_bytes VNSHWINFO (entries_bytes (describe ifs))) w
      = Ok (3 * Z.of_nat (length ifs), w')
    /\ if_list w' = if_list w ++ l /\ Forall2 same_if ifs l /\ ifs_only w w'.
Proof.
  intros Hd Hmax Hold. destruct (describe_ok ifs Hd) as [Hes Hlen].
  destruct (hw_interfaces ifs w Hd) as (l & w' & E & L & S & O). exists l, w'. split_and!; try done.
  assert (HL : length (entries_bytes (describe ifs)) = (108 * length ifs)%nat).
  { rewrite length_entries_bytes by (eapply Forall_impl; [exact Hes|]; naive_solver). lia. }
  unfold sr_handle_hwinfo, received_bytes. rewrite HL. set (n := 8 + Z.of_nat (108 * length ifs)).
  rewrite (sbind_step _ _ _ _ _ (slift_step _ _ w (load32_at [] (be_bytes4 n)
    (le_bytes4 VNSHWINFO ++ entries_bytes (describe ifs)) 0 eq_refl eq_refl))).
  rewrite ntohl_be4 by (unfold u32_ok; lia). cbv zeta.
  assert (Hk : s32 ((n - 2 * 4) mod 2 ^ 64 / Z.of_nat HwEntry.size) = 3 * Z.of_nat (length ifs)).
  { rewrite Z.mod_small by lia. change (Z.of_nat HwEntry.size) with 36. unfold n.
    replace (8 + _ - 2 * 4) with (3 * Z.of_nat (length ifs) * 36) by lia. rewrite Z.div_mul by lia.
    apply s32_small. lia. }
  rewrite Hk. replace (Z.to_nat (3 * Z.of_nat (length ifs))) with (length (describe ifs)) by lia.
  pose proof (hw_loop (describe ifs) (be_bytes4 n ++ le_bytes4 VNSHWINFO) 0 w Hes eq_refl) as Hloop.
  rewrite <- app_assoc in Hloop. rewrite E in Hloop. rewrite (sbind_step _ _ _ _ _ Hloop).
  rewrite (sbind_step _ _ _ _ _ (eq_refl : sget w' = Ok (w', w'))), L.
  destruct (sr_print_if_list_ok (if_list w ++ l)) as [items Ep].
  { apply Forall_app. split; [done|by eapply same_if_print]. }
  by rewrite (sbind_step _ _ _ _ _ (slift_step _ _ w' Ep)).
Qed.
End HwInfo.

(** ** Packets *)
Section Packet.
Context {os : OS} {net : Net}.

Lemma load_known buf off n : (off + n <= length buf)%nat -> exists v, load buf off n = Ok v.
Proof. intros H. rewrite load_ok by done. by eexists. Qed.

Lemma arp_check_total w frame iface :
  ifs_ok (if_list w) -> frame_ok w frame iface ->
  exists b, sr_arp_req_not_for_us frame (Z.of_nat (length frame)) iface w = Ok (b, w).
Proof.
  intros Hi [_ Hl (s & nm & i & Hn & Hf)]. unfold sr_arp_req_not_for_us.
  rewrite sget_step.
  rewrite (sbind_step _ _ _ _ _ (slift_step _ _ _ (sr_get_interface_spec _ _ _ Hi (in_name _ _ _ Hn)))), Hf.
  rewrite (proj2 (Z.ltb_ge _ _)) by (unfold_offs; simpl; lia).
  rewrite (sbind_step _ _ _ _ _ (slift_step _ _ w (eq_refl : of_option AssertFailure (Some i) = Ok i))).
  unfold load16, load32.
  destruct (load_known frame Eth.ether_type 2) as [t Et]; [offs|].
  destruct (load_known frame (Eth.size + Arp.ar_op) 2) as [o Eo]; [offs|].
  destruct (load_known frame (Eth.size + Arp.ar_tip) 4) as [d Ed]; [offs|].
  rewrite Et, Eo, Ed. unfold sbind, slift, sret. cbn [bind].
  destruct (negb _); [by eexists|]. destruct (negb _); by eexists.
Qed.

(** On an ARP packet: a request for an address that is not the interface's. *)
Lemma arp_check_spec w e a rest iface s nm i :
  ifs_ok (if_list w) -> iface_named iface s nm -> find_if (if_list w) s = Some i ->
  eth_hdr_ok e -> arp_hdr_ok a -> e_type e = ethertype_arp ->
  sr_arp_req_not_for_us (encode_eth e ++ encode_arp a ++ rest) (42 + Z.of_nat (length rest)) iface w
  = Ok ((a_op a =? arp_op_request) && negb (a_tip a =? if_ip i), w).
Proof.
  intros Hi Hn Hf He Ha Ht. unfold sr_arp_req_not_for_us.
  rewrite sget_step.
  rewrite (sbind_step _ _ _ _ _ (slift_step _ _ _ (sr_get_interface_spec _ _ _ Hi (in_name _ _ _ Hn)))), Hf.
  rewrite (proj2 (Z.ltb_ge _ _)) by (unfold_offs; simpl; lia).
  rewrite (sbind_step _ _ _ _ _ (slift_step _ _ w (eq_refl : of_option AssertFailure (Some i) = Ok i))).
  destruct (arp_members e a rest He Ha) as (E1 & _ & _ & E4).
  assert (E0 : load16 (encode_eth e ++ encode_arp a ++ rest) Eth.ether_type = Ok (htons (e_type e))).
  { destruct He as [Hd Hs _]. unfold encode_eth, load16. rewrite <- !app_assoc, (app_assoc (e_dhost e)).
    rewrite (load_at (e_dhost e ++ e_shost e) (be_bytes2 (e_type e)) _ 12 2); [|rewrite length_app; lia|done].
    cbn [bind]. by rewrite <- le_bytes2_htons, le_word_le2 by apply htons_range. }
  rewrite (sbind_step _ _ _ _ _ (slift_step _ _ _ E0)), Ht, Z.eqb_refl. cbn [negb].
  rewrite (sbind_step _ _ _ _ _ (slift_step _ _ _ E1)).
  assert (Hop : (htons (a_op a) =? htons arp_op_request) = (a_op a =? arp_op_request)).
  { apply eq_true_iff_eq. rewrite !Z.eqb_eq. split; [|by intros ->]. intros E.
    pose proof (f_equal htons E) as E'. rewrite !htons_involutive in E'. unfold u16 in E'.
    rewrite !Z.mod_small in E' by (apply (aok_op _ Ha) || done). done. }
  rewrite Hop. destruct (a_op a =? arp_op_request); cbn [negb andb]; [|done].
  by rewrite (sbind_step _ _ _ _ _ (slift_step _ _ _ E4)).
Qed.

(** A packet command, taken apart. *)
Lemma vnspacket_head w nm frame :
  length nm = 16%nat -> Z.of_nat (length frame) <= 9976 ->
  handle_vnspacket (received_bytes VNSPACKET (nm ++ frame)) (8 + Z.of_nat (length (nm ++ frame))) w
  = (do! not_for_us := sr_arp_req_not_for_us frame (Z.of_nat (length frame)) (nm ++ frame) in
     if not_for_us then sret tt
     else
       run! sr_log_packet frame (Z.of_nat (length frame)) in
       sr_handlepacket frame (Z.of_nat (length frame)) (nm ++ frame)) w.
Proof.
  intros Hnm Hmax. unfold handle_vnspacket, received_bytes.
  set (n := 8 + Z.of_nat (length (nm ++ frame))).
  assert (Hn : n = 24 + Z.of_nat (length frame)) by (unfold n; rewrite length_app; lia). clearbody n.
  set (P := be_bytes4 n ++ le_bytes4 VNSPACKET).
  assert (EP : be_bytes4 n ++ le_bytes4 VNSPACKET ++ nm ++ frame = P ++ nm ++ frame) by by rewrite app_assoc.
  assert (F1 : from (P ++ nm ++ frame) PktHdr.size = Ok frame).
  { rewrite app_assoc. apply from_at. rewrite length_app, Hnm. done. }
  rewrite EP, (sbind_step _ _ _ _ _ (slift_step _ _ w F1)).
  rewrite (sbind_step _ _ _ _ _ (slift_step _ _ w (from_at P (nm ++ frame) Base.size eq_refl))). cbv zeta.
  replace (u32 (n - Z.of_nat (PktHdr.size + Eth.size) + Z.of_nat Eth.size)) with (Z.of_nat (length frame)).
  2:{ unfold u32. change (Z.of_nat (PktHdr.size + Eth.size)) with 38. change (Z.of_nat Eth.size) with 14.
      rewrite Z.mod_small; lia. }
  unfold sbind at 1 4. destruct (sr_arp_req_not_for_us _ _ _ w) as [[[] w1]|]; [done| |done].
  rewrite <- EP, (sbind_step _ _ _ _ _ (slift_step _ _ w1 (load32_at [] (be_bytes4 n)
    (le_bytes4 VNSPACKET ++ nm ++ frame) 0 eq_refl eq_refl))).
  rewrite ntohl_be4 by (unfold u32_ok; lia). change (Z.of_nat PktHdr.size) with 24.
  replace (n - 24) with (Z.of_nat (length frame)) by lia. by rewrite s32_small by lia.
Qed.

(** A packet command hands its frame on, unless it is such a request. *)
Lemma vnspacket_step w nm frame b :
  can_send w -> length nm = 16%nat -> frame_ok w frame (nm ++ frame) ->
  Z.of_nat (length frame) <= 9976 ->
  sr_arp_req_not_for_us frame (Z.of_nat (length frame)) (nm ++ frame) w = Ok (b, w) ->
  exists w1, world_same w w1 /\ sent (out w1) = sent (out w) /\
    handle_vnspacket (received_bytes VNSPACKET (nm ++ frame)) (8 + Z.of_nat (length (nm ++ frame))) w
    = if b then Ok (tt, w) else sr_handlepacket frame (Z.of_nat (length frame)) (nm ++ frame) w1.
Proof.
  intros Hi Hnm Hfr Hmax Eb. pose proof (fok_len _ _ _ Hfr) as Hl.
  destruct (sr_log_packet_ok w frame (Z.of_nat (length frame)) (cs_log _ Hi) ltac:(lia) ltac:(lia)) as (w1 & E1 & Hw1 & Hs1 & _).
  exists w1. split_and!; [done|done|]. rewrite (vnspacket_head w nm frame Hnm Hmax), (sbind_step _ _ _ _ _ Eb).
  destruct b; [done|]. by rewrite (sbind_step _ _ _ _ _ E1).
Qed.

(** A frame for an interface that does not exist ends the program. *)
Lemma vnspacket_unknown w nm frame s :
  ifs_ok (if_list w) -> length nm = 16%nat -> 42 <= Z.of_nat (length frame) <= 9976 ->
  name_of (nm ++ frame) = Ok s -> find_if (if_list w) s = None ->
  handle_vnspacket (received_bytes VNSPACKET (nm ++ frame)) (8 + Z.of_nat (length (nm ++ frame))) w
  = Fault AssertFailure.
Proof.
  intros Hi Hnm Hl Hn Hf. rewrite (vnspacket_head w nm frame Hnm ltac:(lia)). apply sbind_fault.
  unfold sr_arp_req_not_for_us. rewrite sget_step.
  rewrite (sbind_step _ _ _ _ _ (slift_step _ _ _ (sr_get_interface_spec _ _ _ Hi Hn))), Hf.
  by rewrite (proj2 (Z.ltb_ge _ _)) by (unfold_offs; simpl; lia).
Qed.

Lemma frame_ok_same w w1 frame iface : world_same w w1 -> frame_ok w frame iface -> frame_ok w1 frame iface.
Proof. intros H. apply frame_ok_ifs, (ws_ifs _ _ H). Qed.

(** A packet command from the server: the router stays in order, unless the
    ICMP answer to it kills the process. *)
Lemma server_packet_ok fuel s q nm frame rest :
  world_ok (sr s) q -> length nm = 16%nat -> frame_ok (sr s) frame (nm ++ frame) ->
  Z.of_nat (length frame) <= 9976 ->
  delivers (input s) (command_bytes VNSPACKET (nm ++ frame)) rest -> (length (input s) < fuel)%nat ->
  (exists w' q', sr_read_from_server fuel s = Ok (1, set_sr (set_input s rest) w')
    /\ world_ok w' q' /\ if_list w' = if_list (sr s) /\ routing_table w' = routing_table (sr s))
  \/ (sr_read_from_server fuel s = Fault WildRead /\ wild_host).
Proof.
  intros Hw Hnm Hfr Hmax Hd Hf. unfold sr_read_from_server.
  rewrite (expect_ok fuel s VNSPACKET (nm ++ frame) rest 0 ltac:(rewrite length_app; lia) ltac:(done)
    (or_introl eq_refl) Hd Hf).
  unfold dispatch. cbn [Z.eqb Pos.eqb VNSPACKET].
  destruct (arp_check_total (sr s) frame _ (wok_ifs _ _ Hw) Hfr) as [b Eb].
  destruct (vnspacket_step (sr s) nm frame b (wok_send _ _ Hw) Hnm Hfr Hmax Eb) as (w1 & Hw1 & _ & E).
  set (m := handle_vnspacket (received_bytes VNSPACKET (nm ++ frame)) (8 + Z.of_nat (length (nm ++ frame)))) in *.
  assert (Hgo : (exists w' q', m (sr s) = Ok (tt, w')
      /\ world_ok w' q' /\ if_list w' = if_list (sr s) /\ routing_table w' = routing_table (sr s))
    \/ (m (sr s) = Fault WildRead /\ wild_host)).
  { rewrite E. destruct b; [left; by exists (sr s), q|].
    destruct (sr_handlepacket_ok w1 q frame (nm ++ frame) (world_ok_same _ _ _ Hw Hw1)
      (frame_ok_same _ _ _ _ Hw1 Hfr)) as [(w' & q' & E' & H1 & H2 & H3)|[E' Hk]].
    - left. exists w', q'. destruct Hw1. split_and!; congruence || done.
    - right. split; [done|by eexists]. }
  destruct Hgo as [(w' & q' & E' & Hrest)|[E' Hk]].
  2:{ right. split; [|done]. apply sbind_fault. unfold on_world. cbn [sr set_input]. by rewrite E'. }
  left. exists w', q'. split; [|done].
  assert (E2 : on_world m (set_input s rest) = Ok (tt, set_sr (set_input s rest) w')).
  { unfold on_world. cbn [sr set_input]. by rewrite E'. }
  by rewrite (sbind_step _ _ _ _ _ E2).
Qed.
End Packet.

(** ** Authentication *)

(** The 64 bytes that are hashed for a first line [line] of the key file: what
    follows a shorter line is whatever the stack held. *)
Definition key_bytes (junk line : list Z) : list Z :=
  take 64 (line ++ [0] ++ drop (length line + 1) (malloc junk 65)).

(** The reply for a user name and a digest. *)
Definition auth_reply_bytes (name digest : list Z) : list Z :=
  be_bytes4 (32 + Z.of_nat (length name)) ++ be_bytes4 VNS_AUTH_REPLY
  ++ be_bytes4 (Z.of_nat (length name)) ++ name ++ mjoin (be_bytes4 <$> digest).

Section Auth.
Context {os : OS} {net : Net}.

Lemma auth_reply_spec junk user name digest :
  cstring user = Ok name -> length digest = 5%nat ->
  auth_reply junk user digest = Ok (auth_reply_bytes name digest, 32 + Z.of_nat (length name)).
Proof.
  intros Hu Hd. unfold auth_reply, strlen. rewrite Hu. cbn [bind].
  change (AuthReply.size + length name + SHA1_LEN)%nat with (12 + length name + 20)%nat.
  set (b := malloc junk _). assert (Hb : length b = (12 + length name + 20)%nat) by apply malloc_length.
  clearbody b. destruct (split_at b 4 ltac:(lia)) as (b1 & r1 & -> & H1). rewrite length_app in Hb.
  destruct (split_at r1 4 ltac:(lia)) as (b2 & r2 & -> & H2). rewrite length_app in Hb.
  destruct (split_at r2 4 ltac:(lia)) as (b3 & r3 & -> & H3). rewrite length_app in Hb.
  destruct (split_at r3 (length name + 1) ltac:(lia)) as (b4 & r4 & -> & H4). rewrite length_app in Hb.
  replace (Z.of_nat (12 + length name + 20)) with (32 + Z.of_nat (length name)) by lia.
  set (n := 32 + Z.of_nat (length name)). unfold store32. rewrite !le_bytes4_htonl.
  pose proof (store_at [] b1 (b2 ++ b3 ++ b4 ++ r4) 0 (be_bytes4 n) eq_refl H1) as E1. cbn [app] in E1.
  rewrite (bind_step _ _ _ E1).
  rewrite (bind_step _ _ _ (store_at (be_bytes4 n) b2 _ 4 (be_bytes4 VNS_AUTH_REPLY) eq_refl H2)).
  rewrite (app_assoc (be_bytes4 n)).
  rewrite (bind_step _ _ _ (store_at (be_bytes4 n ++ be_bytes4 VNS_AUTH_REPLY) b3 _ 8
    (be_bytes4 (Z.of_nat (length name))) eq_refl H3)).
  rewrite (app_assoc (_ ++ _)). set (P := (_ ++ _) ++ be_bytes4 (Z.of_nat (length name))).
  rewrite (bind_step _ _ _ (store_at P b4 r4 AuthReply.username (name ++ [0]) eq_refl ltac:(rewrite length_app; simpl; lia))).
  assert (ED : mjoin (map le_bytes4 (map htonl digest)) = mjoin (be_bytes4 <$> digest)).
  { clear. induction digest as [|d ds IH]; [done|]. cbn [map]. rewrite fmap_cons.
    change (mjoin (?x :: ?y)) with (x ++ mjoin y). by rewrite IH, le_bytes4_htonl. }
  rewrite ED.
  assert (HD : length (mjoin (be_bytes4 <$> digest)) = 20%nat).
  { clear -Hd. explode digest. done. }
  rewrite <- app_assoc, (app_assoc P).
  rewrite (bind_step _ _ _ (store_at_end (P ++ name) ([0] ++ r4) (AuthReply.username + length name)
    (mjoin (be_bytes4 <$> digest)) ltac:(rewrite length_app; done) ltac:(rewrite HD; simpl; lia))).
  unfold auth_reply_bytes, P. by rewrite <- !app_assoc.
Qed.

(** The key buffer, and the part of it that is hashed. *)
Lemma key_buffer junk line :
  (length line <= 64)%nat ->
  exists rest, store (malloc junk (AUTH_KEY_LEN + 1)) 0 (line ++ [0]) = Ok (key_bytes junk line ++ rest)
    /\ length (key_bytes junk line) = 64%nat.
Proof.
  intros Hl. change (AUTH_KEY_LEN + 1)%nat with 65%nat.
  pose proof (malloc_length junk 65) as Hm. rewrite store_ok by (rewrite length_app; simpl; lia).
  cbn [take app]. unfold key_bytes. rewrite length_app. cbn [length Nat.add].
  set (all := line ++ [0] ++ drop (length line + 1) (malloc junk 65)).
  exists (drop 64 all). rewrite take_drop. split; [unfold all; by rewrite <- app_assoc|].
  rewrite length_take. unfold all. rewrite !length_app, length_drop, Hm. cbn [length]. lia.
Qed.

Lemma fgets_at_most n fp : (length (fgets n fp).1 <= n)%nat.
Proof.
  revert fp. induction n as [|n IH]; intros [|c fp]; simpl; try lia.
  destruct (c =? 10); [simpl; lia|]. specialize (IH fp). destruct (fgets n fp). simpl in *. lia.
Qed.

Lemma fgets_bytes_ok n fp : bytes_ok fp -> bytes_ok (fgets n fp).1.
Proof.
  revert fp. induction n as [|n IH]; intros [|c fp] H; simpl; try done.
  apply Forall_cons in H as [Hc H]. destruct (c =? 10); [by apply Forall_singleton|].
  specialize (IH fp H). destruct (fgets n fp). simpl in *. by rewrite Forall_cons.
Qed.
Lemma key_bytes_ok junk line : bytes_ok junk -> bytes_ok line -> bytes_ok (key_bytes junk line).
Proof.
  intros Hj Hl. unfold key_bytes. apply Forall_take. rewrite !bytes_ok_app, Forall_singleton.
  assert (H0 : byte_ok 0) by (unfold byte_ok; lia).
  split_and!; [done|done|]. apply Forall_drop. by apply Forall_resize.
Qed.

Lemma send_ok buf len w :
  exists w', send buf len w = Ok (net_send (ticks w) len, w') /\ world_same w w'
    /\ sent (out w') = sent (out w) ++ [buf].
Proof.
  unfold send. rewrite (sbind_step _ _ _ _ _ (eq_refl : tick w = Ok (ticks w, _))).
  eexists. split_and!; [done|by constructor|]. cbn [out]. by rewrite sent_app.
Qed.

(** What the reply carries: the standard hash of the salt and the key. *)
Lemma auth_request_spec w user name salt fp :
  bytes_ok (os_malloc (ticks w)) -> net_auth_key = Some fp -> (fgets 64 fp).1 <> [] ->
  bytes_ok salt -> bytes_ok (key_bytes (os_malloc (ticks w)) (fgets 64 fp).1) ->
  Z.of_nat (length salt) <= 9992 -> cstring user = Ok name ->
  let digest := Fips.sha1 (salt ++ key_bytes (os_malloc (ticks w)) (fgets 64 fp).1) in
  let reply := auth_reply_bytes name digest in
  exists w', sr_handle_auth_request user (received_bytes VNS_AUTH_REQUEST salt) w
      = Ok (if net_send (ticks w) (32 + Z.of_nat (length name)) =? 32 + Z.of_nat (length name)
            then 1 else 0, w')
    /\ world_same w w' /\ sent (out w') = sent (out w) ++ [reply].
Proof.
  intros Hj Hk Hne Hs Hkb Hmax Hu. unfold sr_handle_auth_request.
  rewrite sget_step, Hk. cbv zeta.
  set (junk := os_malloc (ticks w)) in *. pose proof (fgets_at_most 64 fp) as Hfl.
  change (fst (fgets AUTH_KEY_LEN fp)) with (fgets 64 fp).1.
  destruct (fgets 64 fp).1 as [|c0 line0]; [done|]. cbv iota. set (line := c0 :: line0) in *.
  set (digest := Fips.sha1 _). set (reply := auth_reply_bytes _ _).
  destruct (key_buffer junk line Hfl) as (rest & Ek & HL64).
  rewrite (sbind_step _ _ _ _ _ (slift_step _ _ w Ek)). set (key := key_bytes junk line) in *.
  unfold received_bytes. set (n := 8 + Z.of_nat (length salt)).
  rewrite (sbind_step _ _ _ _ _ (slift_step _ _ w (load32_at [] (be_bytes4 n)
    (le_bytes4 VNS_AUTH_REQUEST ++ salt) 0 eq_refl eq_refl))).
  rewrite (app_assoc (be_bytes4 n)).
  rewrite (sbind_step _ _ _ _ _ (slift_step _ _ w
    (from_at (be_bytes4 n ++ le_bytes4 VNS_AUTH_REQUEST) salt Base.size eq_refl))).
  rewrite ntohl_be4 by (unfold u32_ok; lia).
  replace (Z.to_nat (u32 (n - Z.of_nat Base.size))) with (length salt).
  2:{ unfold u32. change (Z.of_nat Base.size) with 8. rewrite Z.mod_small by lia. lia. }
  assert (Hjb : bytes_ok (malloc junk 64)).
  { unfold malloc. apply Forall_resize; [unfold byte_ok; lia|done]. }
  destruct (hash_two (fresh_sha1 junk) salt key rest (malloc_length junk 64) Hjb Hs Hkb ltac:(lia) ltac:(lia))
    as (c1 & c2 & c3 & E1 & E2 & E3 & Hdig).
  rewrite (sbind_step _ _ _ _ _ (slift_step _ _ w E1)). rewrite HL64 in E2.
  rewrite (sbind_step _ _ _ _ _ (slift_step _ _ w E2)), (sbind_step _ _ _ _ _ (slift_step _ _ w E3)).
  cbn [fst snd negb]. rewrite Hdig.
  rewrite (sbind_step _ _ _ _ _ (slift_step _ _ w (auth_reply_spec junk user name digest Hu (sha1_length _)))).
  cbn [fst snd]. fold reply.
  destruct (send_ok reply (32 + Z.of_nat (length name)) w) as (w' & E & Hw & Ho).
  rewrite (sbind_step _ _ _ _ _ E). exists w'. split; [|done]. by destruct (_ =? _).
Qed.
End Auth.

(** ** The routing table and the opening messages *)
Section Rest.
Context {os : OS} {net : Net}.

(** The table file the server sends is written as it came. *)
Lemma rtable_spec s id name text :
  length id = 32%nat -> cstring id = Ok name -> Z.of_nat (length text) < 10000 ->
  sr_handle_rtable (received_bytes VNS_RTABLE (id ++ text)) s
  = let fn := [114; 116; 97; 98; 108; 101; 46] ++ name in
    if net_fopen_w fn then
      Ok (1, Session (sr s) (input s) (sock_open s) (Some (fn, text)) (user s) (host s) (template s) (topo_id s))
    else Ok (0, s).
Proof.
  intros Hid Hn Hl. unfold sr_handle_rtable, received_bytes.
  set (n := 8 + Z.of_nat (length (id ++ text))).
  assert (En : n = 40 + Z.of_nat (length text)) by (unfold n; rewrite length_app; lia). clearbody n.
  rewrite (app_assoc (be_bytes4 n)).
  rewrite (sbind_step _ _ _ _ _ (slift_step _ _ s
    (from_at (be_bytes4 n ++ le_bytes4 VNS_RTABLE) (id ++ text) Rtable.mVirtualHostID eq_refl))).
  assert (Hc : cstring (id ++ text) = Ok name /\ (length name <= 32)%nat) by (by apply cstring_app_32).
  destruct Hc as [Hc Hnl]. rewrite (sbind_step _ _ _ _ _ (slift_step _ _ s Hc)).
  change IDSIZE with 32%nat. rewrite (proj2 (Nat.ltb_ge _ _)) by lia. cbv zeta.
  destruct (net_fopen_w _); [|done]. rewrite <- (app_assoc (be_bytes4 n)).
  rewrite (sbind_step _ _ _ _ _ (slift_step _ _ s (load32_at [] (be_bytes4 n)
    (le_bytes4 VNS_RTABLE ++ id ++ text) 0 eq_refl eq_refl))).
  rewrite ntohl_be4 by (unfold u32_ok; lia).
  assert (Hu : u32 (n - 8 - Z.of_nat 32) = Z.of_nat (length text)).
  { unfold u32. rewrite Z.mod_small by lia. lia. }
  rewrite Hu, (proj2 (Z.ltb_ge _ _)).
  2:{ rewrite !length_app, length_be4, length_le4, Hid. change (Z.of_nat Rtable.rtable) with 40. lia. }
  rewrite Nat2Z.id, (app_assoc (be_bytes4 n)), (app_assoc (_ ++ _) id).
  pose proof (load_at ((be_bytes4 n ++ le_bytes4 VNS_RTABLE) ++ id) text [] Rtable.rtable (length text)) as E.
  rewrite app_nil_r in E. rewrite (sbind_step _ _ _ _ _ (slift_step _ _ s (E ltac:(rewrite length_app, Hid; done) eq_refl))).
  done.
Qed.

Lemma open_template_spec junk template host t h :
  strncpy 30 template = Ok t -> strncpy 32 host = Ok h ->
  open_template_message junk template host
  = Ok (be_bytes4 70 ++ be_bytes4 VNS_OPEN_TEMPLATE ++ t ++ h).
Proof.
  intros Ht Hh. unfold open_template_message. change IDSIZE with 32%nat. rewrite Ht, Hh.
  pose proof (malloc_length junk OpenTemplate.size) as HL. set (b := malloc junk _) in *. clearbody b.
  change OpenTemplate.size with 70%nat in *. pose proof (strncpy_length _ _ _ Ht) as Lt.
  pose proof (strncpy_length _ _ _ Hh) as Lh. clear Ht Hh.
  unfold store32. rewrite !le_bytes4_htonl. change (Z.of_nat 70) with 70.
  destruct (split_at b 4 ltac:(lia)) as (b1 & r1 & -> & H1). rewrite length_app in HL.
  destruct (split_at r1 4 ltac:(lia)) as (b2 & r2 & -> & H2). rewrite length_app in HL.
  destruct (split_at r2 30 ltac:(lia)) as (b3 & b4 & -> & H3). rewrite length_app in HL.
  pose proof (store_at [] b1 (b2 ++ b3 ++ b4) Base.mLen (be_bytes4 70) eq_refl H1) as E1. cbn [app] in E1.
  rewrite (bind_step _ _ _ E1).
  rewrite (bind_step _ _ _ (store_at (be_bytes4 70) b2 (b3 ++ b4) Base.mType (be_bytes4 VNS_OPEN_TEMPLATE) eq_refl H2)).
  cbn [bind]. rewrite (app_assoc (be_bytes4 70)).
  rewrite (bind_step _ _ _ (store_at (be_bytes4 70 ++ be_bytes4 VNS_OPEN_TEMPLATE) b3 b4
    OpenTemplate.templateName t eq_refl ltac:(lia))).
  rewrite app_assoc, store_at_end; [|rewrite !length_app, Lt; done|lia]. by rewrite <- !app_assoc.
Qed.

Lemma open_spec topo host user h u :
  strncpy 32 host = Ok h -> strncpy 32 user = Ok u ->
  open_message topo host user
  = Ok (be_bytes4 108 ++ be_bytes4 VNSOPEN ++ be_bytes2 topo ++ [0; 0] ++ h ++ u ++ replicate 32 0).
Proof.
  intros Hh Hu. unfold open_message. change IDSIZE with 32%nat. rewrite Hh, Hu.
  pose proof (strncpy_length _ _ _ Hh) as Lh. pose proof (strncpy_length _ _ _ Hu) as Lu. clear Hh Hu.
  unfold store32, store16. rewrite !le_bytes4_htonl, le_bytes2_htons. cbn [bind].
  change (Z.of_nat Open.size) with 108.
  set (P := be_bytes4 108 ++ be_bytes4 VNSOPEN ++ be_bytes2 topo ++ [0; 0]).
  change (calloc Open.size) with ([0;0;0;0] ++ [0;0;0;0] ++ [0;0] ++ [0;0] ++ replicate 32 0 ++ replicate 32 0 ++ replicate 32 0).
  set (z := replicate 32 0). assert (Lz : length z = 32%nat) by done. clearbody z.
  assert (E : (let! command := store (P ++ z ++ z ++ z) Open.mVirtualHostID h in
    store command Open.mUID u) = Ok (P ++ h ++ u ++ z)).
  { rewrite (bind_step _ _ _ (store_at P z (z ++ z) Open.mVirtualHostID h eq_refl ltac:(lia))).
    rewrite app_assoc. rewrite (store_at (P ++ h) z z Open.mUID u); [|rewrite length_app, Lh; done|lia].
    by rewrite <- app_assoc. }
  trans (Ok (P ++ h ++ u ++ z)); [by rewrite <- E|]. done.
Qed.
End Rest.
