(* ===== verification/Options.v ===== *)
(** * Options: the command line (sr_main.c)

    [getopt] of <unistd.h>, as glibc has it, on the words of [argv] with the
    option string of [main]; the [switch] that files what it finds, in
    [options]; [atoi] and [usage].  A word of the command line is a string
    without its NUL. *)

From Stdlib Require Import Ascii.
From stdpp Require Import strings.
From S2P Require Import Prelude Memory Utils Iface Rt.

(** The characters of a literal. *)
Definition char (a : Ascii.ascii) : Z := Z.of_N (Ascii.N_of_ascii a).
#[global] Arguments char a%_char_scope.
Fixpoint chars (s : string) : list Z :=
  match s with
  | EmptyString => []
  | String a s' => char a :: chars s'
  end.

(** ** getopt *)

(** "hs:v:p:u:t:r:l:T:" *)
Definition with_argument : list Z := chars "svputrlT".
Definition without_argument : list Z := chars "h".

(** The letters of one word after its dash: what they are, and the letter whose
    argument is the next word, if the word ends in one.  An unknown letter is
    reported as a question mark. *)
Fixpoint letters (w : list Z) : list (Z * list Z) * option Z :=
  match w with
  | [] => ([], None)
  | c :: w' =>
      if bool_decide (c ∈ with_argument) then
        match w' with
        | [] => ([], Some c)
        | _ => ([(c, w')], None)
        end
      else
        let '(found, missing) := letters w' in
        ((if bool_decide (c ∈ without_argument) then c else char "?", []) :: found, missing)
  end.

(** The options [getopt] returns, in turn, with [optarg]: a word without a dash,
    or that is only a dash, is passed over; the word of two dashes ends them. *)
Fixpoint getopt (argv : list (list Z)) : list (Z * list Z) :=
  match argv with
  | [] => []
  | w :: argv' =>
      match w with
      | 45 :: c :: w' =>
          if bool_decide (w = chars "--") then []
          else
            let '(found, missing) := letters (c :: w') in
            found ++
            match missing with
            | None => getopt argv'
            | Some o =>
                match argv' with
                | [] => [(char "?", [])]
                | arg :: argv'' => (o, arg) :: getopt argv''
                end
            end
      | _ => getopt argv'
      end
  end.

(** ** atoi *)
Definition isdigit (c : Z) : bool := (48 <=? c) && (c <=? 57).
Fixpoint digits (s : list Z) (acc : Z) : Z :=
  match s with
  | c :: s' => if isdigit c then digits s' (10 * acc + (c - 48)) else acc
  | [] => acc
  end.

(** [(int) strtol(s, NULL, 10)]: white space, a sign, digits; the value is
    limited to a long, and cut down to an int. *)
Definition strtol (s : list Z) : Z :=
  let v := match skip_space s with
           | [] => 0
           | c :: s' =>
               if c =? char "-" then - digits s' 0
               else if c =? char "+" then digits s' 0
               else digits (c :: s') 0
           end in
  Z.max (- 2 ^ 63) (Z.min v (2 ^ 63 - 1)).
Definition atoi (s : list Z) : Z := s32 (strtol s).

(** ** The switch *)
Record options := Options {
  o_host : list Z;
  o_user : option (list Z);
  o_server : list Z;
  o_rtable : list Z;
  o_template : option (list Z);
  o_port : Z;
  o_topo : Z;
  o_logfile : option (list Z) }.

Definition VERSION_INFO : list Z := chars "VNS sr stub code revised 2009-10-14 (rev 0.20)".
Definition DEFAULT_PORT : Z := 8888.
Definition DEFAULT_HOST : list Z := chars "vrhost".
Definition DEFAULT_SERVER : list Z := chars "localhost".
Definition DEFAULT_RTABLE : list Z := chars "rtable".
Definition DEFAULT_TOPO : Z := 0.

Definition default_options : options :=
  Options DEFAULT_HOST None DEFAULT_SERVER DEFAULT_RTABLE None DEFAULT_PORT DEFAULT_TOPO None.

(** One turn of the loop, for a letter other than h: port and topo are
    unsigned ints. *)
Definition option_switch (o : options) (c : Z) (optarg : list Z) : options :=
  let 'Options host user server rtable template port topo logfile := o in
  if c =? char "p" then Options host user server rtable template (u32 (atoi optarg)) topo logfile
  else if c =? char "t" then Options host user server rtable template port (u32 (atoi optarg)) logfile
  else if c =? char "v" then Options optarg user server rtable template port topo logfile
  else if c =? char "u" then Options host (Some optarg) server rtable template port topo logfile
  else if c =? char "s" then Options host user optarg rtable template port topo logfile
  else if c =? char "l" then Options host user server rtable template port topo (Some optarg)
  else if c =? char "r" then Options host user server optarg template port topo logfile
  else if c =? char "T" then Options host user server rtable (Some optarg) port topo logfile
  else o.

(** [None]: the usage is printed, and the program exits. *)
Fixpoint option_loop (found : list (Z * list Z)) (o : options) : option options :=
  match found with
  | [] => Some o
  | (c, optarg) :: found' =>
      if c =? char "h" then None else option_loop found' (option_switch o c optarg)
  end.

Definition command_line (argv : list (list Z)) : option options :=
  option_loop (getopt (tail argv)) default_options.

Definition usage (argv0 : list Z) : list item :=
  [Txt "Simple Router Client
"; Txt "Format: "; Str argv0; Txt " [-h] [-v host] [-s server] [-p port] 
"; Txt "           [-T template_name] [-u username] 
"; Txt "           [-t topo id] [-r routing table] 
"; Txt "           [-l log file] 
"; Txt "   defaults server="; Str DEFAULT_SERVER; Txt " port="; Dec DEFAULT_PORT; Txt " host=";
   Str DEFAULT_HOST; Txt "  
"].

(** ** Specification *)

(** The options as words: a letter after a dash, then its argument. *)
Definition option_words (l : list (Z * list Z)) : list (list Z) :=
  mjoin ((fun '(c, arg) => [[char "-"; c]; arg]) <$> l).

(** The argument of the last option with that letter. *)
Fixpoint last_arg (c : Z) (l : list (Z * list Z)) : option (list Z) :=
  match l with
  | [] => None
  | (c', arg) :: l' =>
      match last_arg c l' with
      | Some a => Some a
      | None => if c' =? c then Some arg else None
      end
  end.

(** What the loop makes of them: every option where it was given last. *)
Definition options_of (o : options) (l : list (Z * list Z)) : options :=
  let number c d := from_option (fun a => u32 (atoi a)) d (last_arg c l) in
  let maybe c d := match last_arg c l with Some a => Some a | None => d end in
  Options (default (o_host o) (last_arg (char "v") l)) (maybe (char "u") (o_user o))
    (default (o_server o) (last_arg (char "s") l)) (default (o_rtable o) (last_arg (char "r") l))
    (maybe (char "T") (o_template o)) (number (char "p") (o_port o)) (number (char "t") (o_topo o))
    (maybe (char "l") (o_logfile o)).

(** The decimal digits of a number. *)
Definition numeral (ds : list Z) : list Z := (Z.add 48) <$> ds.
Definition value_of (ds : list Z) : Z := foldl (fun v d => 10 * v + d) 0 ds.
Abbreviation digits_ok := (Forall (fun d : Z => 0 <= d <= 9)).

(** ** Lemmas *)

(** [eval_chars]: literals as numbers. *)
Ltac eval_chars :=
  repeat match goal with
  | |- context [char ?a] => let v := eval vm_compute in (char a) in change (char a) with v
  end.

Lemma with_argument_not_dash c : c ∈ with_argument -> c <> char "-" /\ c <> char "h".
Proof. intros H. split; intros ->; revert H; by vm_compute; set_solver. Qed.

Lemma getopt_words l argv :
  Forall (fun o => o.1 ∈ with_argument) l -> getopt (option_words l ++ argv) = l ++ getopt argv.
Proof.
  induction 1 as [|[c arg] l Hc _ IH]; [done|].
  change (option_words ((c, arg) :: l)) with ([char "-"; c] :: arg :: option_words l). cbn [app].
  cbn in Hc. destruct (with_argument_not_dash c Hc) as [Hd _].
  change (char "-") with 45 at 1. cbn [getopt].
  rewrite bool_decide_eq_false_2; [|by intros [= ->]].
  cbn [letters]. rewrite (bool_decide_eq_true_2 _ Hc). cbn [app]. by rewrite IH.
Qed.

Lemma option_loop_app l1 l2 o :
  option_loop (l1 ++ l2) o = match option_loop l1 o with Some o' => option_loop l2 o' | None => None end.
Proof. revert o. induction l1 as [|[c a] l1 IH]; intros o; [done|]. cbn. by destruct (c =? _). Qed.

(** A later option of the same letter hides an earlier one. *)
Lemma options_of_cons o c a l :
  c ∈ with_argument -> options_of (option_switch o c a) l = options_of o ((c, a) :: l).
Proof.
  intros Hc. destruct o. unfold options_of. cbn [last_arg].
  change with_argument with [115; 118; 112; 117; 116; 114; 108; 84] in Hc.
  rewrite !elem_of_cons, elem_of_nil in Hc.
  unfold option_switch. eval_chars.
  destruct_or! Hc; try done; subst c; cbn; f_equal; by destruct (last_arg _ l).
Qed.

Lemma option_loop_spec l o :
  Forall (fun o => o.1 ∈ with_argument) l -> option_loop l o = Some (options_of o l).
Proof.
  intros H. revert o. induction H as [|[c a] l Hc _ IH]; intros o; [by destruct o|]. cbn [option_loop].
  cbn in Hc. destruct (with_argument_not_dash c Hc) as [_ Hh%Z.eqb_neq].
  rewrite Hh, IH. by rewrite options_of_cons.
Qed.

Lemma command_line_words argv0 l :
  Forall (fun o => o.1 ∈ with_argument) l ->
  command_line (argv0 :: option_words l) = Some (options_of default_options l).
Proof.
  intros H. unfold command_line. cbn [tail]. pose proof (getopt_words l [] H) as E.
  rewrite !app_nil_r in E. rewrite E. by apply option_loop_spec.
Qed.

(** The letter h, alone or before others in its word. *)
Lemma command_line_help argv0 l w rest :
  Forall (fun o => o.1 ∈ with_argument) l ->
  command_line (argv0 :: option_words l ++ (char "-" :: char "h" :: w) :: rest) = None.
Proof.
  intros H. unfold command_line. cbn [tail]. rewrite getopt_words, option_loop_app, option_loop_spec by done.
  eval_chars. cbn [getopt]. rewrite bool_decide_eq_false_2 by done. cbn [letters].
  rewrite bool_decide_eq_false_2 by by vm_compute; set_solver.
  destruct (letters w) as [found missing]. by rewrite bool_decide_eq_true_2 by by left.
Qed.

(** ** Numbers *)
Lemma digits_numeral ds acc rest :
  digits_ok ds -> (forall c t, rest = c :: t -> isdigit c = false) ->
  digits (numeral ds ++ rest) acc = foldl (fun v d => 10 * v + d) acc ds.
Proof.
  intros H Hr. revert acc. induction H as [|d ds Hd _ IH]; intros acc; cbn.
  - destruct rest as [|c t]; [done|]. cbn. by rewrite (Hr c t).
  - unfold isdigit. rewrite !(proj2 (Z.leb_le _ _)) by lia. cbn [andb]. rewrite <- IH. do 2 f_equal; lia.
Qed.

Lemma value_of_range ds acc :
  digits_ok ds -> 0 <= acc -> acc <= foldl (fun v d => 10 * v + d) acc ds.
Proof.
  intros H. revert acc. induction H as [|d ds Hd _ IH]; intros acc Ha; [done|]. cbn.
  specialize (IH (10 * acc + d) ltac:(lia)). lia.
Qed.

Lemma strtol_numeral ds rest :
  ds <> [] -> digits_ok ds -> (forall c t, rest = c :: t -> isdigit c = false) ->
  strtol (numeral ds ++ rest) = Z.min (value_of ds) (2 ^ 63 - 1).
Proof.
  intros Hn H Hr. pose proof (value_of_range ds 0 H ltac:(lia)) as Hv. fold (value_of ds) in Hv.
  unfold strtol, value_of in *. rewrite <- (digits_numeral ds 0 rest H Hr) in *.
  destruct ds as [|d ds]; [done|]. apply Forall_cons in H as [Hd _]. cbn [numeral fmap list_fmap app] in *.
  cbn [skip_space]. unfold isspace. rewrite (proj2 (Z.eqb_neq _ _)) by lia.
  rewrite (proj2 (Z.leb_gt (48 + d) 13)) by lia. rewrite andb_false_r. cbn [orb].
  eval_chars. rewrite !(proj2 (Z.eqb_neq (48 + d) _)) by lia. lia.
Qed.

(** A numeral that fits an int. *)
Lemma atoi_numeral ds rest :
  ds <> [] -> digits_ok ds -> value_of ds < 2 ^ 31 -> (forall c t, rest = c :: t -> isdigit c = false) ->
  atoi (numeral ds ++ rest) = value_of ds.
Proof.
  intros Hn H Hv Hr. pose proof (value_of_range ds 0 H ltac:(lia)) as H0. fold (value_of ds) in H0.
  unfold atoi. rewrite strtol_numeral by done. rewrite Z.min_l by lia. apply s32_small. lia.
Qed.
