(* ===== verification/Main.v ===== *)
(** * Main: start-up (sr_main.c)

    [main] up to the call of [sr_init]: the command line (Options.v), the
    instance, the routing table, the names, the dump file, the connection, the
    table again.  The result is the exit status when the program ends before
    that, be it by [exit] or by [return].  [sr_init] starts the cleanup thread;
    it and the main loop, which runs beside that thread, are in Threads.v, and
    the whole program in Program.v.  The initial [session] holds what the stack
    held: only the sizes of its arrays matter.  Files are read through
    [read_file], where the table the server sent hides an older file of the same
    name.

    The lemmas are about the opening of the session. *)

From stdpp Require Import strings.
From S2P Require Import Prelude Memory Protocol Utils Iface Rt ArpCache Dump World ArpHandler Router RouterSpec Handlers Safety Sha1 Vns VnsSpec Options.

Class Host := {
  host_files : list Z -> option (list Z);
  host_aton : list Z -> option Z;         (** inet_aton *)
  host_stack : list (list Z);             (** the four arrays of sr_load_rt, uninitialised *)
  host_login : option (list Z) }.         (** the name [getpwuid] finds *)

Section Main.
Context {os : OS} {net : Net} {hst : Host}.

Definition read_file (s : session) (name : list Z) : option (list Z) :=
  match rtable_file s with
  | Some (fn, text) => if bool_decide (fn = name) then Some text else host_files name
  | None => host_files name
  end.

(** ** The instance *)
Definition set_user (u : list Z) (s : session) : session :=
  Session (sr s) (input s) (sock_open s) (rtable_file s) u (host s) (template s) (topo_id s).
Definition set_host (h : list Z) (s : session) : session :=
  Session (sr s) (input s) (sock_open s) (rtable_file s) (user s) h (template s) (topo_id s).
Definition set_template (t : list Z) (s : session) : session :=
  Session (sr s) (input s) (sock_open s) (rtable_file s) (user s) (host s) t (topo_id s).
Definition set_topo (t : Z) (s : session) : session :=
  Session (sr s) (input s) (sock_open s) (rtable_file s) (user s) (host s) (template s) t.
Definition set_logfile (b : dump_file) (w : world) : world :=
  World (if_list w) (routing_table w) (cache w) b (ticks w) (out w).

(** Of the name arrays, only the first byte is cleared. *)
Definition sr_init_instance : ST session unit :=
  do! s := sget in
  do! u := slift (store8 (user s) 0 0) in
  do! h := slift (store8 (host s) 0 0) in
  let w := sr s in
  smodify (fun s => Session (World [] [] (cache w) NoDump (ticks w) (out w)) (input s) false (rtable_file s)
                      u h (template s) 0).

(** The file is closed; the pointer stays. *)
Definition sr_dump_close : M unit := smodify (set_logfile DumpClosed).
Definition sr_destroy_instance : M unit :=
  do! w := sget in
  match logfile w with NoDump => sret tt | _ => sr_dump_close end.

(** The copies take the word with its NUL. *)
Definition copy_user (name : list Z) : ST session unit :=
  do! u := slift (strncpy 32 (name ++ [0])) in smodify (set_user u).
Definition sr_set_user : ST session unit :=
  match host_login with
  | None => copy_user (chars "something_silly")
  | Some name => copy_user name
  end.

(** False when the file cannot be opened; a dash is the standard output, on
    which the dump stands among what the program prints. *)
Definition sr_dump_open (fname : list Z) (thiszone snaplen : Z) : M bool :=
  let fp := if bool_decide (fname = chars "-") then Some DumpStdout
            else if net_fopen_w fname then Some Dumping else None in
  match fp with
  | None => sret false
  | Some fp =>
      run! sf_write_header fp LINKTYPE_ETHERNET thiszone snaplen in
      run! smodify (set_logfile fp) in
      sret true
  end.

(** True when it exits, which it does with status 1. *)
Definition sr_load_rt_wrap (rtable : list Z) : ST session bool :=
  do! s := sget in
  do! r := slift (sr_load_rt host_aton host_stack (read_file s rtable) (routing_table (sr s))) in
  run! smodify (fun s => set_sr s (set_routes (sr s) r.2)) in
  if negb (r.1 =? 0) then sret true
  else
    do! _ := slift (sr_print_routing_table r.2) in
    sret false.

(** ** main *)

(** The routing table, or the name of the template; [true] when it exits. *)
Definition set_table (o : options) : ST session bool :=
  match o_template o with
  | None =>
      do! s := sget in
      do! t := slift (store8 (template s) 0 0) in
      run! smodify (set_template t) in
      sr_load_rt_wrap (o_rtable o)
  | Some t =>
      do! t := slift (strncpy 30 (t ++ [0])) in
      run! smodify (set_template t) in
      sret false
  end.

(** The topology, the names, the dump file; [true] when it exits. *)
Definition set_names (o : options) : ST session bool :=
  run! smodify (set_topo (u16 (o_topo o))) in
  do! h := slift (strncpy 32 (o_host o ++ [0])) in
  run! smodify (set_host h) in
  run! (match o_user o with None => sr_set_user | Some u => copy_user u end) in
  match o_logfile o with
  | None => sret false
  | Some l =>
      do! ok := on_world (sr_dump_open l 0 PACKET_DUMP_SIZE) in
      sret (negb ok)
  end.

(** "rtable.vrhost" *)
Definition rtable_vrhost : list Z := chars "rtable.vrhost".

(** All that comes before the connection; [true] when it exits. *)
Definition set_up (o : options) : ST session bool :=
  run! sr_init_instance in
  do! quit := set_table o in
  if quit then sret true else set_names o.

(** The table again, when the session is open; [true] when it exits. *)
Definition load_table (o : options) : ST session bool :=
  if bool_decide (is_Some (o_template o)) && bool_decide (o_rtable o = rtable_vrhost)
  then sr_load_rt_wrap rtable_vrhost else sr_load_rt_wrap (o_rtable o).

(** [main] up to the call of [sr_init]: the status when it exits before it. *)
Definition start_up (argv : list (list Z)) : ST session (option Z) :=
  match command_line argv with
  | None => sret (Some 0)
  | Some o =>
      do! quit := set_up o in
      if quit then sret (Some 1)
      else
        do! s := sget in
        do! _ := slift (cstring (user s)) in   (* printed *)
        do! c := sr_connect_to_server (S (length (input s))) (u16 (o_port o)) (o_server o) in
        if c =? -1 then sret (Some 1)
        else
          do! quit := load_table o in
          sret (if quit then Some 1 else None)
  end.
End Main.

(** ** Lemmas *)

(** Packets in a row, then the end of the session; [ifs] are the interfaces. *)
Inductive packet_stream (w : world) : list rx -> Prop :=
| ps_close i text msg rest :
    delivers i (command_bytes VNSCLOSE text) rest -> Z.of_nat (length text) <= 256 ->
    bytes_ok text -> cstring text = Ok msg -> packet_stream w i
| ps_packet i nm frame rest :
    delivers i (command_bytes VNSPACKET (nm ++ frame)) rest -> length nm = 16%nat -> bytes_ok nm ->
    frame_ok w frame (nm ++ frame) -> Z.of_nat (length frame) <= 9976 ->
    packet_stream w rest -> packet_stream w i.

Section Loop.
Context {os : OS} {net : Net}.

Lemma packet_stream_ifs w w' i : if_list w' = if_list w -> packet_stream w i -> packet_stream w' i.
Proof.
  intros E H. induction H; [by eapply ps_close|]. eapply ps_packet; try done. by eapply frame_ok_ifs.
Qed.

Lemma close_ok fuel s text msg rest :
  delivers (input s) (command_bytes VNSCLOSE text) rest -> Z.of_nat (length text) <= 256 ->
  cstring text = Ok msg -> (length (input s) < fuel)%nat ->
  sr_read_from_server fuel s = Ok (0, set_input s rest).
Proof.
  intros Hd Hl Hc Hf. unfold sr_read_from_server.
  rewrite (expect_ok fuel s VNSCLOSE text rest 0 ltac:(lia) ltac:(done) (or_introl eq_refl) Hd Hf).
  unfold dispatch, received_bytes. cbn [Z.eqb Pos.eqb VNSCLOSE VNSPACKET].
  set (n := 8 + Z.of_nat (length text)). rewrite app_assoc.
  rewrite (sbind_step _ _ _ _ _ (slift_step _ _ (set_input s rest)
    (from_at (be_bytes4 n ++ le_bytes4 VNSCLOSE) text Base.size eq_refl))).
  by rewrite (sbind_step _ _ _ _ _ (slift_step _ _ _ Hc)).
Qed.

(** ** Opening a session without a template *)
Lemma on_world_ok {A} (m : M A) s a w' : m (sr s) = Ok (a, w') -> on_world m s = Ok (a, set_sr s w').
Proof. intros E. unfold on_world. by rewrite E. Qed.

Lemma auth_status_ok s usr name ok msg :
  byte_ok ok -> ok <> 0 -> cstring usr = Ok name ->
  sr_handle_auth_status usr (received_bytes VNS_AUTH_STATUS (ok :: msg)) (sr s) = Ok (ok, sr s).
Proof.
  intros Hb Hne Hu. unfold sr_handle_auth_status, received_bytes.
  set (n := 8 + Z.of_nat (length (ok :: msg))).
  assert (E : load8 (be_bytes4 n ++ le_bytes4 VNS_AUTH_STATUS ++ ok :: msg) AuthStatus.auth_ok = Ok ok).
  { rewrite app_assoc. unfold load8.
    pose proof (load_at (be_bytes4 n ++ le_bytes4 VNS_AUTH_STATUS) [ok] msg AuthStatus.auth_ok 1 eq_refl eq_refl) as El.
    change ([ok] ++ msg) with (ok :: msg) in El. rewrite El. cbn [bind]. by rewrite le_word_1. }
  rewrite (sbind_step _ _ _ _ _ (slift_step _ _ (sr s) E)).
  rewrite (sbind_step _ _ _ _ _ (slift_step _ _ (sr s) Hu)). by rewrite (proj2 (Z.eqb_neq _ _)).
Qed.

Lemma expect_status fuel s name ok msg rest :
  cstring (user s) = Ok name ->
  byte_ok ok -> ok <> 0 -> Z.of_nat (length msg) < 9992 ->
  delivers (input s) (command_bytes VNS_AUTH_STATUS (ok :: msg)) rest -> (length (input s) < fuel)%nat ->
  sr_read_from_server_expect fuel VNS_AUTH_STATUS s = Ok (1, set_input s rest).
Proof.
  intros Hu Hb Hne Hl Hd Hf.
  rewrite (expect_ok fuel s VNS_AUTH_STATUS (ok :: msg) rest VNS_AUTH_STATUS ltac:(simpl; lia) ltac:(done)
    (or_intror (or_introl eq_refl)) Hd Hf).
  unfold dispatch. cbn [Z.eqb Pos.eqb VNS_AUTH_STATUS VNSPACKET VNSCLOSE VNSBANNER VNSHWINFO VNS_RTABLE VNS_AUTH_REQUEST].
  set (s1 := set_input s rest). rewrite sget_step.
  rewrite (sbind_step _ _ _ _ _ (on_world_ok _ s1 _ _ (auth_status_ok s1 _ name ok msg Hb Hne Hu))).
  rewrite (proj2 (Z.eqb_neq ok 0)) by done. by destruct s.
Qed.

Lemma expect_auth fuel s name salt fp rest :
  (forall k, bytes_ok (os_malloc k)) -> (forall k n, net_send k n = n) ->
  net_auth_key = Some fp -> (fgets 64 fp).1 <> [] -> bytes_ok fp ->
  bytes_ok salt -> Z.of_nat (length salt) <= 9992 -> cstring (user s) = Ok name ->
  delivers (input s) (command_bytes VNS_AUTH_REQUEST salt) rest -> (length (input s) < fuel)%nat ->
  exists w', sr_read_from_server_expect fuel VNS_AUTH_REQUEST s = Ok (1, set_sr (set_input s rest) w')
    /\ world_same (sr s) w'
    /\ sent (out w') = sent (out (sr s))
        ++ [auth_reply_bytes name (Fips.sha1 (salt ++ key_bytes (os_malloc (ticks (sr s))) (fgets 64 fp).1))].
Proof.
  intros Hj Hsend Hk Hne Hfp Hs Hmax Hu Hd Hf.
  rewrite (expect_ok fuel s VNS_AUTH_REQUEST salt rest VNS_AUTH_REQUEST ltac:(lia) ltac:(done)
    (or_intror (or_introl eq_refl)) Hd Hf).
  unfold dispatch. cbn [Z.eqb Pos.eqb VNSPACKET VNSCLOSE VNSBANNER VNSHWINFO VNS_RTABLE VNS_AUTH_REQUEST].
  set (s1 := set_input s rest). rewrite sget_step.
  destruct (auth_request_spec (sr s) (user s) name salt fp) as (w' & E & Hw & Ho); try done.
  { by apply key_bytes_ok; [|apply fgets_bytes_ok]. }
  rewrite Hsend, Z.eqb_refl in E. exists w'. split_and!; [|done|done].
  change (user s1) with (user s). by rewrite (sbind_step _ _ _ _ _ (on_world_ok _ s1 _ _ E)).
Qed.

(** The first half of the exchange: the connection, the reply to the challenge,
    and the status. *)
Record auth_exchange (port : Z) (server usr : list Z) (i : list rx) (name salt fp : list Z) (i1 : list rx) (ok : Z)
    (msg : list Z) (i2 : list rx) : Prop := {
  ax_malloc : forall k, bytes_ok (os_malloc k);
  ax_send : forall k n, net_send k n = n;
  ax_host : net_resolves server = true;
  ax_socket : net_socket = true;
  ax_connect : net_connects port server = true;
  ax_key : net_auth_key = Some fp;
  ax_line : (fgets 64 fp).1 <> [];
  ax_fp : bytes_ok fp;
  ax_salt : bytes_ok salt;
  ax_max : Z.of_nat (length salt) <= 9992;
  ax_user : cstring usr = Ok name;
  ax_request : delivers i (command_bytes VNS_AUTH_REQUEST salt) i1;
  ax_byte : byte_ok ok;
  ax_ok : ok <> 0;
  ax_msg : Z.of_nat (length msg) < 9992;
  ax_status : delivers i1 (command_bytes VNS_AUTH_STATUS (ok :: msg)) i2 }.

Lemma connect_auth fuel port server s name salt fp i1 ok msg i2 :
  auth_exchange port server (user s) (input s) name salt fp i1 ok msg i2 -> (length (input s) < fuel)%nat ->
  exists w1, sr_connect_to_server fuel port server s
      = open_session fuel (set_input (set_sr (set_sock s true) w1) i2)
    /\ world_same (sr s) w1
    /\ sent (out w1) = sent (out (sr s))
        ++ [auth_reply_bytes name (Fips.sha1 (salt ++ key_bytes (os_malloc (ticks (sr s))) (fgets 64 fp).1))].
Proof.
  intros [Hj Hsend Hhost Hsock Hcon Hk Hne Hfp Hs Hmax Hu Hd Hb Hok Hml Hd2] Hf.
  unfold sr_connect_to_server. rewrite Hhost, Hsock, Hcon. cbn [negb].
  set (so := set_sock s true). rewrite (sbind_step _ _ _ _ _ (eq_refl : smodify (fun s => set_sock s true) s = Ok (tt, so))).
  destruct (expect_auth fuel so name salt fp i1 Hj Hsend Hk Hne Hfp Hs Hmax Hu Hd Hf) as (w1 & E1 & Hw1 & Ho1).
  exists w1. split; [|done].
  rewrite (sbind_step _ _ _ _ _ E1). change (negb (1 =? 1)) with false. cbv iota.
  pose proof (delivers_length _ _ _ Hd) as HL.
  set (s1 := set_sr (set_input so i1) w1).
  by rewrite (sbind_step _ _ _ _ _ (expect_status fuel s1 name ok msg i2 Hu Hb Hok Hml Hd2 ltac:(cbn; lia))).
Qed.

(** The second half, without a template. *)
Lemma open_session_ok fuel s h u :
  (forall k n, net_send k n = n) ->
  strlen (template s) = Ok 0%nat -> strncpy 32 (host s) = Ok h -> strncpy 32 (user s) = Ok u ->
  exists w', open_session fuel s = Ok (0, set_sr s w') /\ world_same (sr s) w'
    /\ sent (out w') = sent (out (sr s))
        ++ [be_bytes4 108 ++ be_bytes4 VNSOPEN ++ be_bytes2 (topo_id s) ++ [0; 0] ++ h ++ u ++ replicate 32 0].
Proof.
  intros Hsend Ht Hh Hu. unfold open_session.
  rewrite sget_step.
  rewrite (sbind_step _ _ _ _ _ (slift_step _ _ s Ht)).
  change (0 <? 0)%nat with false. cbv iota.
  rewrite (sbind_step _ _ _ _ _ (slift_step _ _ s (open_spec (topo_id s) _ _ _ _ Hh Hu))).
  set (m := _ ++ _). destruct (send_ok m (Z.of_nat (length m)) (sr s)) as (w' & E & Hw & Ho).
  rewrite Hsend in E. exists w'. split; [|done].
  by rewrite (sbind_step _ _ _ _ _ (on_world_ok _ s _ _ E)), Z.eqb_refl.
Qed.

(** With one: the server answers with the routing table, which is written to
    the file of the virtual host. *)
Lemma open_template_ok fuel s k t h id name text rest :
  (forall k n, net_send k n = n) ->
  strlen (template s) = Ok (S k) -> strncpy 30 (template s) = Ok t -> strncpy 32 (host s) = Ok h ->
  delivers (input s) (command_bytes VNS_RTABLE (id ++ text)) rest -> (length (input s) < fuel)%nat ->
  length id = 32%nat -> cstring id = Ok name -> Z.of_nat (length text) <= 9960 ->
  let fn := [114; 116; 97; 98; 108; 101; 46] ++ name in
  net_fopen_w fn = true ->
  exists s', open_session fuel s = Ok (0, s') /\ world_same (sr s) (sr s')
    /\ sent (out (sr s')) = sent (out (sr s)) ++ [be_bytes4 70 ++ be_bytes4 VNS_OPEN_TEMPLATE ++ t ++ h]
    /\ rtable_file s' = Some (fn, text) /\ input s' = rest /\ user s' = user s.
Proof.
  intros Hsend Hlen Ht Hh Hd Hf Hid Hn Hl fn Hfo. unfold open_session.
  rewrite sget_step.
  rewrite (sbind_step _ _ _ _ _ (slift_step _ _ s Hlen)). change (0 <? S k)%nat with true. cbv iota.
  rewrite (sbind_step _ _ _ _ _ (slift_step _ _ s (open_template_spec _ _ _ _ _ Ht Hh))).
  set (m := _ ++ _). destruct (send_ok m (Z.of_nat (length m)) (sr s)) as (w' & E & Hw & Ho).
  rewrite Hsend in E. rewrite (sbind_step _ _ _ _ _ (on_world_ok _ s _ _ E)), Z.eqb_refl. cbn [negb].
  set (s1 := set_sr s w').
  rewrite (sbind_eq _ _ _ _ (expect_ok fuel s1 VNS_RTABLE (id ++ text) rest VNS_RTABLE
    ltac:(rewrite length_app; lia) ltac:(done) (or_intror (or_introl eq_refl)) Hd Hf)).
  unfold dispatch. cbn [Z.eqb Pos.eqb VNSPACKET VNSCLOSE VNSBANNER VNSHWINFO VNS_RTABLE].
  pose proof (rtable_spec (set_input s1 rest) id name text Hid Hn ltac:(lia)) as Er.
  cbv zeta in Er. fold fn in Er. rewrite Hfo in Er.
  rewrite (sbind_step _ _ _ _ _ Er). eexists. by split_and!.
Qed.
End Loop.
