(* ===== verification/SessionSafety.v ===== *)
(** * SessionSafety: whatever the server sends, the router stays in order

    The commands of a server that need not behave: any complete command of at
    most 10000 bytes, known or not, in any order; only a packet must have its
    interface name and a frame of 42 bytes ([command_ok]).  When a handler
    returns, the invariant [world_ok] holds again; when it does not, the process
    is gone.  Handlers that change little of the state
    are run through [obeys] (Wire.v).  The dump file of a session can be read
    back. *)

From stdpp Require Import strings.
From S2P Require Import Prelude Memory Protocol Utils Iface Rt ArpCache Dump World ArpHandler Router RouterSpec Handlers Safety Wire Sha1 Vns VnsSpec Options Main.

(** ** Interfaces are added and filled in *)
Record ifs_grow (w w' : world) : Prop := {
  ig_only : ifs_only w w';
  ig_ok : ifs_ok (if_list w) -> ifs_ok (if_list w');
  ig_find : forall s, is_Some (find_if (if_list w) s) -> is_Some (find_if (if_list w') s) }.

#[export] Instance ifs_grow_preorder : PreOrder ifs_grow.
Proof.
  split; [intros w; constructor; [reflexivity|done|done]|].
  intros w1 w2 w3 [O1 K1 F1] [O2 K2 F2]. constructor; [by etransitivity|auto|auto].
Qed.

Lemma world_ok_ifs w w' q : ifs_grow w w' -> world_ok w q -> world_ok w' q.
Proof.
  intros [[Er Ec _ El _] Hok Hf] [[Hi Hlog] Hr Hrep Hm Hq Hreq].
  constructor; rewrite ?Er, ?Ec; [constructor; [by apply Hok|by rewrite El]| |done..|].
  - eapply Forall_impl; [exact Hr|]. intros r (Hl & s & i & Hn & Hs). split; [done|].
    destruct (Hf s) as [j Hj]; [by eexists|]. by exists s, j.
  - eapply Forall_impl; [exact Hreq|]. intros [l a] [Ht Hp]. constructor; [done|].
    eapply Forall_impl; [exact Hp|]. intros p [H1 H2 H3 H4]. constructor; try done.
    unfold if_of in *. destruct (name_of (pk_iface p)); [by apply Hf|done].
Qed.

Lemma update_last_inv f ifs l : update_last f ifs = Ok l -> exists pre i, ifs = pre ++ [i] /\ l = pre ++ [f i].
Proof.
  destruct ifs as [|i pre _] using rev_ind; [done|].
  rewrite update_last_app. intros [= <-]. by exists pre, i.
Qed.

(** A name that some interface has, it has under a change of the others'
    members. *)
Lemma find_if_last pre i j s :
  if_name j = if_name i -> is_Some (find_if (pre ++ [i]) s) -> is_Some (find_if (pre ++ [j]) s).
Proof.
  intros E. rewrite !find_if_app. replace (names j s) with (names i s) by (unfold names; by rewrite E).
  destruct (find_if pre s); [done|]. by destruct (names i s).
Qed.

Section OS.
Context {os : OS} (Hjunk : forall k, bytes_ok (os_malloc k)).

Lemma update_ifs_obeys f :
  (forall junk ifs l, bytes_ok junk -> f junk ifs = Ok l ->
     (ifs_ok ifs -> ifs_ok l) /\ forall s, is_Some (find_if ifs s) -> is_Some (find_if l s)) ->
  obeys ifs_grow (update_ifs f).
Proof.
  intros Hf w [] w' H. unfold update_ifs in H. inv_ok. injection E as <- <-.
  unfold slift in E0. destruct (f _ _) as [l|] eqn:El; [|done]. injection E0 as <- <-. injection H as <-.
  destruct (Hf _ _ _ (Hjunk _) El) as [H1 H2]. constructor; [by constructor|done|done].
Qed.

Lemma fresh_if_ok junk nm : bytes_ok junk -> length nm = 32%nat ->
  sr_if_ok (SrIf nm (if_addr (fresh_if junk)) (if_ip (fresh_if junk)) (if_speed (fresh_if junk))).
Proof.
  intros Hj Hn. unfold fresh_if, malloc. set (b := resize 56 0 junk).
  assert (Hb : bytes_ok b) by (apply Forall_resize; [unfold byte_ok; lia|done]).
  assert (Hl : length b = 56%nat) by apply length_resize.
  constructor; cbn [if_name if_addr if_ip]; [done| |by apply Forall_take, Forall_drop|].
  - rewrite length_take, length_drop. lia.
  - pose proof (le_word_range (take 4 (drop 40 b)) ltac:(by apply Forall_take, Forall_drop)) as H.
    rewrite length_take, length_drop, Hl in H. exact H.
Qed.

Lemma add_interface_grows junk ifs name l :
  bytes_ok junk -> sr_add_interface (fresh_if junk) ifs name = Ok l ->
  (ifs_ok ifs -> ifs_ok l) /\ forall s, is_Some (find_if ifs s) -> is_Some (find_if l s).
Proof.
  intros Hj H. unfold sr_add_interface in H. apply bind_Ok_inv in H as (nm & En & H).
  set (i := SrIf nm _ _ _) in H.
  assert (E : l = ifs ++ [i]) by (destruct ifs; by injection H as <-). subst l. split.
  - intros Hi. apply Forall_app. split; [done|]. apply Forall_singleton.
    apply fresh_if_ok; [done|by apply strncpy_length in En].
  - intros s [j Hj']. rewrite find_if_app, Hj'. by eexists.
Qed.

Lemma set_member_grows f ifs l :
  update_last f ifs = Ok l -> (forall i, if_name (f i) = if_name i) -> (forall i, sr_if_ok i -> sr_if_ok (f i)) ->
  (ifs_ok ifs -> ifs_ok l) /\ forall s, is_Some (find_if ifs s) -> is_Some (find_if l s).
Proof.
  intros (pre & i & -> & ->)%update_last_inv Hn Hok. split.
  - rewrite !Forall_app, !Forall_singleton. intros [? ?]. auto.
  - intros s. by apply find_if_last.
Qed.

Lemma set_ether_addr_grows value ifs l :
  bytes_ok value -> sr_set_ether_addr ifs value = Ok l ->
  (ifs_ok ifs -> ifs_ok l) /\ forall s, is_Some (find_if ifs s) -> is_Some (find_if l s).
Proof.
  intros Hv H. unfold sr_set_ether_addr in H. destruct ifs as [|i0 ifs]; [done|].
  apply bind_Ok_inv in H as (a & Ea & H). unfold load in Ea. case_match; [|done]. injection Ea as <-.
  eapply set_member_grows; [exact H|done|]. intros i [H1 _ _ H4].
  constructor; cbn [if_name if_addr if_ip]; [done| |by apply Forall_take|done].
  rewrite drop_0, length_take. apply Nat.leb_le in H0. lia.
Qed.

Lemma load32_u32 buf off v : bytes_ok buf -> load32 buf off = Ok v -> u32_ok v.
Proof.
  intros Hb H. apply bind_Ok_inv in H as (bs & E & [= <-]). unfold load in E. case_match; [|done].
  injection E as <-. pose proof (le_word_range (take 4 (drop off buf)) ltac:(by apply Forall_take, Forall_drop)) as Hr.
  apply Nat.leb_le in H. rewrite length_take, length_drop, Nat.min_l in Hr by lia. exact Hr.
Qed.

Lemma hw_switch_obeys key value : bytes_ok value -> obeys ifs_grow (hw_switch key value).
Proof.
  intros Hv. unfold hw_switch. repeat apply obeys_if; try (apply obeys_ret; tc_solve).
  - apply update_ifs_obeys. intros junk ifs l Hj. by apply add_interface_grows.
  - intros w a w' H. apply sbind_Ok_inv in H as (ip & w1 & H1 & H2).
    unfold slift in H1. destruct (load32 value 0) as [v|] eqn:Ev; [|done]. injection H1 as <- <-.
    revert a w' H2. apply update_ifs_obeys. intros _ ifs l _ E. eapply set_member_grows; [exact E|done|].
    intros i [H1 H2 H3 _]. constructor; cbn [if_name if_addr if_ip]; [exact H1|exact H2|exact H3|exact (load32_u32 _ _ _ Hv Ev)].
  - apply update_ifs_obeys. intros _ ifs l _. by apply set_ether_addr_grows.
Qed.

Lemma from_bytes buf off v : bytes_ok buf -> from buf off = Ok v -> bytes_ok v.
Proof. intros Hb. unfold from. case_match; [|done]. intros [= <-]. by apply Forall_drop. Qed.

Lemma hw_entry_obeys hwinfo entry : bytes_ok hwinfo -> obeys ifs_grow (hw_entry hwinfo entry).
Proof.
  intros Hb. unfold hw_entry. apply obeys_bind; [tc_solve|apply obeys_lift; tc_solve|intros key].
  intros w a w' H. apply sbind_Ok_inv in H as (value & w1 & H1 & H2). unfold slift in H1.
  destruct (from _ _) as [v|] eqn:Ev; [|done]. injection H1 as <- <-.
  revert H2. apply hw_switch_obeys. by eapply from_bytes.
Qed.

#[local] Hint Resolve hw_entry_obeys : router.

Lemma hwinfo_obeys hwinfo : bytes_ok hwinfo -> obeys ifs_grow (sr_handle_hwinfo hwinfo).
Proof.
  intros Hb. unfold sr_handle_hwinfo. obey.
Qed.

(** ** The other commands *)
Lemma tick_obeys : obeys world_same tick.
Proof. intros w a w' [= _ <-]. by constructor. Qed.
Lemma emit_obeys e : obeys world_same (emit e).
Proof. intros w a w' [= _ <-]. by constructor. Qed.
End OS.
#[local] Hint Resolve tick_obeys emit_obeys : router.

Section Session.
Context {os : OS} {net : Net} (Hjunk : forall k, bytes_ok (os_malloc k)).

Lemma auth_request_obeys usr req : obeys world_same (sr_handle_auth_request usr req).
Proof.
  unfold sr_handle_auth_request, send. obey.
Qed.

Lemma auth_status_obeys usr status : obeys world_same (sr_handle_auth_status usr status).
Proof. unfold sr_handle_auth_status. obey. Qed.

(** A complete command of the right size; a packet with a frame in it. *)
Record command_ok (command : Z) (body : list Z) : Prop := {
  co_type : 0 <= command < 2147483648;
  co_bytes : bytes_ok body;
  co_len : Z.of_nat (length body) <= 9992;
  co_frame : command = VNSPACKET -> (58 <= length body)%nat }.

Lemma received_bytes_ok command body : bytes_ok body -> bytes_ok (received_bytes command body).
Proof. intros H. unfold received_bytes. rewrite !bytes_ok_app. split_and!; [by repeat constructor; apply byte_at_range|apply bytes_ok_le_bytes4|done]. Qed.

(** The frame of a packet command whose interface the router has. *)
Lemma packet_frame_ok w body w' :
  ifs_ok (if_list w) -> bytes_ok body -> (58 <= length body)%nat -> Z.of_nat (length body) <= 9992 ->
  handle_vnspacket (received_bytes VNSPACKET body) (8 + Z.of_nat (length body)) w = Ok (tt, w') ->
  exists nm frame, body = nm ++ frame /\ length nm = 16%nat /\ frame_ok w frame (nm ++ frame)
    /\ Z.of_nat (length frame) <= 9976.
Proof.
  intros Hi Hb Hlo Hhi E. destruct (split_at body 16 ltac:(lia)) as (nm & frame & -> & Hnm).
  rewrite length_app, Hnm in *. exists nm, frame. split_and!; [done|done| |lia].
  destruct (cstr_ok sr_IFACE_NAMELEN (nm ++ frame)) as [s Hs].
  { rewrite length_app. unfold sr_IFACE_NAMELEN. lia. }
  destruct (strncpy_ok 16 (nm ++ frame)) as [n16 Hn]; [rewrite length_app; lia|].
  apply bytes_ok_app in Hb as [_ Hb]. constructor; [done|lia|].
  destruct (find_if (if_list w) s) as [i|] eqn:Ef; [by exists s, n16, i|].
  pose proof (vnspacket_unknown w nm frame s Hi Hnm ltac:(lia) Hs Ef) as Hu.
  rewrite length_app, Hnm in Hu. by rewrite E in Hu.
Qed.

Lemma on_world_inv {A} (m : M A) s a s' :
  on_world m s = Ok (a, s') -> exists w', m (sr s) = Ok (a, w') /\ s' = set_sr s w'.
Proof. unfold on_world. destruct (m (sr s)) as [[b w']|]; [|done]. intros [= -> <-]. by exists w'. Qed.

Lemma slift_inv {S A} (m : res A) (s : S) a s' : slift m s = Ok (a, s') -> s' = s.
Proof. unfold slift. destruct m; [|done]. by intros [= _ <-]. Qed.

Lemma rtable_keeps rtable s r s' :
  sr_handle_rtable rtable s = Ok (r, s') -> sr s' = sr s /\ input s' = input s.
Proof.
  unfold sr_handle_rtable. intros H.
  apply sbind_Ok_inv in H as (id & s1 & ->%slift_inv & H). apply sbind_Ok_inv in H as (name & s2 & ->%slift_inv & H).
  destruct (_ <? _)%nat; [done|]. cbv zeta in H. destruct (net_fopen_w _); [|by injection H as _ <-].
  apply sbind_Ok_inv in H as (n & s3 & ->%slift_inv & H). destruct (_ <? _); [done|].
  apply sbind_Ok_inv in H as (contents & s4 & ->%slift_inv & H). by injection H as _ <-.
Qed.

(** Every command: when it returns, the router is in order. *)
Lemma command_keeps_order fuel s q command body rest r s' :
  world_ok (sr s) q -> command_ok command body ->
  delivers (input s) (command_bytes command body) rest -> (length (input s) < fuel)%nat ->
  sr_read_from_server fuel s = Ok (r, s') -> input s' = rest /\ exists q', world_ok (sr s') q'.
Proof.
  intros Hw [Hc Hb Hl Hp] Hd Hf E0. pose proof E0 as E. unfold sr_read_from_server in E.
  rewrite (expect_ok fuel s command body rest 0 Hl Hc (or_introl eq_refl) Hd Hf) in E.
  set (s1 := set_input s rest) in E. set (buf := received_bytes command body) in E.
  assert (Hbuf : bytes_ok buf) by by apply received_bytes_ok.
  assert (Hsame : forall w', world_same (sr s) w' -> input (set_sr s1 w') = rest /\ exists q', world_ok w' q').
  { intros w' H. split; [done|]. exists q. by eapply world_ok_same. }
  unfold dispatch in E. destruct (Z.eqb_spec command VNSPACKET) as [->|_].
  { apply sbind_Ok_inv in E as (u & s2 & (w' & Ev & _)%on_world_inv & _). destruct u.
    destruct (packet_frame_ok _ _ _ (wok_ifs _ _ Hw) Hb (Hp eq_refl) Hl Ev) as (nm & frame & -> & Hnm & Hfr & Hmax).
    destruct (server_packet_ok fuel s q nm frame rest Hw Hnm Hfr Hmax Hd Hf) as [(w2 & q' & E2 & Hok & _)|[E2 _]];
      rewrite E0 in E2; [injection E2 as _ ->; eauto|done]. }
  destruct (command =? VNSCLOSE); [|destruct (command =? VNSBANNER)].
  1,2: apply sbind_Ok_inv in E as (m & s2 & ->%slift_inv & E);
    apply sbind_Ok_inv in E as (m' & s2 & ->%slift_inv & [= _ <-]); by eauto.
  destruct (command =? VNSHWINFO).
  { apply sbind_Ok_inv in E as (n & s2 & (w' & Ev & ->)%on_world_inv & E). rewrite sget_step in E.
    apply sbind_Ok_inv in E as (bad & s3 & ->%slift_inv & E).
    assert (Es : s' = set_sr s1 w') by (destruct (negb _); by injection E as _ <-). subst s'. split; [done|].
    exists q. eapply world_ok_ifs; [by eapply hwinfo_obeys|done]. }
  destruct (command =? VNS_RTABLE).
  { apply sbind_Ok_inv in E as (ok & s2 & (E1 & E2)%rtable_keeps & [= _ <-]). rewrite E1, E2. eauto. }
  destruct (command =? VNS_AUTH_REQUEST).
  { rewrite sget_step in E. apply sbind_Ok_inv in E as (ok & s2 & (w' & Ev & ->)%on_world_inv & [= _ <-]).
    apply Hsame. by eapply auth_request_obeys. }
  destruct (command =? VNS_AUTH_STATUS).
  { rewrite sget_step in E. apply sbind_Ok_inv in E as (ok & s2 & (w' & Ev & ->)%on_world_inv & [= _ <-]).
    apply Hsame. by eapply auth_status_obeys. }
  injection E as _ <-. eauto.
Qed.

(** ** The dump file *)
Lemma handle_vnspacket_orderly buf len : obeys orderly (handle_vnspacket buf len).
Proof.
  unfold handle_vnspacket, sr_arp_req_not_for_us. obey; [apply obeys_orderly, sr_log_packet_quiet|apply sr_handlepacket_orderly].
Qed.

(** A packet command, and a turn of the cleanup thread. *)
Inductive served_step : world -> world -> Prop :=
| ss_packet w w' buf len : handle_vnspacket buf len w = Ok (tt, w') -> served_step w w'
| ss_turn w w' : sr_arpcache_timeout_turn w = Ok (tt, w') -> served_step w w'.

Lemma served_orderly w w' : rtc served_step w w' -> orderly w w'.
Proof.
  induction 1 as [w|w1 w2 w3 H12 _ IH]; [reflexivity|]. etransitivity; [|exact IH].
  destruct H12; [by eapply handle_vnspacket_orderly|by eapply timeout_turn_orderly].
Qed.

Definition dump_header : pcap_file_header :=
  PcapFileHeader TCPDUMP_MAGIC PCAP_VERSION_MAJOR PCAP_VERSION_MINOR 0 0 PACKET_DUMP_SIZE LINKTYPE_ETHERNET.

Lemma dump_header_ok : file_header_ok dump_header.
Proof. by constructor; repeat constructor. Qed.

Lemma dump_open_logs fname w w1 :
  fname <> chars "-" -> sr_dump_open fname 0 PACKET_DUMP_SIZE w = Ok (true, w1) ->
  logged (out w1) = logged (out w) ++ encode_file_header dump_header.
Proof.
  intros Hne. unfold sr_dump_open. rewrite bool_decide_eq_false_2 by done.
  destruct (net_fopen_w fname); [|done]. intros [= <-]. cbn [out set_logfile].
  rewrite logged_app. f_equal.
Qed.

(** The record of a packet: the time, and at most 1024 bytes. *)
Definition packet_record (ts : Z * Z) (buf : list Z) (len : Z) : record :=
  let size := Z.min PACKET_DUMP_SIZE len in
  (PcapPkthdr (u32 ts.1, u32 ts.2) size size, take (Z.to_nat size) buf).

Lemma log_packet_record w buf len :
  logfile w = Dumping -> 0 <= len <= Z.of_nat (length buf) ->
  record_ok (packet_record (os_timeofday (ticks w)) buf len)
  /\ exists w', sr_log_packet buf len w = Ok (tt, w')
    /\ logged (out w') = logged (out w) ++ encode_record (packet_record (os_timeofday (ticks w)) buf len).
Proof.
  intros Hlog Hl. unfold packet_record, PACKET_DUMP_SIZE. set (size := Z.min 1024 len).
  assert (Hs : 0 <= size <= 1024 /\ size <= len) by lia.
  split.
  { constructor; cbn [fst snd ph_ts ph_caplen ph_len]; try apply u32_range; unfold u32_ok; try lia.
    rewrite length_take. lia. }
  unfold sr_log_packet. rewrite sget_step, Hlog.
  unfold gettimeofday. rewrite sbind_assoc.
  rewrite (sbind_step _ _ _ _ _ (eq_refl : tick w = Ok (ticks w, _))).
  rewrite (sbind_step _ _ _ _ _ (eq_refl : sret _ _ = Ok (_, _))).
  rewrite log_header_eq. fold PACKET_DUMP_SIZE in size. fold size.
  eexists. split; [apply (sr_dump_ok _ Log); [by cbn; rewrite Hlog|lia|lia]|]. cbn [out].
  rewrite <- app_assoc, logged_app. f_equal. cbn [app].
  unfold logged, encode_record, encode_sf_pkthdr. cbn [omap list_omap mjoin list_join fst snd ph_ts ph_caplen ph_len].
  fold (u32 (os_timeofday (ticks w)).1) (u32 (os_timeofday (ticks w)).2). by rewrite app_nil_r, !le_bytes4_u32.
Qed.

(** ** Any number of commands and turns *)
(** The main thread has read a complete command and obeyed it, or the cleanup
    thread has taken a turn. *)
Inductive whole_step : session -> session -> Prop :=
| ws_command fuel s command body rest r s' :
    delivers (input s) (command_bytes command body) rest -> command_ok command body ->
    (length (input s) < fuel)%nat -> sr_read_from_server fuel s = Ok (r, s') -> whole_step s s'
| ws_turn s w : sr_arpcache_timeout_turn (sr s) = Ok (tt, w) -> whole_step s (set_sr s w).

Lemma whole_steps_keep_order s s' :
  rtc whole_step s s' -> (exists q, world_ok (sr s) q) -> exists q, world_ok (sr s') q.
Proof.
  induction 1 as [s|s1 s2 s3 H12 _ IH]; [done|]. intros [q Hq]. apply IH.
  destruct H12 as [fuel s command body rest r s' Hd Hc Hf E|s w E].
  - by eapply (command_keeps_order fuel s q command body rest r).
  - destruct (timeout_turn_total _ _ Hq) as [(w' & q' & E' & Hok & _)|E']; rewrite E in E'; [|done].
    injection E' as <-. by exists q'.
Qed.
End Session.
