(* ===== verification/MainSpec.v ===== *)
(** * MainSpec: start-up, to the call of [sr_init]

    What [start_up] does against a well-behaved server: it reads the routing
    table file, opens the session and reads the table; and the ways in which it
    fails before that.  [hwinfo_step] is the first command of the loop, the
    description of the interfaces.  Program.v goes on from here with both
    threads. *)

From stdpp Require Import strings.
From S2P Require Import Prelude Memory Protocol Utils Iface Rt ArpCache Dump World ArpHandler Router RouterSpec Handlers Safety Sha1 Vns VnsSpec Options Main.

(** ** Interfaces as the server describes them *)
Lemma find_if_same ifs l s i :
  Forall2 same_if ifs l -> find_if ifs s = Some i -> exists j, find_if l s = Some j.
Proof.
  intros H. induction H as [|i0 j0 ifs l (En & _) H IH]; [done|]. rewrite !find_if_cons.
  assert (E : names i0 s = names j0 s) by (unfold names; by rewrite En). rewrite E.
  destruct (names j0 s); [by eexists|done].
Qed.

Lemma same_if_ok ifs l : Forall2 same_if ifs l -> Forall if_described ifs -> ifs_ok l.
Proof.
  induction 1 as [|i j ifs l (En & Ea & Ei) _ IH]; [done|].
  intros [[[H1 H2 H3 H4] _ _] Hd]%Forall_cons. constructor; [|by apply IH].
  constructor; congruence.
Qed.

Lemma route_if_same ifs l r : Forall2 same_if ifs l -> route_if_ok ifs r -> route_if_ok l r.
Proof. intros H (s & i & Hn & Hi). destruct (find_if_same _ _ _ _ H Hi) as [j Hj]. by exists s, j. Qed.

Lemma packet_stream_same w w' i :
  Forall2 same_if (if_list w) (if_list w') -> packet_stream w i -> packet_stream w' i.
Proof.
  intros E H. induction H as [|i nm frame rest Hd Hnm Hnb [Hb Hl (s & nm16 & k & Hn & Hk)] Hmax _ IH];
    [by eapply ps_close|]. eapply ps_packet; try done. constructor; [done|done|].
  destruct (find_if_same _ _ _ _ E Hk) as [j Hj]. by exists s, nm16, j.
Qed.

(** The routes of a table file have names of 32 bytes, which end within them. *)
Lemma expected_routes_names aton rows : forall prev rs,
  Forall (fun r => row_ok (default prev r)) rows -> expected_routes aton prev rows = Some rs ->
  Forall (fun r => length (rt_interface r) = 32%nat /\ is_Ok (sr_print_routing_entry r)) rs
  /\ length rs = length rows.
Proof.
  induction rows as [|row rows IH]; intros prev rs Hok Hr; [by injection Hr as <-|].
  apply Forall_cons in Hok as [Hw Hok]. cbn [expected_routes] in Hr. set (cur := default prev row) in *.
  destruct (row_route aton cur) as [r|] eqn:Er; [|done].
  destruct (expected_routes aton cur rows) as [rs'|] eqn:Ers; [|done]. injection Hr as <-.
  destruct (IH cur rs') as [H1 H2]; [|done|].
  { eapply Forall_impl; [exact Hok|]. intros [w'|]; [done|]. by intros _. }
  split; [|simpl; lia]. constructor; [|done]. unfold row_route in Er.
  destruct (aton (w_dest cur)), (aton (w_gw cur)), (aton (w_mask cur)); try done.
  injection Er as <-. cbn [rt_interface].
  unfold row_ok, row_words in Hw. rewrite !Forall_cons in Hw. destruct Hw as (_ & _ & _ & (_ & Hl & Hns) & _).
  split; [rewrite length_app, length_replicate; lia|]. unfold sr_print_routing_entry. cbn [rt_interface].
  match goal with |- context [replicate ?n 0] => destruct n eqn:E32; [lia|] end. cbn [replicate]. rewrite cstring_word by done. by eexists.
Qed.

(** A C string's characters. *)
Abbreviation no_nul s := (Forall (fun c : Z => c <> 0) s).

Section Main.
Context {os : OS} {net : Net} {hst : Host}.

(** The hardware description as a command: the interfaces are known, and agree
    with the routes. *)
Lemma hwinfo_step fuel s ifs rest :
  Forall if_described ifs -> ifs <> [] -> (length ifs <= 92)%nat -> if_list (sr s) = [] ->
  delivers (input s) (command_bytes VNSHWINFO (entries_bytes (describe ifs))) rest ->
  (length (input s) < fuel)%nat -> routing_table (sr s) <> [] ->
  Forall (fun r => length (rt_interface r) = 32%nat) (routing_table (sr s)) ->
  Forall (route_if_ok ifs) (routing_table (sr s)) ->
  exists w', sr_read_from_server fuel s = Ok (1, set_sr (set_input s rest) w')
    /\ Forall2 same_if ifs (if_list w') /\ ifs_only (sr s) w'.
Proof.
  intros Hd Hne Hmax Hi0 Hdel Hf Hr0 Hrl Hri.
  destruct (describe_ok ifs Hd) as [Hes Hlen]. unfold sr_read_from_server.
  rewrite (expect_ok fuel s VNSHWINFO (entries_bytes (describe ifs)) rest 0); [| |done|by left|done|done].
  2:{ rewrite length_entries_bytes by (eapply Forall_impl; [exact Hes|]; naive_solver). lia. }
  unfold dispatch. cbn [Z.eqb Pos.eqb VNSPACKET VNSCLOSE VNSBANNER VNSHWINFO].
  destruct (hwinfo_spec (sr s) ifs Hd Hmax ltac:(by rewrite Hi0)) as (l & w' & E & L & S & O). rewrite Hi0 in L. cbn [app] in L.
  exists w'. rewrite L. split_and!; [|done|done].
  set (s1 := set_input s rest). rewrite (sbind_step _ _ _ _ _ (on_world_ok _ s1 _ _ E)).
  rewrite sget_step.
  cbn [sr set_sr]. rewrite (io_routes _ _ O), L.
  destruct (verify_loop_spec l (routing_table (sr s)) 0) as (n & Ev & _ & Hn); [by eapply same_if_ok|done|lia|].
  assert (n = 0) as ->.
  { apply Hn. eapply Forall_impl; [exact Hri|]. intros r. by apply route_if_same. }
  assert (Es : sr_verify_routing_table l (routing_table (sr s)) = Ok 0).
  { unfold sr_verify_routing_table. destruct l; [by inversion S; subst|]. by destruct (routing_table (sr s)). }
  by rewrite (sbind_step _ _ _ _ _ (slift_step _ _ _ Es)).
Qed.

(** The table file of the command line, read. *)
Lemma load_wrap_ok s file row rows rs :
  read_file s file = Some (render (Some row :: rows)) ->
  Forall (fun r => row_ok (default row r)) (Some row :: rows) ->
  expected_routes host_aton row (Some row :: rows) = Some rs ->
  Forall (fun b => length b = 32%nat) host_stack -> length host_stack = 4%nat ->
  sr_load_rt_wrap file s = Ok (false, set_sr s (set_routes (sr s) rs)).
Proof.
  intros Hh Hok Hr Hs H4. unfold sr_load_rt_wrap.
  rewrite sget_step. rewrite Hh. unfold sr_load_rt.
  pose proof (load_rt_loop_rows host_aton (Some row :: rows) row host_stack
    (S (length (render (Some row :: rows)))) false (routing_table (sr s)) rs Hok Hs H4 I Hr ltac:(lia)) as E.
  rewrite (sbind_step _ _ _ _ _ (slift_step _ _ s E)).
  cbn [fst snd]. set (s1 := set_sr s (set_routes (sr s) rs)).
  erewrite sbind_step by reflexivity. change (0 =? 0) with true. cbn [negb app]. fold s1.
  destruct (expected_routes_names _ _ _ _ Hok Hr) as [Hn _].
  assert (Hp : is_Ok (sr_print_routing_table rs)).
  { destruct (print_each_ok sr_print_routing_entry rs) as [l El].
    { eapply Forall_impl; [exact Hn|]. by intros r [_ ?]. }
    unfold sr_print_routing_table. rewrite El. destruct rs; by eexists. }
  destruct Hp as [l Hp]. by rewrite (sbind_step _ _ _ _ _ (slift_step _ _ s1 Hp)).
Qed.

(** ** Start-up *)

(** The name the session is opened under. *)
Definition login (o : options) : list Z :=
  default (default (chars "something_silly") host_login) (o_user o).

(** The names on the command line are strings, the user's fits its array, and
    the dump file can be opened. *)
Record options_ok (o : options) : Prop := {
  oo_host : no_nul (o_host o);
  oo_login : no_nul (login o);
  oo_fits : (length (login o) < 32)%nat;
  oo_log : forall l, o_logfile o = Some l -> l = chars "-" \/ net_fopen_w l = true }.

(** The arrays of the instance have their sizes. *)
Record arrays_ok (s : session) : Prop := {
  ar_user : length (user s) = 32%nat;
  ar_host : length (host s) = 32%nat;
  ar_template : length (template s) = 30%nat }.

Lemma store8_first l : (0 < length l)%nat -> store8 l 0 0 = Ok (0 :: tail l).
Proof. destruct l; simpl; [lia|]. intros _. unfold store8. rewrite store_ok by (simpl; lia). done. Qed.

Lemma copy_user_ok name s : no_nul name -> copy_user name s = Ok (tt, set_user (field 32 name) s).
Proof. intros H. unfold copy_user. by rewrite (sbind_step _ _ _ _ _ (slift_step _ _ s (strncpy_field 32 name H))). Qed.

Lemma init_ok s : arrays_ok s ->
  exists u h, sr_init_instance s
    = Ok (tt, Session (World [] [] (cache (sr s)) NoDump (ticks (sr s)) (out (sr s))) (input s) false
                (rtable_file s) u h (template s) 0).
Proof.
  intros [Hu Hh _]. exists (0 :: tail (user s)), (0 :: tail (host s)). unfold sr_init_instance.
  rewrite sget_step.
  rewrite (sbind_step _ _ _ _ _ (slift_step _ _ s (store8_first (user s) ltac:(lia)))).
  by rewrite (sbind_step _ _ _ _ _ (slift_step _ _ s (store8_first (host s) ltac:(lia)))).
Qed.

(** The names are in place, and the log is open. *)
Lemma set_names_ok o s : options_ok o ->
  exists w, set_names o s
    = Ok (false, Session w (input s) (sock_open s) (rtable_file s) (field 32 (login o)) (field 32 (o_host o))
                   (template s) (u16 (o_topo o)))
    /\ if_list w = if_list (sr s) /\ routing_table w = routing_table (sr s) /\ cache w = cache (sr s)
    /\ sent (out w) = sent (out (sr s)) /\ (logfile (sr s) <> DumpClosed -> logfile w <> DumpClosed).
Proof.
  intros [Hh Hl _ Hlog]. unfold set_names.
  set (s1 := set_topo (u16 (o_topo o)) s).
  rewrite smodify_step. fold s1.
  rewrite (sbind_step _ _ _ _ _ (slift_step _ _ s1 (strncpy_field 32 _ Hh))).
  set (s2 := set_host (field 32 (o_host o)) s1).
  rewrite smodify_step. fold s2.
  assert (Eu : (match o_user o with None => sr_set_user | Some u => copy_user u end) s2
    = Ok (tt, set_user (field 32 (login o)) s2)).
  { unfold login, sr_set_user in *. destruct (o_user o) as [u|]; [by apply copy_user_ok|].
    destruct host_login; by apply copy_user_ok. }
  rewrite (sbind_step _ _ _ _ _ Eu). destruct (o_logfile o) as [l|] eqn:El; [|by eexists].
  assert (Eb : exists fp f, (if bool_decide (l = chars "-") then Some DumpStdout
      else if net_fopen_w l then Some Dumping else None) = Some fp /\ file_event fp = Some f /\ fp <> DumpClosed).
  { destruct (Hlog l eq_refl) as [->| ->].
    - rewrite bool_decide_eq_true_2 by done. by exists DumpStdout, Stdout.
    - case_bool_decide; [by exists DumpStdout, Stdout|by exists Dumping, Log]. }
  destruct Eb as (fp & f & Eb & Ef & Hfp). unfold sr_dump_open. rewrite Eb.
  eexists (World (if_list (sr s)) (routing_table (sr s)) (cache (sr s)) fp (ticks (sr s)) _).
  unfold on_world, sbind, sf_write_header. destruct fp; try done; injection Ef as <-; unfold fwrite_to, emit, smodify, sret;
    cbn; (split_and!; try done); cbn; by rewrite sent_app, app_nil_r.
Qed.

(** ** From the open session to the end *)
(** The same router with its dump file, if it has one, closed. *)
Definition closed (w : world) : world :=
  match logfile w with NoDump => w | _ => set_logfile DumpClosed w end.

Lemma destroy_ok w : sr_destroy_instance w = Ok (tt, closed w).
Proof.
  unfold sr_destroy_instance, sr_dump_close, closed. rewrite sget_step. by destruct (logfile w).
Qed.

(** The table that is read when the session is open. *)
Definition second_table (o : options) : list Z :=
  if bool_decide (is_Some (o_template o)) && bool_decide (o_rtable o = rtable_vrhost)
  then rtable_vrhost else o_rtable o.

Lemma second_table_eq o : second_table o = o_rtable o.
Proof. unfold second_table. by destruct (bool_decide _), (bool_decide_reflect (o_rtable o = rtable_vrhost)). Qed.

(** ** The start *)

(** Before the connection: without a template the table is read and the array
    for its name holds the empty string. *)
Definition ready (o : options) (s : session) (w : world) (t : list Z) : session :=
  Session w (input s) false (rtable_file s) (field 32 (login o)) (field 32 (o_host o)) t (u16 (o_topo o)).

Lemma set_up_table o s row rows rs :
  arrays_ok s -> options_ok o -> o_template o = None ->
  read_file s (o_rtable o) = Some (render (Some row :: rows)) ->
  Forall (fun r => row_ok (default row r)) (Some row :: rows) ->
  expected_routes host_aton row (Some row :: rows) = Some rs ->
  Forall (fun b => length b = 32%nat) host_stack -> length host_stack = 4%nat ->
  exists w t, set_up o s = Ok (false, ready o s w t) /\ (if_list w = [] /\ logfile w <> DumpClosed) /\ strlen t = Ok 0%nat
    /\ sent (out w) = sent (out (sr s)).
Proof.
  intros Ha Ho Ht Hf Hrow Hrs Hst H4. unfold set_up. destruct (init_ok s Ha) as (u & h & Ei).
  set (s1 := Session _ _ _ _ _ _ _ _) in Ei. rewrite (sbind_step _ _ _ _ _ Ei).
  set (s2 := set_template (0 :: tail (template s)) s1).
  assert (Et : set_table o s1 = Ok (false, set_sr s2 (set_routes (sr s2) rs))).
  { unfold set_table. rewrite Ht, sget_step. pose proof (ar_template _ Ha) as Hl.
    rewrite (sbind_step _ _ _ _ _ (slift_step _ _ s1 (store8_first (template s) ltac:(lia)))), smodify_step.
    by apply (load_wrap_ok s2 _ row rows). }
  rewrite (sbind_step _ _ _ _ _ Et).
  destruct (set_names_ok o (set_sr s2 (set_routes (sr s2) rs)) Ho) as (w & En & Hi & _ & _ & Hs & Hl).
  exists w, (0 :: tail (template s)). split_and!; try done. by apply Hl.
Qed.

(** With a template, its name is kept and no table is read. *)
Lemma set_up_template o s t :
  arrays_ok s -> options_ok o -> o_template o = Some t -> no_nul t ->
  exists w, set_up o s = Ok (false, ready o s w (field 30 t)) /\ (if_list w = [] /\ logfile w <> DumpClosed)
    /\ sent (out w) = sent (out (sr s)).
Proof.
  intros Ha Ho Ht Hn. unfold set_up. destruct (init_ok s Ha) as (u & h & Ei).
  set (s1 := Session _ _ _ _ _ _ _ _) in Ei. rewrite (sbind_step _ _ _ _ _ Ei).
  set (s2 := set_template (field 30 t) s1).
  assert (Et : set_table o s1 = Ok (false, s2)).
  { unfold set_table. by rewrite Ht, (sbind_step _ _ _ _ _ (slift_step _ _ s1 (strncpy_field 30 t Hn))). }
  rewrite (sbind_step _ _ _ _ _ Et). destruct (set_names_ok o s2 Ho) as (w & En & Hi & _ & _ & Hs & Hl).
  exists w. split_and!; try done. by apply Hl.
Qed.

(** What there is when [sr_init] is called: the routes of the file, no interface,
    the rest of the stream. *)
Record started (o : options) (rs : list sr_rt) (i : list rx) (s : session) : Prop := {
  sd_ifs : if_list (sr s) = [];
  sd_routes : routing_table (sr s) = rs;
  sd_log : logfile (sr s) <> DumpClosed;
  sd_input : input s = i;
  sd_user : user s = field 32 (login o) }.

Lemma start_up_run argv o s s2 s3 :
  command_line argv = Some o -> options_ok o -> set_up o s = Ok (false, s2) -> user s2 = field 32 (login o) ->
  sr_connect_to_server (S (length (input s2))) (u16 (o_port o)) (o_server o) s2 = Ok (0, s3) ->
  start_up argv s = (do! quit := load_table o in sret (if quit then Some 1 else None)) s3.
Proof.
  intros Hc Ho Hs Hu Hcon. unfold start_up. rewrite Hc, (sbind_step _ _ _ _ _ Hs), sget_step.
  rewrite Hu, (sbind_step _ _ _ _ _ (slift_step _ _ s2 (cstring_field 32 _ (oo_login _ Ho) (oo_fits _ Ho)))).
  by rewrite (sbind_step _ _ _ _ _ Hcon).
Qed.

(** The contents of the table file, good for the interfaces the server
    describes. *)
Record table_ok (text : list Z) (rs : list sr_rt) (ifs : list sr_if) : Prop := {
  tb_text : exists row rows, text = render (Some row :: rows)
    /\ Forall (fun r => row_ok (default row r)) (Some row :: rows)
    /\ expected_routes host_aton row (Some row :: rows) = Some rs;
  tb_stack : Forall (fun b => length b = 32%nat) host_stack;
  tb_arrays : length host_stack = 4%nat;
  tb_routes : Forall (route_if_ok ifs) rs }.

(** What the server sends once the session is open: the description of the
    interfaces [ifs], packets, the end. *)
Record service (w : world) (i : list rx) (ifs : list sr_if) : Prop := {
  sv_ifs : Forall if_described ifs;
  sv_some : ifs <> [];
  sv_max : (length ifs <= 92)%nat;
  sv_bytes : bytes_ok (entries_bytes (describe ifs));
  sv_stream : exists i', delivers i (command_bytes VNSHWINFO (entries_bytes (describe ifs))) i'
    /\ packet_stream (set_ifs w ifs) i' }.

(** The table is read a second time, and is good. *)
Lemma load_table_ok o s text rs ifs :
  read_file s (o_rtable o) = Some text -> table_ok text rs ifs ->
  load_table o s = Ok (false, set_sr s (set_routes (sr s) rs)).
Proof.
  intros Hf [(row & rows & -> & Hrow & Hrs) Hst H4 _]. rewrite <- second_table_eq in Hf.
  pose proof (load_wrap_ok s _ row rows rs Hf Hrow Hrs Hst H4) as E. unfold load_table, second_table in *.
  by destruct (bool_decide (is_Some (o_template o)) && bool_decide (o_rtable o = rtable_vrhost)).
Qed.

Lemma start_up_ok argv o s text rs name salt fp i1 ok msg i2 ifs :
  command_line argv = Some o -> options_ok o -> arrays_ok s -> o_template o = None -> rtable_file s = None ->
  host_files (o_rtable o) = Some text -> table_ok text rs ifs ->
  auth_exchange (u16 (o_port o)) (o_server o) (field 32 (login o)) (input s) name salt fp i1 ok msg i2 ->
  exists s', start_up argv s = Ok (None, s') /\ started o rs i2 s'.
Proof.
  intros Hc Ho Har Ht Hrf Hfile Htab Ha.
  assert (Hrd : forall s', rtable_file s' = None -> read_file s' (o_rtable o) = Some text).
  { intros s' E. unfold read_file. by rewrite E. }
  destruct (tb_text _ _ _ Htab) as (row & rows & Et & Hrow & Hrs).
  destruct (set_up_table o s row rows rs Har Ho Ht) as (w & t & Es & [Hi Hlog] & Hl & _); try done; [by rewrite Hrd, Et|..].
  { apply (tb_stack _ _ _ Htab). } { apply (tb_arrays _ _ _ Htab). }
  set (s1 := ready o s w t) in Es.
  destruct (connect_auth (S (length (input s1))) _ _ s1 _ _ _ _ _ _ _ Ha ltac:(lia)) as (w2 & E2 & Hw2 & _).
  set (s2 := set_input (set_sr (set_sock s1 true) w2) i2) in *.
  destruct (open_session_ok (S (length (input s1))) s2 (field 32 (o_host o)) (field 32 (login o))
    (ax_send _ _ _ _ _ _ _ _ _ _ _ Ha) Hl (strncpy_idem _ _ _ (strncpy_field 32 _ (oo_host _ Ho)))
    (strncpy_idem _ _ _ (strncpy_field 32 _ (oo_login _ Ho)))) as (w3 & E3 & Hw3 & _).
  rewrite E3 in E2.
  pose proof (load_table_ok o (set_sr s2 w3) text rs ifs (Hrd (set_sr s2 w3) Hrf) Htab) as El.
  eexists. split.
  { by rewrite (start_up_run argv o s s1 _ Hc Ho Es eq_refl E2), (sbind_step _ _ _ _ _ El). }
  constructor; cbn; [| |rewrite (ws_log _ _ Hw3); cbn; by rewrite (ws_log _ _ Hw2)|done|done].
  - rewrite (ws_ifs _ _ Hw3). cbn. by rewrite (ws_ifs _ _ Hw2).
  - done.
Qed.

Lemma start_up_template_ok argv o s t text rs name salt fp i1 ok msg i2 id vh i3 ifs :
  command_line argv = Some o -> options_ok o -> arrays_ok s ->
  o_template o = Some t -> no_nul t -> (0 < length t < 30)%nat ->
  auth_exchange (u16 (o_port o)) (o_server o) (field 32 (login o)) (input s) name salt fp i1 ok msg i2 ->
  delivers i2 (command_bytes VNS_RTABLE (id ++ text)) i3 ->
  length id = 32%nat -> cstring id = Ok vh -> Z.of_nat (length text) <= 9960 ->
  o_rtable o = [114; 116; 97; 98; 108; 101; 46] ++ vh -> net_fopen_w (o_rtable o) = true ->
  table_ok text rs ifs ->
  exists s', start_up argv s = Ok (None, s') /\ started o rs i3 s'.
Proof.
  intros Hc Ho Har Ht Htn Htl Ha Hrt Hid Hvh Htxt Hfn Hfo Htab.
  destruct (set_up_template o s t Har Ho Ht Htn) as (w & Es & [Hi Hlog] & _). set (s1 := ready o s w (field 30 t)) in Es.
  destruct (connect_auth (S (length (input s1))) _ _ s1 _ _ _ _ _ _ _ Ha ltac:(lia)) as (w2 & E2 & Hw2 & _).
  set (s2 := set_input (set_sr (set_sock s1 true) w2) i2) in *.
  assert (Hlen : strlen (template s2) = Ok (S (pred (length t)))).
  { unfold strlen. cbn [template s2 s1 ready set_input set_sr set_sock]. rewrite cstring_field by (done || lia).
    cbn [bind]. f_equal. lia. }
  pose proof (delivers_length _ _ _ (ax_request _ _ _ _ _ _ _ _ _ _ _ Ha)) as L1.
  pose proof (delivers_length _ _ _ (ax_status _ _ _ _ _ _ _ _ _ _ _ Ha)) as L2.
  pose proof (strncpy_idem _ _ _ (strncpy_field 30 _ Htn)) as Hti.
  destruct (open_template_ok (S (length (input s1))) s2 _ _ (field 32 (o_host o)) id vh text i3
    (ax_send _ _ _ _ _ _ _ _ _ _ _ Ha) Hlen Hti (strncpy_idem _ _ _ (strncpy_field 32 _ (oo_host _ Ho)))
    Hrt ltac:(cbn; lia) Hid Hvh Htxt ltac:(by rewrite <- Hfn)) as (s3 & E3 & Hw3 & _ & Hr3 & Hi3 & Hu3).
  rewrite E3 in E2.
  assert (Hrd : read_file s3 (o_rtable o) = Some text).
  { unfold read_file. by rewrite Hr3, bool_decide_eq_true_2. }
  pose proof (load_table_ok o s3 text rs ifs Hrd Htab) as El.
  eexists. split.
  { by rewrite (start_up_run argv o s s1 _ Hc Ho Es eq_refl E2), (sbind_step _ _ _ _ _ El). }
  constructor; cbn; [|done|rewrite (ws_log _ _ Hw3); cbn; by rewrite (ws_log _ _ Hw2)|done|by rewrite Hu3].
  rewrite (ws_ifs _ _ Hw3). cbn. by rewrite (ws_ifs _ _ Hw2).
Qed.

(** ** When it does not get that far *)

(** A start that succeeds: a template, or a table file that can be read. *)
Definition table_given (o : options) (s : session) : Prop :=
  (exists t, o_template o = Some t /\ no_nul t)
  \/ o_template o = None /\ exists text rs ifs, read_file s (o_rtable o) = Some text /\ table_ok text rs ifs.

Lemma set_up_given o s :
  arrays_ok s -> options_ok o -> table_given o s ->
  exists w t, set_up o s = Ok (false, ready o s w t) /\ sent (out w) = sent (out (sr s)).
Proof.
  intros Ha Ho [(t & Ht & Hn)|(Ht & text & rs & ifs & Hf & [(row & rows & -> & Hrow & Hrs) Hst H4 _])].
  - destruct (set_up_template o s t Ha Ho Ht Hn) as (w & E & _ & H). by exists w, (field 30 t).
  - destruct (set_up_table o s row rows rs Ha Ho Ht Hf Hrow Hrs Hst H4) as (w & t & E & _ & _ & H). by exists w, t.
Qed.

(** No table file. *)
Lemma no_table_ok argv o s :
  command_line argv = Some o -> arrays_ok s -> o_template o = None -> read_file s (o_rtable o) = None ->
  exists s', start_up argv s = Ok (Some 1, s') /\ sent (out (sr s')) = sent (out (sr s)).
Proof.
  intros Hc Ha Ht Hf. unfold start_up. rewrite Hc. destruct (init_ok s Ha) as (u & h & Ei).
  set (s1 := Session _ _ _ _ _ _ _ _) in Ei. set (s2 := set_template (0 :: tail (template s)) s1).
  assert (Es : set_up o s = Ok (true, s2)); [|by exists s2; rewrite (sbind_step _ _ _ _ _ Es)].
  unfold set_up. rewrite (sbind_step _ _ _ _ _ Ei). unfold set_table. pose proof (ar_template _ Ha) as Hl.
  rewrite Ht. erewrite sbind_step; [|rewrite sget_step, (sbind_step _ _ _ _ _ (slift_step _ _ s1 (store8_first (template s) ltac:(lia)))), smodify_step; fold s2; unfold sr_load_rt_wrap; rewrite sget_step; change (read_file s2) with (read_file s); rewrite Hf; reflexivity].
  done.
Qed.

(** No connection. *)
Lemma no_connection_ok argv o s :
  command_line argv = Some o -> arrays_ok s -> options_ok o -> table_given o s ->
  net_resolves (o_server o) && net_socket && net_connects (u16 (o_port o)) (o_server o) = false ->
  exists s', start_up argv s = Ok (Some 1, s') /\ sent (out (sr s')) = sent (out (sr s)) /\ sock_open s' = false.
Proof.
  intros Hc Ha Ho Ht Hn. destruct (set_up_given o s Ha Ho Ht) as (w & t & Es & Hs).
  exists (ready o s w t). split; [|done]. unfold start_up.
  rewrite Hc, (sbind_step _ _ _ _ _ Es), sget_step. set (s1 := ready o s w t).
  rewrite (sbind_step _ _ _ _ _ (slift_step _ _ s1 (cstring_field 32 _ (oo_login _ Ho) (oo_fits _ Ho)))).
  assert (Ec : sr_connect_to_server (S (length (input s1))) (u16 (o_port o)) (o_server o) s1 = Ok (-1, s1)).
  { unfold sr_connect_to_server. destruct (net_resolves (o_server o)), net_socket; try done. cbn [andb negb] in Hn |- *.
    rewrite smodify_step, Hn. done. }
  by rewrite (sbind_step _ _ _ _ _ Ec).
Qed.
End Main.
