(* ===== verification/Threads.v ===== *)
(** * Threads: the two threads of the router and the cache lock

    After [sr_init], the main thread reads commands from the server and obeys
    them until one ends the loop; then it closes the dump file and returns, and
    the process is gone.  The thread [sr_init] starts runs
    [sr_arpcache_timeout].  They share the instance.  The cache functions take
    its recursive lock, and so does a turn of the cleanup thread; but
    [handle_arpreq], called from [handle_ip_packet], and the walk over the
    packets of an answered request in [handle_arp_packet], follow pointers into
    the queue without it, and nothing protects the interface list and the dump
    file.

    A thread is a tree of actions ([prog]); between two actions of one thread
    the other may act.  An action is one call of a cache function under the
    lock, one access to a member of a request outside it, one [fwrite] or
    [write], one entry of the hardware description, or a piece of code that only
    reads the tables: the decision what to do with a packet ([ip_verdict],
    [arp_decide]) and the building of a frame.  [run] executes a program
    alone, and is the function of the same name ([Prog], Router.v, Vns.v). *)

From S2P Require Import Prelude Memory Protocol Utils Iface Rt ArpCache Dump World ArpHandler Router RouterSpec Handlers Safety Vns VnsSpec Main SessionSafety.

(** ** Programs *)
Inductive prog (S A : Type) : Type :=
| Done (a : A)
| Act {X : Type} (m : ST S X) (k : X -> prog S A)
| Acquire (k : prog S A)     (** [pthread_mutex_lock(&cache->lock)] *)
| Release (k : prog S A).    (** [pthread_mutex_unlock(&cache->lock)] *)
Arguments Done {S A} a.
Arguments Act {S A X} m k.
Arguments Acquire {S A} k.
Arguments Release {S A} k.

Fixpoint pbind {S A B} (p : prog S A) (f : A -> prog S B) : prog S B :=
  match p with
  | Done a => f a
  | Act m k => Act m (fun x => pbind (k x) f)
  | Acquire k => Acquire (pbind k f)
  | Release k => Release (pbind k f)
  end.

Notation "'act!' x := m 'in' k" := (Act m (fun x => k))
  (at level 10, x pattern, m at level 100, k at level 200,
   format "'[v' 'act!'  x  :=  m  'in' '/' k ']'") : router_scope.
Notation "'call!' x := p 'in' k" := (pbind p (fun x => k))
  (at level 10, x pattern, p at level 100, k at level 200,
   format "'[v' 'call!'  x  :=  p  'in' '/' k ']'") : router_scope.

(** A cache function: its body between lock and unlock. *)
Definition locked {S X} (m : ST S X) : prog S X :=
  Acquire (act! x := m in Release (Done x)).

(** A loop over a list. *)
Fixpoint each {S X} (body : X -> prog S unit) (l : list X) : prog S unit :=
  match l with
  | [] => Done tt
  | x :: l' => call! _ := body x in each body l'
  end.

(** The thread alone: nobody else holds the lock, so it is always granted. *)
Fixpoint run {S A} (p : prog S A) : ST S A :=
  match p with
  | Done a => sret a
  | Act m k => do! x := m in run (k x)
  | Acquire k => run k
  | Release k => run k
  end.

(** A program on the instance, as part of one on the session. *)
Fixpoint on_instance {A} (p : prog world A) : prog session A :=
  match p with
  | Done a => Done a
  | Act m k => Act (on_world m) (fun x => on_instance (k x))
  | Acquire k => Acquire (on_instance k)
  | Release k => Release (on_instance k)
  end.

(** ** The program of each thread *)
Module Prog.
Section OS.
Context {os : OS}.

(** *** sr_vns_comm.c: sending *)
Definition sr_log_packet (buf : list Z) (len : Z) : prog world unit :=
  act! w := sget in
  match logfile w with
  | NoDump => Done tt
  | _ =>
      act! tv := gettimeofday in
      let h := log_header tv len in
      act! _ := fwrite (encode_sf_pkthdr h) in
      act! _ := (do! data := slift (load buf 0 (Z.to_nat (u32 (ph_caplen h)))) in fwrite data) in
      Done tt
  end.

(** [held]: an access to the memory the name [iface] is in. *)
Definition sr_send_packet (held : M unit) (buf : list Z) (len : Z) (iface : list Z) : prog world Z :=
  let total_len := u32 (len + Z.of_nat PktHdr.size) in
  act! _ := slift (print_hdrs buf len) in
  if len <? Z.of_nat Eth.size then Done (-1)
  else
    act! sr_pkt := (run! held in do! w := sget in
      slift (packet_message (os_malloc (ticks w)) buf len total_len iface)) in
    call! _ := sr_log_packet buf (s32 len) in
    act! ok := (run! held in sr_ether_addrs_match_interface buf iface) in
    if negb ok then Done (-1)
    else
      act! ret := write sr_pkt total_len in
      if ret <? total_len then Done (-1) else Done 0.

(** The name is in the buffer of the command or in the routing table, which
    are not freed. *)
Definition owned : M unit := sret tt.

(** *** sr_arpcache.c *)
Definition sr_arpcache_lookup (ip : Z) : prog world (option sr_arpentry) :=
  locked (do! w := sget in sret (ArpCache.sr_arpcache_lookup (cache w) ip)).
Definition sr_arpcache_queuereq (ip : Z) (packet : list Z) (len : Z) (iface : list Z) : prog world loc :=
  locked (on_cache (ArpCache.sr_arpcache_queuereq ip (Some packet) len (Some iface))).
Definition sr_arpcache_insert (mac : list Z) (ip : Z) : prog world (option loc) :=
  locked (arpcache_insert mac ip).
Definition sr_arpreq_destroy (req : loc) : prog world unit :=
  locked (on_cache (ArpCache.sr_arpreq_destroy (Some req))).

(** The access to a member of [*req], or of its packets, which are freed with
    it: it must not have been freed. *)
Definition read (req : loc) : M sr_arpreq := on_cache (deref req).
Definition touch (req : loc) : M unit := run! read req in sret tt.

Definition sr_send_icmp_t3 (held : M unit) (packet : list Z) (len : Z) (iface : list Z)
    (type code : Z) : prog world unit :=
  act! icmp_packet := (run! held in icmp_t3 packet iface type code) in
  call! _ := sr_send_packet held icmp_packet (Z.of_nat ICMP_T3_PACKET_LEN) iface in
  Done tt.

(** A [while (pkt)] loop over the packets of [*req]: [body] reads [pkt], and
    [pkt->next] is read after it. *)
Definition each_packet (req : loc) (body : sr_packet -> prog world unit) : list sr_packet -> prog world unit :=
  each (fun pkt => call! _ := body pkt in act! _ := touch req in Done tt).

Definition handle_arpreq (req : loc) : prog world unit :=
  act! now := time in
  act! r := read req in
  if 1 <=? now - rq_sent r then
    act! r := read req in
    if 5 <=? rq_times_sent r then
      act! r := read req in
      call! _ := each_packet req (fun pkt =>
        sr_send_icmp_t3 (touch req) (pk_buf pkt) (pk_len pkt) (pk_iface pkt) 3 1) (rq_packets r) in
      sr_arpreq_destroy req
    else
      (* req->ip and req->packets->iface *)
      act! r := read req in
      act! p := slift (of_option NullDeref (head (rq_packets r))) in
      act! arp_req := (run! touch req in do! w := sget in
        slift (create_arp_request (os_malloc (ticks w)) (if_list w) (rq_ip r) (pk_iface p))) in
      act! r := read req in
      act! p := slift (of_option NullDeref (head (rq_packets r))) in
      call! _ := sr_send_packet (touch req) arp_req (Z.of_nat ARP_PACKET_LEN) (pk_iface p) in
      act! _ := on_cache (write_req req (fun r =>
        SrArpreq (rq_ip r) now (rq_times_sent r) (rq_packets r) (rq_next r))) in
      (* req->times_sent++: a load and a store *)
      act! r := read req in
      let times_sent := rq_times_sent r in
      act! _ := on_cache (write_req req (fun r =>
        SrArpreq (rq_ip r) (rq_sent r) (u32 (times_sent + 1)) (rq_packets r) (rq_next r))) in
      Done tt
  else Done tt.

Fixpoint sweep_loop (fuel : nat) (req : option loc) : prog world unit :=
  match fuel with
  | O => act! x := sfault Diverges in Done x
  | S fuel' =>
      match req with
      | None => Done tt
      | Some l =>
          call! _ := handle_arpreq l in
          act! r := read l in
          sweep_loop fuel' (rq_next r)
      end
  end.
Definition sr_arpcache_sweepreqs : prog world unit :=
  act! w := sget in sweep_loop (walk_fuel (cache w)) (requests (cache w)).

(** One turn of [sr_arpcache_timeout], after the [sleep]. *)
Definition sr_arpcache_timeout : prog world unit :=
  Acquire (
    act! curtime := time in
    act! _ := on_cache (expire_entries curtime) in
    call! _ := sr_arpcache_sweepreqs in
    Release (Done tt)).

(** *** sr_router.c *)
Definition send_icmp_response (packet : list Z) (len : Z) (interface : list Z)
    (type code : Z) (ip_interface : option sr_if) : prog world unit :=
  if len <? Z.of_nat (Eth.size + Ip.size) then Done tt
  else
    act! r := icmp_response packet len interface type code ip_interface in
    call! _ := sr_send_packet owned r.1 r.2 interface in
    Done tt.

Definition send_known (packet : list Z) (len : Z) (rt : sr_rt) (arp_entry : sr_arpentry) : prog world unit :=
  act! packet := known_frame packet rt arp_entry in
  call! _ := sr_send_packet owned packet len (rt_interface rt) in
  Done tt.

Definition forward (packet : list Z) (len : Z) (rt : sr_rt) : prog world unit :=
  call! arp_entry := sr_arpcache_lookup (rt_gw rt) in
  match arp_entry with
  | Some entry => send_known packet len rt entry
  | None =>
      call! arp_req := sr_arpcache_queuereq (rt_gw rt) packet len (rt_interface rt) in
      handle_arpreq arp_req
  end.

Definition handle_ip_packet (packet : list Z) (len : Z) (interface : list Z) : prog world unit :=
  act! v := ip_verdict packet len interface in
  match v with
  | Drop => Done tt
  | Answer packet type code ip_interface =>
      send_icmp_response packet len interface type code ip_interface
  | Route packet rt => forward packet len rt
  end.

Definition send_waiting (held : M unit) (packet : list Z) (iface : option sr_if) (pkt : sr_packet) : prog world unit :=
  act! send_packet := (run! held in waiting_copy packet iface pkt) in
  (* arp_reply_packet->len and ->iface *)
  act! _ := held in
  call! _ := sr_send_packet held send_packet (pk_len pkt) (pk_iface pkt) in
  Done tt.

Definition handle_arp_answer (packet : list Z) (iface : option sr_if) (sha : list Z) (sip : Z) : prog world unit :=
  call! cached_arp_req := sr_arpcache_insert sha sip in
  match cached_arp_req with
  | None => Done tt
  | Some l =>
      act! r := read l in
      call! _ := each_packet l (send_waiting (touch l) packet iface) (rq_packets r) in
      sr_arpreq_destroy l
  end.

Definition handle_arp_packet (packet : list Z) (len : Z) (interface : list Z) : prog world unit :=
  act! v := arp_decide packet len interface in
  match v with
  | ArpDrop => Done tt
  | ArpAnswer response =>
      call! _ := sr_send_packet owned response len interface in Done tt
  | ArpLearn iface sha sip => handle_arp_answer packet iface sha sip
  end.

Definition sr_handlepacket (packet : list Z) (len : Z) (interface : list Z) : prog world unit :=
  act! type := slift (ethertype packet) in
  if type =? ethertype_ip then handle_ip_packet packet len interface
  else if type =? ethertype_arp then handle_arp_packet packet len interface
  else Done tt.

(** *** sr_vns_comm.c: the commands *)
Definition handle_vnspacket (buf : list Z) (len : Z) : prog world unit :=
  act! packet := slift (from buf PktHdr.size) in
  act! interface := slift (from buf Base.size) in
  let plen := u32 (len - Z.of_nat (PktHdr.size + Eth.size) + Z.of_nat Eth.size) in
  act! not_for_us := sr_arp_req_not_for_us packet plen interface in
  if (not_for_us : bool) then Done tt
  else
    act! mLen := slift (load32 buf Base.mLen) in
    call! _ := sr_log_packet packet (s32 (ntohl mLen - Z.of_nat PktHdr.size)) in
    sr_handlepacket packet plen interface.

Definition sr_handle_hwinfo (hwinfo : list Z) : prog world Z :=
  act! mLen := slift (load32 hwinfo Base.mLen) in
  let num_entries := s32 ((ntohl mLen - 2 * 4) mod 2 ^ 64 / Z.of_nat HwEntry.size) in
  call! _ := each (fun i => act! _ := hw_entry hwinfo (Base.size + i * HwEntry.size) in Done tt)
               (seq 0 (Z.to_nat num_entries)) in
  act! _ := (do! w := sget in slift (sr_print_if_list (if_list w))) in
  Done num_entries.

Context {net : Net}.

(** The [switch].  The commands other than these two touch nothing the cleanup
    thread uses, but for the socket. *)
Definition dispatch (buf : list Z) (len command : Z) : prog session Z :=
  if command =? VNSPACKET then
    call! _ := on_instance (handle_vnspacket buf len) in Done 1
  else if command =? VNSHWINFO then
    call! _ := on_instance (sr_handle_hwinfo buf) in
    act! bad := (do! s := sget in
      slift (sr_verify_routing_table (if_list (sr s)) (routing_table (sr s)))) in
    if negb (bad =? 0) then Done (-1) else Done 1
  else act! ret := Vns.dispatch buf len command in Done ret.

Definition obey_command (c : option (list Z * Z)) : prog session Z :=
  match c with
  | None => Done (-1)
  | Some (buf, len) =>
      act! type := slift (load32 buf Base.mType) in
      let command := s32 (ntohl type) in
      act! buf := slift (store32 buf Base.mType command) in
      dispatch buf len command
  end.

(** *** sr_main.c: one turn of the main loop, and what follows the last.  The
    result says whether the thread goes on: until it has returned, the other
    thread can act. *)
Definition return_0 : ST session unit := sret tt.
Definition main_turn (c : option (list Z * Z)) : prog session bool :=
  call! ret := obey_command c in
  if ret =? 1 then Done true
  else
    act! _ := on_world sr_destroy_instance in
    act! _ := return_0 in
    Done false.

(** The other thread never ends. *)
Definition cleanup_turn : prog session bool :=
  call! _ := on_instance sr_arpcache_timeout in Done true.
End OS.
End Prog.

(** ** Running both *)
Inductive thread := Main | Cleanup.

#[export] Instance thread_eq_dec : EqDecision thread.
Proof. solve_decision. Defined.

(** [c_lock]: the owner of the lock and how often it has taken it. *)
Record config := Config {
  c_state : session;
  c_lock : option (thread * nat);
  c_main : prog session bool;
  c_cleanup : prog session bool }.

Abbreviation c_world c := (sr (c_state c)).

Definition c_prog (c : config) (t : thread) : prog session bool :=
  match t with Main => c_main c | Cleanup => c_cleanup c end.
Definition resume (c : config) (t : thread) (s : session) (lock : option (thread * nat))
    (p : prog session bool) : config :=
  match t with
  | Main => Config s lock p (c_cleanup c)
  | Cleanup => Config s lock (c_main c) p
  end.

(** [main] has returned: the process is gone, and its threads with it. *)
Definition exited (c : config) : bool := match c_main c with Done false => true | _ => false end.

(** A recursive mutex ([PTHREAD_MUTEX_RECURSIVE]). *)
Definition acquire (t : thread) (lock : option (thread * nat)) : option (option (thread * nat)) :=
  match lock with
  | None => Some (Some (t, 1%nat))
  | Some (o, n) => if decide (o = t) then Some (Some (o, S n)) else None
  end.
Definition release (t : thread) (lock : option (thread * nat)) : option (thread * nat) :=
  match lock with
  | Some (o, S (S n)) => if decide (o = t) then Some (o, S n) else lock
  | Some (o, _) => if decide (o = t) then None else lock
  | None => None
  end.

(** The next action of a thread: [None] when it has none or waits for the lock. *)
Definition step (t : thread) (c : config) : option (res config) :=
  if exited c then None
  else match c_prog c t with
  | Done _ => None
  | Act m k => Some (let! p := m (c_state c) in Ok (resume c t p.2 (c_lock c) (k p.1)))
  | Acquire k =>
      match acquire t (c_lock c) with
      | Some lock => Some (Ok (resume c t (c_state c) lock k))
      | None => None
      end
  | Release k => Some (Ok (resume c t (c_state c) (release t (c_lock c)) k))
  end.

(** [n] actions of one thread. *)
Fixpoint steps (n : nat) (t : thread) (c : config) : option (res config) :=
  match n with
  | O => Some (Ok c)
  | S n' => match step t c with Some (Ok c') => steps n' t c' | r => r end
  end.

(** A command a well-behaved server sends to a router in the state [s]: a packet
    is a frame of 42 to 64999 bytes from an interface the router has, a text has
    its NUL within the command, a hardware description is one of interfaces, and
    no command has more than 10000 bytes.  On other commands the code can fault
    ([bad_lengths], [vnspacket_unknown], [short_error_overread]). *)
Record command_fine (s : session) (command : Z) (body : list Z) : Prop := {
  cf_type : 0 <= command < 2147483648;
  cf_bytes : bytes_ok body;
  cf_len : Z.of_nat (length body) <= 9992;
  cf_packet : command = VNSPACKET -> exists nm frame,
    body = nm ++ frame /\ length nm = 16%nat /\ frame_ok (sr s) frame (nm ++ frame);
  cf_text : command = VNSCLOSE \/ command = VNSBANNER -> is_Ok (cstring body);
  cf_hwinfo : command = VNSHWINFO -> exists ifs,
    body = entries_bytes (describe ifs) /\ Forall if_described ifs /\ (length ifs <= 92)%nat;
  cf_rtable : command = VNS_RTABLE -> exists id text,
    body = id ++ text /\ length id = 32%nat /\ is_Ok (cstring id);
  cf_status : command = VNS_AUTH_STATUS -> exists ok msg, body = ok :: msg /\ is_Ok (cstring msg) }.

(** What was read: an error, a length the code refuses, or such a command. *)
Definition read_fine (s : session) (c : option (list Z * Z)) : Prop :=
  match c with
  | None => True
  | Some (buf, len) => exists command body,
      buf = command_bytes command body /\ len = 8 + Z.of_nat (length body) /\ command_fine s command body
  end.

Section OS.
Context {os : OS} {net : Net}.

(** The main thread has read [c]; the cleanup thread wakes up. *)
Definition obey (c : config) (s : session) (r : option (list Z * Z)) : config :=
  resume c Main s (c_lock c) (Prog.main_turn r).
Definition wake (c : config) : config :=
  resume c Cleanup (c_state c) (c_lock c) Prog.cleanup_turn.

(** The running router: a thread acts, the main thread has read the next
    command, or the cleanup thread wakes up.  [server] says which commands the
    server may send to a router in a given state: any ([any_server]), or those of
    a well-behaved one ([read_fine]).  While the main thread waits for bytes, or
    spins because the stream is at its end, there is no step of its. *)
Inductive cstep (server : session -> option (list Z * Z) -> Prop) : config -> config -> Prop :=
| cstep_act c c' t : step t c = Some (Ok c') -> cstep server c c'
| cstep_command c fuel r s :
    c_main c = Done true -> read_command fuel (c_state c) = Ok (r, s) -> server s r ->
    cstep server c (obey c s r)
| cstep_wake c : exited c = false -> c_cleanup c = Done true -> cstep server c (wake c).
Definition any_server (s : session) (r : option (list Z * Z)) : Prop := True.

(** The router when [sr_init] returns: no interfaces yet, or some that the
    routes agree with. *)
Record booted (s : session) : Prop := {
  bt_ifs : ifs_ok (if_list (sr s));
  bt_print : Forall (fun i => is_Ok (sr_print_if i)) (if_list (sr s));
  bt_names : Forall (fun r => length (rt_interface r) = 32%nat) (routing_table (sr s));
  bt_routes : if_list (sr s) = [] \/ Forall (route_if_ok (if_list (sr s))) (routing_table (sr s));
  bt_cache : cache (sr s) = sr_arpcache_init;
  bt_user : is_Ok (cstring (user s)) }.

(** Both threads are there and have not acted yet. *)
Definition cstart (s : session) : config := Config s None (Done true) (Done true).

(** [sr_init]: the cache and its lock, and [pthread_create], whose result is not
    looked at: the cleanup thread is there, and [main] goes on to its loop. *)
Definition sr_init (s : session) : config := cstart (set_sr s (set_cache (sr s) sr_arpcache_init)).

(** Reached against a well-behaved server. *)
Definition creachable (c : config) : Prop :=
  exists s, booted s /\ rtc (cstep read_fine) (cstart s) c.
End OS.
