(* ===== verification/Alone.v ===== *)
(** * Alone: a thread run without the other is the function the model has

    The programs of Threads.v cut the handlers of Router.v and the commands of
    Vns.v into actions.  Run one after the other, the actions are the handler:
    for a turn of the cleanup thread, [run_timeout]; for a command,
    [run_obey]. *)

From S2P Require Import Prelude Memory Protocol Utils Iface Rt ArpCache Dump World ArpHandler Router RouterSpec Handlers Safety Wire Vns Main Threads.

(** Two computations that agree on every state. *)
Definition same {S A} (m1 m2 : ST S A) : Prop := forall s, m1 s = m2 s.
Infix "≈" := same (at level 70) : router_scope.

#[export] Instance same_equivalence {S A} : Equivalence (@same S A).
Proof. split; [by intros m s|by intros m1 m2 H s|intros m1 m2 m3 H1 H2 s; by rewrite H1]. Qed.

Lemma sbind_same {S A B} (m1 m2 : ST S A) (k1 k2 : A -> ST S B) :
  m1 ≈ m2 -> (forall a, k1 a ≈ k2 a) -> sbind m1 k1 ≈ sbind m2 k2.
Proof. intros Hm Hk s. unfold sbind. rewrite Hm. destruct (m2 s) as [[]|]; [apply Hk|done]. Qed.

#[export] Instance sbind_proper {S A B} :
  Proper (same ==> pointwise_relation A same ==> same) (@sbind S A B).
Proof. intros m1 m2 Hm k1 k2 Hk. by apply sbind_same. Qed.

(** The same at one state, where the continuations may use what happened. *)
Lemma sbind_at {S A B} (m1 m2 : ST S A) (k1 k2 : A -> ST S B) s :
  m1 s = m2 s -> (forall a s', m1 s = Ok (a, s') -> k1 a s' = k2 a s') -> sbind m1 k1 s = sbind m2 k2 s.
Proof. intros Hm Hk. unfold sbind. rewrite <- Hm. destruct (m1 s) as [[]|] eqn:E; [by apply Hk|done]. Qed.

Lemma sbind_assoc_same {S A B C} (m : ST S A) (k : A -> ST S B) (h : B -> ST S C) :
  sbind (sbind m k) h ≈ sbind m (fun a => sbind (k a) h).
Proof. intros s. apply sbind_assoc. Qed.

Lemma sbind_ret_l {S A B} (a : A) (k : A -> ST S B) : sbind (sret a) k ≈ k a.
Proof. done. Qed.
Lemma sbind_ret_r {S} (m : ST S unit) : sbind m (fun _ => sret tt) ≈ m.
Proof. intros s. unfold sbind. by destruct (m s) as [[[] ?]|]. Qed.
Lemma sbind_ret_id {S A} (m : ST S A) : sbind m (fun x => sret x) ≈ m.
Proof. intros s. unfold sbind. by destruct (m s) as [[]|]. Qed.

Lemma run_bind {S A B} (p : prog S A) (f : A -> prog S B) : run (pbind p f) ≈ sbind (run p) (fun a => run (f a)).
Proof.
  induction p as [a|X m k IH|k IH|k IH]; cbn [pbind run]; [done| |done|done].
  rewrite sbind_assoc_same. by apply sbind_same.
Qed.

Lemma run_locked {S X} (m : ST S X) : run (locked m) ≈ m.
Proof. apply sbind_ret_id. Qed.

Lemma run_each {S X} (body : X -> prog S unit) l : run (each body l) ≈ siter (fun x => run (body x)) l.
Proof.
  induction l as [|x l IH]; cbn [each siter]; [done|]. rewrite run_bind.
  apply sbind_same; [done|]. by intros [].
Qed.

Lemma siter_same {S A} (f g : A -> ST S unit) l : (forall x, f x ≈ g x) -> siter f l ≈ siter g l.
Proof. intros H. induction l as [|x l IH]; cbn [siter]; [done|]. apply sbind_same; [apply H|]. by intros []. Qed.

(** A program on the instance changes nothing else of the session. *)
Lemma on_world_bind {A B} (m : M A) (k : A -> M B) :
  on_world (sbind m k) ≈ sbind (on_world m) (fun a => on_world (k a)).
Proof.
  intros s. unfold on_world, sbind. destruct (m (sr s)) as [[a w]|]; [|done]. cbn [sr set_sr].
  by destruct (k a w) as [[]|].
Qed.

Lemma run_on_instance {A} (p : prog world A) : run (on_instance p) ≈ on_world (run p).
Proof.
  induction p as [a|X m k IH|k IH|k IH]; cbn [on_instance run]; [by intros []| |done|done].
  rewrite on_world_bind. by apply sbind_same.
Qed.

Lemma on_world_same {A} (m1 m2 : M A) : m1 ≈ m2 -> on_world m1 ≈ on_world m2.
Proof. intros H s. unfold on_world. by rewrite H. Qed.

(** Reading a live request again changes nothing. *)
Lemma read_step req w r : heap (cache w) !! req = Some r -> Prog.read req w = Ok (r, w).
Proof. intros E. unfold Prog.read, on_cache, deref. rewrite E. by rewrite set_cache_id. Qed.

Lemma read_inv req w r w' : Prog.read req w = Ok (r, w') -> w' = w /\ heap (cache w) !! req = Some r.
Proof.
  unfold Prog.read, on_cache, deref. destruct (heap (cache w) !! req); [|done].
  intros [= -> <-]. by rewrite set_cache_id.
Qed.

(** An access that succeeds, and will as long as the cache stays what it is. *)
Definition lives (held : M unit) (w : world) : Prop :=
  forall w', cache w' = cache w -> held w' = Ok (tt, w').

Lemma lives_owned w : lives Prog.owned w.
Proof. done. Qed.

Lemma lives_touch req w r : heap (cache w) !! req = Some r -> lives (Prog.touch req) w.
Proof.
  intros Hr w' E. unfold Prog.touch. rewrite <- E in Hr. by rewrite (sbind_step _ _ _ _ _ (read_step _ _ _ Hr)).
Qed.

Lemma lives_same held w w' : lives held w -> cache w' = cache w -> lives held w'.
Proof. intros H E w2 E2. apply H. congruence. Qed.

Lemma quiet_cache {A} (m : M A) w a w' : obeys quiet m -> m w = Ok (a, w') -> cache w' = cache w.
Proof. intros H E. by destruct (H _ _ _ E) as [[_ _ -> _] _]. Qed.

Section OS.
Context {os : OS}.

Lemma run_log_packet buf len : run (Prog.sr_log_packet buf len) ≈ sr_log_packet buf len.
Proof.
  unfold Prog.sr_log_packet, sr_log_packet. cbn [run]. apply sbind_same; [done|]. intros w.
  assert (H : run (act! tv := gettimeofday in
      let h := log_header tv len in
      act! _ := fwrite (encode_sf_pkthdr h) in
      act! _ := (do! data := slift (load buf 0 (Z.to_nat (u32 (ph_caplen h)))) in fwrite data) in
      Done tt) ≈ do! tv := gettimeofday in sr_dump (log_header tv len) buf).
  { cbn [run]. apply sbind_same; [done|]. intros tv. unfold sr_dump. apply sbind_same; [done|]. intros _.
    apply sbind_ret_r. }
  by destruct (logfile w).
Qed.

Lemma run_send_packet held buf len iface w :
  lives held w -> run (Prog.sr_send_packet held buf len iface) w = sr_send_packet buf len iface w.
Proof.
  intros Hl. unfold Prog.sr_send_packet, sr_send_packet. cbv zeta. cbn [run].
  apply sbind_at; [done|]. intros items w1 E1. unfold slift in E1.
  destruct (print_hdrs buf len); [|done]. injection E1 as _ <-.
  destruct (len <? Z.of_nat Eth.size); [done|]. cbn [run].
  rewrite sbind_assoc, (sbind_step _ _ _ _ _ (Hl w eq_refl)), sbind_assoc, !sget_step.
  apply sbind_at; [done|]. intros msg w1 E1. unfold slift in E1.
  destruct (packet_message _ _ _ _ _); [|done]. injection E1 as _ <-.
  rewrite run_bind. apply sbind_at; [apply run_log_packet|]. intros u w1 E1. rewrite run_log_packet in E1.
  cbn [run]. rewrite sbind_assoc.
  pose proof (quiet_cache _ _ _ _ (sr_log_packet_quiet _ _) E1) as Ec.
  rewrite (sbind_step _ _ _ _ _ (Hl w1 Ec)). apply sbind_at; [done|]. intros ok w2 _.
  destruct ok; cbn [negb run]; [|done]. apply sbind_at; [done|]. intros ret w3 _. by destruct (ret <? _).
Qed.

(** A send whose result is not used. *)
Lemma run_send_unit held buf len iface w :
  lives held w -> run (call! _ := Prog.sr_send_packet held buf len iface in Done tt) w
  = (run! sr_send_packet buf len iface in sret tt) w.
Proof. intros H. rewrite run_bind. apply sbind_at; [by apply run_send_packet|done]. Qed.

Lemma run_send_icmp_t3 held packet len iface type code w :
  lives held w -> run (Prog.sr_send_icmp_t3 held packet len iface type code) w
  = sr_send_icmp_t3 packet len iface type code w.
Proof.
  intros H. unfold Prog.sr_send_icmp_t3, sr_send_icmp_t3. cbn [run].
  rewrite sbind_assoc, (sbind_step _ _ _ _ _ (H w eq_refl)). apply sbind_at; [done|].
  intros f w1 E. apply run_send_unit. eapply lives_same; [exact H|].
  revert E. apply quiet_cache. unfold icmp_t3. obey.
Qed.

Lemma run_send_waiting held packet iface pkt w :
  lives held w -> run (Prog.send_waiting held packet iface pkt) w = send_waiting packet iface pkt w.
Proof.
  intros H. unfold Prog.send_waiting, send_waiting. cbn [run].
  rewrite sbind_assoc, (sbind_step _ _ _ _ _ (H w eq_refl)). apply sbind_at; [done|].
  intros f w1 E. assert (Ec : cache w1 = cache w).
  { revert E. apply quiet_cache. unfold waiting_copy. obey. }
  rewrite (sbind_step _ _ _ _ _ (H w1 Ec)). apply run_send_unit. by eapply lives_same.
Qed.

(** The loop over the packets of a request that nobody frees. *)
Lemma run_each_packet req (body : sr_packet -> prog world unit) (f : sr_packet -> M unit) pkts w r :
  (forall pkt, obeys quiet (f pkt)) ->
  (forall pkt w, lives (Prog.touch req) w -> run (body pkt) w = f pkt w) ->
  heap (cache w) !! req = Some r -> run (Prog.each_packet req body pkts) w = siter f pkts w.
Proof.
  intros Hq Hf. unfold Prog.each_packet. rewrite run_each. revert w.
  induction pkts as [|pkt pkts IH]; intros w Hr; [done|]. cbn [siter].
  rewrite (sbind_same _ _ _ _ (run_bind _ _) (fun _ => ltac:(reflexivity))), sbind_assoc.
  pose proof (lives_touch _ _ _ Hr) as Hl.
  apply sbind_at; [by apply Hf|]. intros u w1 E. rewrite Hf in E by done.
  pose proof (quiet_cache _ _ _ _ (Hq _) E) as Ec. cbn [run].
  rewrite sbind_assoc, (sbind_step _ _ _ _ _ (Hl w1 Ec)).
  rewrite (sbind_step _ _ _ _ _ (eq_refl : sret tt w1 = Ok (tt, w1))). apply IH. by rewrite Ec.
Qed.

(** The stores of the two members, one after the other. *)
Lemma write_twice req now w r :
  heap (cache w) !! req = Some r ->
  run (act! _ := on_cache (write_req req (fun r =>
         SrArpreq (rq_ip r) now (rq_times_sent r) (rq_packets r) (rq_next r))) in
       act! r := Prog.read req in
       let times_sent := rq_times_sent r in
       act! _ := on_cache (write_req req (fun r =>
         SrArpreq (rq_ip r) (rq_sent r) (u32 (times_sent + 1)) (rq_packets r) (rq_next r))) in
       Done tt) w
  = on_cache (write_req req (fun r =>
      SrArpreq (rq_ip r) now (u32 (rq_times_sent r + 1)) (rq_packets r) (rq_next r))) w.
Proof.
  intros Hr. cbn [run]. unfold sbind, on_cache, Prog.read, write_req, smodify, sbind, deref, sret, on_cache.
  rewrite Hr. cbn [cache set_cache set_heap heap]. rewrite lookup_insert_eq.
  cbn [cache set_cache set_heap heap rq_times_sent]. rewrite lookup_insert_eq. cbn.
  unfold set_cache, set_heap. cbn. by rewrite insert_insert_eq.
Qed.

Lemma run_handle_arpreq req : run (Prog.handle_arpreq req) ≈ handle_arpreq req.
Proof.
  intros w. unfold Prog.handle_arpreq, handle_arpreq. cbn [run].
  apply sbind_at; [done|]. intros now w1 _. apply sbind_at; [done|].
  intros r w2 [-> Hr]%read_inv. destruct (1 <=? now - rq_sent r); [|done]. cbn [run].
  pose proof (lives_touch _ _ _ Hr) as Hl.
  rewrite (sbind_step _ _ _ _ _ (read_step _ _ _ Hr)).
  destruct (5 <=? rq_times_sent r); cbn [run]; rewrite (sbind_step _ _ _ _ _ (read_step _ _ _ Hr)).
  - rewrite run_bind. apply sbind_at; [|intros; apply run_locked].
    apply (run_each_packet _ _ _ _ _ r (fun pkt => sr_send_icmp_t3_quiet _ _ _ _ _)); [|done].
    intros pkt w' Hw'. by apply run_send_icmp_t3.
  - rewrite sget_step.
    destruct (of_option NullDeref (head (rq_packets r))) as [p|f] eqn:Ep; [|done].
    rewrite !(sbind_step _ _ _ _ _ (slift_step (Ok p) p w1 eq_refl)).
    rewrite sbind_assoc, (sbind_step _ _ _ _ _ (Hl w1 eq_refl)), sbind_assoc, sget_step.
    destruct (create_arp_request _ _ _ _) as [f|]; [|done].
    rewrite !(sbind_step _ _ _ _ _ (slift_step (Ok f) f w1 eq_refl)).
    rewrite (sbind_step _ _ _ _ _ (read_step _ _ _ Hr)), Ep.
    rewrite (sbind_step _ _ _ _ _ (slift_step (Ok p) p w1 eq_refl)).
    rewrite run_bind. apply sbind_at; [by apply run_send_packet|]. intros u w2 Es.
    rewrite run_send_packet in Es by done. apply write_twice with (r := r).
    by rewrite (quiet_cache _ _ _ _ (sr_send_packet_quiet _ _ _) Es).
Qed.

Lemma run_sweep_loop fuel req : run (Prog.sweep_loop fuel req) ≈ sweep_loop fuel req.
Proof.
  revert req. induction fuel as [|fuel IH]; intros req; [done|].
  cbn [Prog.sweep_loop sweep_loop]. destruct req as [l|]; [|done].
  rewrite run_bind. apply sbind_same; [apply run_handle_arpreq|]. intros _.
  cbn [run]. apply sbind_same; [done|]. intros r. apply IH.
Qed.

Lemma run_timeout : run Prog.sr_arpcache_timeout ≈ sr_arpcache_timeout_turn.
Proof.
  unfold Prog.sr_arpcache_timeout, sr_arpcache_timeout_turn. cbn [run].
  apply sbind_same; [done|]. intros now. apply sbind_same; [done|]. intros _.
  rewrite run_bind. cbn [run]. rewrite sbind_ret_r.
  unfold Prog.sr_arpcache_sweepreqs, sr_arpcache_sweepreqs. cbn [run].
  apply sbind_same; [done|]. intros w. apply run_sweep_loop.
Qed.

Lemma run_send_icmp_response packet len interface type code o :
  run (Prog.send_icmp_response packet len interface type code o) ≈ send_icmp_response packet len interface type code o.
Proof.
  intros w. unfold Prog.send_icmp_response, send_icmp_response. destruct (len <? _); [done|]. cbn [run].
  apply sbind_at; [done|]. intros r w1 _. by apply run_send_unit.
Qed.

Lemma run_send_known packet len rt entry : run (Prog.send_known packet len rt entry) ≈ send_known packet len rt entry.
Proof.
  intros w. unfold Prog.send_known, send_known. cbn [run].
  apply sbind_at; [done|]. intros f w1 _. by apply run_send_unit.
Qed.

Lemma run_forward packet len rt : run (Prog.forward packet len rt) ≈ forward packet len rt.
Proof.
  unfold Prog.forward, forward. rewrite run_bind.
  setoid_rewrite run_locked. rewrite sbind_assoc_same.
  apply sbind_same; [done|]. intros w. rewrite sbind_ret_l.
  destruct (sr_arpcache_lookup (cache w) (rt_gw rt)); [apply run_send_known|].
  rewrite run_bind. apply sbind_same; [apply run_locked|]. intros l. apply run_handle_arpreq.
Qed.

Lemma run_handle_ip packet len interface :
  run (Prog.handle_ip_packet packet len interface) ≈ handle_ip_packet packet len interface.
Proof.
  unfold Prog.handle_ip_packet, handle_ip_packet. cbn [run]. apply sbind_same; [done|].
  intros [|p t c o|p rt]; [done|apply run_send_icmp_response|apply run_forward].
Qed.

Lemma run_arp_answer packet iface sha sip :
  run (Prog.handle_arp_answer packet iface sha sip) ≈ handle_arp_answer packet iface sha sip.
Proof.
  unfold Prog.handle_arp_answer, handle_arp_answer. rewrite run_bind. apply sbind_same; [apply run_locked|].
  intros [l|]; [|done]. cbn [run]. intros w. apply sbind_at; [done|]. intros r w' [-> Hr]%read_inv.
  rewrite run_bind. apply sbind_at; [|intros; apply run_locked].
  apply (run_each_packet _ _ _ _ _ r (fun pkt => send_waiting_quiet _ _ _)); [|done].
  intros pkt w' Hw'. by apply run_send_waiting.
Qed.

Lemma run_handle_arp packet len interface :
  run (Prog.handle_arp_packet packet len interface) ≈ handle_arp_packet packet len interface.
Proof.
  unfold Prog.handle_arp_packet, handle_arp_packet. cbn [run]. apply sbind_same; [done|].
  intros [|response|iface sha sip]; [done| |apply run_arp_answer].
  intros w. by apply run_send_unit.
Qed.

Lemma run_handlepacket packet len interface :
  run (Prog.sr_handlepacket packet len interface) ≈ sr_handlepacket packet len interface.
Proof.
  unfold Prog.sr_handlepacket, sr_handlepacket. cbn [run]. apply sbind_same; [done|]. intros type.
  destruct (type =? ethertype_ip); [apply run_handle_ip|].
  destruct (type =? ethertype_arp); [apply run_handle_arp|done].
Qed.

(** ** The commands *)
Lemma run_vnspacket buf len : run (Prog.handle_vnspacket buf len) ≈ handle_vnspacket buf len.
Proof.
  unfold Prog.handle_vnspacket, handle_vnspacket. cbn [run].
  apply sbind_same; [done|]. intros packet. apply sbind_same; [done|]. intros interface.
  apply sbind_same; [done|]. intros [|]; [done|]. cbn [run]. apply sbind_same; [done|]. intros mLen.
  rewrite run_bind. apply sbind_same; [apply run_log_packet|]. intros _. apply run_handlepacket.
Qed.

Lemma run_hwinfo hwinfo : run (Prog.sr_handle_hwinfo hwinfo) ≈ sr_handle_hwinfo hwinfo.
Proof.
  unfold Prog.sr_handle_hwinfo, sr_handle_hwinfo. cbn [run].
  apply sbind_same; [done|]. intros mLen. rewrite run_bind. apply sbind_same.
  { rewrite run_each. apply siter_same. intros i. apply sbind_ret_r. }
  intros _. cbn [run]. rewrite sbind_assoc_same. apply sbind_same; [done|]. intros w. done.
Qed.

Context {net : Net}.

Lemma run_dispatch buf len command : run (Prog.dispatch buf len command) ≈ dispatch buf len command.
Proof.
  unfold Prog.dispatch. destruct (Z.eqb_spec command VNSPACKET) as [->|Hp].
  { rewrite run_bind. apply sbind_same; [|done]. rewrite run_on_instance. apply on_world_same, run_vnspacket. }
  destruct (Z.eqb_spec command VNSHWINFO) as [->|Hh]; [|apply sbind_ret_id].
  unfold dispatch. cbn [Z.eqb Pos.eqb VNSPACKET VNSCLOSE VNSBANNER VNSHWINFO]. rewrite run_bind. apply sbind_same.
  { rewrite run_on_instance. apply on_world_same, run_hwinfo. }
  intros _. cbn [run]. rewrite sbind_assoc_same. apply sbind_same; [done|]. intros s.
  apply sbind_same; [done|]. intros bad. by destruct (negb _).
Qed.

Lemma run_obey c : run (Prog.obey_command c) ≈ obey_command 0 c.
Proof.
  destruct c as [[buf len]|]; [|done]. unfold Prog.obey_command, obey_command. cbn [run].
  apply sbind_same; [done|]. intros type. apply sbind_same; [done|]. intros buf'. apply run_dispatch.
Qed.
End OS.
