(* ===== verification/Interleave.v ===== *)
(** * Interleave: an invariant of every interleaving of the two threads

    [shared] is what both threads may count on: the cache represents a queue and
    a list of requests that were unlinked and belong to the main thread; the
    interfaces are well-formed, and those of waiting packets exist.  What one
    thread may find changed between two of its actions is [rely], what it may
    change itself [guar], and the one implies the other ([guar_rely]): a thread
    that holds the lock knows the queue up to the members that are written
    without it ([shape]); only the main thread adds interfaces, and none
    disappears.  [wp] is the proof rule for one thread under these terms: a
    fixpoint over its program, in which each action starts from any state the
    other thread can have left.  [thread_step_ok] puts two such threads
    together.  The rule is for runs that are tame or any run: in a tame one every
    state is [calm], the main thread counts on the requests it has pointers to,
    and no action uses what was freed or closed, as it may in any other.  In
    both, building an ICMP answer may follow its uninitialised pointer to
    nowhere ([may_fault]). *)

From S2P Require Import Prelude Memory Protocol Utils Iface Rt ArpCache World ArpHandler Router RouterSpec Handlers Safety Vns Threads.

(** What is left of the queue without the members [sent] and [times_sent]. *)
Definition shape (q : queue) : list (loc * Z * list sr_packet) :=
  (fun p => (p.1, q_ip p.2, q_pkts p.2)) <$> q.

(** Whether a name that has an interface keeps having one. *)
Definition ifs_le (l l' : list sr_if) : Prop :=
  forall s, is_Some (find_if l s) -> is_Some (find_if l' s).
#[export] Instance ifs_le_preorder : PreOrder ifs_le.
Proof. split; [by intros l s|]. intros l1 l2 l3 H1 H2 s Hs. by apply H2, H1. Qed.

(** What the shared state stands for. *)
Record ghost := Ghost {
  g_queue : queue;
  g_detached : queue;
  g_ifs : list sr_if }.

(** Whether the detached requests are stable between the actions of the thread. *)
Definition keeps (t : thread) (depth : nat) : Prop := t = Main \/ (0 < depth)%nat.

(** A state in which no request is given up and no file is closed.  A run whose
    states are all calm is tame. *)
Definition calm (w : world) : Prop :=
  logfile w <> DumpClosed /\ map_Forall (fun _ r => rq_times_sent r < 5) (heap (cache w)).

(** What the thread [t], which holds the lock [h] times, may find changed in a
    run that is tame or not. *)
Record rely (tame : bool) (t : thread) (h : nat) (g g' : ghost) : Prop := {
  rl_shape : (0 < h)%nat -> shape (g_queue g') = shape (g_queue g);
  rl_detached : keeps t h -> g_detached g' = g_detached g;
  rl_ifs : t = Main -> g_ifs g' = g_ifs g;
  rl_live : tame = true -> t = Main -> forall l, l ∈ (g_queue g).*1 -> l ∈ (g_queue g').*1;
  rl_grow : ifs_le (g_ifs g) (g_ifs g') }.

(** What it may change. *)
Record guar (tame : bool) (t : thread) (h : nat) (g g' : ghost) : Prop := {
  gr_free : h = 0%nat -> shape (g_queue g') = shape (g_queue g) /\ g_detached g' = g_detached g;
  gr_cleanup : t = Cleanup -> g_detached g' = g_detached g /\ g_ifs g' = g_ifs g;
  gr_live : tame = true -> t = Cleanup -> forall l, l ∈ (g_queue g).*1 -> l ∈ (g_queue g').*1;
  gr_grow : ifs_le (g_ifs g) (g_ifs g') }.

#[export] Instance rely_preorder tame t h : PreOrder (rely tame t h).
Proof.
  split; [intros g; by constructor|]. intros g1 g2 g3 [S1 D1 I1 L1 G1] [S2 D2 I2 L2 G2].
  constructor; intros; [rewrite S2, S1; done|rewrite D2, D1; done|rewrite I2, I1; done|by auto|by etransitivity].
Qed.

Lemma guar_refl tame t h g : guar tame t h g g.
Proof. by constructor. Qed.

(** With the lock in hand less can change. *)
Lemma rely_deeper tame t h h' g g' : (h <= h')%nat -> rely tame t h' g g' -> rely tame t h g g'.
Proof.
  intros Hh [S D I L G]. constructor; [intros; apply S; lia| |done|done|done].
  intros [->|H]; apply D; [by left|right; lia].
Qed.
Lemma rely_held tame t h g g' : (0 < h)%nat -> rely tame t h g g' -> forall h', rely tame t h' g g'.
Proof. intros Hh [S D I L G] h'. constructor; [auto| |done|done|done]. intros _. apply D. by right. Qed.

Section Interleave.
Context {os : OS}.
(** The state of a program, the instance in it, and what else of it matters;
    the routes; whether there is a dump file; whether the run is tame. *)
Context {state : Type} (view : state -> world) (private : state -> Prop) (rts : list sr_rt) (dumps tame : bool).

Abbreviation rely := (rely tame).
Abbreviation guar := (guar tame).

(** The invariant. *)
Record shared (s : state) (g : ghost) : Prop := {
  sh_private : private s;
  sh_ifs : if_list (view s) = g_ifs g;
  sh_ifs_ok : ifs_ok (g_ifs g);
  sh_routes : routing_table (view s) = rts;
  sh_rep : cache_rep (cache (view s)) (g_queue g) (g_detached g);
  sh_macs : Forall (fun e => length (ae_mac e) = 6%nat /\ bytes_ok (ae_mac e)) (entries (cache (view s)));
  sh_queue : queue_ok (g_queue g);
  sh_pkts : Forall (fun p => Forall (pkt_ok (g_ifs g)) (q_pkts p.2)) (g_queue g ++ g_detached g);
  sh_dumps : logfile (view s) = NoDump <-> dumps = false }.

(** The faults of a thread: it uses something that was freed or closed, which
    does not happen in a tame run; or, but not while it holds the lock, the
    pointer that an ICMP answer follows uninitialised leads nowhere. *)
Inductive may_fault (h : nat) : fault -> Prop :=
| mf_stale : tame = false -> may_fault h UseAfterFree
| mf_wild : h = 0%nat -> wild_host -> may_fault h WildRead.

(** [wp t h g p Q]: the thread [t], which holds the lock [h] times, may run
    [p] when the shared state stood for [g]; at its end [Q] holds. *)
Fixpoint wp {A} (t : thread) (h : nat) (g : ghost) (p : prog state A)
    (Q : nat -> ghost -> A -> Prop) {struct p} : Prop :=
  match p with
  | Done a => Q h g a
  | Act m k => forall s g1,
      shared s g1 -> rely t h g g1 -> (tame = true -> calm (view s)) ->
      match m s with
      | Ok (x, s') => exists g2, shared s' g2 /\ guar t h g1 g2 /\ wp t h g2 (k x) Q
      | Fault f => may_fault h f
      end
  | Acquire k =>
      match h with
      | O => forall g1, rely t 0 g g1 -> wp t 1 g1 k Q
      | S _ => wp t (S h) g k Q
      end
  | Release k =>
      match h with
      | O => False
      | S h' => wp t h' g k Q
      end
  end.

(** ** The rule *)
Lemma wp_mono {A} t h g (p : prog state A) (Q Q' : nat -> ghost -> A -> Prop) :
  (forall h g a, Q h g a -> Q' h g a) -> wp t h g p Q -> wp t h g p Q'.
Proof.
  intros HQ. revert h g. induction p as [a|X m k IH|k IH|k IH]; intros h g; cbn [wp]; [apply HQ| | |].
  - intros H s g1 Hs Hr Hc. specialize (H s g1 Hs Hr Hc). destruct (m s) as [[x s']|]; [|done].
    destruct H as (g2 & ? & ? & ?). exists g2. auto.
  - destruct h; auto.
  - destruct h; auto.
Qed.

Lemma wp_bind_iff {A B} t h g (p : prog state A) (f : A -> prog state B) Q :
  wp t h g (pbind p f) Q <-> wp t h g p (fun h g a => wp t h g (f a) Q).
Proof.
  revert h g. induction p as [a|X m k IH|k IH|k IH]; intros h g; cbn [wp pbind]; [done| | |].
  - split; intros H s g1 Hs Hr Hc; specialize (H s g1 Hs Hr Hc); (destruct (m s) as [[x s']|]; [|done]);
      destruct H as (g2 & ? & ? & ?); exists g2; (split_and!; [done|done|by apply IH]).
  - destruct h; [|apply IH]. split; intros H g1 Hr; by apply IH, H.
  - destruct h; [done|apply IH].
Qed.
Lemma wp_bind {A B} t h g (p : prog state A) (f : A -> prog state B) Q :
  wp t h g p (fun h g a => wp t h g (f a) Q) -> wp t h g (pbind p f) Q.
Proof. apply wp_bind_iff. Qed.
Lemma wp_bind_inv {A B} t h g (p : prog state A) (f : A -> prog state B) Q :
  wp t h g (pbind p f) Q -> wp t h g p (fun h g a => wp t h g (f a) Q).
Proof. apply wp_bind_iff. Qed.

(** What a thread knows survives the actions of the other. *)
Definition stable {A} (t : thread) (Q : nat -> ghost -> A -> Prop) : Prop :=
  forall h g g' a, rely t h g g' -> Q h g a -> Q h g' a.

Lemma wp_stable {A} t h g (p : prog state A) Q g' :
  stable t Q -> rely t h g g' -> wp t h g p Q -> wp t h g' p Q.
Proof.
  intros HQ. revert h g g'.
  induction p as [a|X m k IH|k IH|k IH]; intros h g g' Hr; cbn [wp].
  - by apply HQ.
  - intros H s g1 Hs Hr1. apply H; [done|]. by etransitivity.
  - destruct h as [|h].
    + intros H g1 Hr1. apply H. by etransitivity.
    + apply IH. eapply rely_held; [|exact Hr]. lia.
  - destruct h as [|h]; [done|]. apply IH. eapply rely_deeper; [|exact Hr]. lia.
Qed.
End Interleave.

(** ** A program on the instance, in the session *)
Section Lift.
Context {os : OS} (private : session -> Prop) (rts : list sr_rt) (dumps tame : bool).
Context (Hprivate : forall s w, private s -> private (set_sr s w)).

Abbreviation wp_i := (wp (fun w : world => w) (fun _ => True) rts dumps tame).
Abbreviation wp_s := (wp sr private rts dumps tame).

Lemma wp_on_instance {A} t h g (p : prog world A) Q : wp_i t h g p Q -> wp_s t h g (on_instance p) Q.
Proof.
  revert h g. induction p as [a|X m k IH|k IH|k IH]; intros h g; cbn [wp on_instance]; [done| | |].
  - intros H s g1 [P1 S1 S2 S3 S4 S5 S6 S7 S8] Hr Hc. specialize (H (sr s) g1 ltac:(by constructor) Hr Hc).
    unfold on_world. destruct (m (sr s)) as [[x w]|]; [|done].
    destruct H as (g2 & [_ T1 T2 T3 T4 T5 T6 T7 T8] & ? & ?). exists g2. split_and!; [|done|by apply IH].
    constructor; [by apply Hprivate|done..].
  - destruct h; auto.
  - destruct h; auto.
Qed.
End Lift.

(** ** Two threads *)
Definition depth (t : thread) (lock : option (thread * nat)) : nat :=
  match lock with Some (o, n) => if decide (o = t) then n else 0 | None => 0 end.
Definition lock_ok (lock : option (thread * nat)) : Prop :=
  match lock with Some (_, n) => (0 < n)%nat | None => True end.

Definition other (t : thread) : thread := match t with Main => Cleanup | Cleanup => Main end.
Lemma thread_cases t (P : thread -> Prop) : P t -> P (other t) -> forall u, P u.
Proof. intros H1 H2 u. by destruct t, u. Qed.

Lemma resume_prog c t s lock p :
  c_prog (resume c t s lock p) t = p /\ c_prog (resume c t s lock p) (other t) = c_prog c (other t)
  /\ c_state (resume c t s lock p) = s /\ c_lock (resume c t s lock p) = lock.
Proof. by destruct t. Qed.

(** At most one thread holds the lock. *)
Lemma depth_other t lock : (0 < depth t lock)%nat -> depth (other t) lock = 0%nat.
Proof. destruct lock as [[o n]|]; [|done]. unfold depth. repeat case_decide; subst; destruct t; done || lia. Qed.

(** What one thread may do, the other allows for. *)
Lemma guar_rely tame t lock g g' :
  guar tame t (depth t lock) g g' -> rely tame (other t) (depth (other t) lock) g g'.
Proof.
  intros [F C L G].
  assert (H0 : (0 < depth (other t) lock)%nat -> depth t lock = 0%nat).
  { intros Hp. pose proof (depth_other (other t) lock Hp). by destruct t. }
  constructor; [intros Hp; by apply F, H0| | | |done].
  - intros [E|Hp]; [|by apply F, H0]. apply C. by destruct t.
  - intros E. apply C. by destruct t.
  - intros Ht E. apply L; [done|]. by destruct t.
Qed.

Lemma acquire_ok t lock lock' :
  acquire t lock = Some lock' -> lock_ok lock ->
  lock_ok lock' /\ depth t lock' = S (depth t lock) /\ depth (other t) lock' = depth (other t) lock.
Proof.
  unfold acquire, depth, lock_ok.
  destruct lock as [[o n]|]; repeat case_decide; intros [= <-] ?; subst; repeat case_decide; subst;
    split_and!; try done; try lia; by destruct t.
Qed.

Lemma release_ok t lock h :
  depth t lock = S h ->
  lock_ok (release t lock) /\ depth t (release t lock) = h
  /\ depth (other t) (release t lock) = depth (other t) lock.
Proof.
  unfold release, depth, lock_ok. destruct lock as [[o n]|]; [|done]. case_decide; [|done].
  intros ->. subst o. destruct h; repeat case_decide; split_and!; try done; try lia; by destruct t.
Qed.

Section Two.
Context {os : OS} (private : session -> Prop) (rts : list sr_rt) (dumps tame : bool).

Abbreviation shared := (shared sr private rts dumps).
Abbreviation wp := (wp sr private rts dumps tame).

(** The main thread between two commands, the cleanup thread between two turns:
    unless the loop has ended, the interfaces can be printed, and the routes
    have interfaces if there are any. *)
Definition ready (ifs : list sr_if) : Prop :=
  Forall (fun i => is_Ok (sr_print_if i)) ifs
  /\ (ifs = [] \/ Forall (fun r => length (rt_interface r) = 32%nat /\ route_if_ok ifs r) rts).
Definition idle (t : thread) (h : nat) (g : ghost) (goes_on : bool) : Prop :=
  h = 0%nat /\ (t = Main -> g_detached g = [] /\ (goes_on = true -> ready (g_ifs g))).

Record config_ok (c : config) (g : ghost) : Prop := {
  cok_shared : shared (c_state c) g;
  cok_lock : lock_ok (c_lock c);
  cok_wp : forall t, wp t (depth t (c_lock c)) g (c_prog c t) (idle t) }.

Lemma idle_stable t : stable tame t (idle t).
Proof.
  intros h g g' b [_ D I _ _] [-> Hm]. split; [done|]. intros ->.
  rewrite D, I by (done || by left). by apply Hm.
Qed.

(** A configuration after an action of [t], from the parts. *)
Lemma resume_ok c t s lock p g :
  shared s g -> lock_ok lock -> wp t (depth t lock) g p (idle t) ->
  wp (other t) (depth (other t) lock) g (c_prog c (other t)) (idle (other t)) ->
  config_ok (resume c t s lock p) g.
Proof.
  intros Hs Hl Ht Ho. destruct (resume_prog c t s lock p) as (E1 & E2 & E3 & E4).
  constructor; rewrite ?E3, ?E4; [done|done|]. apply (thread_cases t); by rewrite ?E1, ?E2.
Qed.

(** One action of one thread. *)
Lemma thread_step_ok c g t :
  config_ok c g -> (tame = true -> calm (c_world c)) ->
  match step t c with
  | Some (Ok c') => exists g', config_ok c' g'
  | Some (Fault f) => may_fault tame (depth t (c_lock c)) f
  | None => True
  end.
Proof.
  intros [Hs Hl Hw] Hc. pose proof (Hw t) as Ht. pose proof (Hw (other t)) as Ho. unfold step.
  destruct (exited c); [done|].
  destruct (c_prog c t) as [u|X m k|k|k]; [done| | |]; cbn [Interleave.wp] in Ht.
  - specialize (Ht _ _ Hs ltac:(reflexivity) Hc).
    destruct (m (c_state c)) as [[x s']|f]; cbn [bind]; [|done].
    destruct Ht as (g2 & Hs2 & Hg & Hk). exists g2. apply resume_ok; [done|done|done|].
    eapply wp_stable; [apply idle_stable|by apply guar_rely|exact Ho].
  - destruct (acquire t (c_lock c)) as [lock'|] eqn:Ea; [|done].
    destruct (acquire_ok _ _ _ Ea Hl) as (Hl' & E1 & E2). exists g.
    apply resume_ok; [done|done| |by rewrite E2]. rewrite E1.
    destruct (depth t (c_lock c)); [by apply Ht|done].
  - destruct (depth t (c_lock c)) as [|h] eqn:Eh; [done|].
    destruct (release_ok _ _ _ Eh) as (Hl' & E1 & E2). exists g.
    apply resume_ok; [done|done|by rewrite E1|by rewrite E2].
Qed.
End Two.
