(* ===== verification/ThreadsOk.v ===== *)
(** * ThreadsOk: the actions of the threads keep the shared invariant

    The rule [wp] of Interleave.v, applied to the programs of Threads.v: first
    one lemma per kind of action, then sending, [handle_arpreq] and the turn of the
    cleanup thread ([timeout_safe]).  The main thread is in CommandsOk.v, the
    reachable configurations in Running.v. *)

From S2P Require Import Prelude Memory Protocol Utils Iface Rt ArpCache Dump World ArpHandler Router RouterSpec Handlers Safety Wire Threads Alone Interleave.

(** ** Shapes *)
Lemma shape_fst q : q.*1 = (fun x => x.1.1) <$> shape q.
Proof. unfold shape. rewrite <- list_fmap_compose. by apply list_fmap_ext. Qed.

Lemma shape_locs q q' : shape q = shape q' -> q.*1 = q'.*1.
Proof. intros H. by rewrite !shape_fst, H. Qed.

Lemma shape_alter l f q :
  (forall a, q_ip (f a) = q_ip a /\ q_pkts (f a) = q_pkts a) -> shape (q_alter l f q) = shape q.
Proof.
  intros Hf. unfold shape, q_alter. rewrite <- list_fmap_compose. apply list_fmap_ext.
  intros _ [l' a] _. cbn. case_decide; [|done]. cbn. by destruct (Hf a) as [-> ->].
Qed.

Lemma lseg_head h p q : lseg h p q None -> p = head q.*1.
Proof. destruct q as [|[l a] q]; [done|]. by intros (-> & _). Qed.

(** Destroying a request that is not there. *)
Lemma destroy_gone c q d l :
  cache_rep c q d -> l ∉ q.*1 ++ d.*1 -> sr_arpreq_destroy (Some l) c = Fault UseAfterFree.
Proof.
  intros H Hl. unfold sr_arpreq_destroy.
  rewrite sget_step.
  pose proof (unlink_spec (fun l' _ => Pos.eqb l' l) (fun p => Pos.eqb p.1 l)
    (fun _ _ _ => eq_refl) c q d H) as Hu.
  destruct (List.find _ q) as [[l' a]|] eqn:Ef.
  - exfalso. apply List.find_some in Ef as [Hin Ef]. cbn in Ef. apply Pos.eqb_eq in Ef as ->.
    apply Hl, elem_of_app. left. by eapply in_queue_fst, list_elem_of_In.
  - rewrite (sbind_step _ _ _ _ _ Hu). apply sbind_fault. by eapply deref_gone.
Qed.

(** ** More interfaces do no harm *)
Lemma if_of_le l l' iface : ifs_le l l' -> is_Some (if_of l iface) -> is_Some (if_of l' iface).
Proof. intros H. unfold if_of. destruct (name_of iface); [apply H|done]. Qed.

Lemma pkt_ok_le l l' p : ifs_le l l' -> pkt_ok l p -> pkt_ok l' p.
Proof. intros H [H1 H2 H3 H4]. constructor; try done. by eapply if_of_le. Qed.

Lemma pkts_ok_le l l' pkts : ifs_le l l' -> Forall (pkt_ok l) pkts -> Forall (pkt_ok l') pkts.
Proof. intros H Hp. eapply Forall_impl; [exact Hp|]. intros p. by apply pkt_ok_le. Qed.

Lemma rely_main tame h g g' : rely tame Main h g g' -> g_detached g' = g_detached g /\ g_ifs g' = g_ifs g.
Proof. intros [_ D I _ _]. split; [apply D; by left|by apply I]. Qed.

Lemma rely_pkts tame t h g g' pkts :
  rely tame t h g g' -> Forall (pkt_ok (g_ifs g)) pkts -> Forall (pkt_ok (g_ifs g')) pkts.
Proof. intros [_ _ _ _ G]. by apply pkts_ok_le. Qed.

(** In a tame run the request is there. *)
Definition live (tame : bool) (g : ghost) (l : loc) : Prop :=
  tame = true -> l ∈ (g_queue g).*1 ++ (g_detached g).*1.

Lemma live_rely tame t h g g' l : keeps t h -> rely tame t h g g' -> live tame g l -> live tame g' l.
Proof.
  intros Hk [S D I L _] Hl Ht. specialize (Hl Ht). rewrite (D Hk). apply elem_of_app in Hl as [Hl|Hl];
    apply elem_of_app; [left|by right]. destruct Hk as [->|Hh]; [by apply L|]. by rewrite (shape_locs _ _ (S Hh)).
Qed.

(** [relies]: what was found changed between several actions. *)
Ltac relies := solve [eassumption | reflexivity | etransitivity; [eassumption|relies]].

Section Safe.
Context {os : OS} (rts : list sr_rt) (dumps tame : bool).

Abbreviation rely := (rely tame).
Abbreviation shared := (shared (fun w : world => w) (fun _ => True) rts dumps).
Abbreviation wp := (wp (fun w : world => w) (fun _ => True) rts dumps tame).

Abbreviation stale := (may_fault tame).

Lemma shared_same w w' g : shared w g -> world_same w w' -> shared w' g.
Proof. intros [] [E1 E2 E3 E4]. constructor; rewrite ?E1, ?E2, ?E3, ?E4; done. Qed.

(** A request that is allocated is on the queue or detached; in either case its
    packets can be sent. *)
Lemma shared_live w g l :
  shared w g -> live tame g l ->
  (exists a next, deref l (cache w) = Ok (node a next, cache w)
     /\ ((l, a) ∈ g_queue g \/ (l, a) ∈ g_detached g) /\ Forall (pkt_ok (g_ifs g)) (q_pkts a))
  \/ ((l ∉ (g_queue g).*1 ++ (g_detached g).*1) /\ deref l (cache w) = Fault UseAfterFree /\ tame = false).
Proof.
  intros Hs Hlive. pose proof (sh_rep _ _ _ _ _ _ Hs) as Hrep.
  destruct (decide (l ∈ (g_queue g).*1 ++ (g_detached g).*1)) as [Hl|Hl].
  2:{ right. split; [done|]. split; [by eapply deref_gone|]. destruct tame eqn:E; [|done]. exfalso; by apply Hl, Hlive. }
  left. pose proof (proj1 (Forall_forall _ _) (sh_pkts _ _ _ _ _ _ Hs)) as Hp.
  apply elem_of_app in Hl as [Hl|Hl]; apply list_elem_of_fmap in Hl as ([l' a] & -> & Hin).
  - destruct (deref_queue _ _ _ _ _ Hrep Hin) as [next E]. exists a, next.
    split_and!; [done|by left|]. apply (Hp (l', a)). apply elem_of_app. by left.
  - pose proof (proj1 (Forall_forall _ _) (rep_detached _ _ _ Hrep) _ Hin) as [next E].
    exists a, next. split_and!; [unfold deref; cbn [fst snd] in *; by rewrite E|by right|].
    apply (Hp (l', a)). apply elem_of_app. by right.
Qed.

(** It has been asked for fewer than five times when the state is calm. *)
Lemma calm_times w l r : calm w -> deref l (cache w) = Ok (r, cache w) -> rq_times_sent r < 5.
Proof.
  intros [_ Hc] E. unfold deref in E. destruct (heap (cache w) !! l) as [r'|] eqn:El; [|done].
  injection E as ->. by apply (Hc _ _ El).
Qed.

(** ** Actions *)

(** An action that leaves the tables alone. *)
Lemma wp_quiet {X A} t h g (m : M X) (k : X -> prog world A) Q (P : ghost -> X -> Prop) :
  (forall w g1, shared w g1 -> rely t h g g1 -> (tame = true -> calm w) -> match m w with
     | Ok (x, w') => world_same w w' /\ P g1 x | Fault f => stale h f end) ->
  (forall x g1, rely t h g g1 -> P g1 x -> wp t h g1 (k x) Q) ->
  wp t h g (Act m k) Q.
Proof.
  intros Hm HQ w g1 Hs Hr Hc. specialize (Hm w g1 Hs Hr Hc).
  destruct (m w) as [[x w']|]; [|done]. destruct Hm as [Hw HP].
  exists g1. split_and!; [by eapply shared_same|apply guar_refl|by apply HQ].
Qed.

(** An action that always succeeds, and what it does otherwise does not matter. *)
Lemma wp_plain {X A} t h g (m : M X) (k : X -> prog world A) Q :
  (forall w, exists x w', m w = Ok (x, w') /\ world_same w w') ->
  (forall x g1, rely t h g g1 -> wp t h g1 (k x) Q) ->
  wp t h g (Act m k) Q.
Proof.
  intros Hm HQ. apply wp_quiet with (P := fun _ _ => True); [|by auto].
  intros w g1 _ _ _. by destruct (Hm w) as (x & w' & -> & Hw).
Qed.

(** A computation that does not depend on the state. *)
Lemma wp_pure {X A} t h g (x : X) (m : res X) (k : X -> prog world A) Q :
  m = Ok x -> (forall g1, rely t h g g1 -> wp t h g1 (k x) Q) -> wp t h g (Act (slift m) k) Q.
Proof.
  intros -> HQ. apply wp_quiet with (P := fun _ y => y = x).
  - intros w g1 _ _ _. by split.
  - intros y g1 Hr ->. by apply HQ.
Qed.

Lemma wp_time {A} t h g (k : Z -> prog world A) Q :
  (forall now g1, rely t h g g1 -> wp t h g1 (k now) Q) -> wp t h g (Act time k) Q.
Proof.
  apply wp_plain. intros w. destruct (time_ok w) as (w' & E & Hw & _). by eexists _, w'.
Qed.

(** Reading a member of a request. *)
Lemma wp_read {A} t h g l (k : sr_arpreq -> prog world A) Q :
  keeps t h -> live tame g l ->
  (forall a next g1, rely t h g g1 -> Forall (pkt_ok (g_ifs g1)) (q_pkts a) ->
     (l ∉ (g_detached g1).*1 -> q_pkts a <> []) -> (tame = true -> q_times a < 5) ->
     wp t h g1 (k (node a next)) Q) ->
  wp t h g (Act (Prog.read l) k) Q.
Proof.
  intros Hk Hlive HQ. apply wp_quiet with
    (P := fun g1 r => exists a next, r = node a next /\ Forall (pkt_ok (g_ifs g1)) (q_pkts a)
                      /\ (l ∉ (g_detached g1).*1 -> q_pkts a <> []) /\ (tame = true -> q_times a < 5)).
  - intros w g1 Hs Hr Hc. unfold Prog.read, on_cache.
    destruct (shared_live _ _ l Hs (live_rely _ _ _ _ _ _ Hk Hr Hlive)) as [(a & next & E & Hin & Hp)|(_ & -> & Ht)]; [|by constructor].
    rewrite E. split; [by rewrite set_cache_id|]. exists a, next. split_and!; [done|done| |].
    + intros Hd. destruct Hin as [Hin|Hin]; [|by apply in_queue_fst in Hin].
      apply (proj1 (Forall_forall _ _) (qok_pkts _ (sh_queue _ _ _ _ _ _ Hs)) _ Hin).
    + intros Ht. by apply (calm_times w l (node a next) (Hc Ht)).
  - intros r g1 Hr (a & next & -> & Hp & Hne & H5). by apply HQ.
Qed.

(** An access that may only find its memory freed. *)
Definition tries (t : thread) (h : nat) (g : ghost) (held : M unit) : Prop :=
  forall w g1, shared w g1 -> rely t h g g1 ->
    held w = Ok (tt, w) \/ (held w = Fault UseAfterFree /\ tame = false).

Lemma tries_rely t h g g1 held : rely t h g g1 -> tries t h g held -> tries t h g1 held.
Proof. intros Hr Ht w g2 Hs Hr2. apply (Ht w g2 Hs). by etransitivity. Qed.

Lemma tries_owned t h g : tries t h g Prog.owned.
Proof. by left. Qed.

Lemma tries_touch t h g l : keeps t h -> live tame g l -> tries t h g (Prog.touch l).
Proof.
  intros Hk Hl w g1 Hs Hr. unfold Prog.touch, Prog.read, sbind, on_cache.
  destruct (shared_live _ _ l Hs (live_rely _ _ _ _ _ _ Hk Hr Hl)) as [(a & next & -> & _)|(_ & -> & Ht)]; [left|by right].
  by rewrite set_cache_id.
Qed.

(** What is done with that memory. *)
Lemma wp_held {X A} t h g held (m : M X) (k : X -> prog world A) Q (P : ghost -> X -> Prop) :
  tries t h g held ->
  (forall w g1, shared w g1 -> rely t h g g1 -> match m w with
     | Ok (x, w') => world_same w w' /\ P g1 x | Fault f => stale h f end) ->
  (forall x g1, rely t h g g1 -> P g1 x -> wp t h g1 (k x) Q) ->
  wp t h g (Act (run! held in m) k) Q.
Proof.
  intros Ht Hm. apply wp_quiet. intros w g1 Hs Hr _. unfold sbind.
  destruct (Ht w g1 Hs Hr) as [-> | [-> Hf]]; [by apply Hm|by constructor].
Qed.

Lemma wp_touch {A} t h g held (k : unit -> prog world A) Q :
  tries t h g held -> (forall g1, rely t h g g1 -> wp t h g1 (k tt) Q) -> wp t h g (Act held k) Q.
Proof.
  intros Ht HQ. apply wp_quiet with (P := fun _ _ => True); [|intros []; auto].
  intros w g1 Hs Hr _. by destruct (Ht w g1 Hs Hr) as [-> | [-> Hf]]; [|constructor].
Qed.

(** Writing [sent] or [times_sent]. *)
Lemma wp_write_req {A} t h g l f b (k : unit -> prog world A) Q :
  keeps t h -> live tame g l -> l ∉ (g_detached g).*1 ->
  (forall a next, f (node a next) = node (b a) next) ->
  (forall a, q_ip (b a) = q_ip a /\ q_pkts (b a) = q_pkts a) ->
  (forall g1, rely t h g g1 -> wp t h g1 (k tt) Q) ->
  wp t h g (Act (on_cache (write_req l f)) k) Q.
Proof.
  intros Hk Hlive Hl Hf Hb HQ w g1 Hs Hr _. rewrite <- (rl_detached _ _ _ _ _ Hr Hk) in Hl.
  destruct (shared_live _ _ l Hs (live_rely _ _ _ _ _ _ Hk Hr Hlive)) as [(a & next & E & Hin & Hp)|(_ & E & Ht)].
  2:{ unfold on_cache, write_req, sbind. rewrite E. by constructor. }
  destruct Hin as [Hin|Hin]; [|by apply in_queue_fst in Hin]. destruct Hs as [S0 S1 S2 S3 S4 S5 S6 S7 S8].
  destruct (write_req_rep _ _ _ l a f b S4 Hin (fun n => Hf a n)) as (c' & Ec & Hrep & He & _).
  rewrite (on_cache_ok _ _ _ _ Ec). destruct g1 as [q1 d1 i1]. cbn [g_queue g_detached g_ifs] in *.
  assert (Es : shape (q_alter l b q1) = shape q1) by by apply shape_alter.
  pose proof (shape_locs _ _ Es) as El.
  exists (Ghost (q_alter l b q1) d1 i1). split_and!; [|constructor; cbn; rewrite ?El; done|].
  - constructor; cbn; [done|done|done|done|done|by rewrite He| | |done].
    + destruct S6 as [Hi Hpk]. constructor; [rewrite q_alter_ips; [done|by intros a'; apply Hb]|].
      apply (q_alter_Forall (fun a => q_pkts a <> [])); [|done]. intros a'. by destruct (Hb a') as [_ ->].
    + apply Forall_app in S7 as [S6' S7]. apply Forall_app. split; [|done].
      apply (q_alter_Forall (fun a => Forall (pkt_ok i1) (q_pkts a))); [|done].
      intros a'. by destruct (Hb a') as [_ ->].
  - apply HQ. etransitivity; [exact Hr|]. constructor; cbn; rewrite ?El; done.
Qed.

(** A cache function under the lock: [Hm] says what it does to the cache. *)
Lemma wp_locked {X} t h g (m : M X) (Q : nat -> ghost -> X -> Prop) :
  (forall w g1, shared w g1 -> rely t h g g1 ->
     match m w with
     | Ok (x, w') => exists g2, shared w' g2 /\ guar tame t (S h) g1 g2 /\ Q h g2 x
     | Fault f => stale (S h) f
     end) ->
  wp t h g (locked m) Q.
Proof.
  intros Hm. unfold locked.
  assert (Hin : forall g0, rely t h g g0 ->
    wp t (S h) g0 (act! x := m in Release (Done x)) Q).
  { intros g0 Hr0 w g1 Hs Hr _. specialize (Hm w g1 Hs). destruct (m w) as [[x w']|].
    - destruct Hm as (g2 & Hs2 & Hg & HQ).
      + etransitivity; [exact Hr0|]. eapply rely_deeper; [|exact Hr]. lia.
      + exists g2. by split_and!.
    - apply Hm. etransitivity; [exact Hr0|]. eapply rely_deeper; [|exact Hr]. lia. }
  destruct h as [|h]; cbn [Interleave.wp]; [exact Hin|by apply Hin].
Qed.

Lemma wp_destroy t h g l (Q : nat -> ghost -> unit -> Prop) :
  tame = false -> keeps t h -> l ∉ (g_detached g).*1 ->
  (forall g1, rely t 0 g g1 -> g_detached g1 = g_detached g -> l ∉ (g_queue g1).*1 -> Q h g1 tt) ->
  wp t h g (Prog.sr_arpreq_destroy l) Q.
Proof.
  intros Ht Hk Hl HQ. apply wp_locked. intros w [q1 d1 i1] Hs Hr.
  pose proof (rl_detached _ _ _ _ _ Hr Hk) as Ed. cbn in Ed. subst d1.
  pose proof Hs as [S0 S1 S2 S3 S4 S5 S6 S7 S8]. cbn [g_queue g_detached g_ifs] in *.
  destruct (decide (l ∈ q1.*1)) as [Hin|Hout].
  - destruct (destroy_queued _ _ _ l S4 Hin) as (c' & E & Hrep & He).
    rewrite (on_cache_ok _ _ _ _ E).
    exists (Ghost (q_remove l q1) (g_detached g) i1). split_and!; [|constructor; [done|done|congruence|done]|].
    + constructor; cbn; [done|done|done|done|done|by rewrite He|by apply q_remove_ok| |done].
      apply Forall_app in S7 as [S6' S7]. apply Forall_app. split; [|done].
      rewrite Forall_forall in S6' |- *. intros p [_ Hp]%list_elem_of_filter. by apply S6'.
    + apply HQ; [|done|].
      * destruct Hr. by constructor; [lia| |done|congruence|done].
      * cbn. intros H. apply list_elem_of_fmap in H as ([l' a] & -> & H).
        by apply list_elem_of_filter in H as [H _].
  - rewrite (on_cache_fault _ _ _ (destroy_gone _ _ _ l S4 ltac:(by intros [?|?]%elem_of_app))). by constructor.
Qed.

(** ** Sending *)
Lemma wp_fwrite {A} t h g bs (k : unit -> prog world A) Q :
  dumps = true -> (forall g1, rely t h g g1 -> wp t h g1 (k tt) Q) -> wp t h g (Act (fwrite bs) k) Q.
Proof.
  intros Hd HQ. apply wp_quiet with (P := fun _ _ => True); [|intros []; auto].
  intros w g1 Hs _ Hc. pose proof (proj1 (sh_dumps _ _ _ _ _ _ Hs)) as Hl. unfold fwrite. rewrite sget_step.
  destruct (logfile w) eqn:E; [|split; [by constructor|done]|split; [by constructor|done]|].
  - by rewrite Hl in Hd by done.
  - apply mf_stale. destruct tame eqn:Et; [|done]. by destruct (Hc eq_refl) as [Hn _].
Qed.

Lemma wp_log_packet t h g buf len (Q : nat -> ghost -> unit -> Prop) :
  0 <= len <= Z.of_nat (length buf) ->
  (forall g1, rely t h g g1 -> Q h g1 tt) -> wp t h g (Prog.sr_log_packet buf len) Q.
Proof.
  intros Hl HQ. unfold Prog.sr_log_packet.
  apply wp_quiet with (P := fun _ w => logfile w <> NoDump -> dumps = true).
  { intros w g1 Hs _ _. cbn. split; [reflexivity|]. intros Hn. destruct dumps eqn:E; [done|].
    destruct Hn. by apply (sh_dumps _ _ _ _ _ _ Hs). }
  intros w g1 E1 Hd.
  assert (H : logfile w <> NoDump -> wp t h g1 (
      act! tv := gettimeofday in
      let h := log_header tv len in
      act! _ := fwrite (encode_sf_pkthdr h) in
      act! _ := (do! data := slift (load buf 0 (Z.to_nat (u32 (ph_caplen h)))) in fwrite data) in
      Done tt) Q).
  { intros Hn. specialize (Hd Hn). apply wp_plain.
    { intros w'. eexists _, _. split; [done|by constructor]. }
    intros tv g2 E2. cbv zeta. apply wp_fwrite; [done|]. intros g3 E3. rewrite log_header_eq. cbn [ph_caplen].
    rewrite load_ok.
    2:{ unfold PACKET_DUMP_SIZE, u32. rewrite Z.mod_small; lia. }
    apply wp_fwrite; [done|]. intros g4 E4. apply HQ. relies. }
  destruct (logfile w); [cbn; by apply HQ|by apply H..].
Qed.

Lemma wp_send_packet t h g held buf len iface s nm (Q : nat -> ghost -> Z -> Prop) :
  tries t h g held -> iface_named iface s nm -> 14 <= len < 2147483648 -> (Z.to_nat len <= length buf)%nat ->
  (forall r g1, rely t h g g1 -> Q h g1 r) -> wp t h g (Prog.sr_send_packet held buf len iface) Q.
Proof.
  intros Ht [Hn H16] Hl Hb HQ. unfold Prog.sr_send_packet, u32.
  change (Z.of_nat PktHdr.size) with 24. rewrite Z.mod_small by lia. cbv zeta.
  destruct (print_hdrs_ok buf len ltac:(lia)) as [items Ep].
  apply wp_pure with (x := items); [done|]. intros g1 E1.
  rewrite (proj2 (Z.ltb_ge len (Z.of_nat Eth.size))) by (unfold_offs; simpl; lia).
  apply wp_held with (P := fun _ _ => True); [eapply tries_rely, Ht; relies| |].
  { intros w g2 _ _. rewrite sget_step.
    by rewrite (slift_step _ _ w (packet_message_spec (os_malloc (ticks w)) buf len iface nm H16 ltac:(lia) Hb)). }
  intros msg g2 E2 _. rewrite (s32_small len) by lia. apply wp_bind, wp_log_packet; [lia|]. intros g3 E3.
  apply wp_held with (P := fun _ _ => True); [eapply tries_rely, Ht; relies| |].
  { intros w g4 Hs _. pose proof (sh_ifs _ _ _ _ _ _ Hs) as Ei. pose proof (sh_ifs_ok _ _ _ _ _ _ Hs) as Hi.
    rewrite <- Ei in Hi. by rewrite (match_interface_ok w buf iface s Hi Hn ltac:(offs)). }
  intros ok g4 E4 _. destruct ok; cbn [negb]; [|apply HQ; relies].
  apply wp_plain; [intros w; eexists _, _; split; [apply write_ok|]; by constructor|].
  intros ret g5 E5. destruct (ret <? len + 24); apply HQ; relies.
Qed.

(** A send whose result is not used. *)
Lemma wp_send_unit t h g held buf len iface s nm (Q : nat -> ghost -> unit -> Prop) :
  tries t h g held -> iface_named iface s nm -> 14 <= len < 2147483648 -> (Z.to_nat len <= length buf)%nat ->
  (forall g1, rely t h g g1 -> Q h g1 tt) ->
  wp t h g (call! _ := Prog.sr_send_packet held buf len iface in Done tt) Q.
Proof. intros Ht Hn Hl Hb HQ. apply wp_bind. eapply wp_send_packet; done. Qed.

Lemma wp_send_icmp_t3 t h g held pkt type code (Q : nat -> ghost -> unit -> Prop) :
  tries t h g held -> pkt_ok (g_ifs g) pkt -> byte_ok type -> byte_ok code ->
  (forall g1, rely t h g g1 -> Q h g1 tt) ->
  wp t h g (Prog.sr_send_icmp_t3 held (pk_buf pkt) (pk_len pkt) (pk_iface pkt) type code) Q.
Proof.
  intros Ht [[HL H42] Hb H32 Hif] Hty Hco HQ. unfold Prog.sr_send_icmp_t3.
  apply wp_held with (P := fun _ f => length f = 70%nat); [done| |].
  - intros w g1 Hs Hr. destruct (if_of_le _ _ _ (rl_grow _ _ _ _ _ Hr) Hif) as [i Hi].
    pose proof (sh_ifs _ _ _ _ _ _ Hs) as Ei. pose proof (sh_ifs_ok _ _ _ _ _ _ Hs) as Hok.
    rewrite <- Ei in Hi, Hok.
    rewrite (icmp_t3_spec w (pk_buf pkt) (pk_iface pkt) type code i Hok H32 Hi Hb) by (done || lia).
    split; [reflexivity|]. destruct (iface_named_32 _ H32) as (s & _ & Hs'). rewrite Hs' in Hi.
    by apply icmp_t3_frame_facts; [eapply find_if_ok|lia].
  - intros f g1 Hr HLf. destruct (iface_named_32 _ H32) as (s & Hn & _).
    eapply wp_send_unit; [by eapply tries_rely, Ht|exact Hn|done|by rewrite HLf|]. intros g2 Hr2. apply HQ. relies.
Qed.

(** ** The walk over the packets of a request *)
Lemma wp_each_packet t h l body pkts (Q : nat -> ghost -> unit -> Prop) : forall g,
  keeps t h -> live tame g l -> Forall (pkt_ok (g_ifs g)) pkts ->
  (forall pkt g1 (Q' : nat -> ghost -> unit -> Prop), pkt_ok (g_ifs g1) pkt -> live tame g1 l ->
     (forall g2, rely t h g1 g2 -> Q' h g2 tt) -> wp t h g1 (body pkt) Q') ->
  (forall g1, rely t h g g1 -> Q h g1 tt) ->
  wp t h g (Prog.each_packet l body pkts) Q.
Proof.
  unfold Prog.each_packet. induction pkts as [|pkt pkts IH]; intros g Hk Hl Hp Hb HQ; cbn [each]; [by apply HQ|].
  apply Forall_cons in Hp as [Hp Hps]. apply wp_bind, wp_bind, Hb; [done|done|]. intros g1 E1.
  apply wp_touch; [apply tries_touch; [done|by eapply live_rely]|]. intros g2 E2. cbn [Interleave.wp].
  apply IH; [done|eapply live_rely, Hl; [done|relies]| |done|].
  - eapply rely_pkts, Hps. relies.
  - intros g3 E3. apply HQ. relies.
Qed.

(** ** Retrying a request *)

(** The resend branch, up to the stores. *)
Lemma wp_resend t h g l now (k : prog world unit) Q :
  keeps t h -> live tame g l -> l ∉ (g_detached g).*1 ->
  (forall g1, rely t h g g1 -> wp t h g1 k Q) ->
  wp t h g (
    act! r := Prog.read l in
    act! p := slift (of_option NullDeref (head (rq_packets r))) in
    act! arp_req := (run! Prog.touch l in do! w := sget in
      slift (create_arp_request (os_malloc (ticks w)) (if_list w) (rq_ip r) (pk_iface p))) in
    act! r := Prog.read l in
    act! p := slift (of_option NullDeref (head (rq_packets r))) in
    call! _ := Prog.sr_send_packet (Prog.touch l) arp_req (Z.of_nat ARP_PACKET_LEN) (pk_iface p) in
    act! _ := on_cache (write_req l (fun r =>
      SrArpreq (rq_ip r) now (rq_times_sent r) (rq_packets r) (rq_next r))) in
    k) Q.
Proof.
  intros Hk Hlive Hl HQ.
  assert (Hgone : forall g', rely t h g g' -> l ∉ (g_detached g').*1).
  { intros g' Hr. by rewrite (rl_detached _ _ _ _ _ Hr Hk). }
  assert (Hat : forall g', rely t h g g' -> live tame g' l) by (intros g' Hr; by eapply live_rely).
  apply wp_read; [done|done|]. intros a n g1 E1 Hp Hne _. cbn [rq_packets rq_ip node].
  destruct (q_pkts a) as [|p pkts]; [by destruct (Hne (Hgone _ E1))|]. apply Forall_cons in Hp as [Hp _].
  cbn [head of_option]. apply wp_pure with (x := p); [done|]. intros g2 E2.
  apply wp_held with (P := fun _ fr => length fr = 42%nat); [apply tries_touch; [done|apply Hat; relies]| |].
  { intros w g3 Hs E3. assert (Hp3 : pkt_ok (g_ifs g3) p).
    { eapply pkt_ok_le, Hp. apply (rl_grow tame t h). relies. }
    pose proof (sh_ifs_ok _ _ _ _ _ _ Hs) as Hok. destruct Hp3 as [_ _ H32 [i Hi]].
    destruct (iface_named_32 _ H32) as (s & [Hn _] & Hs'). rewrite Hs' in Hi.
    rewrite sget_step, (sh_ifs _ _ _ _ _ _ Hs), (slift_step _ _ w (create_arp_request_spec _ _ _ _ s i Hok Hn Hi)).
    split; [reflexivity|]. by apply arp_request_frame_facts; eapply find_if_ok. }
  intros fr g3 E3 HL. apply wp_read; [done|apply Hat; relies|]. intros a' n' g4 E4 Hp' Hne' _. cbn [rq_packets node].
  destruct (q_pkts a') as [|p' pkts']; [by destruct (Hne' (Hgone g4 ltac:(relies)))|].
  apply Forall_cons in Hp' as [Hp' _].
  cbn [head of_option]. apply wp_pure with (x := p'); [done|]. intros g5 E5.
  destruct (iface_named_32 _ (pok_iface _ _ Hp')) as (s & Hn & _). apply wp_bind.
  eapply wp_send_packet; [apply tries_touch; [done|apply Hat; relies]|exact Hn|done|by rewrite HL|]. intros r g6 E6.
  apply wp_write_req with (b := fun a => Areq (q_ip a) now (q_times a) (q_pkts a));
    [done|apply Hat; relies|apply Hgone; relies|done|done|].
  intros g7 E7. apply HQ. relies.
Qed.

(** What [handle_arpreq] leaves: the request may be gone. *)
Lemma wp_handle_arpreq t h g l (Q : nat -> ghost -> unit -> Prop) :
  keeps t h -> live tame g l -> l ∉ (g_detached g).*1 ->
  (forall g1, rely t 0 g g1 -> g_detached g1 = g_detached g ->
     rely t h g g1 \/ (tame = false /\ l ∉ (g_queue g1).*1) -> Q h g1 tt) ->
  wp t h g (Prog.handle_arpreq l) Q.
Proof.
  intros Hk Hlive Hl HQ. unfold Prog.handle_arpreq.
  assert (HQ' : forall g1, rely t h g g1 -> Q h g1 tt).
  { intros g1 Hr. apply HQ; [eapply rely_deeper; [|exact Hr]; lia|by apply (rl_detached _ _ _ _ _ Hr)|by left]. }
  assert (Hgone : forall g', rely t h g g' -> l ∉ (g_detached g').*1).
  { intros g' Hr. by rewrite (rl_detached _ _ _ _ _ Hr Hk). }
  assert (Hat : forall g', rely t h g g' -> live tame g' l) by (intros g' Hr; by eapply live_rely).
  apply wp_time. intros now g1 E1. apply wp_read; [done|apply Hat; relies|]. intros a1 n1 g2 E2 _ _ _.
  case_match; [|cbn; apply HQ'; relies].
  apply wp_read; [done|apply Hat; relies|]. intros a2 n2 g3 E3 _ _ H5. case_match eqn:Ht5.
  - assert (Ht : tame = false).
    { destruct tame; [|done]. specialize (H5 eq_refl). apply Z.leb_le in Ht5. cbn in Ht5. lia. }
    apply wp_read; [done|apply Hat; relies|]. intros a n g4 E4 Hp _ _. apply wp_bind.
    apply wp_each_packet; [done|apply Hat; relies|done| |].
    + intros pkt g5 Q' Hpk Hl5 HQ5. apply wp_send_icmp_t3; [by apply tries_touch|done|done|done|done].
    + intros g5 E5. assert (E : rely t h g g5) by relies.
      apply wp_destroy; [done|done|by apply Hgone|]. intros g6 E6 Ed Hl6.
      apply HQ; [|by rewrite Ed, (rl_detached _ _ _ _ _ E Hk)|by right].
      etransitivity; [|exact E6]. eapply rely_deeper; [|exact E]. lia.
  - apply wp_resend; [done|apply Hat; relies|apply Hgone; relies|]. intros g4 E4.
    apply wp_read; [done|apply Hat; relies|]. intros a n g5 E5 _ _ _.
    apply wp_write_req with (b := fun a' => Areq (q_ip a') (q_sent a') (u32 (q_times a + 1)) (q_pkts a'));
      [done|apply Hat; relies|apply Hgone; relies|done|done|].
    intros g6 E6. cbn. apply HQ'. relies.
Qed.

(** ** A turn of the cleanup thread *)
Lemma wp_sweep_loop todo : forall pre g req fuel h,
  (0 < h)%nat -> (g_queue g).*1 = pre ++ todo -> req = head todo -> (length todo < fuel)%nat ->
  Forall (fun l => l ∉ (g_detached g).*1) todo ->
  wp Cleanup h g (Prog.sweep_loop fuel req) (fun h' _ _ => h' = h).
Proof.
  induction todo as [|l todo IH]; intros pre g req fuel h Hh Hq -> Hf Hd;
    destruct fuel as [|fuel]; simpl in Hf; try lia; cbn [Prog.sweep_loop head]; [done|].
  apply Forall_cons in Hd as [Hl Hd]. assert (Hk : keeps Cleanup h) by by right.
  apply wp_bind, wp_handle_arpreq; [done| |done|].
  { intros _. rewrite Hq. apply elem_of_app. left. apply elem_of_app. right. by left. }
  intros g1 _ Ed1 Hq1.
  intros w g2 Hs E2 _. pose proof (rl_detached _ _ _ _ _ E2 Hk) as Ed2. rewrite Ed1 in Ed2.
  pose proof (shape_locs _ _ (rl_shape _ _ _ _ _ E2 Hh)) as Eq2.
  assert (Hc : ((g_queue g2).*1 = pre ++ l :: todo) \/ (tame = false /\ l ∉ (g_queue g2).*1)).
  { destruct Hq1 as [Hq1|[Ht Hq1]]; [left|right; by rewrite Eq2].
    by rewrite Eq2, (shape_locs _ _ (rl_shape _ _ _ _ _ Hq1 Hh)). }
  pose proof (sh_rep _ _ _ _ _ _ Hs) as Hrep.
  unfold Prog.read. destruct Hc as [Hc|[Ht Hc]].
  2:{ rewrite (on_cache_fault _ _ _ (deref_gone _ _ _ l Hrep ltac:(by rewrite Ed2; intros [?|?]%elem_of_app))). by constructor. }
  apply fmap_app_inv in Hc as (q21 & q22 & E1 & E2' & Hq2). destruct q22 as [|[l' a] q22]; [done|].
  injection E2' as -> E2'. rewrite Hq2 in Hrep.
  destruct (deref_mid _ _ _ _ _ _ Hrep) as (next & E & Hseg).
  rewrite (on_cache_ok _ _ _ _ E), set_cache_id.
  exists g2. split_and!; [exact Hs|apply guar_refl|].
  apply (IH (pre ++ [l'])); [done| | |lia|by rewrite Ed2].
  - rewrite Hq2, fmap_app, fmap_cons, <- app_assoc. cbn. by rewrite E1, E2'.
  - cbn [rq_next node]. by rewrite (lseg_head _ _ _ Hseg), E2'.
Qed.

Lemma timeout_safe g (Q : nat -> ghost -> unit -> Prop) :
  (forall g1, Q 0%nat g1 tt) -> wp Cleanup 0 g Prog.sr_arpcache_timeout Q.
Proof.
  intros HQ. unfold Prog.sr_arpcache_timeout. intros g0 _. apply wp_time. intros now g1 _.
  intros w [q2 d2 i2] Hs E2 _. destruct Hs as [S0 S1 S2 S3 S4 S5 S6 S7 S8]. cbn [g_queue g_detached g_ifs] in *.
  destruct (expire_rep _ _ _ now S4) as (c' & Ec & Hr & He).
  rewrite (on_cache_ok _ _ _ _ Ec). exists (Ghost q2 d2 i2). split_and!; [|apply guar_refl|].
  { constructor; try done. cbn. rewrite He. apply Forall_fmap.
    eapply Forall_impl; [done|]. intros e H. cbn. unfold expire_entry. by case_match. }
  apply wp_bind. unfold Prog.sr_arpcache_sweepreqs.
  intros w3 g3 Hs3 _ _. exists g3. split_and!; [exact Hs3|apply guar_refl|]. pose proof (sh_rep _ _ _ _ _ _ Hs3) as Hr3.
  eapply wp_mono, (wp_sweep_loop (g_queue g3).*1 []); [|lia|done| | |].
  - cbn. intros h g' [] ->. cbn. apply HQ.
  - apply (lseg_head _ _ _ (rep_chain _ _ _ Hr3)).
  - rewrite length_fmap. by eapply rep_fuel.
  - apply Forall_forall. intros l Hl. by eapply rep_disjoint.
Qed.
End Safe.
