(* ===== verification/CommandsOk.v ===== *)
(** * CommandsOk: the commands of the main thread

    The rule [wp] for what the main thread does with a command: a packet
    ([ip_packet_safe], [arp_packet_safe], [packet_safe], [vnspacket_safe]), the
    hardware description, entry by entry while the other thread may be sending
    ([hwinfo_safe]), and the rest ([dispatch_safe]); then a turn of each thread ([main_turn_safe],
    [cleanup_turn_safe]). *)

From S2P Require Import Prelude Memory Protocol Utils Iface Rt ArpCache Dump World ArpHandler Router RouterSpec Handlers Safety Wire Sha1 Vns VnsSpec Main SessionSafety MainSpec Threads Alone Interleave ThreadsOk.

(** ** Packets *)

(** Where the main thread is when a packet is done with, whatever happened to
    the queue. *)
Definition done_with (g g' : ghost) : Prop := g_detached g' = [] /\ g_ifs g' = g_ifs g.

Lemma done_rely {tame} g g1 : g_detached g = [] -> rely tame Main 0 g g1 -> done_with g g1.
Proof. intros Hd Hr. destruct (rely_main _ _ _ _ Hr) as [Ed Ei]. split; congruence. Qed.

Section Packets.
Context {os : OS} (rts : list sr_rt) (dumps tame : bool).

Abbreviation shared_i := (shared (fun w : world => w) (fun _ => True) rts dumps).
Abbreviation rely := (rely tame).
Abbreviation wp_i := (wp (fun w : world => w) (fun _ => True) rts dumps tame).

(** The request a packet waits for is on the queue. *)
Lemma spec_queuereq_in fresh ip p q : (spec_queuereq fresh ip p q).1 ∈ (spec_queuereq fresh ip p q).2.*1.
Proof.
  unfold spec_queuereq. destruct (q_find ip q) as [[l a]|] eqn:E; cbn [fst snd].
  - rewrite q_alter_fst. apply find_spec_ip in E as [Hin _]. by eapply in_queue_fst.
  - by left.
Qed.

(** A packet with a route. *)
Lemma forward_safe g e h payload r (Q : nat -> ghost -> unit -> Prop) :
  g_detached g = [] -> route_if_ok (g_ifs g) r -> length (rt_interface r) = 32%nat ->
  eth_hdr_ok e -> ip_hdr_ok h -> bytes_ok (encode_eth e) -> bytes_ok payload -> (8 <= length payload)%nat ->
  Z.of_nat (length payload) < 65000 ->
  (forall g1, done_with g g1 -> Q 0%nat g1 tt) ->
  wp_i Main 0 g (Prog.forward (waiting_frame e h payload) (34 + Z.of_nat (length payload)) r) Q.
Proof.
  intros Hd Hr Hr32 He Hh Hbe Hb H8 Hmax HQ.
  unfold Prog.forward. apply wp_bind, wp_locked. intros w g1 Hs Hr1.
  destruct (done_rely _ _ Hd Hr1) as [Ed1 Ei1].
  exists g1. split_and!; [done|apply guar_refl|].
  destruct (sr_arpcache_lookup (cache w) (rt_gw r)) as [entry|] eqn:El.
  - apply lookup_In in El as [Hentry _].
    pose proof (proj1 (Forall_forall _ _) (sh_macs _ _ _ _ _ _ Hs) _ Hentry) as [Hm _].
    destruct (iface_named_32 _ Hr32) as (s & Hn & _).
    unfold Prog.send_known. apply wp_quiet with (P := fun _ f => length f = (34 + length payload)%nat).
    + intros w2 g2 Hs2 Hr2. destruct (rely_main _ _ _ _ Hr2) as [_ Ei2].
      pose proof (sh_ifs _ _ _ _ _ _ Hs2) as Ei. pose proof (sh_ifs_ok _ _ _ _ _ _ Hs2) as Hok.
      cbn beta in Ei. rewrite <- Ei in Hok.
      destruct (known_frame_ok w2 Hok e h payload r He Hr32 ltac:(by rewrite Ei, Ei2, Ei1) entry Hm)
        as (s' & o & _ & _ & _ & -> & HL & _). by split.
    + intros f g2 Hr2 HL.
      eapply wp_send_unit; [apply tries_owned|exact Hn|lia|lia|].
      intros g3 Hr3. apply HQ. destruct (done_rely _ _ Ed1 ltac:(etransitivity; [exact Hr2|exact Hr3])) as [? ?].
      split; congruence.
  - apply wp_bind, wp_locked. intros w2 g2 Hs2 Hr2. destruct (done_rely _ _ Ed1 Hr2) as [Ed2 Ei2].
    destruct Hs2 as [S0 S1 S2 S3 S4 S5 S6 S7 S8]. rewrite Ed2 in S4, S7. rewrite app_nil_r in S7.
    cbn beta in S1. rewrite <- S1 in S2, S7.
    destruct (queue_waiting w2 e h payload r He Hh Hbe Hb H8 Hmax Hr32 ltac:(by rewrite S1, Ei2, Ei1)
      (cache w2) (g_queue g2) [] S4) as (Hp & c' & E & Hrep & Hent).
    rewrite (on_cache_ok _ _ _ _ E).
    exists (Ghost (spec_queuereq (brk (cache w2)) (rt_gw r)
              (SrPacket (waiting_frame e h payload) (Z.of_nat (length (waiting_frame e h payload)))
                 (name32 (rt_interface r))) (g_queue g2)).2 [] (g_ifs g2)). split_and!.
    + rewrite S1 in S2, S7, Hp.
      constructor; cbn [g_queue g_detached g_ifs]; [done|exact S1|done|done|exact Hrep|by cbn; rewrite Hent|by apply spec_queuereq_ok| |done].
      rewrite app_nil_r. unfold spec_queuereq. destruct (q_find _ (g_queue g2)) as [[l a]|]; cbn [snd].
      * apply (q_alter_Forall (fun a => Forall (pkt_ok (g_ifs g2)) (q_pkts a))); [|done].
        intros b Hpk. by apply Forall_cons.
      * apply Forall_cons. split; [by apply Forall_singleton|done].
    + constructor; [done|done|done|reflexivity].
    + apply wp_handle_arpreq; [by left| |by apply not_elem_of_nil|].
      { intros _. rewrite app_nil_r. apply spec_queuereq_in. }
      intros g3 Hr3 Ed3 _.
      apply HQ. destruct (rely_main _ _ _ _ Hr3) as [_ Ei3]. cbn [g_detached g_ifs] in *. split; congruence.
Qed.

(** The answer to an ARP request of the router: the request is unlinked, and
    only the main thread can reach it. *)
Lemma arp_answer_safe g e a rest i (Q : nat -> ghost -> unit -> Prop) :
  g_detached g = [] -> eth_hdr_ok e -> arp_hdr_ok a -> bytes_ok (a_sha a) -> sr_if_ok i ->
  (forall g1, done_with g g1 -> Q 0%nat g1 tt) ->
  wp_i Main 0 g (Prog.handle_arp_answer (encode_eth e ++ encode_arp a ++ rest) (Some i) (a_sha a) (a_sip a)) Q.
Proof.
  intros Hd He Ha Hsha Hi HQ. unfold Prog.handle_arp_answer.
  apply wp_bind, wp_locked. intros w [q1 d1 i1] Hs Hr.
  destruct (done_rely _ _ Hd Hr) as [Ed1 Ei1]. cbn [g_detached g_ifs] in *. subst d1 i1.
  destruct Hs as [S0 S1 S2 S3 S4 S5 S6 S7 S8]. cbn [g_queue g_detached g_ifs] in *.
  destruct (arpcache_insert_ok w q1 [] _ (a_sip a) S4 (aok_sha _ Ha))
    as (w1 & E & Ei & Er & _ & El & Hent & Hrep).
  rewrite E.
  assert (Hm : Forall (fun e => length (ae_mac e) = 6%nat /\ bytes_ok (ae_mac e)) (entries (cache w1))).
  { rewrite Hent. apply spec_entries_Forall; [done|]. split; [apply (aok_sha _ Ha)|done]. }
  destruct (q_find (a_sip a) q1) as [[l r]|] eqn:Ef; cbn [fmap option_fmap option_map fst].
  2:{ exists (Ghost q1 [] (g_ifs g)). split_and!; [|by constructor|by apply HQ].
      by constructor; cbn [g_queue g_detached g_ifs]; rewrite ?Ei, ?Er, ?El. }
  apply find_spec_ip in Ef as [Hin _]. rewrite app_nil_r in S7.
  pose proof (proj1 (Forall_forall _ _) S7 _ Hin) as Hpk. cbn in Hpk.
  exists (Ghost (q_remove l q1) [(l, r)] (g_ifs g)). split_and!; [|by constructor|].
  { constructor; cbn [g_queue g_detached g_ifs]; [done|by rewrite Ei|done|by rewrite Er|done|done|by apply q_remove_ok| |by rewrite El].
    apply Forall_app. split; [|by apply Forall_singleton].
    rewrite Forall_forall in S7 |- *. intros p [_ Hp]%list_elem_of_filter. by apply S7. }
  set (g2 := Ghost (q_remove l q1) [(l, r)] (g_ifs g)).
  assert (Hk : keeps Main 0) by by left.
  assert (Hat : forall g', rely Main 0 g2 g' -> live tame g' l).
  { intros g' Hr2. eapply live_rely; [done|exact Hr2|]. intros _. apply elem_of_app. right. by left. }
  apply wp_read; [done|by apply Hat|]. intros a' n' g3 E3 Hp _ _.
  apply wp_bind, wp_each_packet; [done|by apply Hat|done| |].
  - intros pkt g4 Q' Hpkt Hl4 HQ4. unfold Prog.send_waiting.
    destruct (iface_named_32 _ (pok_iface _ _ Hpkt)) as (s & Hn & _). pose proof (pok_len _ _ Hpkt) as [_ H42].
    assert (Ht : tries rts dumps tame Main 0 g4 (Prog.touch l)) by by apply tries_touch.
    apply wp_held with (P := fun _ f => length f = Z.to_nat (pk_len pkt)); [done| |].
    + intros w5 g5 _ _. destruct (waiting_copy_ok w5 _ e a rest i pkt He Ha Hi Hpkt) as [-> HL]. by split.
    + intros f g5 E5 HL. apply wp_touch; [by eapply tries_rely, Ht|]. intros g6 E6.
      eapply wp_send_unit; [eapply tries_rely, Ht; relies|exact Hn|lia|lia|]. intros g7 E7. apply HQ4. relies.
  - intros g4 E4. assert (E24 : rely Main 0 g2 g4) by relies. destruct (rely_main _ _ _ _ E24) as [Ed4 Ei4].
    apply wp_locked. intros w5 [q5 d5 i5] Hs5 E5. destruct (rely_main _ _ _ _ E5) as [Ed5 Ei5].
    cbn [g_queue g_detached g_ifs g2] in *. rewrite Ed4 in Ed5. rewrite Ei4 in Ei5. subst d5 i5.
    destruct Hs5 as [T0 T1 T2 T3 T4 T5 T6 T7 T8]. cbn [g_queue g_detached g_ifs] in *.
    destruct (destroy_detached _ _ _ l r T4) as (c' & E' & Hr' & He').
    rewrite (on_cache_ok _ _ _ _ E'). exists (Ghost q5 [] (g_ifs g)).
    split_and!; [|by constructor|by apply HQ]. apply Forall_app in T7 as [T7 _].
    constructor; cbn [g_queue g_detached g_ifs]; [done|done|done|done|done|by cbn; rewrite He'|done|by rewrite app_nil_r|done].
Qed.

(** The routes have interfaces as soon as there are any. *)
Definition routed (ifs : list sr_if) : Prop :=
  Forall (fun r => length (rt_interface r) = 32%nat /\ route_if_ok ifs r) rts.

(** What the main thread has left to show after an action of it. *)
Lemma done_with_trans g g1 (P : ghost -> Prop) :
  done_with g g1 -> (forall g2, done_with g g2 -> P g2) -> forall g2, done_with g1 g2 -> P g2.
Proof. intros [? ?] HP g2 [? ?]. apply HP. split; congruence. Qed.

(** A frame from an interface that exists: an IP packet, an ARP packet, or any. *)
Section Arrival.
Context (g : ghost) (iface s : list Z) (nm : list Z) (i : sr_if).
Context (Hd : g_detached g = []) (Hn : iface_named iface s nm) (Hf : find_if (g_ifs g) s = Some i).
Context (e : eth_hdr) (He : eth_hdr_ok e).
Context (Q : nat -> ghost -> unit -> Prop) (HQ : forall g1, done_with g g1 -> Q 0%nat g1 tt).

Lemma ip_packet_safe h payload :
  routed (g_ifs g) -> ip_hdr_ok h -> bytes_ok (encode_eth e) -> bytes_ok payload ->
  (8 <= length payload)%nat -> Z.of_nat (length payload) < 64966 ->
  wp_i Main 0 g (Prog.handle_ip_packet (encode_eth e ++ encode_ip h ++ payload) (34 + Z.of_nat (length payload)) iface) Q.
Proof using Hd Hn Hf He HQ.
  intros Hrts Hh Hbe Hbb H8 HL.
  unfold Prog.handle_ip_packet. apply wp_quiet with (P := fun _ v =>
    match v with
    | Drop => True
    | Answer packet type code ipo => exists frame,
        answer_is (g_ifs g) iface i packet (34 + Z.of_nat (length payload)) type code ipo frame
    | Route packet r => r ∈ rts /\ exists h', packet = waiting_frame e h' payload /\ ip_hdr_ok h'
    end).
  - intros w1 g2 Hs Hr2. destruct (rely_main _ _ _ _ Hr2) as [_ Ei2].
    pose proof (sh_ifs _ _ _ _ _ _ Hs) as Ei. pose proof (sh_ifs_ok _ _ _ _ _ _ Hs) as Hok.
    pose proof (sh_routes _ _ _ _ _ _ Hs) as Er. cbn beta in Ei, Er. rewrite Ei2 in Ei, Hok. rewrite <- Ei in Hok, Hf.
    destruct (ip_verdict_ok w1 Hok iface s nm i Hn Hf e h payload He Hh Hbb ltac:(lia) ltac:(lia))
      as (v & -> & Hv). split; [reflexivity|]. rewrite <- Ei. destruct v as [|packet type code ipo|packet r]; [done| |].
    + destruct Hv as (_ & fr & Ha & _). by exists fr.
    + rewrite <- Er. destruct Hv as (_ & Hin & h' & -> & Hh' & _). eauto.
  - intros v g2 Hr2 Hv. destruct (done_rely _ _ Hd Hr2) as [Ed2 Ei2].
    pose proof (done_with_trans _ _ _ (conj Ed2 Ei2) HQ) as HQ2.
    destruct v as [|packet type code ipo|packet r]; [by apply HQ2| |].
    + destruct Hv as (fr & Ha). pose proof (ai_len _ _ _ _ _ _ _ _ _ Ha) as H34.
      pose proof (ai_size _ _ _ _ _ _ _ _ _ Ha) as Hsz.
      unfold Prog.send_icmp_response. rewrite (proj2 (Z.ltb_ge _ _)) by (unfold_offs; simpl; lia).
      apply wp_quiet with (P := fun _ r => r = (fr, Z.of_nat (length fr))).
      { intros w3 g3 Hs Hr3. destruct (rely_main _ _ _ _ Hr3) as [_ Ei3].
        pose proof (sh_ifs _ _ _ _ _ _ Hs) as Ei. cbn beta in Ei. rewrite Ei3, Ei2 in Ei.
        rewrite (icmp_response_step (g_ifs g) iface i w3 packet _ type code ipo fr Ei Ha).
        destruct (os_wild_read (ticks w3)) eqn:Ek; [done|]. intros _. apply mf_wild; [done|by eexists]. }
      intros r g3 Hr3 ->. cbn [fst snd].
      eapply wp_send_unit; [apply tries_owned|exact Hn|lia|lia|].
      intros g4 Hr4. apply HQ2, (done_rely (tame := tame)); [done|relies].
    + destruct Hv as (Hin & h' & -> & Hh').
      destruct (proj1 (Forall_forall _ _) Hrts _ Hin) as [Hr32 Hr].
      apply forward_safe; try done; [by rewrite Ei2|lia].
Qed.

Lemma arp_packet_safe a rest :
  arp_hdr_ok a -> bytes_ok (a_sha a) -> Z.of_nat (length rest) < 64958 ->
  wp_i Main 0 g (Prog.handle_arp_packet (encode_eth e ++ encode_arp a ++ rest) (42 + Z.of_nat (length rest)) iface) Q.
Proof using Hd Hn Hf He HQ.
  intros Ha Hsh HL.
  unfold Prog.handle_arp_packet. apply wp_quiet with (P := fun _ v =>
    match v with
    | ArpDrop => True
    | ArpAnswer response => length response = (42 + length rest)%nat
    | ArpLearn iface sha sip => iface = Some i /\ sha = a_sha a /\ sip = a_sip a /\ sr_if_ok i
    end).
  - intros w1 g2 Hs Hr2. destruct (rely_main _ _ _ _ Hr2) as [_ Ei2].
    pose proof (sh_ifs _ _ _ _ _ _ Hs) as Ei. pose proof (sh_ifs_ok _ _ _ _ _ _ Hs) as Hok.
    cbn beta in Ei. rewrite Ei2 in Ei, Hok. rewrite <- Ei in Hok, Hf.
    destruct (arp_decide_ok w1 Hok iface s nm i Hn Hf e a rest He Ha) as (v & -> & Hv).
    split; [reflexivity|]. destruct v as [|response|o sha sip]; [done|by destruct Hv as (_ & ? & _)|].
    destruct Hv as (-> & -> & -> & _). split_and!; [done|done|done|]. by eapply find_if_ok.
  - intros v g2 Hr2 Hv. destruct (done_rely _ _ Hd Hr2) as [Ed2 Ei2].
    pose proof (done_with_trans _ _ _ (conj Ed2 Ei2) HQ) as HQ2.
    destruct v as [|response|o sha sip]; [by apply HQ2| |].
    + eapply wp_send_unit; [apply tries_owned|exact Hn|lia|lia|]. intros g3 Hr3. apply HQ2. by apply (done_rely (tame := tame)).
    + destruct Hv as (-> & -> & -> & Hi). by apply arp_answer_safe.
Qed.
End Arrival.

Lemma packet_safe g w0 frame iface (Q : nat -> ghost -> unit -> Prop) :
  g_detached g = [] -> routed (g_ifs g) -> if_list w0 = g_ifs g -> frame_ok w0 frame iface ->
  (forall g1, done_with g g1 -> Q 0%nat g1 tt) ->
  wp_i Main 0 g (Prog.sr_handlepacket frame (Z.of_nat (length frame)) iface) Q.
Proof.
  intros Hd Hrts Hw [Hb Hl (s & nm & i & Hn & Hf)] HQ. rewrite Hw in Hf.
  destruct (frame_headers frame Hb ltac:(lia)) as (e & body & -> & He & Hbe & Hbb & HL). rewrite HL in *.
  unfold Prog.sr_handlepacket. apply wp_pure with (x := e_type e); [by apply ethertype_eth|].
  intros g1 E1. destruct (done_rely _ _ Hd E1) as [Ed1 Ei1]. rewrite <- Ei1 in Hrts, Hf.
  pose proof (done_with_trans _ _ _ (conj Ed1 Ei1) HQ) as HQ1.
  destruct (e_type e =? ethertype_ip).
  { destruct (split_at body 20 ltac:(lia)) as (p & payload & -> & Hp).
    apply bytes_ok_app in Hbb as [Hbp Hbb]. destruct (encode_ip_surj p Hbp Hp) as (h & -> & Hh).
    rewrite length_app, length_encode_ip in *.
    replace (Z.of_nat (14 + (20 + length payload))) with (34 + Z.of_nat (length payload)) by lia.
    eapply ip_packet_safe; (eassumption || lia). }
  destruct (e_type e =? ethertype_arp); [|by apply HQ1; split].
  destruct (split_at body 28 ltac:(lia)) as (p & rest & -> & Hp).
  apply bytes_ok_app in Hbb as [Hbp Hbb]. destruct (encode_arp_surj p Hbp Hp) as (a & -> & Ha & Hsh).
  rewrite length_app, length_encode_arp in * by done.
  replace (Z.of_nat (14 + (28 + length rest))) with (42 + Z.of_nat (length rest)) by lia.
  eapply arp_packet_safe; (eassumption || lia).
Qed.
End Packets.

(** ** The hardware description, entry by entry *)
Section HwInfo.
Context {os : OS} (Hjunk : forall k, bytes_ok (os_malloc k)) (rts : list sr_rt) (dumps tame : bool).

Abbreviation rely := (rely tame).
Abbreviation wp_i := (wp (fun w : world => w) (fun _ => True) rts dumps tame).

(** An action of the main thread that changes the interfaces. *)
Lemma wp_set_ifs {A} g (m : M unit) (k : unit -> prog world A) Q (P : list sr_if -> Prop) :
  g_detached g = [] ->
  (forall w, if_list w = g_ifs g -> exists l, m w = Ok (tt, set_ifs w l) /\ P l) ->
  (forall l, P l -> ifs_ok (g_ifs g) -> ifs_ok l /\ ifs_le (g_ifs g) l) ->
  (forall g1, g_detached g1 = [] -> P (g_ifs g1) -> wp_i Main 0 g1 (k tt) Q) ->
  wp_i Main 0 g (Act m k) Q.
Proof.
  intros Hd Hm HP HQ w [q1 d1 i1] Hs Hr. destruct (rely_main _ _ _ _ Hr) as [Ed Ei].
  cbn [g_queue g_detached g_ifs] in *. destruct Hs as [S0 S1 S2 S3 S4 S5 S6 S7 S8].
  cbn [g_queue g_detached g_ifs] in *. rewrite Hd in Ed. subst d1 i1.
  destruct (Hm w Ei) as (l & -> & Hl). rewrite Ei in S2, S7. destruct (HP l Hl S2) as [Hok Hle].
  exists (Ghost q1 [] l). split_and!; [|constructor; [done|done|done|by rewrite Ei]|by apply HQ].
  constructor; cbn [g_queue g_detached g_ifs]; [done|done|done|done|done|done|done| |done].
  eapply Forall_impl; [exact S7|]. intros p. by apply pkts_ok_le.
Qed.

(** The name: a new interface, the rest of which is what [malloc] left. *)
Lemma hw_name_ok i w :
  if_described i ->
  exists j, hw_switch HWINTERFACE (if_name i) w = Ok (tt, set_ifs w (if_list w ++ [j]))
    /\ if_name j = if_name i /\ sr_if_ok j.
Proof.
  intros [[Hn32 _ _ _] Hnm _]. unfold hw_switch, update_ifs.
  cbn [Z.eqb Pos.eqb HWFIXEDIP HWINTERFACE]. set (u := fresh_if (os_malloc (ticks w))).
  exists (SrIf (if_name i) (if_addr u) (if_ip u) (if_speed u)). rewrite sget_step.
  assert (E : sr_add_interface u (if_list w) (if_name i)
              = Ok (if_list w ++ [SrIf (if_name i) (if_addr u) (if_ip u) (if_speed u)])).
  { unfold sr_add_interface. rewrite Hnm. cbn [bind]. by destruct (if_list w). }
  rewrite (sbind_step _ _ _ _ _ (slift_step _ _ w E)).
  split_and!; [done|done|by apply fresh_if_ok].
Qed.

Lemma hw_addr_ok l i j w :
  if_described i -> if_list w = l ++ [j] ->
  hw_switch HWETHER (if_addr i ++ replicate 26 0) w
  = Ok (tt, set_ifs w (l ++ [SrIf (if_name j) (if_addr i) (if_ip j) (if_speed j)])).
Proof.
  intros [[_ Ha _ _] _ _] El. unfold hw_switch, update_ifs.
  cbn [Z.eqb Pos.eqb HWFIXEDIP HWINTERFACE HWSPEED HWSUBNET HWMASK HWETHIP HWETHER].
  rewrite sget_step, El.
  assert (E : sr_set_ether_addr (l ++ [j]) (if_addr i ++ replicate 26 0)
              = Ok (l ++ [SrIf (if_name j) (if_addr i) (if_ip j) (if_speed j)])).
  { rewrite set_ether_addr_app by (rewrite length_app; lia). by rewrite take_app_length'. }
  by rewrite (sbind_step _ _ _ _ _ (slift_step _ _ w E)).
Qed.

Lemma hw_ip_ok l i j w :
  if_described i -> if_list w = l ++ [j] ->
  hw_switch HWETHIP (le_bytes4 (if_ip i) ++ replicate 28 0) w
  = Ok (tt, set_ifs w (l ++ [SrIf (if_name j) (if_addr j) (if_ip i) (if_speed j)])).
Proof.
  intros [[_ _ _ Hip] _ _] El. unfold hw_switch, update_ifs.
  cbn [Z.eqb Pos.eqb HWFIXEDIP HWINTERFACE HWSPEED HWSUBNET HWMASK HWETHIP].
  assert (E : load32 (le_bytes4 (if_ip i) ++ replicate 28 0) 0 = Ok (if_ip i)).
  { unfold load32. rewrite load_ok by (simpl; lia). cbn [bind].
    rewrite drop_0, take_app_length' by done. by rewrite le_word_le4. }
  rewrite (sbind_step _ _ _ _ _ (slift_step _ _ w E)), sget_step, El.
  assert (E2 : sr_set_ether_ip (l ++ [j]) (if_ip i)
               = Ok (l ++ [SrIf (if_name j) (if_addr j) (if_ip i) (if_speed j)])) by apply update_last_app.
  by rewrite (sbind_step _ _ _ _ _ (slift_step _ _ w E2)).
Qed.

(** Replacing the last interface by one of the same name. *)
Lemma replace_last_ok l j j' :
  if_name j' = if_name j -> sr_if_ok j' -> ifs_ok (l ++ [j]) -> ifs_ok (l ++ [j']) /\ ifs_le (l ++ [j]) (l ++ [j']).
Proof.
  intros En Hj [Hl _]%Forall_app. split; [by apply Forall_app; split; [|apply Forall_singleton]|].
  intros s. by apply find_if_last.
Qed.

Definition hw_act (e : Z * list Z) : prog world unit := act! _ := hw_switch e.1 e.2 in Done tt.

Lemma wp_each_app {X} t h g (body : X -> prog world unit) l1 l2 Q :
  wp_i t h g (each body l1) (fun h g _ => wp_i t h g (each body l2) Q) -> wp_i t h g (each body (l1 ++ l2)) Q.
Proof.
  revert g h. induction l1 as [|x l1 IH]; intros g h; cbn [each app]; [done|]. intros H%wp_bind_inv.
  apply wp_bind. eapply wp_mono; [|exact H]. intros h' g' u. apply IH.
Qed.

(** One interface: its name, its address, its IP address. *)
Lemma describe_if_safe g i (Q : nat -> ghost -> unit -> Prop) :
  g_detached g = [] -> if_described i ->
  (forall g1 j, g_detached g1 = [] -> g_ifs g1 = g_ifs g ++ [j] -> same_if i j -> Q 0%nat g1 tt) ->
  wp_i Main 0 g (each hw_act (describe_if i)) Q.
Proof.
  intros Hd Hi HQ. unfold describe_if. cbn [each pbind hw_act fst snd].
  apply wp_set_ifs with (P := fun l => exists j, l = g_ifs g ++ [j] /\ if_name j = if_name i /\ sr_if_ok j); [done| | |].
  { intros w <-. destruct (hw_name_ok i w Hi) as (j & E & Hj). exists (if_list w ++ [j]). eauto. }
  { intros l (j & -> & _ & Hj) Hok. split; [by apply Forall_app; split; [|apply Forall_singleton]|].
    intros s [k Hk]. rewrite find_if_app, Hk. by eexists. }
  intros g1 Hd1 (j & E1 & En & Hj). cbn [pbind each].
  apply wp_set_ifs with (P := fun l => l = g_ifs g ++ [SrIf (if_name j) (if_addr i) (if_ip j) (if_speed j)]); [done| | |].
  { intros w Ew. eexists. split; [|reflexivity]. apply hw_addr_ok; [done|congruence]. }
  { intros l -> Hok. rewrite E1 in Hok |- *. apply replace_last_ok; [done| |done].
    destruct Hj as [H1 H2 H3 H4], (ides_ok _ Hi) as [? ? ? ?]. by constructor. }
  intros g2 Hd2 E2. cbn [pbind each].
  apply wp_set_ifs with (P := fun l => l = g_ifs g ++ [SrIf (if_name j) (if_addr i) (if_ip i) (if_speed j)]); [done| | |].
  { intros w Ew. eexists. split; [|reflexivity]. apply (hw_ip_ok (g_ifs g) i (SrIf (if_name j) (if_addr i) (if_ip j) (if_speed j)));
      [done|by rewrite Ew]. }
  { intros l -> Hok. rewrite E2 in Hok |- *. apply replace_last_ok; [done| |done].
    destruct Hj as [H1 H2 H3 H4], (ides_ok _ Hi) as [? ? ? ?]. by constructor. }
  intros g3 Hd3 E3. cbn [pbind each Interleave.wp]. eapply HQ; [done|exact E3|]. by split_and!.
Qed.

Lemma describe_safe ifs : forall g (Q : nat -> ghost -> unit -> Prop),
  g_detached g = [] -> Forall if_described ifs ->
  (forall g1 l, g_detached g1 = [] -> g_ifs g1 = g_ifs g ++ l -> Forall2 same_if ifs l -> Q 0%nat g1 tt) ->
  wp_i Main 0 g (each hw_act (describe ifs)) Q.
Proof.
  induction ifs as [|i ifs IH]; intros g Q Hd Hi HQ.
  { cbn. apply (HQ g []); [done|by rewrite app_nil_r|constructor]. }
  apply Forall_cons in Hi as [Hi His]. change (describe (i :: ifs)) with (describe_if i ++ describe ifs).
  apply wp_each_app, describe_if_safe; [done|done|]. intros g1 j Hd1 E1 Hj. cbv beta.
  apply IH; [done|done|]. intros g2 l Hd2 E2 Hl. apply (HQ g2 (j :: l)); [done|by rewrite E2, E1, <- app_assoc|by constructor].
Qed.

(** The loop over the message is the loop over its entries. *)
Lemma wp_hw_loop es Q : forall pre k t h g,
  Forall (fun e => u32_ok e.1 /\ length e.2 = 32%nat) es -> length pre = (Base.size + k * HwEntry.size)%nat ->
  wp_i t h g (each hw_act es) Q ->
  wp_i t h g (each (fun i => act! _ := hw_entry (pre ++ entries_bytes es) (Base.size + i * HwEntry.size) in Done tt)
                (seq k (length es))) Q.
Proof.
  induction es as [|[key v] es IH]; intros pre k t h g Hes Hpre; [done|].
  apply Forall_cons in Hes as [[Hk Hv] Hes]. cbn [fst snd] in *. cbn [length seq each hw_act pbind Interleave.wp fst snd].
  intros H w g1 Hs Hr Hc. specialize (H w g1 Hs Hr Hc).
  change (entries_bytes ((key, v) :: es)) with ((be_bytes4 key ++ v) ++ entries_bytes es).
  assert (E : hw_entry (pre ++ (be_bytes4 key ++ v) ++ entries_bytes es) (Base.size + k * HwEntry.size) w
              = hw_switch key v w).
  { rewrite <- Hpre, <- (app_assoc (be_bytes4 key)). by apply hw_entry_at. }
  rewrite E.
  destruct (hw_switch key v w) as [[[] w1]|]; [|done]. destruct H as (g2 & H1 & H2 & H3). exists g2.
  split_and!; [done|done|]. specialize (IH (pre ++ be_bytes4 key ++ v) (S k) t h g2 Hes).
  rewrite <- !app_assoc in IH. apply IH; [|done].
  rewrite !length_app, Hpre, Hv, length_be4. unfold HwEntry.size, HwEntry.value, HwEntry.mKey. lia.
Qed.

Lemma hwinfo_safe g ifs (Q : nat -> ghost -> Z -> Prop) :
  g_detached g = [] -> Forall if_described ifs -> (length ifs <= 92)%nat ->
  Forall (fun i => is_Ok (sr_print_if i)) (g_ifs g) ->
  (forall n g1, g_detached g1 = [] -> Forall (fun i => is_Ok (sr_print_if i)) (g_ifs g1) -> Q 0%nat g1 n) ->
  wp_i Main 0 g (Prog.sr_handle_hwinfo (received_bytes VNSHWINFO (entries_bytes (describe ifs)))) Q.
Proof.
  intros Hd Hi Hmax Hold HQ. destruct (describe_ok ifs Hi) as [Hes Hlen].
  assert (HL : length (entries_bytes (describe ifs)) = (108 * length ifs)%nat).
  { rewrite length_entries_bytes by (eapply Forall_impl; [exact Hes|]; naive_solver). lia. }
  unfold Prog.sr_handle_hwinfo, received_bytes. rewrite HL. set (n := 8 + Z.of_nat (108 * length ifs)).
  eapply wp_pure; [apply (load32_at [] (be_bytes4 n) (le_bytes4 VNSHWINFO ++ entries_bytes (describe ifs)) 0 eq_refl eq_refl)|].
  intros g1 E1. destruct (rely_main _ _ _ _ E1) as [Ed1 Ei1].
  rewrite ntohl_be4 by (unfold u32_ok; lia). cbv zeta.
  assert (Hk : s32 ((n - 2 * 4) mod 2 ^ 64 / Z.of_nat HwEntry.size) = 3 * Z.of_nat (length ifs)).
  { rewrite Z.mod_small by lia. change (Z.of_nat HwEntry.size) with 36. unfold n.
    replace (8 + _ - 2 * 4) with (3 * Z.of_nat (length ifs) * 36) by lia. rewrite Z.div_mul by lia.
    apply s32_small. lia. }
  rewrite Hk. replace (Z.to_nat (3 * Z.of_nat (length ifs))) with (length (describe ifs)) by lia.
  apply wp_bind. rewrite app_assoc. apply wp_hw_loop; [done|done|].
  apply describe_safe; [congruence|done|]. intros g2 l Ed2 Ei2 Hl. cbv beta.
  assert (Hp : Forall (fun i => is_Ok (sr_print_if i)) (g_ifs g2)).
  { rewrite Ei2, Ei1. apply Forall_app. split; [done|by eapply same_if_print]. }
  apply wp_quiet with (P := fun _ _ => True).
  - intros w g3 Hs Hr3. destruct (rely_main _ _ _ _ Hr3) as [_ Ei3]. rewrite sget_step.
    destruct (sr_print_if_list_ok (if_list w)) as [items Ep].
    { by rewrite (sh_ifs _ _ _ _ _ _ Hs), Ei3. }
    by rewrite (slift_step _ _ w Ep).
  - intros items g3 Hr3 _. destruct (rely_main _ _ _ _ Hr3) as [Ed3 Ei3]. cbn. apply HQ; [congruence|by rewrite Ei3].
Qed.
End HwInfo.

(** ** A packet command *)
Section VnsPacket.
Context {os : OS} (rts : list sr_rt) (dumps tame : bool).

Abbreviation rely := (rely tame).
Abbreviation wp_i := (wp (fun w : world => w) (fun _ => True) rts dumps tame).

Lemma vnspacket_safe g w0 nm frame (Q : nat -> ghost -> unit -> Prop) :
  g_detached g = [] -> routed rts (g_ifs g) -> if_list w0 = g_ifs g -> length nm = 16%nat ->
  frame_ok w0 frame (nm ++ frame) -> Z.of_nat (length frame) <= 9976 ->
  (forall g1, done_with g g1 -> Q 0%nat g1 tt) ->
  wp_i Main 0 g (Prog.handle_vnspacket (received_bytes VNSPACKET (nm ++ frame)) (8 + Z.of_nat (length (nm ++ frame)))) Q.
Proof.
  intros Hd Hrts Hw Hnm Hfr Hmax HQ. unfold Prog.handle_vnspacket, received_bytes.
  set (n := 8 + Z.of_nat (length (nm ++ frame))).
  assert (Hn : n = 24 + Z.of_nat (length frame)) by (unfold n; rewrite length_app; lia). clearbody n.
  set (P := be_bytes4 n ++ le_bytes4 VNSPACKET).
  assert (EP : be_bytes4 n ++ le_bytes4 VNSPACKET ++ nm ++ frame = P ++ nm ++ frame) by by rewrite app_assoc.
  assert (F1 : from (P ++ nm ++ frame) PktHdr.size = Ok frame).
  { rewrite app_assoc. apply from_at. rewrite length_app, Hnm. done. }
  rewrite EP. eapply wp_pure; [exact F1|]. intros g1 E1.
  eapply wp_pure; [exact (from_at P (nm ++ frame) Base.size eq_refl)|]. intros g2 E2. cbv zeta.
  replace (u32 (n - Z.of_nat (PktHdr.size + Eth.size) + Z.of_nat Eth.size)) with (Z.of_nat (length frame)).
  2:{ unfold u32. change (Z.of_nat (PktHdr.size + Eth.size)) with 38. change (Z.of_nat Eth.size) with 14.
      rewrite Z.mod_small; lia. }
  assert (E02 : rely Main 0 g g2) by relies. destruct (done_rely _ _ Hd E02) as [Ed2 Ei2].
  apply wp_quiet with (P := fun _ _ => True).
  { intros w g3 Hs Hr3. destruct (rely_main _ _ _ _ Hr3) as [_ Ei3].
    pose proof (sh_ifs _ _ _ _ _ _ Hs) as Ei. pose proof (sh_ifs_ok _ _ _ _ _ _ Hs) as Hok.
    cbn beta in Ei. rewrite <- Ei in Hok.
    destruct (arp_check_total w frame (nm ++ frame) Hok) as [b ->]; [|done].
    apply (frame_ok_ifs w0); [congruence|done]. }
  intros b g3 E3 _. assert (E03 : rely Main 0 g g3) by relies. destruct b; [by apply HQ, (done_rely g g3 Hd E03)|].
  eapply wp_pure; [rewrite <- EP; apply (load32_at [] (be_bytes4 n) (le_bytes4 VNSPACKET ++ nm ++ frame) 0 eq_refl eq_refl)|].
  intros g4 E4. rewrite ntohl_be4 by (unfold u32_ok; lia). change (Z.of_nat PktHdr.size) with 24.
  replace (n - 24) with (Z.of_nat (length frame)) by lia. rewrite s32_small by lia.
  apply wp_bind, wp_log_packet; [lia|]. intros g5 E5.
  assert (E05 : rely Main 0 g g5) by relies. destruct (done_rely _ _ Hd E05) as [Ed5 Ei5].
  apply packet_safe with w0; [done|by rewrite Ei5|by rewrite Ei5|done|].
  intros g6 [Ed6 Ei6]. apply HQ. split; congruence.
Qed.
End VnsPacket.

(** What the code assumes of the host. *)
Record host_ok {os : OS} {net : Net} : Prop := {
  ho_malloc : forall k, bytes_ok (os_malloc k);
  ho_key : forall fp, net_auth_key = Some fp -> bytes_ok fp }.

(** ** The other commands *)
Section Session.
Context {os : OS} {net : Net} (Hhost : host_ok) (rts : list sr_rt) (dumps tame : bool).
Context (Hnames : Forall (fun r => length (rt_interface r) = 32%nat) rts).

Definition user_ok (s : session) : Prop := is_Ok (cstring (user s)).

Abbreviation shared_s := (shared sr user_ok rts dumps).
Abbreviation rely := (rely tame).
Abbreviation wp_s := (wp sr user_ok rts dumps tame).

(** They leave the tables alone. *)
Record session_same (s s' : session) : Prop := {
  ss_world : world_same (sr s) (sr s');
  ss_user : user s' = user s }.

Lemma shared_session_same s s' g : shared_s s g -> session_same s s' -> shared_s s' g.
Proof.
  intros [] [[E1 E2 E3 E4] Eu]. constructor; unfold user_ok in *; rewrite ?Eu, ?E1, ?E2, ?E3, ?E4; done.
Qed.

Lemma wp_s_quiet {X A} t h g (m : ST session X) (k : X -> prog session A) Q (P : ghost -> X -> Prop) :
  (forall s g1, shared_s s g1 -> rely t h g g1 ->
     exists x s', m s = Ok (x, s') /\ session_same s s' /\ P g1 x) ->
  (forall x g1, rely t h g g1 -> P g1 x -> wp_s t h g1 (k x) Q) ->
  wp_s t h g (Act m k) Q.
Proof.
  intros Hm HQ s g1 Hs Hr _. destruct (Hm s g1 Hs Hr) as (x & s' & -> & Hss & HP).
  exists g1. split_and!; [by eapply shared_session_same|apply guar_refl|by apply HQ].
Qed.

Lemma session_same_refl s : session_same s s.
Proof. split; [reflexivity|done]. Qed.

Lemma wp_s_pure {X A} t h g (x : X) (m : res X) (k : X -> prog session A) Q :
  m = Ok x -> (forall g1, rely t h g g1 -> wp_s t h g1 (k x) Q) -> wp_s t h g (Act (slift m) k) Q.
Proof.
  intros -> HQ. apply wp_s_quiet with (P := fun _ y => y = x).
  - intros s g1 _ _. exists x, s. split_and!; [done|apply session_same_refl|done].
  - intros y g1 Hr ->. by apply HQ.
Qed.

Lemma on_world_same_session {A} (m : M A) s a w' :
  m (sr s) = Ok (a, w') -> world_same (sr s) w' ->
  exists a' s', on_world m s = Ok (a', s') /\ session_same s s'.
Proof. intros E Hw. rewrite (on_world_ok _ _ _ _ E). by eexists _, _. Qed.

Lemma auth_request_total w name salt :
  bytes_ok salt -> Z.of_nat (length salt) <= 9992 -> is_Ok (cstring name) ->
  exists r w', sr_handle_auth_request name (received_bytes VNS_AUTH_REQUEST salt) w = Ok (r, w') /\ world_same w w'.
Proof.
  intros Hs Hl [n Hn]. destruct (net_auth_key) as [fp|] eqn:Ek.
  2:{ unfold sr_handle_auth_request. rewrite sget_step, Ek. by eexists _, w. }
  destruct (decide ((fgets 64 fp).1 = [])) as [E0|Hne].
  { unfold sr_handle_auth_request. rewrite sget_step, Ek. change AUTH_KEY_LEN with 64%nat. rewrite E0. by eexists _, w. }
  pose proof (ho_malloc Hhost (ticks w)) as Hj. pose proof (ho_key Hhost fp Ek) as Hfp.
  destruct (auth_request_spec w name n salt fp Hj Ek Hne Hs) as (w' & E & Hw & _); [|done|done|by eexists _, w'].
  by apply key_bytes_ok; [|apply fgets_bytes_ok].
Qed.

Lemma auth_status_total w name ok msg :
  is_Ok (cstring name) -> is_Ok (cstring msg) ->
  exists r, sr_handle_auth_status name (received_bytes VNS_AUTH_STATUS (ok :: msg)) w = Ok (r, w).
Proof.
  intros [n Hn] [m Hm]. unfold sr_handle_auth_status, received_bytes.
  set (h := be_bytes4 _ ++ _). assert (Eh : h = (be_bytes4 (8 + Z.of_nat (length (ok :: msg))) ++ le_bytes4 VNS_AUTH_STATUS) ++ [ok] ++ msg).
  { unfold h. by rewrite <- app_assoc. }
  set (P := be_bytes4 _ ++ le_bytes4 VNS_AUTH_STATUS) in Eh. rewrite Eh.
  assert (E : load8 (P ++ [ok] ++ msg) AuthStatus.auth_ok = Ok (le_word [ok])).
  { unfold load8. by rewrite (load_at P [ok] msg AuthStatus.auth_ok 1 eq_refl eq_refl). }
  rewrite (sbind_step _ _ _ _ _ (slift_step _ _ w E)), (sbind_step _ _ _ _ _ (slift_step _ _ w Hn)).
  assert (F : from (P ++ [ok] ++ msg) AuthStatus.msg = Ok msg) by (rewrite app_assoc; by apply from_at).
  destruct (_ =? 0); [|by eexists].
  rewrite (sbind_step _ _ _ _ _ (slift_step _ _ w F)), (sbind_step _ _ _ _ _ (slift_step _ _ w Hm)). by eexists.
Qed.

Lemma text_total (s : session) command body r :
  is_Ok (cstring body) ->
  (do! msg := slift (from (received_bytes command body) Base.size) in
   do! _ := slift (cstring msg) in sret r) s = Ok (r, s) (A := Z * session).
Proof.
  intros [t Ht]. unfold received_bytes. rewrite app_assoc.
  rewrite (sbind_step _ _ _ _ _ (slift_step _ _ s
    (from_at (be_bytes4 (8 + Z.of_nat (length body)) ++ le_bytes4 command) body Base.size eq_refl))).
  by rewrite (sbind_step _ _ _ _ _ (slift_step _ _ s Ht)).
Qed.

Lemma other_command_total s0 s command body :
  command_fine s0 command body -> user_ok s -> command <> VNSPACKET -> command <> VNSHWINFO ->
  exists r s', dispatch (received_bytes command body) (8 + Z.of_nat (length body)) command s = Ok (r, s')
    /\ session_same s s'.
Proof.
  intros [Hc Hb Hl _ Ht _ Hrt Hst] Hu Hp Hh. unfold dispatch.
  rewrite (proj2 (Z.eqb_neq _ _) Hp). destruct (Z.eqb_spec command VNSCLOSE) as [->|_].
  { eexists _, s. split; [apply text_total, Ht; by left|apply session_same_refl]. }
  destruct (Z.eqb_spec command VNSBANNER) as [->|_].
  { eexists _, s. split; [apply text_total, Ht; by right|apply session_same_refl]. }
  rewrite (proj2 (Z.eqb_neq _ _) Hh). destruct (Z.eqb_spec command VNS_RTABLE) as [->|_].
  { destruct (Hrt eq_refl) as (id & text & -> & Hid & name & Hname). rewrite length_app in Hl.
    pose proof (rtable_spec s id name text Hid Hname ltac:(lia)) as E. cbv zeta in E.
    destruct (net_fopen_w _); rewrite (sbind_step _ _ _ _ _ E); eexists _, _; (split; [done|]); by split. }
  destruct (Z.eqb_spec command VNS_AUTH_REQUEST) as [->|_].
  { rewrite sget_step. destruct (auth_request_total (sr s) (user s) body Hb Hl Hu) as (r & w' & E & Hw).
    rewrite (sbind_step _ _ _ _ _ (on_world_ok _ s _ _ E)). eexists _, _. by split. }
  destruct (Z.eqb_spec command VNS_AUTH_STATUS) as [->|_].
  { rewrite sget_step. destruct (Hst eq_refl) as (ok & msg & -> & Hmsg).
    destruct (auth_status_total (sr s) (user s) ok msg Hu Hmsg) as (r & E).
    rewrite (sbind_step _ _ _ _ _ (on_world_ok _ s _ _ E)). eexists _, _. by split. }
  eexists _, s. split; [done|apply session_same_refl].
Qed.

(** What the main thread knows when it has obeyed a command. *)
Definition obeyed (h : nat) (g : ghost) (ret : Z) : Prop :=
  h = 0%nat /\ g_detached g = [] /\ (ret = 1 -> ready rts (g_ifs g)).

Lemma ready_routed g w frame iface :
  ready rts (g_ifs g) -> if_list w = g_ifs g -> frame_ok w frame iface -> routed rts (g_ifs g).
Proof.
  intros [_ [E|H]] Ew [_ _ (s & nm & i & _ & Hf)]; [|done]. by rewrite Ew, E in Hf.
Qed.

Lemma rely_ready g g1 :
  rely Main 0 g g1 -> g_detached g = [] -> ready rts (g_ifs g) -> g_detached g1 = [] /\ ready rts (g_ifs g1).
Proof. intros Hr Hd Hy. destruct (rely_main _ _ _ _ Hr) as [-> ->]. done. Qed.

(** The verification at the end of a hardware description. *)
Lemma verified ifs n :
  ifs_ok ifs -> sr_verify_routing_table ifs rts = Ok n -> n = 0 -> routed rts ifs.
Proof.
  intros Hi E ->. destruct ifs as [|i ifs]; [done|]. destruct rts as [|r rs]; [done|].
  destruct (verify_loop_spec (i :: ifs) (r :: rs) 0 Hi Hnames ltac:(lia)) as (n & E' & _ & Hn).
  unfold sr_verify_routing_table in E. rewrite E' in E. injection E as E.
  apply Forall_and. split; [done|]. apply Hn. lia.
Qed.

Lemma verify_total ifs : ifs_ok ifs -> is_Ok (sr_verify_routing_table ifs rts).
Proof.
  intros Hi. destruct ifs as [|i ifs]; [by eexists|]. destruct rts as [|r rs]; [by eexists|].
  destruct (verify_loop_spec (i :: ifs) (r :: rs) 0 Hi Hnames ltac:(lia)) as (n & E & _). by eexists.
Qed.

(** A command of the server. *)
Lemma dispatch_safe g s0 command body :
  g_detached g = [] -> ready rts (g_ifs g) -> if_list (sr s0) = g_ifs g -> command_fine s0 command body ->
  wp_s Main 0 g (Prog.dispatch (received_bytes command body) (8 + Z.of_nat (length body)) command) obeyed.
Proof.
  intros Hd Hy Hw Hf. unfold Prog.dispatch. destruct (Z.eqb_spec command VNSPACKET) as [->|Hp].
  { destruct (cf_packet _ _ _ Hf eq_refl) as (nm & frame & -> & Hnm & Hfr).
    pose proof (cf_len _ _ _ Hf) as Hl. rewrite length_app in Hl.
    apply wp_bind, wp_on_instance; [done|].
    apply vnspacket_safe with (sr s0); [done|by eapply ready_routed|done|done|done|lia|].
    intros g1 [Hd1 Hi1]. split_and!; [done|done|by rewrite Hi1]. }
  destruct (Z.eqb_spec command VNSHWINFO) as [->|Hh].
  { destruct (cf_hwinfo _ _ _ Hf eq_refl) as (ifs & -> & Hifs & Hmax).
    apply wp_bind, wp_on_instance; [done|].
    apply hwinfo_safe; [apply Hhost|done|done|done|apply Hy|].
    intros n g1 Hd1 Hp1. apply wp_s_quiet with (P := fun g2 bad => bad = 0 -> routed rts (g_ifs g2)).
    - intros s g2 Hs Hr2. rewrite sget_step.
      destruct (verify_total (g_ifs g2) (sh_ifs_ok _ _ _ _ _ _ Hs)) as [bad E].
      rewrite (sh_ifs _ _ _ _ _ _ Hs), (sh_routes _ _ _ _ _ _ Hs), (slift_step _ _ s E).
      exists bad, s. split_and!; [done|apply session_same_refl|].
      by apply verified; [apply (sh_ifs_ok _ _ _ _ _ _ Hs)|].
    - intros bad g2 Hr2 Hbad. destruct (rely_main _ _ _ _ Hr2) as [Ed Ei].
      destruct (Z.eqb_spec bad 0) as [->|]; cbn; (split_and!; [done|congruence|]); [|done].
      intros _. split; [by rewrite Ei|right; by apply Hbad]. }
  apply wp_s_quiet with (P := fun _ _ => True).
  - intros s g1 Hs _. destruct (other_command_total s0 s command body Hf (sh_private _ _ _ _ _ _ Hs) Hp Hh)
      as (r & s' & E & Hss). eauto.
  - intros r g1 Hr1 _. destruct (rely_ready _ _ Hr1 Hd Hy). by split_and!.
Qed.

Lemma obey_safe g s0 c :
  g_detached g = [] -> ready rts (g_ifs g) -> if_list (sr s0) = g_ifs g -> read_fine s0 c ->
  wp_s Main 0 g (Prog.obey_command c) obeyed.
Proof.
  intros Hd Hy Hw Hf. destruct c as [[buf len]|]; [|by split_and!].
  destruct Hf as (command & body & -> & -> & Hf).
  destruct (command_type command body (cf_type _ _ _ Hf)) as (t & E1 & E2 & E3). unfold Prog.obey_command.
  eapply wp_s_pure; [exact E1|]. intros g1 Hr1. rewrite E2. eapply wp_s_pure; [exact E3|]. intros g2 Hr2.
  assert (Hr : rely Main 0 g g2) by relies. destruct (rely_ready _ _ Hr Hd Hy) as [Hd2 Hy2].
  destruct (rely_main _ _ _ _ Hr) as [_ Ei]. apply dispatch_safe with s0; [done|done|congruence|done].
Qed.

(** ** The turns *)
Lemma main_turn_safe g s0 c :
  g_detached g = [] -> ready rts (g_ifs g) -> if_list (sr s0) = g_ifs g -> read_fine s0 c ->
  wp_s Main 0 g (Prog.main_turn c) (idle rts Main).
Proof.
  intros Hd Hy Hw Hf. unfold Prog.main_turn. apply wp_bind.
  eapply wp_mono; [|by apply obey_safe with s0]. intros h g1 ret (-> & Hd1 & H1).
  destruct (Z.eqb_spec ret 1) as [->|_].
  { split; [done|]. intros _. split; [done|]. intros _. by apply H1. }
  intros s g2 Hs Hr2 _. destruct (rely_main _ _ _ _ Hr2) as [Ed2 _].
  rewrite (on_world_ok _ s _ _ (destroy_ok (sr s))). exists g2. split_and!; [|apply guar_refl|].
  - destruct Hs. unfold closed. constructor; unfold set_sr, user_ok in *; cbn [sr user];
      destruct (logfile (sr s)) eqn:E; try done; rewrite ?E; try done; cbn; try by intuition congruence.
  - apply wp_s_quiet with (P := fun _ _ => True).
    + intros s1 g3 _ _. exists tt, s1. split_and!; [done|apply session_same_refl|done].
    + intros [] g3 Hr3 _. destruct (rely_main _ _ _ _ Hr3) as [Ed3 _].
      split; [done|]. intros _. split; [congruence|done].
Qed.

Lemma cleanup_turn_safe g : wp_s Cleanup 0 g Prog.cleanup_turn (idle rts Cleanup).
Proof.
  unfold Prog.cleanup_turn. apply wp_bind, wp_on_instance; [done|].
  apply timeout_safe. intros g1. by split.
Qed.
End Session.
