(* ===== verification/Running.v ===== *)
(** * Running: every configuration the program reaches

    The invariant of Interleave.v holds of every configuration ([creachable_good])
    and, in its stronger form, of those a calm run reaches ([calm_good]);
    a thread that has the lock gives it back ([lock_freed]); and the router
    that obeys whole commands and takes whole turns, one after the other
    ([serial]), is one way the threads can interleave ([serial_reached]). *)

From S2P Require Import Prelude Memory Protocol Utils Iface Rt ArpCache Dump World ArpHandler Router RouterSpec Handlers Safety Vns VnsSpec Main SessionSafety MainSpec Threads Alone Interleave ThreadsOk CommandsOk.

(** What reading a command leaves alone. *)
Record same_session (s s' : session) : Prop := {
  sm_sr : sr s' = sr s;
  sm_user : user s' = user s }.
#[export] Instance same_session_preorder : PreOrder same_session.
Proof. split; [by constructor|]. intros ? ? ? [] []. constructor; congruence. Qed.

Lemma set_input_same s i : same_session s (set_input s i).
Proof. by constructor. Qed.

(** Steps from a configuration with both threads at rest: whole commands that
    do not end the session, and whole turns of the cleanup thread. *)
Inductive serial {os : OS} {net : Net} : session -> session -> Prop :=
| serial_command fuel r s s1 s2 :
    read_command fuel s = Ok (r, s1) -> read_fine s1 r ->
    sr_read_from_server fuel s = Ok (1, s2) -> serial s s2
| serial_turn s w :
    sr_arpcache_timeout_turn (sr s) = Ok (tt, w) -> serial s (set_sr s w).

Section Running.
Context {os : OS} {net : Net}.

Lemma read_stream_same fuel n s r s1 : read_stream fuel n s = Ok (r, s1) -> same_session s s1.
Proof. unfold read_stream. destruct (read_bytes _ _ _) as [[a i]|]; [|done]. intros [= _ <-]. by constructor. Qed.

Lemma read_command_same fuel s r s1 : read_command fuel s = Ok (r, s1) -> same_session s s1.
Proof.
  unfold read_command, sbind. destruct (read_stream fuel 4 s) as [[[word|] s2]|] eqn:E; [|by intros [= _ <-]; eapply read_stream_same|done].
  apply read_stream_same in E. destruct (_ || _); [intros [= _ <-]; etransitivity; [exact E|by constructor]|].
  cbn. destruct (store32 _ _ _); [|done]. cbn.
  destruct (read_stream fuel _ s2) as [[[body|] s3]|] eqn:E3; [| |done]; apply read_stream_same in E3.
  - destruct (store _ _ _); [|done]. intros [= _ <-]. by etransitivity.
  - intros [= _ <-]. etransitivity; [exact E|]. etransitivity; [exact E3|by constructor].
Qed.

(** ** The invariant *)
Section Invariant.
Context (Hhost : host_ok) (rts : list sr_rt) (dumps tame : bool).
Context (Hnames : Forall (fun r => length (rt_interface r) = 32%nat) rts).

Abbreviation good := (config_ok user_ok rts dumps tame).

(** A thread at rest starts on something it may do. *)
Lemma good_resume c g t s p b :
  good c g -> c_prog c t = Done b -> same_session (c_state c) s ->
  wp sr user_ok rts dumps tame t 0 g p (idle rts t) -> good (resume c t s (c_lock c) p) g.
Proof.
  intros [Hs Hl Hw] E [Es Eu] Hp. apply resume_ok; [|done| |apply Hw].
  - destruct Hs. constructor; unfold user_ok in *; rewrite ?Es, ?Eu; done.
  - pose proof (Hw t) as H. rewrite E in H. destruct H as [-> _]. done.
Qed.

Lemma good_idle c g t b :
  good c g -> c_prog c t = Done b -> idle rts t (depth t (c_lock c)) g b.
Proof. intros [_ _ Hw] E. pose proof (Hw t) as H. by rewrite E in H. Qed.

Lemma good_obey c g s r :
  good c g -> c_main c = Done true -> same_session (c_state c) s -> read_fine s r -> good (obey c s r) g.
Proof.
  intros Hg E Hs Hf. destruct (good_idle c g Main true Hg E) as [_ Hi]. destruct (Hi eq_refl) as [Hd Hy].
  apply good_resume with true; [done|done|done|].
  apply (main_turn_safe Hhost rts dumps tame Hnames g s r); [done|by apply Hy| |done].
  rewrite (sm_sr _ _ Hs). apply (sh_ifs _ _ _ _ _ _ (cok_shared _ _ _ _ _ _ Hg)).
Qed.

Lemma good_wake c g b : good c g -> c_cleanup c = Done b -> good (wake c) g.
Proof. intros Hg E. apply good_resume with b; [done|done|reflexivity|apply cleanup_turn_safe]. Qed.

Lemma good_cstep c c' g :
  good c g -> (tame = true -> calm (c_world c)) -> cstep read_fine c c' -> exists g', good c' g'.
Proof.
  intros Hg Hc Hstep. revert Hg Hc. destruct Hstep as [c c' t E|c fuel r s E Er Hf|c _ E]; intros Hg Hc.
  - pose proof (thread_step_ok _ _ _ _ c g t Hg Hc) as H. by rewrite E in H.
  - exists g. apply good_obey; [done|done|by eapply read_command_same|done].
  - exists g. by eapply good_wake.
Qed.

(** A step of a run that is tame or not. *)
Definition tame_step (c c' : config) : Prop := (tame = true -> calm (c_world c)) /\ cstep read_fine c c'.

Lemma good_csteps c c' : rtc tame_step c c' -> forall g, good c g -> exists g', good c' g'.
Proof.
  induction 1 as [c|c1 c2 c3 [Hc H12] _ IH]; intros g Hg; [by exists g|].
  destruct (good_cstep _ _ _ Hg Hc H12) as [g' Hg']. by eapply IH.
Qed.
End Invariant.

Lemma any_step c c' : rtc (cstep read_fine) c c' -> rtc (tame_step false) c c'.
Proof. apply rtc_subrel. by intros c1 c2. Qed.

(** ** The lock is given back *)
Section Lock.
Context (rts : list sr_rt) (dumps : bool).

Abbreviation good := (config_ok user_ok rts dumps false).

Lemma step_good c g t : good c g ->
  match step t c with
  | Some (Ok c') => exists g', good c' g'
  | Some (Fault f) => may_fault false (depth t (c_lock c)) f
  | None => True
  end.
Proof. intros Hg. by apply (thread_step_ok user_ok rts dumps false c g). Qed.

Lemma acquire_held t lock : (0 < depth t lock)%nat -> exists lock', acquire t lock = Some lock'.
Proof.
  unfold acquire, depth. destruct lock as [[o n]|]; [|lia]. case_decide; [by eexists|lia].
Qed.

(** Giving it back for the last time frees it. *)
Lemma release_last t lock : lock_ok lock -> depth t lock = 1%nat -> release t lock = None.
Proof.
  unfold release, depth. destruct lock as [[o n]|]; [|done]. intros _. case_decide; [|done]. by intros ->.
Qed.

(** The thread that holds it has not ended the program. *)
Lemma exited_main c : exited c = true -> c_main c = Done false.
Proof. unfold exited. by destruct (c_main c) as [[]| | |]. Qed.

Lemma held_running c c' g t :
  good c' g -> (0 < depth t (c_lock c'))%nat -> exited c = false -> c_prog c' (other t) = c_prog c (other t) ->
  exited c' = false.
Proof.
  intros Hg Hd Hx Eo. destruct (exited c') eqn:E; [|done]. apply exited_main in E. destruct t.
  - destruct (good_idle _ _ _ c' g Main false Hg E). lia.
  - cbn in Eo. unfold exited in Hx. by rewrite <- Eo, E in Hx.
Qed.

Lemma lock_freed t p : forall c g,
  good c g -> c_prog c t = p -> (0 < depth t (c_lock c))%nat -> exited c = false ->
  exists n, match steps n t c with
    | Some (Ok c') => c_lock c' = None /\ c_prog c' (other t) = c_prog c (other t)
    | Some (Fault f) => f = UseAfterFree
    | None => False
    end.
Proof.
  induction p as [a|X m k IH|k IH|k IH]; intros c g Hg E Hd Hx; pose proof (step_good c g t Hg) as Hs.
  - destruct (good_idle _ _ _ c g t a Hg E). lia.
  - unfold step in Hs. rewrite Hx, E in Hs.
    destruct (m (c_state c)) as [[x s']|f] eqn:Em; cbn [bind fst snd] in Hs.
    2:{ exists 1%nat. cbn [steps]. unfold step. rewrite Hx, E, Em. destruct Hs as [|H0 _]; [done|lia]. }
    destruct Hs as (g' & Hs). destruct (resume_prog c t s' (c_lock c) (k x)) as (E1 & E2 & _ & E4).
    destruct (IH x _ _ Hs E1) as (n & Hn); [by rewrite E4|eapply held_running; [exact Hs|by rewrite E4|done|done]|].
    exists (S n). cbn [steps]. unfold step. rewrite Hx, E, Em. cbn [bind fst snd]. by rewrite E2 in Hn.
  - destruct (acquire_held t (c_lock c) Hd) as [lock' Ea].
    destruct (acquire_ok _ _ _ Ea (cok_lock _ _ _ _ _ _ Hg)) as (_ & Ed & _).
    unfold step in Hs. rewrite Hx, E, Ea in Hs. destruct Hs as (g' & Hs).
    destruct (resume_prog c t (c_state c) lock' k) as (E1 & E2 & _ & E4).
    assert (Hd' : (0 < depth t (c_lock (resume c t (c_state c) lock' k)))%nat) by (rewrite E4; lia).
    destruct (IH _ _ Hs E1 Hd') as (n & Hn); [by eapply held_running|].
    exists (S n). cbn [steps]. unfold step. rewrite Hx, E, Ea. by rewrite E2 in Hn.
  - unfold step in Hs. rewrite Hx, E in Hs. destruct Hs as (g' & Hs).
    destruct (resume_prog c t (c_state c) (release t (c_lock c)) k) as (E1 & E2 & _ & E4).
    destruct (depth t (c_lock c)) as [|h] eqn:Eh; [lia|].
    destruct (release_ok _ _ _ Eh) as (_ & Er & _). destruct h as [|h].
    + pose proof (release_last t _ (cok_lock _ _ _ _ _ _ Hg) Eh) as El.
      exists 1%nat. cbn [steps]. unfold step. rewrite Hx, E. cbn [steps]. by rewrite E4, E2, El.
    + assert (Hd' : (0 < depth t (c_lock (resume c t (c_state c) (release t (c_lock c)) k)))%nat) by (rewrite E4; lia).
      destruct (IH _ _ Hs E1 Hd') as (m & Hm); [by eapply held_running|].
      exists (S m). cbn [steps]. unfold step. rewrite Hx, E. by rewrite E2 in Hm.
Qed.
End Lock.

(** ** From the start *)
Definition has_dump (w : world) : bool := match logfile w with NoDump => false | _ => true end.

(** The configuration satisfies the invariant, with its own routes. *)
Definition good (tame : bool) (c : config) (g : ghost) : Prop :=
  exists dumps, config_ok user_ok (routing_table (c_world c)) dumps tame c g
  /\ Forall (fun r => length (rt_interface r) = 32%nat) (routing_table (c_world c)).

Lemma good_start tame s : booted s -> good tame (cstart s) (Ghost [] [] (if_list (sr s))).
Proof.
  intros [Hi Hp Hn Hr Hc Hu]. exists (has_dump (sr s)). split; [|done]. constructor; cbn.
  - constructor; cbn; rewrite ?Hc; try done.
    + constructor; simpl; try done; [by constructor|].
      intros l. rewrite lookup_empty. split; [by intros []|by intros H%elem_of_nil].
    + cbn [entries sr_arpcache_init]. apply Forall_replicate. split; [done|].
      apply bytes_ok_replicate. unfold byte_ok; lia.
    + constructor; [by constructor|done].
    + unfold has_dump. by destruct (logfile (sr s)).
  - done.
  - intros [|]; cbn; (split; [done|]); [|done]. intros _. split; [done|]. intros _.
    split; [done|]. destruct Hr as [->|Hr]; [by left|right]. apply Forall_and. by split.
Qed.

Lemma good_reaches (Hhost : host_ok) tame c c' g :
  good tame c g -> rtc (tame_step tame) c c' -> exists g', good tame c' g'.
Proof.
  intros (dumps & Hg & Hn) Hr. destruct (good_csteps Hhost _ dumps tame Hn _ _ Hr g Hg) as [g' Hg'].
  pose proof (sh_routes _ _ _ _ _ _ (cok_shared _ _ _ _ _ _ Hg')) as E. cbn beta in E.
  exists g', dumps. by rewrite E.
Qed.

Lemma creachable_good (Hhost : host_ok) c : creachable c -> exists g, good false c g.
Proof. intros (s & Hs & Hr). eapply good_reaches; [done|by apply good_start|by apply any_step]. Qed.

(** A run that is calm from its start on. *)
Definition calm_step (c c' : config) : Prop := calm (c_world c) /\ cstep read_fine c c'.

Lemma calm_good (Hhost : host_ok) s c : booted s -> rtc calm_step (cstart s) c -> exists g, good true c g.
Proof.
  intros Hs Hr. eapply good_reaches; [done|by apply good_start|].
  eapply rtc_subrel, Hr. by intros c1 c2 [].
Qed.

(** ** A thread that is not interrupted *)
Lemma steps_cstep server n t : forall c c', steps n t c = Some (Ok c') -> rtc (cstep server) c c'.
Proof.
  induction n as [|n IH]; intros c c'; cbn [steps]; [by intros [= <-]|].
  destruct (step t c) as [[c1|]|] eqn:E; [|done|done]. intros H.
  eapply rtc_l; [by eapply cstep_act|by apply IH].
Qed.

Lemma acquire_free t lock :
  lock_ok lock -> depth (other t) lock = 0%nat ->
  exists lock', acquire t lock = Some lock' /\ lock_ok lock' /\ depth (other t) lock' = 0%nat.
Proof.
  intros Hl Ho. destruct (acquire t lock) as [lock'|] eqn:E.
  - destruct (acquire_ok _ _ _ E Hl) as (H1 & _ & H2). exists lock'. by rewrite H2.
  - exfalso. unfold acquire, depth, lock_ok in *. destruct lock as [[o n]|]; [|done].
    repeat case_decide; try done; try lia. by destruct o, t.
Qed.

Lemma release_free t lock :
  lock_ok lock -> depth (other t) lock = 0%nat ->
  lock_ok (release t lock) /\ depth (other t) (release t lock) = 0%nat.
Proof.
  intros Hl Ho. destruct (depth t lock) as [|h] eqn:E.
  - destruct lock as [[o n]|]; [|done]. exfalso. unfold depth, lock_ok in *.
    repeat case_decide; try lia. by destruct o, t.
  - destruct (release_ok _ _ _ E) as (H1 & _ & H2). by rewrite H2.
Qed.

(** Nobody holds the lock when both are at rest. *)
Lemma no_depth lock : lock_ok lock -> (forall t, depth t lock = 0%nat) -> lock = None.
Proof.
  intros Hl H. destruct lock as [[o n]|]; [|done]. specialize (H o). unfold depth, lock_ok in *.
  case_decide; [lia|done].
Qed.

(** The thread runs to its end, or faults, as [r] says. *)
Definition ends (t : thread) (c : config) (r : res (bool * session)) : Prop :=
  match r with
  | Ok (b, s') => exists n lock', steps n t c = Some (Ok (resume c t s' lock' (Done b)))
  | Fault f => exists n, steps n t c = Some (Fault f)
  end.

Lemma ends_step t c s1 l1 p1 r :
  step t c = Some (Ok (resume c t s1 l1 p1)) -> ends t (resume c t s1 l1 p1) r -> ends t c r.
Proof.
  intros E. destruct r as [[u s']|f].
  - intros (n & lock' & H). exists (S n), lock'. cbn [steps]. rewrite E, H. by destruct t.
  - intros (n & H). exists (S n). cbn [steps]. by rewrite E.
Qed.

(** The main thread has not returned while the other runs. *)
Definition alive (t : thread) (c : config) : Prop := t = Cleanup -> exited c = false.

Lemma alive_running t c p :
  alive t c -> c_prog c t = p -> match p with Done _ => False | _ => True end -> exited c = false.
Proof.
  intros Ha E Hp. destruct t; [|by apply Ha]. cbn in E. unfold exited. by rewrite E; destruct p.
Qed.
Lemma alive_resume t c s lock p : alive t c -> alive t (resume c t s lock p).
Proof. intros Ha ->. by apply Ha. Qed.

(** While the other thread does not hold the lock, the actions are those of [run]. *)
Lemma run_steps t p : forall c,
  c_prog c t = p -> alive t c -> lock_ok (c_lock c) -> depth (other t) (c_lock c) = 0%nat ->
  ends t c (run p (c_state c)).
Proof.
  induction p as [a|X m k IH|k IH|k IH]; intros c E Ha Hl Ho; cbn [run].
  - exists 0%nat, (c_lock c). cbn [steps]. destruct c, t; cbn in *; by rewrite E.
  - pose proof (alive_running t c _ Ha E I) as Hx.
    unfold sbind. destruct (m (c_state c)) as [[x s1]|f] eqn:Em.
    2:{ exists 1%nat. cbn [steps]. unfold step. by rewrite Hx, E, Em. }
    destruct (resume_prog c t s1 (c_lock c) (k x)) as (E1 & _ & E3 & E4).
    apply (ends_step t c s1 (c_lock c) (k x)); [unfold step; by rewrite Hx, E, Em|].
    specialize (IH x _ E1). rewrite E3, E4 in IH. by apply IH; [apply alive_resume|..].
  - pose proof (alive_running t c _ Ha E I) as Hx.
    destruct (acquire_free t _ Hl Ho) as (lock' & Ea & Hl' & Ho').
    destruct (resume_prog c t (c_state c) lock' k) as (E1 & _ & E3 & E4).
    apply (ends_step t c (c_state c) lock' k); [unfold step; by rewrite Hx, E, Ea|].
    specialize (IH _ E1). rewrite E3, E4 in IH. by apply IH; [apply alive_resume|..].
  - pose proof (alive_running t c _ Ha E I) as Hx.
    destruct (release_free t _ Hl Ho) as (Hl' & Ho').
    destruct (resume_prog c t (c_state c) (release t (c_lock c)) k) as (E1 & _ & E3 & E4).
    apply (ends_step t c (c_state c) (release t (c_lock c)) k); [unfold step; by rewrite Hx, E|].
    specialize (IH _ E1). rewrite E3, E4 in IH. by apply IH; [apply alive_resume|..].
Qed.

(** A thread that starts while the other is at rest ends as [run] says, and the
    lock is free again. *)
Lemma run_alone (Hhost : host_ok) t s0 s p b s' g :
  good false (resume (cstart s0) t s None p) g -> run p s = Ok (b, s') ->
  rtc (cstep read_fine) (resume (cstart s0) t s None p) (resume (cstart s0) t s' None (Done b)).
Proof.
  intros Hg E. set (c := resume (cstart s0) t s None p) in *.
  destruct (resume_prog (cstart s0) t s None p) as (E1 & E2 & E3 & E4). fold c in E1, E2, E3, E4.
  assert (Ha : alive t c) by by intros ->.
  pose proof (run_steps t p c E1 Ha ltac:(by rewrite E4) ltac:(by rewrite E4)) as H.
  rewrite E3, E in H. destruct H as (n & lock' & H%(steps_cstep read_fine)).
  destruct (good_reaches Hhost _ _ _ _ Hg (any_step _ _ H)) as (g' & dumps & Hok & _).
  destruct (resume_prog c t s' lock' (Done b)) as (F1 & F2 & _ & F4).
  assert (lock' = None) as ->; [|by destruct t].
  pose proof (cok_lock _ _ _ _ _ _ Hok) as Hl. rewrite F4 in Hl. apply no_depth; [done|].
  apply (thread_cases t).
  - destruct (good_idle _ _ _ _ _ t b Hok F1) as [D _]. by rewrite F4 in D.
  - destruct (good_idle _ _ _ _ _ (other t) true Hok) as [D _]; [rewrite F2, E2; by destruct t|]. by rewrite F4 in D.
Qed.

(** ** One after the other *)
Lemma run_main_turn c s s' : obey_command 0 c s = Ok (1, s') -> run (Prog.main_turn c) s = Ok (true, s').
Proof.
  intros E. unfold Prog.main_turn. rewrite (run_bind _ _ s). unfold sbind at 1. by rewrite (run_obey c s), E.
Qed.
Lemma run_cleanup_turn s w :
  sr_arpcache_timeout_turn (sr s) = Ok (tt, w) -> run Prog.cleanup_turn s = Ok (true, set_sr s w).
Proof.
  intros E. unfold Prog.cleanup_turn. rewrite (run_bind _ _ s). unfold sbind at 1.
  rewrite (run_on_instance _ s). unfold on_world. by rewrite (run_timeout (sr s)), E.
Qed.

Lemma serial_cstep (Hhost : host_ok) s s' :
  creachable (cstart s) -> serial s s' -> rtc (cstep read_fine) (cstart s) (cstart s').
Proof.
  intros (g & dumps & Hg & Hn)%creachable_good Hs; [|done].
  destruct Hs as [fuel r s s1 s2 Er Hf E|s w E].
  - assert (Hstep : cstep read_fine (cstart s) (obey (cstart s) s1 r)) by by eapply cstep_command.
    eapply rtc_l; [exact Hstep|].
    eapply (run_alone Hhost Main s s1 _ true s2 g).
    + exists dumps. cbn. rewrite (sm_sr _ _ (read_command_same _ _ _ _ Er)). split; [|done].
      exact (good_obey Hhost _ dumps false Hn (cstart s) g s1 r Hg eq_refl (read_command_same _ _ _ _ Er) Hf).
    + apply run_main_turn. unfold sr_read_from_server, sr_read_from_server_expect in E.
      by rewrite (sbind_step _ _ _ _ _ Er) in E.
  - assert (Hstep : cstep read_fine (cstart s) (wake (cstart s))) by by constructor.
    eapply rtc_l; [exact Hstep|].
    eapply (run_alone Hhost Cleanup s s _ true (set_sr s w) g).
    + exists dumps. split; [|done]. exact (good_wake _ dumps false (cstart s) g true Hg eq_refl).
    + by apply run_cleanup_turn.
Qed.

Lemma serial_reached (Hhost : host_ok) s s' : booted s -> rtc serial s s' -> creachable (cstart s').
Proof.
  intros Hb Hr. assert (H : creachable (cstart s)) by by exists s. clear Hb.
  induction Hr as [s|s1 s2 s3 H12 _ IH]; [done|]. apply IH. destruct H as (s0 & H0 & H).
  exists s0. split; [done|]. etransitivity; [exact H|]. apply serial_cstep; [done|by exists s0|done].
Qed.
End Running.
