(* ===== verification/Speaks.v ===== *)
(** * Speaks: what the two threads write to the server

    The address check of [sr_send_packet] and its [write] are two actions, and
    the main thread may add interfaces in between; so what can be said of a
    message is that it is well-formed for the interfaces there were at some
    moment ([seen]).  [speaks] goes through a program: every action that writes,
    writes such messages, or the reply to an authentication request
    ([csteps_speak]). *)

From S2P Require Import Prelude Memory Protocol Utils Iface Rt ArpCache Dump World ArpHandler Router Handlers Safety Wire Vns VnsSpec Main SessionSafety MainSpec Threads Alone Interleave ThreadsOk CommandsOk Running.

(** The message has the length and the type of an authentication reply in its
    header. *)
Definition reply_ok (msg : list Z) : Prop :=
  exists rest, msg = be_bytes4 (Z.of_nat (length msg)) ++ be_bytes4 VNS_AUTH_REPLY ++ rest.

Definition msg_ok (seen : list (list sr_if)) (msg : list Z) : Prop :=
  (exists ifs, ifs ∈ seen /\ wire_ok ifs msg) \/ reply_ok msg.

Definition spoken (seen : list (list sr_if)) (w w' : world) : Prop :=
  exists ms, sent (out w') = sent (out w) ++ ms /\ Forall (msg_ok seen) ms.

(** Nothing is written. *)
Definition mute (w w' : world) : Prop := sent (out w') = sent (out w).
#[export] Instance mute_preorder : PreOrder mute.
Proof. split; [by intros w|]. unfold mute. congruence. Qed.

Lemma msg_ok_mono seen seen' msg : seen ⊆ seen' -> msg_ok seen msg -> msg_ok seen' msg.
Proof. intros H [(ifs & Hin & Hw)|Hr]; [left|by right]. exists ifs. auto. Qed.

Lemma spoken_mute seen w w' : mute w w' -> spoken seen w w'.
Proof. exists []. by rewrite app_nil_r. Qed.

Lemma spoken_mono seen seen' w w' : seen ⊆ seen' -> spoken seen w w' -> spoken seen' w w'.
Proof.
  intros H (ms & E & Hm). exists ms. split; [done|]. eapply Forall_impl; [exact Hm|].
  intros msg. by apply msg_ok_mono.
Qed.

Lemma spoken_trans seen w1 w2 w3 : spoken seen w1 w2 -> spoken seen w2 w3 -> spoken seen w1 w3.
Proof.
  intros (ms1 & E1 & H1) (ms2 & E2 & H2). exists (ms1 ++ ms2).
  rewrite E2, E1, app_assoc. split; [done|]. by apply Forall_app.
Qed.

Section Speaks.
Context {state : Type} (view : state -> world).

Fixpoint speaks {A} (seen : list (list sr_if)) (p : prog state A) : Prop :=
  match p with
  | Done _ => True
  | Act m k => forall s x s', m s = Ok (x, s') ->
      spoken (if_list (view s) :: seen) (view s) (view s')
      /\ speaks (if_list (view s) :: seen) (k x)
  | Acquire k => speaks seen k
  | Release k => speaks seen k
  end.

Lemma speaks_mono {A} (p : prog state A) : forall seen seen', seen ⊆ seen' -> speaks seen p -> speaks seen' p.
Proof.
  induction p as [a|X m k IH|k IH|k IH]; intros seen seen' H; cbn [speaks]; [done| |by apply IH|by apply IH].
  intros Hp s x s' E. destruct (Hp s x s' E) as [H1 H2].
  assert (Hs : if_list (view s) :: seen ⊆ if_list (view s) :: seen') by set_solver.
  split; [by eapply spoken_mono|by eapply IH].
Qed.

Lemma speaks_bind {A B} (p : prog state A) (f : A -> prog state B) : forall seen,
  speaks seen p -> (forall a seen', speaks seen' (f a)) -> speaks seen (pbind p f).
Proof.
  induction p as [a|X m k IH|k IH|k IH]; intros seen Hp Hf; cbn [speaks pbind] in *; auto.
  intros s x s' E. destruct (Hp s x s' E). auto.
Qed.

Lemma speaks_act {X A} (m : ST state X) (k : X -> prog state A) seen :
  (forall s x s', m s = Ok (x, s') -> mute (view s) (view s')) ->
  (forall x seen', speaks seen' (k x)) -> speaks seen (Act m k).
Proof. intros Hm Hk s x s' E. split; [by eapply spoken_mute, Hm|apply Hk]. Qed.

Lemma speaks_each {X} (body : X -> prog state unit) l :
  (forall x seen, speaks seen (body x)) -> forall seen, speaks seen (each body l).
Proof.
  intros Hb. induction l as [|x l IH]; intros seen; [done|]. cbn [each]. by apply speaks_bind.
Qed.
End Speaks.

Abbreviation speaks_w := (speaks (fun w : world => w)).

Lemma speaks_on_instance {A} (p : prog world A) : forall seen, speaks_w seen p -> speaks sr seen (on_instance p).
Proof.
  induction p as [a|X m k IH|k IH|k IH]; intros seen Hp; cbn [speaks on_instance] in *; auto.
  intros s x s' E. unfold on_world in E. destruct (m (sr s)) as [[y w]|] eqn:Em; [|done].
  injection E as -> <-. destruct (Hp _ _ _ Em) as [H1 H2]. split; [exact H1|by apply IH].
Qed.

(** ** Actions that write nothing *)
Section OS.
Context {os : OS}.

Lemma tick_mute : obeys mute tick.
Proof. by intros w a w' [= <- <-]. Qed.
Lemma on_cache_mute {A} (m : ST sr_arpcache A) : obeys mute (on_cache m).
Proof. intros w a w'. unfold on_cache. destruct (m (cache w)) as [[]|]; [|done]. by intros [= _ <-]. Qed.
Lemma fwrite_mute bs : obeys mute (fwrite bs).
Proof. by intros w a w' (_ & ? & _)%fwrite_inv. Qed.
Lemma modify_mute f : (forall w, out (f w) = out w) -> obeys mute (smodify f : M unit).
Proof. intros H w a w' [= _ <-]. unfold mute. by rewrite H. Qed.
Hint Resolve tick_mute on_cache_mute fwrite_mute : router.

Lemma time_mute : obeys mute time.
Proof. unfold time. obey. Qed.
Lemma update_ifs_mute f : obeys mute (update_ifs f).
Proof. unfold update_ifs. obey. by apply modify_mute. Qed.
Hint Resolve time_mute update_ifs_mute : router.
Lemma insert_mute mac ip : obeys mute (arpcache_insert mac ip).
Proof. unfold arpcache_insert. obey. Qed.
Hint Resolve insert_mute : router.

(** An access to the memory a name is in. *)
Class Holder (held : M unit) : Prop := holder_same : forall w u w', held w = Ok (u, w') -> w' = w.
#[export] Instance holder_owned : Holder Prog.owned.
Proof. by intros w u w' [= _ <-]. Qed.
#[export] Instance holder_touch req : Holder (Prog.touch req).
Proof. by intros w u w' (r & w1 & [-> _]%read_inv & [= _ <-])%sbind_Ok_inv. Qed.
Lemma holder_mute held : Holder held -> obeys mute held.
Proof. intros H w u w' E. by rewrite (H w u w' E). Qed.
Lemma read_mute req : obeys mute (Prog.read req).
Proof. unfold Prog.read. obey. Qed.
Hint Resolve read_mute : router.
Hint Extern 1 (obeys mute _) => apply holder_mute; tc_solve : router.

(** [speak]: go through a program; what is left are the calls with lemmas of
    their own. *)
Ltac speak :=
  cbv zeta;
  lazymatch goal with
  | |- speaks _ _ (Done _) => exact I
  | |- speaks _ _ (Act _ _) => apply speaks_act; [cbv beta; change_obeys|intros ? ?; speak]
  | |- speaks ?v ?s (Acquire ?k) => change (speaks v s k); speak
  | |- speaks ?v ?s (Release ?k) => change (speaks v s k); speak
  | |- speaks _ _ (pbind _ _) => apply speaks_bind; [speak|intros ? ?; speak]
  | |- speaks _ _ (locked _) => unfold locked; speak
  | |- speaks _ _ (each _ _) => apply speaks_each; intros ? ?; speak
  | |- speaks _ _ (if ?b then _ else _) => destruct b; speak
  | |- speaks _ _ (match ?x with _ => _ end) => destruct x; speak
  | |- _ => auto with router
  end
with change_obeys :=
  lazymatch goal with |- forall s x s', ?m s = _ -> _ => change (obeys mute m); obey | _ => idtac end.

Lemma log_packet_speaks buf len seen : speaks_w seen (Prog.sr_log_packet buf len).
Proof. unfold Prog.sr_log_packet, gettimeofday. speak. Qed.

(** The message was built before the check, for the same name. *)
Lemma send_packet_speaks held `{!Holder held} buf len iface seen :
  speaks_w seen (Prog.sr_send_packet held buf len iface).
Proof.
  unfold Prog.sr_send_packet. cbv zeta. apply speaks_act; [change_obeys|]. intros _ seen1.
  change (Z.of_nat PktHdr.size) with 24. change (Z.of_nat Eth.size) with 14.
  destruct (Z.ltb_spec len 14) as [|Hl]; [exact I|]. intros w1 msg w1' E1.
  assert (Hm : exists nm, strncpy 16 iface = Ok nm /\ (Z.to_nat len <= length buf)%nat
    /\ msg = vns_message nm (take (Z.to_nat len) buf)).
  { apply sbind_Ok_inv in E1 as (u & w2 & _ & E). apply sbind_Ok_inv in E as (w3 & w4 & _ & E).
    unfold slift in E. destruct (packet_message _ _ _ _ _) as [m|] eqn:Em; [|done]. injection E as -> _.
    eapply packet_message_inv; [|exact Em]. lia. }
  split. { apply spoken_mute. revert E1. generalize msg. intros x. revert w1 x w1'. change_obeys. }
  destruct Hm as (nm & Hn & Hb & ->). set (seen2 := _ :: seen1). clearbody seen2. clear E1 w1 w1'.
  apply speaks_bind; [apply log_packet_speaks|]. intros _ seen3. cbn [speaks]. intros w1 ok w2 E.
  apply sbind_Ok_inv in E as (u & w1' & Eh & E). apply holder_same in Eh as ->.
  apply match_interface_inv in E as [-> Hok]. split; [by apply spoken_mute|].
  destruct ok; cbn [negb]; [|exact I]. destruct (Hok eq_refl) as (i & Hg & Hs & _).
  intros w2 ret w3 [= _ <-]. split; [|by case_match].
  exists [vns_message nm (take (Z.to_nat len) buf)]. cbn [out]. rewrite sent_app. split; [done|].
  apply Forall_singleton. left. exists (if_list w1). split; [set_solver|].
  exists iface, nm, i, (take (Z.to_nat len) buf).
  split_and!; [done|done|done| |rewrite length_take; lia].
  unfold src_of. rewrite skipn_firstn_comm, take_take. rewrite <- Hs. f_equal. lia.
Qed.
Hint Resolve log_packet_speaks : router.
Hint Extern 1 (speaks _ _ (Prog.sr_send_packet _ _ _ _)) => apply send_packet_speaks; tc_solve : router.

(** *** The programs *)
Lemma lookup_speaks ip seen : speaks_w seen (Prog.sr_arpcache_lookup ip).
Proof. unfold Prog.sr_arpcache_lookup. speak. Qed.
Lemma queuereq_speaks ip packet len iface seen : speaks_w seen (Prog.sr_arpcache_queuereq ip packet len iface).
Proof. unfold Prog.sr_arpcache_queuereq. speak. Qed.
Lemma insert_speaks mac ip seen : speaks_w seen (Prog.sr_arpcache_insert mac ip).
Proof. unfold Prog.sr_arpcache_insert. speak. Qed.
Lemma destroy_speaks req seen : speaks_w seen (Prog.sr_arpreq_destroy req).
Proof. unfold Prog.sr_arpreq_destroy. speak. Qed.
Hint Resolve lookup_speaks queuereq_speaks insert_speaks destroy_speaks : router.

Lemma handle_arpreq_speaks req seen : speaks_w seen (Prog.handle_arpreq req).
Proof. unfold Prog.handle_arpreq, Prog.each_packet, Prog.sr_send_icmp_t3, icmp_t3. speak. Qed.
Hint Resolve handle_arpreq_speaks : router.

Lemma sweep_speaks fuel : forall req seen, speaks_w seen (Prog.sweep_loop fuel req).
Proof. induction fuel as [|fuel IH]; intros req seen; cbn [Prog.sweep_loop]; speak. Qed.
Hint Resolve sweep_speaks : router.

Lemma timeout_speaks seen : speaks_w seen Prog.sr_arpcache_timeout.
Proof. unfold Prog.sr_arpcache_timeout, Prog.sr_arpcache_sweepreqs. speak. Qed.

Lemma packet_speaks packet len interface seen : speaks_w seen (Prog.sr_handlepacket packet len interface).
Proof.
  unfold Prog.sr_handlepacket, Prog.handle_ip_packet, Prog.handle_arp_packet, Prog.forward, Prog.send_known,
    Prog.send_icmp_response, Prog.handle_arp_answer, Prog.send_waiting, Prog.each_packet,
    ip_verdict, handle_local, handle_transit, arp_decide, icmp_response, known_frame, waiting_copy. speak.
Qed.
Hint Resolve packet_speaks : router.

Lemma vnspacket_speaks buf len seen : speaks_w seen (Prog.handle_vnspacket buf len).
Proof. unfold Prog.handle_vnspacket, sr_arp_req_not_for_us. speak. Qed.

Lemma hw_entry_mute hwinfo entry : obeys mute (hw_entry hwinfo entry).
Proof. unfold hw_entry, hw_switch. obey. Qed.
Hint Resolve hw_entry_mute : router.

Lemma hwinfo_speaks hwinfo seen : speaks_w seen (Prog.sr_handle_hwinfo hwinfo).
Proof. unfold Prog.sr_handle_hwinfo. speak. Qed.
End OS.

(** ** The other commands *)
Section Session.
Context {os : OS} {net : Net}.

(** What a store leaves of the buffer before it. *)
Lemma store_keeps b off bs b' n :
  store b off bs = Ok b' -> (n <= off)%nat -> take n b' = take n b /\ length b' = length b.
Proof.
  unfold store. destruct (Nat.leb_spec (off + length bs) (length b)) as [H|]; [|done]. intros [= <-] Hn. split.
  - rewrite take_app_le by (rewrite length_take; lia). by rewrite take_take, Nat.min_l by done.
  - rewrite !length_app, length_take, length_drop. lia.
Qed.

Lemma auth_reply_inv junk user digest msg len : auth_reply junk user digest = Ok (msg, len) -> reply_ok msg.
Proof.
  unfold auth_reply. intros E. destruct (strlen user) as [n|]; [|done]. cbn [bind] in E.
  set (L := (AuthReply.size + n + SHA1_LEN)%nat) in E. set (b := malloc junk L) in E.
  assert (Hb : length b = L) by apply malloc_length. clearbody b.
  assert (H12 : (12 <= L)%nat) by (unfold L; change AuthReply.size with 12%nat; lia). clearbody L.
  destruct (split_at b 4 ltac:(lia)) as (b1 & r1 & -> & H1). rewrite length_app in Hb.
  destruct (split_at r1 4 ltac:(lia)) as (b2 & b3 & -> & H2). rewrite length_app in Hb.
  unfold store32 in E. rewrite !le_bytes4_htonl in E.
  erewrite bind_step in E by (by apply (store_at [] b1)). cbn [app] in E.
  erewrite bind_step in E by (by apply (store_at (be_bytes4 (Z.of_nat L)) b2)).
  set (P := be_bytes4 (Z.of_nat L) ++ be_bytes4 VNS_AUTH_REPLY).
  rewrite app_assoc in E. fold P in E. assert (HP : length P = 8%nat) by done.
  assert (HL : length (P ++ b3) = L) by (rewrite length_app; lia).
  destruct (store (P ++ b3) _ _) as [c1|] eqn:E1; [|done]. cbn [bind] in E.
  destruct (cstring user) as [name|]; [|done]. cbn [bind] in E.
  destruct (store c1 _ _) as [c2|] eqn:E2; [|done]. cbn [bind] in E.
  destruct (store c2 _ _) as [c3|] eqn:E3; [|done]. cbn [bind] in E. injection E as <- _.
  apply (store_keeps _ _ _ _ 8) in E1 as [T1 L1]; [|change AuthReply.usernameLen with 8%nat; lia].
  apply (store_keeps _ _ _ _ 8) in E2 as [T2 L2]; [|change AuthReply.username with 12%nat; lia].
  apply (store_keeps _ _ _ _ 8) in E3 as [T3 L3]; [|change AuthReply.username with 12%nat; lia].
  exists (drop 8 c3). rewrite L3, L2, L1, HL. rewrite <- (take_drop 8 c3) at 1.
  rewrite T3, T2, T1, take_app_le by lia. rewrite take_ge by lia. unfold P. by rewrite <- app_assoc.
Qed.

Lemma auth_request_spoken user req w r w' :
  sr_handle_auth_request user req w = Ok (r, w') -> forall seen, spoken seen w w'.
Proof.
  unfold sr_handle_auth_request. rewrite sget_step. intros E seen.
  destruct net_auth_key as [fp|]; [|injection E as _ <-; by apply spoken_mute].
  destruct (fgets AUTH_KEY_LEN fp).1 as [|c line]; [injection E as _ <-; by apply spoken_mute|].
  do 5 (apply sbind_Ok_inv in E as (? & ? & ->%slift_inv & E)).
  apply sbind_Ok_inv in E as (ctx & w1 & ->%slift_inv & E).
  destruct (negb ctx.1); [injection E as _ <-; by apply spoken_mute|].
  apply sbind_Ok_inv in E as ([msg len] & w1 & E0 & E). unfold slift in E0.
  destruct (auth_reply _ _ _) as [m|] eqn:Em; [|done]. injection E0 as -> <-. apply auth_reply_inv in Em.
  apply sbind_Ok_inv in E as (ret & w1 & [= _ <-] & E).
  match type of E with (if ?b then _ else _) ?st = _ => assert (w' = st) as -> by (destruct b; by injection E as _ <-) end.
  exists [msg]. cbn [out fst]. rewrite sent_app. split; [done|]. apply Forall_singleton. by right.
Qed.

Lemma auth_status_spoken user status w r w' :
  sr_handle_auth_status user status w = Ok (r, w') -> w' = w.
Proof.
  unfold sr_handle_auth_status. intros E.
  do 2 (apply sbind_Ok_inv in E as (? & ? & ->%slift_inv & E)).
  destruct (_ =? 0); [|by injection E as _ <-].
  do 2 (apply sbind_Ok_inv in E as (? & ? & ->%slift_inv & E)). by injection E as _ <-.
Qed.

Lemma other_spoken buf len command s r s' :
  (command =? VNSPACKET) = false -> (command =? VNSHWINFO) = false ->
  dispatch buf len command s = Ok (r, s') -> forall seen, spoken seen (sr s) (sr s').
Proof.
  intros Hp Hh E seen. unfold dispatch in E. rewrite Hp, Hh in E.
  destruct (command =? VNSCLOSE); [|destruct (command =? VNSBANNER)].
  1,2: do 2 (apply sbind_Ok_inv in E as (? & ? & ->%slift_inv & E)); injection E as _ <-; by apply spoken_mute.
  destruct (command =? VNS_RTABLE).
  { apply sbind_Ok_inv in E as (ok & s2 & (E1 & E2)%rtable_keeps & [= _ <-]).
    apply spoken_mute. unfold mute. by rewrite E1. }
  destruct (command =? VNS_AUTH_REQUEST).
  { rewrite sget_step in E. apply sbind_Ok_inv in E as (ok & s2 & (w' & Ev & ->)%on_world_inv & [= _ <-]).
    by eapply auth_request_spoken. }
  destruct (command =? VNS_AUTH_STATUS).
  { rewrite sget_step in E. apply sbind_Ok_inv in E as (ok & s2 & (w' & Ev & ->)%on_world_inv & [= _ <-]).
    apply auth_status_spoken in Ev as ->. by apply spoken_mute. }
  injection E as _ <-. by apply spoken_mute.
Qed.

Abbreviation speaks_s := (speaks sr).

Lemma s_lift_speaks {X A} (m : res X) (k : X -> prog session A) seen :
  (forall x seen', speaks_s seen' (k x)) -> speaks_s seen (Act (slift m) k).
Proof. apply speaks_act. by intros s x s' ->%slift_inv. Qed.

Lemma dispatch_speaks buf len command seen : speaks_s seen (Prog.dispatch buf len command).
Proof.
  unfold Prog.dispatch. destruct (command =? VNSPACKET) eqn:Hp; [|destruct (command =? VNSHWINFO) eqn:Hh].
  - apply speaks_bind; [apply speaks_on_instance, vnspacket_speaks|done].
  - apply speaks_bind; [apply speaks_on_instance, hwinfo_speaks|]. intros _ seen'.
    apply speaks_act; [|intros bad ?; by destruct (negb _)].
    intros s x s' E. rewrite sget_step in E. by apply slift_inv in E as ->.
  - intros s x s' E. split; [by eapply other_spoken|done].
Qed.

Lemma main_turn_speaks c seen : speaks_s seen (Prog.main_turn c).
Proof.
  unfold Prog.main_turn. apply speaks_bind.
  - destruct c as [[buf len]|]; [|done]. unfold Prog.obey_command. apply s_lift_speaks. intros type seen'.
    apply s_lift_speaks. intros buf' seen''. apply dispatch_speaks.
  - intros ret seen'. destruct (ret =? 1); [done|].
    apply speaks_act; [|intros _ seen''; apply speaks_act; [by intros s x s' [= _ <-]|done]].
    intros s x s' E. unfold on_world in E. rewrite destroy_ok in E. injection E as _ <-.
    unfold mute, closed. by destruct (logfile (sr s)).
Qed.

Lemma cleanup_turn_speaks seen : speaks_s seen Prog.cleanup_turn.
Proof. unfold Prog.cleanup_turn. apply speaks_bind; [apply speaks_on_instance, timeout_speaks|done]. Qed.

(** ** Every configuration, whatever the server sends *)
Context (server : session -> option (list Z * Z) -> Prop).

Definition config_speaks (seen : list (list sr_if)) (c : config) : Prop :=
  forall t, speaks_s seen (c_prog c t).

Lemma config_speaks_resume seen seen' c t s lock p :
  seen ⊆ seen' -> config_speaks seen c -> speaks_s seen' p -> config_speaks seen' (resume c t s lock p).
Proof.
  intros H Hc Hp. destruct (resume_prog c t s lock p) as (E1 & E2 & _).
  unfold config_speaks. apply (thread_cases t); rewrite ?E1, ?E2; [done|]. eapply speaks_mono; [exact H|apply Hc].
Qed.

Lemma cstep_speaks seen c c' :
  config_speaks seen c -> cstep server c c' ->
  config_speaks (if_list (c_world c) :: seen) c'
  /\ spoken (if_list (c_world c) :: seen) (c_world c) (c_world c').
Proof.
  intros Hc Hs. assert (Hsub : seen ⊆ if_list (c_world c) :: seen) by set_solver.
  revert Hc Hsub. destruct Hs as [c c' t E|c fuel r s E Er Hf|c _ E]; intros Hc Hsub.
  - pose proof (Hc t) as Ht. unfold step in E. destruct (exited c); [done|].
    destruct (c_prog c t) as [u|X m k|k|k]; [done| | |]; cbn [speaks] in Ht.
    + destruct (m (c_state c)) as [[x s]|] eqn:Em; [|done]. cbn [bind fst snd] in E. injection E as <-.
      destruct (Ht _ _ _ Em) as [H1 H2]. destruct (resume_prog c t s (c_lock c) (k x)) as (_ & _ & Es & _).
      rewrite Es. split; [|exact H1]. by apply (config_speaks_resume seen).
    + destruct (acquire t (c_lock c)) as [lock|]; [|done]. injection E as <-.
      destruct (resume_prog c t (c_state c) lock k) as (_ & _ & -> & _).
      split; [|by apply spoken_mute]. apply (config_speaks_resume seen); [done..|]. by eapply speaks_mono.
    + injection E as <-. destruct (resume_prog c t (c_state c) (release t (c_lock c)) k) as (_ & _ & -> & _).
      split; [|by apply spoken_mute]. apply (config_speaks_resume seen); [done..|]. by eapply speaks_mono.
  - unfold obey. split; [apply (config_speaks_resume seen); [done..|apply main_turn_speaks]|].
    cbn. rewrite (sm_sr _ _ (read_command_same _ _ _ _ Er)). by apply spoken_mute.
  - split; [|by apply spoken_mute]. apply (config_speaks_resume seen); [done..|apply cleanup_turn_speaks].
Qed.

(** The interfaces at some moment of the run. *)
Definition seen_by (c c' : config) (ifs : list sr_if) : Prop :=
  exists m, rtc (cstep server) c m /\ rtc (cstep server) m c' /\ if_list (c_world m) = ifs.

Lemma csteps_speak c c' :
  rtc (cstep server) c c' -> forall seen, config_speaks seen c ->
  exists seen', (forall ifs, ifs ∈ seen' -> ifs ∈ seen \/ seen_by c c' ifs)
    /\ spoken seen' (c_world c) (c_world c').
Proof.
  induction 1 as [c|c1 c2 c3 H12 H23 IH]; intros seen Hc.
  { exists seen. split; [by left|by apply spoken_mute]. }
  destruct (cstep_speaks _ _ _ Hc H12) as [Hc2 Hsp]. destruct (IH _ Hc2) as (seen' & Hin & Hsp').
  exists (if_list (c_world c1) :: seen ++ seen'). split.
  - intros ifs. rewrite elem_of_cons, elem_of_app. intros [->|[Hi|Hi]]; [|by left|].
    + right. exists c1. split_and!; [done|by eapply rtc_l|done].
    + destruct (Hin _ Hi) as [Hi'|(m & R1 & R2 & E)]; [apply elem_of_cons in Hi' as [->|Hi']; [|by left]|].
      * right. exists c1. split_and!; [done|by eapply rtc_l|done].
      * right. exists m. split_and!; [by eapply rtc_l|done|done].
  - eapply spoken_trans; (eapply spoken_mono; [|eassumption]); set_solver.
Qed.
End Session.
