(* ===== verification/Program.v ===== *)
(** * Program: [main] with both its threads

    [main] is start-up (Main.v) and then, from [sr_init] on, the configuration of
    Threads.v in which the main thread is in its loop and the cleanup thread has
    been created.  The program is at an end when it exits before [sr_init], or
    when the configuration is [exited]: [main] has returned 0.

    Against a server that describes the interfaces, sends packets and closes the
    session, one run works through all of them and ends ([service_served]):
    the one in which the cleanup thread takes no turn.  The only thing that can
    end it earlier is the uninitialised pointer of the ICMP answers.  What holds
    of all other runs is in Running.v. *)

From S2P Require Import Prelude Memory Protocol Utils Iface Rt ArpCache Dump World ArpHandler Router RouterSpec Handlers Safety Vns VnsSpec Options Main SessionSafety MainSpec Threads Alone Interleave ThreadsOk CommandsOk Running.

(** ** The program *)
Inductive process :=
| Exited (status : Z) (s : session)   (** before [sr_init] *)
| Started (c : config).               (** both threads run *)

Definition main {os : OS} {net : Net} {hst : Host} (argv : list (list Z)) (s : session) : res process :=
  let! r := start_up argv s in
  match r with
  | (Some status, s') => Ok (Exited status s')
  | (None, s') => Ok (Started (sr_init s'))
  end.

(** ** A run that works through a stream *)

(** The main thread has closed the dump file and returned: the process is gone.
    Up to there the invariant held, with the routes [rs] and interfaces like
    [ifs]. *)
Definition finished (rs : list sr_rt) (ifs : list sr_if) (c : config) : Prop :=
  exited c = true /\ exists w q, c_world c = closed w /\ world_ok w q
    /\ Forall2 same_if ifs (if_list w) /\ routing_table w = rs.

Section Program.
Context {os : OS} {net : Net}.

(** From [c] on, against a well-behaved server: a run that ends like this, or
    dies at an ICMP answer. *)
Definition served (rs : list sr_rt) (ifs : list sr_if) (c : config) : Prop :=
  exists c', rtc (cstep read_fine) c c'
    /\ (finished rs ifs c' \/ (step Main c' = Some (Fault WildRead) /\ wild_host)).

Lemma served_after rs ifs c c' : rtc (cstep read_fine) c c' -> served rs ifs c' -> served rs ifs c.
Proof. intros H (c2 & H2 & H3). exists c2. split; [by etransitivity|done]. Qed.

Lemma steps_to_fault server n t : forall c f, steps n t c = Some (Fault f) ->
  exists c', rtc (cstep server) c c' /\ step t c' = Some (Fault f).
Proof.
  induction n as [|n IH]; intros c f; cbn [steps]; [done|].
  destruct (step t c) as [[c1|f1]|] eqn:E; [| |done].
  - intros (c' & H & H')%IH. exists c'. split; [|done]. eapply rtc_l; [by eapply cstep_act|done].
  - intros [= ->]. by exists c.
Qed.

Section Serial.
Context (Hhost : host_ok).

Lemma creachable_step c c' : creachable c -> rtc (cstep read_fine) c c' -> creachable c'.
Proof. intros (s & Hs & H) H'. exists s. split; [done|by etransitivity]. Qed.

(** The main thread has read a command and obeys it without being interrupted. *)
Section Command.
Context (s s1 : session) (fuel : nat) (r : option (list Z * Z)).
Context (Hc : creachable (cstart s)) (Hr : read_command fuel s = Ok (r, s1)) (Hf : read_fine s1 r).

Lemma command_read : rtc (cstep read_fine) (cstart s) (obey (cstart s) s1 r).
Proof using Hr Hf. by eapply rtc_once, cstep_command. Qed.

Lemma obeyed_as m : sr_read_from_server fuel s = m -> run (Prog.obey_command r) s1 = m.
Proof using Hr.
  unfold sr_read_from_server, sr_read_from_server_expect. rewrite (sbind_step _ _ _ _ _ Hr).
  by rewrite (run_obey r s1).
Qed.

(** The command ends the session. *)
Lemma last_command ret s2 :
  sr_read_from_server fuel s = Ok (ret, s2) -> ret <> 1 ->
  rtc (cstep read_fine) (cstart s) (resume (cstart s) Main (set_sr s2 (closed (sr s2))) None (Done false)).
Proof using Hhost Hc Hr Hf.
  intros E Hne. etransitivity; [apply command_read|].
  destruct (creachable_good Hhost _ (creachable_step _ _ Hc command_read)) as [g Hg].
  apply (run_alone Hhost Main s s1 _ false _ g); [exact Hg|].
  unfold Prog.main_turn. rewrite (run_bind _ _ s1). unfold sbind at 1. rewrite (obeyed_as _ E).
  rewrite (proj2 (Z.eqb_neq ret 1) Hne). cbn [run].
  by rewrite (sbind_step _ _ _ _ _ (on_world_ok _ s2 _ _ (destroy_ok (sr s2)))).
Qed.

(** The command kills the process. *)
Lemma fatal_command f :
  sr_read_from_server fuel s = Fault f ->
  exists c, rtc (cstep read_fine) (cstart s) c /\ step Main c = Some (Fault f).
Proof using Hr Hf.
  intros E. set (c := obey (cstart s) s1 r).
  assert (Ha : alive Main c) by done.
  pose proof (run_steps Main (Prog.main_turn r) c eq_refl Ha I eq_refl) as H.
  assert (Er : run (Prog.main_turn r) (c_state c) = Fault f).
  { unfold Prog.main_turn. rewrite (run_bind _ _ s1). unfold sbind at 1. by rewrite (obeyed_as _ E). }
  rewrite Er in H. destruct H as (n & (c' & H & H')%(steps_to_fault read_fine)).
  exists c'. split; [|done]. etransitivity; [apply command_read|exact H].
Qed.
End Command.

(** Packets, and the end of the session. *)
Lemma stream_served w0 i : packet_stream w0 i -> forall s q,
  creachable (cstart s) -> input s = i -> if_list (sr s) = if_list w0 -> world_ok (sr s) q ->
  forall ifs, Forall2 same_if ifs (if_list (sr s)) -> served (routing_table (sr s)) ifs (cstart s).
Proof using Hhost.
  induction 1 as [i text msg rest Hd Hl Hb Ht|i nm frame rest Hd Hnm Hnb Hfr Hmax _ IH];
    intros s q Hc Ei Ew Hw ifs Hifs; subst i; set (n := S (length (input s))).
  - assert (Hr : read_fine (set_input s rest) (Some (command_bytes VNSCLOSE text, 8 + Z.of_nat (length text)))).
    { exists VNSCLOSE, text. split_and!; [done|done|]. constructor; try done; [lia|]. intros _. by eexists. }
    eexists. split.
    + apply (last_command s (set_input s rest) n _ Hc (read_command_ok n s VNSCLOSE text rest ltac:(lia) Hd ltac:(lia))
        Hr 0 (set_input s rest)); [|done]. apply (close_ok n s text msg rest); [done|done|done|lia].
    + left. split; [done|]. by exists (sr s), q.
  - assert (Hlen : Z.of_nat (length (nm ++ frame)) <= 9992) by (rewrite length_app; lia).
    pose proof (frame_ok_ifs _ _ _ _ Ew Hfr) as Hfr1.
    assert (Hr : read_fine (set_input s rest)
      (Some (command_bytes VNSPACKET (nm ++ frame), 8 + Z.of_nat (length (nm ++ frame))))).
    { exists VNSPACKET, (nm ++ frame). split_and!; [done|done|].
      constructor; try (by intros [?|?] || done).
      - apply bytes_ok_app. split; [done|apply (fok_bytes _ _ _ Hfr)].
      - intros _. by exists nm, frame. }
    pose proof (read_command_ok n s VNSPACKET (nm ++ frame) rest Hlen Hd ltac:(lia)) as Er.
    destruct (server_packet_ok n s q nm frame rest Hw Hnm Hfr1 Hmax Hd ltac:(lia))
      as [(w' & q1 & E & Hw' & Ei & Ert)|[E Hwild]].
    + assert (Hs : rtc (cstep read_fine) (cstart s) (cstart (set_sr (set_input s rest) w'))).
      { by apply serial_cstep; [|done|eapply serial_command]. }
      eapply served_after; [exact Hs|]. rewrite <- Ert.
      apply (IH (set_sr (set_input s rest) w') q1); [by eapply creachable_step|done|by cbn; rewrite Ei|done|by cbn; rewrite Ei].
    + destruct (fatal_command s _ n _ Er Hr WildRead E) as (c & H & H'). exists c. split; [done|by right].
Qed.

(** The description of the interfaces comes first. *)
Lemma service_served s w ifs rs :
  booted s -> if_list (sr s) = [] -> logfile (sr s) <> DumpClosed -> routing_table (sr s) = rs -> rs <> [] ->
  service w (input s) ifs -> Forall (route_if_ok ifs) rs -> served rs ifs (cstart s).
Proof using Hhost.
  intros Hb Hi0 Hlog <- Hr0 [Hd Hne Hmax Hbytes (i' & Hdel & Hps)] Hri. set (n := S (length (input s))).
  assert (Hc : creachable (cstart s)) by by exists s.
  destruct (hwinfo_step n s ifs i' Hd Hne Hmax Hi0 Hdel ltac:(lia) Hr0 (bt_names _ Hb) Hri) as (w1 & E & Hsame & O).
  assert (Hlen : Z.of_nat (length (entries_bytes (describe ifs))) <= 9992).
  { destruct (describe_ok ifs Hd) as [Hes HL].
    rewrite length_entries_bytes by (eapply Forall_impl; [exact Hes|]; naive_solver). lia. }
  assert (Hstart : router_start w1).
  { constructor; rewrite ?(io_routes _ _ O), ?(io_cache _ _ O); [|apply (bt_names _ Hb)| |apply (bt_cache _ Hb)].
    { constructor; [by eapply same_if_ok|by rewrite (io_log _ _ O)]. }
    eapply Forall_impl; [exact Hri|]. intros r. by apply route_if_same. }
  assert (Hs : rtc (cstep read_fine) (cstart s) (cstart (set_sr (set_input s i') w1))).
  { apply serial_cstep; [done|done|].
    eapply serial_command; [exact (read_command_ok n s _ _ i' Hlen Hdel ltac:(lia))| |exact E].
    exists VNSHWINFO, (entries_bytes (describe ifs)). split_and!; [done|done|].
    constructor; try (by intros [?|?] || done). intros _. by exists ifs. }
  eapply served_after; [exact Hs|]. rewrite <- (io_routes _ _ O).
  apply (stream_served w1 i' (packet_stream_same (set_ifs w ifs) w1 i' Hsame Hps) (set_sr (set_input s i') w1) []);
    [by eapply creachable_step|done|done|by apply start_ok|done].
Qed.
End Serial.

(** ** From start-up on *)

(** What the sources of randomness and the key file deliver are bytes. *)
Lemma exchange_host port server usr i name salt fp i1 ok msg i2 :
  auth_exchange port server usr i name salt fp i1 ok msg i2 -> host_ok.
Proof.
  intros Ha. constructor; [apply (ax_malloc _ _ _ _ _ _ _ _ _ _ _ Ha)|].
  rewrite (ax_key _ _ _ _ _ _ _ _ _ _ _ Ha). intros fp' [= <-]. apply (ax_fp _ _ _ _ _ _ _ _ _ _ _ Ha).
Qed.

Context {hst : Host}.

Lemma started_booted o rs ifs text i s :
  options_ok o -> table_ok text rs ifs -> started o rs i s ->
  let s' := set_sr s (set_cache (sr s) sr_arpcache_init) in
  booted s' /\ rs <> [].
Proof.
  intros Ho [(row & rows & -> & Hrow & Hrs) Hst H4 Hri] [Hi Hr Hlog Hin Hu] s'.
  destruct (expected_routes_names _ _ _ _ Hrow Hrs) as [Hnames Hlen]. split; [|by intros ->].
  constructor; cbn; rewrite ?Hi; try done.
  - rewrite Hr. eapply Forall_impl; [exact Hnames|]. by intros r [? _].
  - by left.
  - rewrite Hu. eexists. apply (cstring_field 32 _ (oo_login _ Ho) (oo_fits _ Ho)).
Qed.

(** Both threads are there; one run works through the service; no run faults in
    any other way than the known ones. *)
Definition serves (rs : list sr_rt) (ifs : list sr_if) (m : res process) : Prop :=
  exists s, m = Ok (Started (cstart s)) /\ booted s /\ served rs ifs (cstart s)
    /\ forall c t f, rtc (cstep read_fine) (cstart s) c -> step t c = Some (Fault f) ->
         f = UseAfterFree \/ (f = WildRead /\ wild_host).

Lemma started_serves o argv s s' text rs ifs w i :
  host_ok -> start_up argv s = Ok (None, s') -> options_ok o -> table_ok text rs ifs -> started o rs i s' ->
  service w i ifs -> serves rs ifs (main argv s).
Proof.
  intros Hhost E Ho Ht Hs Hsv. destruct (started_booted o rs ifs text i s' Ho Ht Hs) as [Hb Hne].
  exists (set_sr s' (set_cache (sr s') sr_arpcache_init)). split_and!; [unfold main; by rewrite E|done| |].
  - destruct Hs as [Hi Hr Hlog <- _]. by apply (service_served Hhost _ w); [| | | | | |apply (tb_routes _ _ _ Ht)].
  - intros c t f Hc Ef. destruct (creachable_good Hhost c) as (g & dumps & Hg & _); [by eexists|].
    pose proof (step_good _ _ c g t Hg) as H. rewrite Ef in H. destruct H; [by left|by right].
Qed.
End Program.
