(* ===== verification/Fixture.v ===== *)
(** * Fixture: a small router for concrete instances

    Two interfaces, one route, a host behind each, and frames they send.  The
    witnesses of the theorems are stated about it. *)

From S2P Require Import Prelude Memory Protocol Utils Iface Rt ArpCache Dump World ArpHandler Router RouterSpec Handlers Safety Sha1 Vns VnsSpec Options Main.

(** A clock that stands still, a [write] and a [send] that take everything, and
    clean heap blocks. *)
#[export] Instance demo_os : OS := {
  os_time := fun _ => 1000;
  os_write := fun _ n => n;
  os_malloc := fun _ => [];
  os_timeofday := fun _ => (1000, 0);
  os_wild_read := fun _ => true }.

(** "auth_key": 64 times the letter k *)
#[export] Instance demo_net : Net := {
  net_send := fun _ n => n;
  net_resolves := fun _ => true;
  net_socket := true;
  net_connects := fun _ _ => true;
  net_auth_key := Some (replicate 64 107);
  net_fopen_w := fun _ => true }.

Definition name_bytes (s : list Z) : list Z := s ++ replicate (32 - length s) 0.
Definition eth1_name : list Z := [101; 116; 104; 49].
Definition eth2_name : list Z := [101; 116; 104; 50].
Definition ip4 (a b c d : Z) : Z := le_word [a; b; c; d].

Definition eth1 : sr_if := SrIf (name_bytes eth1_name) [2; 0; 0; 0; 1; 1] (ip4 10 0 1 1) 0.
Definition eth2 : sr_if := SrIf (name_bytes eth2_name) [2; 0; 0; 0; 2; 1] (ip4 10 0 2 1) 0.
Definition demo_ifs : list sr_if := [eth1; eth2].
Definition route2 : sr_rt :=
  SrRt (ip4 10 0 2 0) (ip4 10 0 2 2) (ip4 255 255 255 0) (name_bytes eth2_name).

Definition demo_world : world := World demo_ifs [route2] sr_arpcache_init NoDump 0 [].

(** A frame from the host 10.0.1.100 behind eth1. *)
Definition host_mac : list Z := [2; 0; 0; 0; 1; 100].
Definition demo_eth (type : Z) : eth_hdr := EthHdr [2; 0; 0; 0; 1; 1] host_mac type.
Definition demo_ip (p dst ttl : Z) : ip_hdr :=
  seal_ip (IpHdr 4 5 0 28 1 0 ttl p 0 (ip4 10 0 1 100) dst).
Definition demo_payload : list Z := [8; 0; 247; 255; 0; 0; 0; 0].
Definition demo_frame (p dst ttl : Z) : list Z :=
  encode_eth (demo_eth ethertype_ip) ++ encode_ip (demo_ip p dst ttl) ++ demo_payload.

(** An ARP request of the host for eth1's address, and the answer of the next
    hop behind eth2. *)
Definition demo_arp (op : Z) (sha : list Z) (sip tip : Z) : arp_hdr :=
  ArpHdr 1 2048 6 4 op sha sip (replicate 6 0) tip.
Definition hop_mac : list Z := [2; 0; 0; 0; 2; 2].

(** A packet that waits for 10.0.2.2. *)
Definition demo_packet : sr_packet :=
  SrPacket (demo_frame 17 (ip4 10 0 2 2) 64) 42 (name_bytes eth2_name).

(** A dotted quad of single digits: enough for the instances. *)
Definition demo_aton (s : list Z) : option Z :=
  match s with
  | [a; 46; b; 46; c; 46; d] => Some (ip4 (a - 48) (b - 48) (c - 48) (d - 48))
  | _ => None
  end.
Definition quad (a b c d : Z) : list Z := [48 + a; 46; 48 + b; 46; 48 + c; 46; 48 + d].
Definition demo_row : row := Row (quad 1 2 3 0) (quad 1 2 3 4) (quad 0 0 0 0) eth1_name.

(** The host: every file holds that one route. *)
#[export] Instance demo_host : Host := {
  host_files := fun _ => Some (render [Some demo_row]);
  host_aton := demo_aton;
  host_stack := replicate 4 (replicate 32 9);
  host_login := Some [120] }.

(** ** It satisfies the invariant *)
Lemma bytes_dec l : forallb (fun b => (0 <=? b) && (b <? 256)) l = true -> bytes_ok l.
Proof.
  intros H. rewrite Forall_forall. intros b Hb%list_elem_of_In.
  apply forallb_forall with (x := b) in H; [|done]. unfold byte_ok.
  apply andb_true_iff in H as [H1%Z.leb_le H2%Z.ltb_lt]. done.
Qed.

Lemma eth1_ok : sr_if_ok eth1.
Proof. constructor; [done|done|by apply bytes_dec|by vm_compute]. Defined.
Lemma eth2_ok : sr_if_ok eth2.
Proof. constructor; [done|done|by apply bytes_dec|by vm_compute]. Defined.
Lemma demo_ifs_ok : ifs_ok demo_ifs.
Proof. unfold demo_ifs. rewrite !Forall_cons. split_and!; [apply eth1_ok|apply eth2_ok|done]. Defined.

Lemma demo_can_send : can_send demo_world.
Proof. constructor; [apply demo_ifs_ok|done]. Defined.

Lemma demo_start : router_start demo_world.
Proof.
  constructor; [apply demo_can_send| | |done].
  - by apply Forall_singleton.
  - apply Forall_singleton. by exists eth2_name, eth2.
Defined.

Lemma demo_ok : world_ok demo_world [].
Proof. apply start_ok, demo_start. Defined.

Lemma demo_ip_ok p dst ttl : byte_ok p -> u32_ok dst -> byte_ok ttl -> ip_hdr_ok (demo_ip p dst ttl).
Proof.
  intros Hp Hd Ht. apply seal_ip_ok. constructor; cbn; try done; unfold byte_ok, u16_ok; lia.
Defined.

Lemma demo_arp_ok op sha sip tip :
  u16_ok op -> length sha = 6%nat -> u32_ok sip -> u32_ok tip -> arp_hdr_ok (demo_arp op sha sip tip).
Proof. intros. constructor; cbn; try done; unfold u16_ok, byte_ok; lia. Defined.

(** ** Rows of the table file *)
Lemma word_dec w :
  (0 <? length w)%nat && (length w <? 32)%nat
  && forallb (fun c => negb (c =? 0) && negb (isspace c)) w = true -> Rt.word_ok w.
Proof.
  rewrite !andb_true_iff. intros [[H1%Nat.ltb_lt H2%Nat.ltb_lt] H3]. split_and!; [|done|].
  - intros ->. simpl in H1. lia.
  - apply Forall_forall. intros c Hc%list_elem_of_In. apply forallb_forall with (x := c) in H3; [|done].
    apply andb_true_iff in H3 as [Ha%negb_true_iff%Z.eqb_neq Hb%negb_true_iff]. done.
Qed.

Lemma demo_row_ok : row_ok demo_row.
Proof. unfold row_ok, row_words. rewrite !Forall_cons. split_and!; by try apply word_dec. Defined.
