(* ===== verification/CoreTheorems.v ===== *)
(** * CoreTheorems: the tables, the checksum and the packet formats

    The main theorems about the components below the handlers, each with an
    instance on concrete data: longest prefix match, the ARP cache and request
    queue, the checksum, the packets sr_arpcache.c builds, the routing table
    file, the interface list. *)

From S2P Require Import Prelude Memory Protocol Utils Iface Rt ArpCache Dump World ArpHandler Router RouterSpec Handlers Safety Sha1 Vns VnsSpec Main MainSpec Fixture.

(** ** Data for the instances *)
Definition slash24 : sr_rt := route2.
Definition slash16 : sr_rt := SrRt (ip4 10 0 0 0) (ip4 10 0 1 254) (ip4 255 255 0 0) (name_bytes eth1_name).
Definition default_route : sr_rt := SrRt 0 (ip4 10 0 1 254) 0 (name_bytes eth1_name).

Definition pending : queue := [(1%positive, Areq (ip4 10 0 2 2) 999 1 [demo_packet])].
(** The cache after one packet was queued. *)
Definition cache_pending : sr_arpcache :=
  SrArpcache (entries sr_arpcache_init) (Some 1%positive)
    {[ 1%positive := node (Areq (ip4 10 0 2 2) 999 1 [demo_packet]) None ]} 2%positive.

Lemma cache_pending_rep : cache_rep cache_pending pending [].
Proof.
  constructor.
  - split; [done|]. by exists None.
  - done.
  - by apply NoDup_singleton.
  - intros l. change (pending.*1 ++ ([] : queue).*1) with [1%positive]. cbn [heap cache_pending].
    rewrite list_elem_of_singleton. split; [|intros ->; by eexists].
    intros [r Hr]. by apply lookup_singleton_Some in Hr as [-> _].
  - apply Forall_singleton. done.
  - done.
Defined.

(** ** Routing *)

(** C17: [sr_longest_prefix_match], on a table whose masks are prefix masks,
    returns the first of the routes with the longest matching prefix; it
    returns nothing exactly when no route with a prefix longer than 0 matches:
    a default route, with mask 0, is never taken. *)
Theorem longest_prefix_match_correct rt dest :
  u32_ok dest -> Forall route_ok rt ->
  match sr_longest_prefix_match rt dest with
  | Some r => exists pre post p, rt = pre ++ r :: post /\ route_prefix r p /\ 0 < p /\ in_prefix dest r p
       /\ (forall r' p', r' ∈ rt -> route_prefix r' p' -> in_prefix dest r' p' -> p' <= p)
       /\ (forall r' p', r' ∈ pre -> route_prefix r' p' -> in_prefix dest r' p' -> p' < p)
  | None => forall r p, r ∈ rt -> route_prefix r p -> in_prefix dest r p -> p = 0
  end.
Proof.
  intros Hd Hok. rewrite Forall_forall in Hok. unfold sr_longest_prefix_match.
  assert (Hmatch : forall r p, r ∈ rt -> route_prefix r p -> in_prefix dest r p -> matches dest r).
  { intros r p Hin Hp Hi. destruct (Hok _ Hin) as [Hr _]. by apply (match_in_prefix dest r p Hd Hr Hp). }
  destruct (lpm_loop_spec dest rt None 0) as [[-> Hle]|(pre & r & post & Hrt & -> & Hm & Hlt & Hpre & Hpost)].
  - intros r p Hin Hp Hi. specialize (Hle r Hin (Hmatch r p Hin Hp Hi)). destruct Hp as [Hp Em].
    destruct (Z.eq_dec p 0); [done|]. exfalso. rewrite Em, <- mask_of_len_0 in Hle.
    pose proof (mask_of_len_mono 0 p); lia.
  - assert (Hin : r ∈ rt) by (rewrite Hrt; apply elem_of_app; right; by left).
    destruct (Hok _ Hin) as [Hr [p [Hp Em]]]. exists pre, post, p.
    assert (Hcmp : forall r' p', route_prefix r' p' -> rt_mask r' < rt_mask r <-> p' < p).
    { intros r' p' [Hp' ->]. rewrite Em. by apply mask_of_len_lt. }
    split_and!; [done|done| |by apply (match_in_prefix dest r p Hd Hr (conj Hp Em))| |].
    + rewrite Em, <- mask_of_len_0 in Hlt. apply (mask_of_len_lt 0 p); [lia|lia|exact Hlt].
    + intros r' p' Hin' Hp' Hi'. pose proof (Hmatch _ _ Hin' Hp' Hi') as Hm'.
      rewrite Hrt in Hin'. apply elem_of_app in Hin' as [H|[->|H]%elem_of_cons].
      * specialize (Hpre _ H Hm'). apply (Hcmp _ _ Hp') in Hpre. lia.
      * destruct Hp' as [Hp' Em']. rewrite Em in Em'.
        destruct (Z.lt_trichotomy p p') as [Hc|[->|Hc]]; [|lia|lia].
        pose proof (mask_of_len_mono p p'); lia.
      * specialize (Hpost _ H Hm'). destruct (Z_lt_le_dec p p') as [Hc|]; [|done].
        destruct Hp' as [Hp' Em']. rewrite Em, Em' in Hpost. pose proof (mask_of_len_mono p p'); lia.
    + intros r' p' Hin' Hp' Hi'. apply (Hcmp _ _ Hp'), Hpre; [done|].
      apply (Hmatch _ p'); [|done|done]. rewrite Hrt. apply elem_of_app. by left.
Qed.

Lemma longest_prefix_match_correct_witness :
  match sr_longest_prefix_match [slash16; slash24; default_route] (ip4 10 0 2 7) with
  | Some r => exists pre post p, [slash16; slash24; default_route] = pre ++ r :: post /\ route_prefix r p
       /\ 0 < p /\ in_prefix (ip4 10 0 2 7) r p
       /\ (forall r' p', r' ∈ [slash16; slash24; default_route] -> route_prefix r' p' ->
             in_prefix (ip4 10 0 2 7) r' p' -> p' <= p)
       /\ (forall r' p', r' ∈ pre -> route_prefix r' p' -> in_prefix (ip4 10 0 2 7) r' p' -> p' < p)
  | None => forall r p, r ∈ [slash16; slash24; default_route] -> route_prefix r p ->
             in_prefix (ip4 10 0 2 7) r p -> p = 0
  end.
Proof.
  apply (longest_prefix_match_correct [slash16; slash24; default_route] (ip4 10 0 2 7)).
  - by vm_compute.
  - rewrite !Forall_cons. split_and!; [| | |done].
    + split; [by vm_compute|]. exists 16. by vm_compute.
    + split; [by vm_compute|]. exists 24. by vm_compute.
    + split; [by vm_compute|]. exists 0. by vm_compute.
Defined.

(** ** The request queue and the ARP table *)

(** C18: [sr_arpcache_queuereq], on a queue held in the heap, adds the packet to
    the request for its address, or to a new request at the head; every other
    request keeps its place and there is still one request per address. *)
Theorem queuereq_correct c q ip packet iface nm :
  cache_rep c q [] -> queue_ok q -> packet <> [] -> strncpy sr_IFACE_NAMELEN iface = Ok nm ->
  let r := spec_queuereq (brk c) ip (SrPacket packet (Z.of_nat (length packet)) nm) q in
  exists c', sr_arpcache_queuereq ip (Some packet) (Z.of_nat (length packet)) (Some iface) c = Ok (r.1, c')
    /\ cache_rep c' r.2 [] /\ entries c' = entries c /\ queue_ok r.2.
Proof.
  intros Hc Hq Hp Hnm r. assert (Hl : (0 < length packet)%nat) by (destruct packet; [done|simpl; lia]).
  destruct (queuereq_refines c q [] ip packet (Z.of_nat (length packet)) iface nm Hc ltac:(lia) ltac:(lia) Hnm)
    as (c' & E & Hr & He & _). rewrite Nat2Z.id, firstn_all in E, Hr.
  exists c'. split_and!; [done|done|done|]. by apply spec_queuereq_ok.
Qed.

Lemma queuereq_correct_witness :
  let r := spec_queuereq 2%positive (ip4 10 0 2 2) (SrPacket [1; 2; 3] 3 (name_bytes eth2_name)) pending in
  r.1 = 1%positive /\
  exists c', sr_arpcache_queuereq (ip4 10 0 2 2) (Some [1; 2; 3]) 3 (Some (name_bytes eth2_name)) cache_pending
             = Ok (r.1, c')
    /\ cache_rep c' r.2 [] /\ entries c' = entries cache_pending /\ queue_ok r.2.
Proof.
  split; [done|].
  apply (queuereq_correct cache_pending pending (ip4 10 0 2 2) [1; 2; 3] (name_bytes eth2_name));
    [apply cache_pending_rep| |done|done].
  constructor; [by apply NoDup_singleton|by apply Forall_singleton].
Defined.

(** C19: [sr_arpcache_insert] fills the first free slot of the table, or drops
    the mapping when there is none, and unlinks the request for the address, if
    any, without freeing it.  A lookup then finds the new mapping, unless a valid
    entry for that address sits in a later slot: it finds the last of those,
    however old. *)
Theorem insert_correct c q now mac ip :
  cache_rep c q [] -> length mac = 6%nat ->
  exists c', sr_arpcache_insert now mac ip c = Ok (fst <$> q_find ip q, c')
    /\ entries c' = spec_entries now mac ip (entries c)
    /\ match q_find ip q with
       | Some (l, a) => cache_rep c' (q_remove l q) [(l, a)]
       | None => cache_rep c' q []
       end
    /\ ((free_slot (entries c) < SR_ARPCACHE_SZ)%nat ->
        sr_arpcache_lookup c' ip
        = match List.find (hits ip) (rev (drop (S (free_slot (entries c))) (entries c))) with
          | Some e => Some e
          | None => Some (SrArpentry mac ip now true)
          end).
Proof.
  intros Hc Hm. destruct (insert_refines c q [] now mac ip Hc Hm) as (c' & E & He & Hrep).
  exists c'. split_and!; [done|done|done|]. intros Hf. unfold sr_arpcache_lookup.
  by rewrite He, lookup_after_insert, lookup_loop_rev by (done || apply (rep_size _ _ _ Hc)).
Qed.

Lemma insert_correct_witness :
  exists c', sr_arpcache_insert 1000 hop_mac (ip4 10 0 2 2) cache_pending = Ok (Some 1%positive, c')
    /\ entries c' = spec_entries 1000 hop_mac (ip4 10 0 2 2) (entries cache_pending)
    /\ cache_rep c' [] [(1%positive, Areq (ip4 10 0 2 2) 999 1 [demo_packet])]
    /\ ((free_slot (entries cache_pending) < SR_ARPCACHE_SZ)%nat ->
        sr_arpcache_lookup c' (ip4 10 0 2 2) = Some (SrArpentry hop_mac (ip4 10 0 2 2) 1000 true)).
Proof. apply (insert_correct cache_pending pending 1000 hop_mac (ip4 10 0 2 2)); [apply cache_pending_rep|done]. Defined.

(** [sr_arpreq_destroy] frees a request and unlinks it if it is still on
    the queue; one that was unlinked before is only freed. *)
Theorem destroy_correct c q d l a :
  (cache_rep c q d -> (l, a) ∈ q ->
     exists c', sr_arpreq_destroy (Some l) c = Ok (tt, c') /\ cache_rep c' (q_remove l q) d
       /\ entries c' = entries c)
  /\ (cache_rep c q ((l, a) :: d) ->
     exists c', sr_arpreq_destroy (Some l) c = Ok (tt, c') /\ cache_rep c' q d
       /\ entries c' = entries c).
Proof.
  split; [intros H Hin; by apply destroy_queued; [|eapply in_queue_fst]|].
  apply destroy_detached.
Qed.

Lemma destroy_correct_witness :
  exists c', sr_arpreq_destroy (Some 1%positive) cache_pending = Ok (tt, c')
    /\ cache_rep c' (q_remove 1%positive pending) [] /\ entries c' = entries cache_pending.
Proof.
  apply (destroy_correct cache_pending pending [] 1%positive (Areq (ip4 10 0 2 2) 999 1 [demo_packet])).
  - apply cache_pending_rep.
  - by left.
Defined.

(** C20: after the cleanup thread looked at the table, a lookup finds only
    mappings at most 15 seconds old, and it finds one whenever the table had a
    mapping for that address that was. *)
Theorem expiry_correct now c ip :
  exists c', expire_entries now c = Ok (tt, c') /\ requests c' = requests c /\ heap c' = heap c
    /\ (forall e, sr_arpcache_lookup c' ip = Some e ->
          e ∈ entries c /\ hits ip e = true /\ now - ae_added e <= SR_ARPCACHE_TO)
    /\ (forall e, e ∈ entries c -> hits ip e = true -> now - ae_added e <= SR_ARPCACHE_TO ->
          is_Some (sr_arpcache_lookup c' ip)).
Proof.
  eexists. split; [done|]. split; [done|]. split; [done|]. set (c' := set_entries _ _). split.
  - intros e He. apply lookup_In in He as [Hin Hh]. cbn [entries c' set_entries] in Hin.
    apply list_elem_of_In, in_map_iff in Hin as (e0 & E & Hin).
    revert E. unfold expire_entry. destruct (ae_valid e0) eqn:Ev; cbn [andb].
    + destruct (Z.ltb_spec SR_ARPCACHE_TO (now - ae_added e0)); intros <-.
      * unfold hits in Hh. discriminate.
      * split_and!; [by apply list_elem_of_In|done|lia].
    + intros <-. unfold hits in Hh. by rewrite Ev in Hh.
  - intros e Hin Hh Hold. unfold sr_arpcache_lookup. rewrite lookup_loop_rev.
    assert (Hin' : e ∈ entries c').
    { cbn [entries c' set_entries]. apply list_elem_of_In, in_map_iff. exists e.
      split; [|by apply list_elem_of_In]. unfold expire_entry.
      by rewrite (proj2 (Z.ltb_ge SR_ARPCACHE_TO _)), andb_false_r by done. }
    destruct (List.find (hits ip) (rev (entries c'))) eqn:Ef; [by eexists|].
    apply list_elem_of_In, in_rev in Hin'. by rewrite (List.find_none _ _ Ef e Hin') in Hh.
Qed.

Lemma expiry_correct_witness :
  let e := SrArpentry hop_mac (ip4 10 0 2 2) 990 true in
  let c := set_entries sr_arpcache_init (e :: replicate 99 (SrArpentry (replicate 6 0) 0 0 false)) in
  exists c', expire_entries 1000 c = Ok (tt, c') /\ is_Some (sr_arpcache_lookup c' (ip4 10 0 2 2)).
Proof.
  intros e c. destruct (expiry_correct 1000 c (ip4 10 0 2 2)) as (c' & E & _ & _ & _ & H).
  exists c'. split; [exact E|]. apply (H e); [by left|done|by vm_compute].
Defined.

(** ** The checksum *)

(** C25: [cksum] returns, in network byte order, the Internet checksum (RFC
    1071) of the bytes it is given, with one exception: where that is 0, it
    returns 0xffff.  For any length up to 131074 bytes; the two loops do not
    overflow 32 bits and end. *)
Theorem checksum_correct data (n : nat) :
  bytes_ok data -> (n <= length data)%nat -> Z.of_nat n <= cksum_max_len ->
  let c := rfc1071 (take n data) in
  cksum data (Z.of_nat n) = Ok (htons (if c =? 0 then 65535 else c)).
Proof.
  intros Hb Hn Hmax c. rewrite (cksum_ok data n Hb Hn Hmax). do 2 f_equal.
  apply checksum_be_rfc1071. by apply Forall_take.
Qed.

Lemma checksum_correct_witness :
  (rfc1071 [69; 0; 0; 28; 1; 2; 3] = 46817
   /\ cksum [69; 0; 0; 28; 1; 2; 3] (Z.of_nat 7) = Ok (htons 46817))
  /\ rfc1071 [255; 255] = 0 /\ cksum [255; 255] (Z.of_nat 2) = Ok (htons 65535).
Proof.
  split; split; [by vm_compute| |by vm_compute|].
  - apply (checksum_correct [69; 0; 0; 28; 1; 2; 3] 7); [by apply bytes_dec|done|by vm_compute].
  - apply (checksum_correct [255; 255] 2); [by apply bytes_dec|done|by vm_compute].
Defined.

(** A check against the recomputed checksum. *)
Lemma checksum_check pre post v :
  Nat.Even (length pre) -> bytes_ok pre -> bytes_ok post -> u16_ok v ->
  Z.of_nat (length pre + 2 + length post) <= cksum_max_len ->
  cksum (pre ++ [0; 0] ++ post) (Z.of_nat (length pre + 2 + length post)) = Ok (htons v)
  <-> ones_sum (pre ++ be_bytes2 v ++ post) = 65535 /\ v <> 0.
Proof.
  intros He Hp Hq Hv Hmax. set (z := pre ++ [0; 0] ++ post).
  assert (Hz : bytes_ok z).
  { unfold z. rewrite !bytes_ok_app. split_and!; try done. by apply bytes_dec. }
  assert (Hl : length z = (length pre + 2 + length post)%nat) by (unfold z; rewrite !length_app; simpl; lia).
  rewrite (cksum_ok z _ Hz), <- Hl, firstn_all by lia.
  pose proof (checksum_be_range z Hz) as Hr. pose proof (word_sum_range z Hz) as Hw.
  assert (Es : word_sum (pre ++ be_bytes2 v ++ post) = v + word_sum z).
  { unfold z. change [0; 0] with (be_bytes2 0).
    rewrite !word_sum_hole by (done || unfold u16_ok; lia). lia. }
  unfold ones_sum. rewrite Es, <- (ones_fold_complete (word_sum z) v ltac:(lia)) by (unfold u16_ok in *; lia).
  change (v = _) with (v = checksum_be z). split; [|by intros ->].
  intros [= E]. pose proof (f_equal htons E) as E'. rewrite !htons_involutive in E'.
  unfold u16 in E'. rewrite !Z.mod_small in E' by (unfold u16_ok in *; lia). done.
Qed.

(** A header completed with its checksum. *)
Lemma completed_header h :
  ip_hdr_ok h ->
  ones_sum (encode_ip (seal_ip h)) = 65535 /\ ip_sum_ok (seal_ip h) = true
  /\ set_sum (seal_ip h) 0 = set_sum h 0.
Proof.
  intros Hh. split; [|split; [apply Z.eqb_refl|done]].
  set (pre := take 10 (encode_ip h)). set (post := drop 12 (encode_ip h)).
  assert (E0 : encode_ip (set_sum h 0) = pre ++ [0; 0] ++ post) by done.
  assert (E : encode_ip (seal_ip h) = pre ++ be_bytes2 (checksum_be (pre ++ [0; 0] ++ post)) ++ post).
  { unfold seal_ip. rewrite E0, <- le_bytes2_htons. done. }
  rewrite E. apply checksum_verifies; [by exists 5%nat| |];
    [apply Forall_take|apply Forall_drop]; by apply bytes_ok_encode_ip.
Qed.

(** C26: what the checksum field does.  A check against the recomputed checksum
    accepts a block exactly when its one's-complement sum is all ones and the
    field is not 0; a header the router completes sums to all ones, so every
    receiver accepts it, the router itself included, and only the checksum was
    changed. *)
Theorem checksum_field_correct :
  (forall pre post v,
   Nat.Even (length pre) -> bytes_ok pre -> bytes_ok post -> u16_ok v ->
     Z.of_nat (length pre + 2 + length post) <= cksum_max_len ->
     cksum (pre ++ [0; 0] ++ post) (Z.of_nat (length pre + 2 + length post)) = Ok (htons v)
     <-> ones_sum (pre ++ be_bytes2 v ++ post) = 65535 /\ v <> 0)
  /\ (forall h,
   ip_hdr_ok h ->
     ones_sum (encode_ip (seal_ip h)) = 65535 /\ ip_sum_ok (seal_ip h) = true
     /\ set_sum (seal_ip h) 0 = set_sum h 0).
Proof. split; [apply checksum_check|apply completed_header]. Qed.

Lemma checksum_field_correct_witness :
  (cksum ([69; 0] ++ [0; 0] ++ [186; 255]) (Z.of_nat (2 + 2 + 2)) = Ok (htons 0)
   <-> ones_sum ([69; 0] ++ be_bytes2 0 ++ [186; 255]) = 65535 /\ 0 <> 0)
  /\ ones_sum (encode_ip (seal_ip (demo_ip 17 (ip4 10 0 2 2) 64))) = 65535
  /\ ip_sum_ok (seal_ip (demo_ip 17 (ip4 10 0 2 2) 64)) = true
  /\ set_sum (seal_ip (demo_ip 17 (ip4 10 0 2 2) 64)) 0 = set_sum (demo_ip 17 (ip4 10 0 2 2) 64) 0.
Proof.
  destruct checksum_field_correct as [H1 H2]. split.
  - apply (H1 [69; 0] [186; 255] 0);
      [by exists 1%nat|by apply bytes_dec|by apply bytes_dec|by vm_compute|by vm_compute].
  - apply H2, demo_ip_ok; by vm_compute.
Defined.

(** ** The packet formats *)

(** C27: the frames the router makes from nothing, every byte of them written:
    a broadcast request for an address, the answer to a request, and the ICMP
    error of sr_arpcache.c, to the sender of the packet it answers, with both
    checksums computed, quoting its IP header and eight bytes of payload. *)
Theorem frames_built junk ifs iface s i :
  ifs_ok ifs -> name_of iface = Ok s -> find_if ifs s = Some i ->
  (forall ip, create_arp_request junk ifs ip iface = Ok (arp_request_frame i ip)
     /\ length (arp_request_frame i ip) = 42%nat)
  /\ (forall a rest, arp_hdr_ok a ->
        build_send_arp_reply junk (encode_arp a ++ rest) i
        = Ok (encode_eth (EthHdr (a_sha a) (if_addr i) ethertype_arp)
              ++ encode_arp (ArpHdr arp_hrd_ethernet ethertype_ip 6 4 arp_op_reply
                               (if_addr i) (if_ip i) (a_sha a) (a_sip a))))
  /\ (forall packet type code, bytes_ok packet -> (42 <= length packet)%nat -> byte_ok type -> byte_ok code ->
        build_icmp_t3 junk ifs packet iface type code = Ok (icmp_t3_frame i packet type code)).
Proof.
  intros H1 H2 H3. pose proof (find_if_ok _ _ _ H1 H3) as Hi. split_and!.
  - intros ip. split; [by eapply create_arp_request_spec|]. by apply (arp_request_frame_facts i ip).
  - intros a rest. by apply build_send_arp_reply_spec.
  - intros packet type code. by eapply build_icmp_t3_spec.
Qed.

Lemma frames_built_witness :
  create_arp_request (replicate 42 255) demo_ifs (ip4 10 0 2 2) (name_bytes eth2_name)
  = Ok (arp_request_frame eth2 (ip4 10 0 2 2))
  /\ build_icmp_t3 (replicate 42 255) demo_ifs (pk_buf demo_packet) (name_bytes eth2_name) 3 1
     = Ok (icmp_t3_frame eth2 (pk_buf demo_packet) 3 1).
Proof.
  destruct (frames_built (replicate 42 255) demo_ifs (name_bytes eth2_name) eth2_name eth2)
    as (H1 & _ & H3); [apply demo_ifs_ok|done|done|].
  split; [apply H1|]. apply H3; [by apply bytes_dec|vm_compute; lia|done|done].
Defined.

(** C30: [print_hdrs] reads nothing beyond the length it is given, whatever the
    frame says about its contents. *)
Theorem print_hdrs_in_bounds buf len :
  len <= Z.of_nat (length buf) -> exists items, print_hdrs buf len = Ok items.
Proof. apply print_hdrs_ok. Qed.

Lemma print_hdrs_in_bounds_witness :
  exists items, print_hdrs (demo_frame 1 (ip4 10 0 1 1) 64) 42 = Ok items.
Proof. apply print_hdrs_in_bounds. vm_compute. done. Defined.

(** ** Interfaces and the routing table file *)

(** [sr_get_interface] finds the first interface whose name, up to its NUL
    and 32 characters, is the given one; a new interface is found under its
    name unless an older one has it. *)
Theorem interface_lookup ifs uninit name s addr ip :
  ifs_ok ifs -> (32 <= length name)%nat -> name_of name = Ok s -> length addr = 6%nat ->
  sr_get_interface ifs name = Ok (find_if ifs s)
  /\ exists ifs1 ifs2 ifs3 i, sr_add_interface uninit ifs name = Ok ifs1
       /\ sr_set_ether_addr ifs1 addr = Ok ifs2 /\ sr_set_ether_ip ifs2 ip = Ok ifs3
       /\ if_addr i = addr /\ if_ip i = ip
       /\ find_if ifs3 s = match find_if ifs s with Some j => Some j | None => Some i end.
Proof.
  intros Hi Hl Hs Ha. split; [by apply sr_get_interface_spec|].
  destruct (strncpy_ok sr_IFACE_NAMELEN name Hl) as [nm Hnm].
  exists (ifs ++ [SrIf nm (if_addr uninit) (if_ip uninit) (if_speed uninit)]).
  exists (ifs ++ [SrIf nm addr (if_ip uninit) (if_speed uninit)]).
  exists (ifs ++ [SrIf nm addr ip (if_speed uninit)]), (SrIf nm addr ip (if_speed uninit)).
  assert (E1 : sr_add_interface uninit ifs name
    = Ok (ifs ++ [SrIf nm (if_addr uninit) (if_ip uninit) (if_speed uninit)])).
  { unfold sr_add_interface. rewrite Hnm. cbn [bind]. by destruct ifs. }
  rewrite set_ether_addr_app by lia. rewrite (take_ge addr) by lia.
  unfold sr_set_ether_ip. rewrite update_last_app. split_and!; try done.
  rewrite find_if_app. destruct (find_if ifs s); [done|].
  unfold names, name_of. cbn [if_name]. rewrite (cstr_strncpy _ _ _ Hnm).
  unfold name_of in Hs. rewrite Hs.
  by rewrite bool_decide_eq_true_2.
Qed.

Lemma interface_lookup_witness :
  sr_get_interface demo_ifs (name_bytes eth2_name) = Ok (find_if demo_ifs eth2_name)
  /\ exists ifs1 ifs2 ifs3 i, sr_add_interface eth1 demo_ifs (name_bytes eth2_name) = Ok ifs1
       /\ sr_set_ether_addr ifs1 hop_mac = Ok ifs2 /\ sr_set_ether_ip ifs2 5 = Ok ifs3
       /\ if_addr i = hop_mac /\ if_ip i = 5
       /\ find_if ifs3 eth2_name
          = match find_if demo_ifs eth2_name with Some j => Some j | None => Some i end.
Proof.
  apply (interface_lookup demo_ifs eth1 (name_bytes eth2_name) eth2_name hop_mac 5);
    [apply demo_ifs_ok|vm_compute; lia|done|done].
Defined.

(** [sr_verify_routing_table] returns 0 exactly when there is an interface
    and a route and every route names an interface of the list. *)
Theorem verify_routing_table_exact ifs rts :
  ifs_ok ifs -> Forall (fun r => length (rt_interface r) = 32%nat) rts ->
  exists n, sr_verify_routing_table ifs rts = Ok n
    /\ (n = 0 <-> ifs <> [] /\ rts <> [] /\ Forall (route_if_ok ifs) rts).
Proof.
  intros Hi Hr. unfold sr_verify_routing_table.
  destruct ifs as [|i ifs]; [exists 999; naive_solver|]. destruct rts as [|r rts]; [exists 999; naive_solver|].
  destruct (verify_loop_spec (i :: ifs) (r :: rts) 0 Hi Hr ltac:(lia)) as (n & E & _ & Hiff).
  exists n. split; [done|]. rewrite Hiff. naive_solver.
Qed.

Lemma verify_routing_table_exact_witness :
  exists n, sr_verify_routing_table demo_ifs [route2] = Ok n
    /\ (n = 0 <-> demo_ifs <> [] /\ [route2] <> [] /\ Forall (route_if_ok demo_ifs) [route2]).
Proof. apply verify_routing_table_exact; [apply demo_ifs_ok|by apply Forall_singleton]. Defined.

(** C28: a routing table file, one route per line, is read back as its routes,
    and the table read before is replaced; an empty line repeats the route of
    the line before it. *)
Theorem routing_table_roundtrip aton w rows uninit old rs :
  Forall (fun r => row_ok (default w r)) (Some w :: rows) ->
  Forall (fun b => length b = 32%nat) uninit -> length uninit = 4%nat ->
  expected_routes aton w (Some w :: rows) = Some rs ->
  sr_load_rt aton uninit (Some (render (Some w :: rows))) old = Ok (0, rs).
Proof.
  intros Hok Hu H4 Hrs. unfold sr_load_rt.
  by rewrite (load_rt_loop_rows aton (Some w :: rows) w uninit _ false old rs) by (done || lia).
Qed.

Lemma routing_table_roundtrip_witness :
  sr_load_rt demo_aton (replicate 4 (replicate 32 9)) (Some (render [Some demo_row; None])) [route2]
  = Ok (0, [SrRt (ip4 1 2 3 0) (ip4 1 2 3 4) 0 (name_bytes eth1_name);
            SrRt (ip4 1 2 3 0) (ip4 1 2 3 4) 0 (name_bytes eth1_name)]).
Proof.
  apply (routing_table_roundtrip demo_aton demo_row [None]).
  - rewrite !Forall_cons. split_and!; [apply demo_row_ok|apply demo_row_ok|done].
  - by apply Forall_replicate.
  - done.
  - done.
Defined.

(** Loading ends on every file: the loop reads at least one character a
    turn. *)
Theorem load_rt_ends aton uninit file old :
  sr_load_rt aton uninit file old <> Fault Diverges.
Proof. destruct file as [fp|]; [|done]. apply load_rt_loop_terminates. lia. Qed.
