(* ===== verification/RouterTheorems.v ===== *)
(** * RouterTheorems: forwarding, ARP and the invariant of the router

    The main theorems about the handlers: what an IP or ARP packet and a turn
    of the cleanup thread do, as refinements of the specifications in
    Handlers.v and ArpHandler.v; the safety of every reachable state; whole runs
    as runs of the abstract router; and the places where the code leaves the
    specified path: host unreachable sent onwards, a request read after it was
    freed, a hop count of 0 forwarded, a short packet read beyond its end. *)

From S2P Require Import Prelude Memory Protocol Utils Iface Rt ArpCache Dump World ArpHandler Router RouterSpec Handlers Safety Delivery Abstract Sha1 Vns VnsSpec Options Main MainSpec Fixture CoreTheorems.

(** ** Data for the instances *)

Definition is_ok {A} (m : res A) : bool := match m with Ok _ => true | Fault _ => false end.

(** The fixture with one packet waiting for 10.0.2.2, asked for [times] times. *)
Definition waiting_queue (times : Z) : queue :=
  [(1%positive, Areq (ip4 10 0 2 2) 900 times [demo_packet])].
Definition waiting_world (times : Z) : world :=
  set_cache demo_world
    (SrArpcache (entries sr_arpcache_init) (Some 1%positive)
      {[ 1%positive := node (Areq (ip4 10 0 2 2) 900 times [demo_packet]) None ]} 2%positive).

Lemma demo_packet_ok : pkt_ok demo_ifs demo_packet.
Proof. constructor; [by vm_compute|by apply bytes_dec|done|by exists eth2]. Qed.

Lemma waiting_ok times : 0 <= times <= 5 -> world_ok (waiting_world times) (waiting_queue times).
Proof.
  intros Ht. apply (world_ok_cache _ [] _ _ demo_ok).
  - constructor.
    + split; [done|]. by exists None.
    + done.
    + by apply NoDup_singleton.
    + intros l. change ((waiting_queue times).*1 ++ ([] : queue).*1) with [1%positive]. cbn [heap].
      rewrite list_elem_of_singleton. split; [|intros ->; by eexists].
      intros [r Hr]. by apply lookup_singleton_Some in Hr as [-> _].
    + by apply Forall_singleton.
    + done.
  - apply (wok_macs _ _ demo_ok).
  - constructor; [by apply NoDup_singleton|by apply Forall_singleton].
  - apply Forall_singleton. constructor; [done|]. apply Forall_singleton. apply demo_packet_ok.
Qed.

Lemma demo_frame_ok p dst ttl :
  byte_ok p -> u32_ok dst -> byte_ok ttl -> frame_ok demo_world (demo_frame p dst ttl) (name_bytes eth1_name).
Proof.
  intros Hp Hd Ht. constructor.
  - unfold demo_frame. rewrite !bytes_ok_app.
    split_and!; [by apply bytes_dec|by apply bytes_ok_encode_ip, demo_ip_ok|by apply bytes_dec].
  - change (length (demo_frame p dst ttl)) with 42%nat. lia.
  - exists eth1_name, (take 16 (name_bytes eth1_name)), eth1. split; [by constructor|done].
Qed.

(** ** Packets *)

(** C1: an IP packet of at least 8 bytes of payload does what [spec_ip] says,
    on every branch: dropped when its checksum is wrong; answered when it is
    for the router (echo reply, port unreachable); otherwise forwarded with its
    hop count lowered and the checksum renewed, queued until the next hop's
    address is known, or answered with time exceeded or net unreachable.  The
    handler keeps the invariant and does not fault, with one exception: every
    ICMP answer follows a pointer that was never initialised, and when this leads
    nowhere ([wild_death]), the packet kills the process instead. *)
Theorem ip_packet_refines {os : OS} w q interface s nm i e h payload :
  world_ok w q -> iface_named interface s nm -> find_if (if_list w) s = Some i ->
  eth_hdr_ok e -> e_type e = ethertype_ip -> ip_hdr_ok h -> bytes_ok (encode_eth e) -> bytes_ok payload ->
  (8 <= length payload)%nat -> Z.of_nat (length payload) < 65000 ->
  let res := spec_ip w (os_time (ticks w)) nm i e h payload q in
  let run := sr_handlepacket (encode_eth e ++ encode_ip h ++ payload) (34 + Z.of_nat (length payload)) interface w in
  if wild_death w h payload then run = Fault WildRead
  else exists w', run = Ok (tt, w') /\ handled w res.1 res.2 w'.
Proof.
  intros Hw Hn Hf He Ht Hh Hbe Hb H8 Hmax. by apply (handle_ip_frame w q interface s nm i).
Qed.

(** A host on which the pointer leads nowhere. *)
Definition wild_os : OS := {|
  os_time := fun _ => 1000; os_write := fun _ n => n; os_malloc := fun _ => [];
  os_timeofday := fun _ => (0, 0); os_wild_read := fun _ => false |}.

Lemma ip_packet_refines_witness :
  let nm := take 16 (name_bytes eth1_name) in
  let e := demo_eth ethertype_ip in
  let h := demo_ip 17 (ip4 10 0 2 2) 64 in
  let h' := seal_ip (set_ttl (set_sum h 0) 63) in
  let frame := waiting_frame e h' demo_payload in
  let res := spec_ip demo_world (os_time (ticks demo_world)) nm eth1 e h demo_payload [] in
  res = ([(1%positive, Areq (ip4 10 0 2 2) 1000 1 [SrPacket frame 42 (name_bytes eth2_name)])],
         [vns_message (take 16 (name_bytes eth2_name)) (arp_request_frame eth2 (ip4 10 0 2 2))])
  /\ (exists w', sr_handlepacket (encode_eth e ++ encode_ip h ++ demo_payload)
                  (34 + Z.of_nat (length demo_payload)) (name_bytes eth1_name) demo_world = Ok (tt, w')
       /\ handled demo_world res.1 res.2 w')
  /\ sr_handlepacket (os := wild_os) (encode_eth e ++ encode_ip (demo_ip 17 (ip4 10 0 1 1) 64) ++ demo_payload)
       (34 + Z.of_nat (length demo_payload)) (name_bytes eth1_name) demo_world = Fault WildRead.
Proof.
  split; [by vm_compute|]. split.
  - pose proof (ip_packet_refines demo_world [] (name_bytes eth1_name) eth1_name (take 16 (name_bytes eth1_name)) eth1
      (demo_eth ethertype_ip) (demo_ip 17 (ip4 10 0 2 2) 64) demo_payload) as H. cbv zeta in H.
    assert (E : wild_death demo_world (demo_ip 17 (ip4 10 0 2 2) 64) demo_payload = false) by by vm_compute.
    rewrite E in H. apply H; [apply demo_ok|by constructor|done|by constructor|done|by apply demo_ip_ok
      |by apply bytes_dec|by apply bytes_dec|vm_compute; lia|done].
  - pose proof (ip_packet_refines (os := wild_os) demo_world [] (name_bytes eth1_name) eth1_name
      (take 16 (name_bytes eth1_name)) eth1 (demo_eth ethertype_ip) (demo_ip 17 (ip4 10 0 1 1) 64) demo_payload) as H.
    cbv zeta in H.
    assert (E : wild_death (os := wild_os) demo_world (demo_ip 17 (ip4 10 0 1 1) 64) demo_payload = true) by by vm_compute.
    rewrite E in H. apply H; [apply demo_ok|by constructor|done|by constructor|done|by apply demo_ip_ok
      |by apply bytes_dec|by apply bytes_dec|vm_compute; lia|done].
Defined.

(** C2: an ARP packet does what [spec_arp] says: a request for the address of
    the interface it came in on is answered; a reply enters the table, and the
    packets that waited for it are sent, newest first, and their request
    destroyed.  A waiting packet gets the source address of the interface the
    reply came in on, so it is lost when it was to leave by an interface with
    another address. *)
Theorem arp_packet_refines {os : OS} w q interface s nm i e a rest :
  world_ok w q -> iface_named interface s nm -> find_if (if_list w) s = Some i ->
  eth_hdr_ok e -> e_type e = ethertype_arp -> arp_hdr_ok a -> bytes_ok (a_sha a) ->
  Z.of_nat (length rest) < 65000 ->
  exists w', sr_handlepacket (encode_eth e ++ encode_arp a ++ rest) (42 + Z.of_nat (length rest))
               interface w = Ok (tt, w')
    /\ arp_handled w (spec_arp w (os_time (ticks w)) nm i e a (length rest) q) w'.
Proof.
  intros. by apply (handle_arp_frame w q interface s nm i).
Qed.

Lemma arp_packet_refines_witness :
  let nm := take 16 (name_bytes eth2_name) in
  let e := EthHdr (if_addr eth2) hop_mac ethertype_arp in
  let a := demo_arp arp_op_reply hop_mac (ip4 10 0 2 2) (ip4 10 0 2 1) in
  let res := spec_arp (waiting_world 1) (os_time (ticks (waiting_world 1))) nm eth2 e a (length (@nil Z))
               (waiting_queue 1) in
  res.1.1 = [] /\ res.2 = [vns_message nm (hop_mac ++ if_addr eth2 ++ drop 12 (pk_buf demo_packet))]
  /\ exists w', sr_handlepacket (encode_eth e ++ encode_arp a ++ []) (42 + Z.of_nat (length (@nil Z)))
                  (name_bytes eth2_name) (waiting_world 1) = Ok (tt, w')
       /\ arp_handled (waiting_world 1) res w'.
Proof.
  split; [by vm_compute|]. split; [by vm_compute|].
  apply (arp_packet_refines (waiting_world 1) (waiting_queue 1) (name_bytes eth2_name) eth2_name
    (take 16 (name_bytes eth2_name)) eth2 (EthHdr (if_addr eth2) hop_mac ethertype_arp)
    (demo_arp arp_op_reply hop_mac (ip4 10 0 2 2) (ip4 10 0 2 1)) []);
    [by apply waiting_ok|by constructor|done|by constructor|done|by apply demo_arp_ok|by apply bytes_dec|done].
Defined.

(** C3: the router does what it is for.  A packet for somebody else whose next
    hop is not in the ARP table makes it send one ARP request, out of the
    interface of the route, and nothing else; when the next hop answers on that
    interface, the packet leaves for it, with the right addresses, a lowered hop
    count and a new checksum, and the request queue is as before.  If the table
    had a free slot, every packet for that next hop that follows leaves at
    once. *)
Theorem resolution_delivers {os : OS} w q interface s nm i e h payload r o interface' s' nm' e' a rest :
  world_ok w q -> iface_named interface s nm -> find_if (if_list w) s = Some i -> ip_frame_ok e h payload ->
  transit w r h -> if_of (if_list w) (rt_interface r) = Some o ->
  sr_arpcache_lookup (cache w) (rt_gw r) = None -> q_find (rt_gw r) q = None -> 1 <= os_time (ticks w) ->
  iface_named interface' s' nm' -> find_if (if_list w) s' = Some o ->
  eth_hdr_ok e' -> e_type e' = ethertype_arp -> arp_hdr_ok a -> bytes_ok (a_sha a) ->
  a_op a = arp_op_reply -> a_sip a = rt_gw r -> Z.of_nat (length rest) < 65000 ->
  exists w1 w2,
    sr_handlepacket (encode_eth e ++ encode_ip h ++ payload) (34 + Z.of_nat (length payload)) interface w = Ok (tt, w1)
    /\ sent (out w1) = sent (out w) ++ [vns_message (nm16 (rt_interface r)) (arp_request_frame o (rt_gw r))]
    /\ sr_handlepacket (encode_eth e' ++ encode_arp a ++ rest) (42 + Z.of_nat (length rest)) interface' w1 = Ok (tt, w2)
    /\ sent (out w2) = sent (out w1)
         ++ [vns_message (nm16 (rt_interface r)) (forward_frame o (a_sha a) e (lowered h) payload)]
    /\ world_ok w2 q
    /\ ((free_slot (entries (cache w)) < SR_ARPCACHE_SZ)%nat ->
        forall e2 h2 payload2, ip_frame_ok e2 h2 payload2 -> transit w r h2 ->
        exists w3,
          sr_handlepacket (encode_eth e2 ++ encode_ip h2 ++ payload2) (34 + Z.of_nat (length payload2)) interface w2
            = Ok (tt, w3)
          /\ sent (out w3) = sent (out w2)
               ++ [vns_message (nm16 (rt_interface r)) (forward_frame o (a_sha a) e2 (lowered h2) payload2)]).
Proof.
  intros Hw Hn Hf Hp Ht Ho Hl Hq Hnow Hn' Hf' He' Ht' Ha Hs Hop Hsip Hmax.
  destruct (resolve_ok w q interface s nm i e h payload r o interface' s' nm' e' a rest)
    as (w1 & w2 & q1 & now & E1 & H1 & E2 & H2); try done.
  destruct H1 as [_ Hs1 Hi1 Hr1 _]. destruct H2 as [Hw2 Hen Hs2 Hi2 Hr2]. cbn [fst snd] in *.
  assert (Ei : if_list w2 = if_list w) by congruence. assert (Er : routing_table w2 = routing_table w) by congruence.
  exists w1, w2. split_and!; try done. intros Hfree e2 h2 payload2 Hp2 Ht2.
  destruct (direct_ok w2 q interface s nm i e2 h2 payload2 r o (a_sha a) now Hw2 Hn) as (w3 & E3 & H3);
    [by rewrite Ei|done|by apply (transit_same w)|by rewrite Ei| |exists w3; split; [done|apply (hd_sent _ _ _ _ H3)]].
  unfold sr_arpcache_lookup. rewrite Hen. apply lookup_answered; [|done|done].
  apply (rep_size _ _ _ (wok_rep _ _ Hw)).
Qed.

Lemma demo_ip_frame p dst ttl :
  byte_ok p -> u32_ok dst -> byte_ok ttl -> ip_frame_ok (demo_eth ethertype_ip) (demo_ip p dst ttl) demo_payload.
Proof.
  intros Hp Hd Ht. constructor; [by constructor|done|by apply demo_ip_ok|by apply bytes_dec|by apply bytes_dec|simpl; lia|done].
Qed.

Lemma resolution_delivers_witness :
  let h := demo_ip 17 (ip4 10 0 2 2) 64 in
  let nm2 := nm16 (name_bytes eth2_name) in
  exists w1 w2,
    sent (out w1) = [vns_message nm2 (arp_request_frame eth2 (ip4 10 0 2 2))]
    /\ sent (out w2) = sent (out w1)
         ++ [vns_message nm2 (forward_frame eth2 hop_mac (demo_eth ethertype_ip) (lowered h) demo_payload)]
    /\ world_ok w2 [].
Proof.
  intros h nm2.
  destruct (resolution_delivers demo_world [] (name_bytes eth1_name) eth1_name (take 16 (name_bytes eth1_name)) eth1
    (demo_eth ethertype_ip) h demo_payload route2 eth2 (name_bytes eth2_name) eth2_name
    (take 16 (name_bytes eth2_name)) (EthHdr (if_addr eth2) hop_mac ethertype_arp)
    (demo_arp arp_op_reply hop_mac (ip4 10 0 2 2) (ip4 10 0 2 1)) [])
    as (w1 & w2 & _ & H1 & _ & H2 & H3 & _); try done; try (by constructor).
  - apply demo_ok.
  - by apply demo_ip_frame.
  - by apply bytes_dec.
  - by exists w1, w2.
Defined.

(** In every state the router can reach from its start by packets and turns
    of the cleanup thread, any frame of 42 to 64999 bytes that arrives on a
    known interface is handled and leads to such a state again, whatever is in
    it, or else kills the process through the uninitialised pointer. *)
Theorem reachable_safe {os : OS} w frame iface :
  reachable w -> frame_ok w frame iface ->
  (exists w', sr_handlepacket frame (Z.of_nat (length frame)) iface w = Ok (tt, w')
    /\ reachable w' /\ if_list w' = if_list w /\ routing_table w' = routing_table w)
  \/ (sr_handlepacket frame (Z.of_nat (length frame)) iface w = Fault WildRead /\ os_wild_read (ticks w) = false).
Proof.
  intros Hr Hf. destruct (reachable_ok w Hr) as [q Hq].
  destruct (sr_handlepacket_ok w q frame iface Hq Hf) as [(w' & q' & E & _ & Hi & Ht)|H]; [left|by right].
  exists w'. split_and!; [done| |done|done]. destruct Hr as (w0 & H0 & Hs). exists w0. split; [done|].
  eapply rtc_r; [exact Hs|]. by eapply step_packet.
Qed.

Lemma reachable_safe_witness :
  exists w', sr_handlepacket (demo_frame 6 (ip4 10 0 1 1) 64)
               (Z.of_nat (length (demo_frame 6 (ip4 10 0 1 1) 64))) (name_bytes eth1_name) demo_world = Ok (tt, w')
    /\ reachable w' /\ if_list w' = demo_ifs /\ routing_table w' = [route2].
Proof.
  destruct (reachable_safe demo_world (demo_frame 6 (ip4 10 0 1 1) 64) (name_bytes eth1_name)) as [H|[_ H]]; [| |done|done].
  - exists demo_world. split; [apply demo_start|done].
  - by apply demo_frame_ok.
Defined.

(** ** Runs *)

(** C4: from its start on, on any frames of 42 to 64999 bytes from known interfaces
    and any turns of the cleanup thread, in any order, the router does what the
    abstract router does, which has no memory but its tables: it sends the same
    messages in the same order and ends in a state that stands for the same tables
    and waiting requests.  Two things can stop it ([stops]): a turn when a request
    has been asked for five times, in which the code dies in a use after free; and
    a frame that is answered with an ICMP message, when the uninitialised pointer
    it follows for that leads nowhere.  Up to there it is the abstract router. *)
Theorem run_refines {os : OS} w evs :
  router_start w -> Forall (event_ok w) evs ->
  let start := Arouter (if_list w) (routing_table w) (entries sr_arpcache_init) [] in
  (exists w' ms a, happens evs w = Ok (tt, w') /\ abs_run start evs ms a
     /\ sent (out w') = sent (out w) ++ ms /\ exists q, world_ok w' q /\ abstraction w' q = a)
  \/ (exists f evs1 ev evs2 ms a, happens evs w = Fault f /\ evs = evs1 ++ ev :: evs2
        /\ abs_run start evs1 ms a /\ stops a ev f).
Proof.
  intros Hs Hev start. pose proof (start_ok w Hs) as Hw.
  assert (Es : start = abstraction w []) by (unfold abstraction; by rewrite (rs_cache w Hs)).
  rewrite Es. destruct (happens_refines evs w [] Hw Hev) as [(w' & ms & a & E & Ha & [H1 H2])|H]; [left|by right].
  by exists w', ms, a.
Qed.

(** A packet for 10.0.2.2, a turn, and the answer of 10.0.2.2. *)
Definition answer_frame : list Z :=
  encode_eth (EthHdr (if_addr eth2) hop_mac ethertype_arp)
  ++ encode_arp (demo_arp arp_op_reply hop_mac (ip4 10 0 2 2) (ip4 10 0 2 1)).
Definition demo_events : list event :=
  [Arrival (demo_frame 17 (ip4 10 0 2 2) 64) (name_bytes eth1_name); Turn; Arrival answer_frame (name_bytes eth2_name)].

Lemma answer_ok : event_ok demo_world (Arrival answer_frame (name_bytes eth2_name)).
Proof.
  constructor.
  - by apply bytes_dec.
  - by vm_compute.
  - exists eth2_name, (take 16 (name_bytes eth2_name)), eth2. split; [by constructor|done].
Qed.

Lemma demo_events_ok : Forall (event_ok demo_world) demo_events.
Proof.
  apply Forall_cons. split; [by apply demo_frame_ok|].
  apply Forall_cons. split; [done|]. apply Forall_singleton, answer_ok.
Qed.

(** What the router sends for them. *)
Definition demo_messages : list (list Z) :=
  let nm2 := nm16 (name_bytes eth2_name) in
  [vns_message nm2 (arp_request_frame eth2 (ip4 10 0 2 2));
   vns_message nm2 (forward_frame eth2 hop_mac (demo_eth ethertype_ip) (lowered (demo_ip 17 (ip4 10 0 2 2) 64)) demo_payload)].

Lemma run_refines_witness :
  exists w' a, happens demo_events demo_world = Ok (tt, w')
    /\ abs_run (Arouter demo_ifs [route2] (entries sr_arpcache_init) []) demo_events demo_messages a
    /\ r_queue a = [] /\ exists q, world_ok w' q /\ abstraction w' q = a.
Proof.
  assert (Hc : match happens demo_events demo_world with
    | Ok (_, w') => sent (out w') = demo_messages /\ requests (cache w') = None | _ => False end) by by vm_compute.
  pose proof (run_refines (os := demo_os) demo_world demo_events) as H.
  specialize (H demo_start demo_events_ok). cbv zeta in H.
  destruct H as [(w' & ms & a & E & Ha & Hs & q & Hq & Eq)|(f & evs1 & ev & evs2 & ms & a & E & _)]; rewrite E in Hc; [|destruct Hc].
  destruct Hc as [Em Er]. rewrite Hs in Em. change (ms = demo_messages) in Em.
  exists w', a. split; [exact E|]. clear -Em Er Ha Hq Eq.
  split; [rewrite <- Em; exact Ha|]. split; [|exists q; split; [exact Hq|exact Eq]].
  rewrite <- Eq. pose proof (rep_chain _ _ _ (wok_rep _ _ Hq)) as Hl. rewrite Er in Hl.
  destruct q as [|[]]; [reflexivity|destruct Hl as [Hl _]; discriminate Hl].
Defined.

(** C5: no packet is forgotten.  A packet that waits for the address of a next
    hop still waits for it after any further frames and turns, or one of them was
    the answer of the next hop and the packet left for it, from its own interface,
    or the next hop was given up and a host-unreachable message that quotes the
    packet was written.  (That message is written on the interface the packet was
    to leave by, not on the one it came from.)  The one way to get lost is an
    answer that comes in on an interface with another address than that of the
    interface of the packet.  A run that is stopped in one of the two ways of
    [run_refines] has accounted for the packet up to the event that stops it. *)
Theorem waiting_packets_accounted {os : OS} w q evs l r p :
  world_ok w q -> Forall (event_ok w) evs -> (l, r) ∈ q -> p ∈ q_pkts r ->
  match happens evs w with
  | Ok (_, w') => exists q' ms, world_ok w' q' /\ sent (out w') = sent (out w) ++ ms
      /\ ((exists l' r', (l', r') ∈ q' /\ q_ip r' = q_ip r /\ p ∈ q_pkts r')
          \/ exists ev, ev ∈ evs /\ fate (if_list w) (q_ip r) p ms ev)
  | Fault f => exists evs1 ev evs2 ms a, evs = evs1 ++ ev :: evs2
      /\ abs_run (abstraction w q) evs1 ms a /\ stops a ev f
      /\ (waits (q_ip r) p (r_queue a) \/ exists ev, ev ∈ evs1 /\ fate (if_list w) (q_ip r) p ms ev)
  end.
Proof.
  intros Hw Hev Hr Hp.
  assert (Hif : is_Some (if_of (if_list w) (pk_iface p))).
  { pose proof (proj1 (Forall_forall _ _) (wok_reqs _ _ Hw) _ Hr) as Hok. cbn [snd] in Hok.
    apply (pok_if _ _ (proj1 (Forall_forall _ _) (rok_pkts _ _ Hok) _ Hp)). }
  assert (Hfate : forall evs ms a, abs_run (abstraction w q) evs ms a ->
    waits (q_ip r) p (r_queue a) \/ exists ev, ev ∈ evs /\ fate (if_list w) (q_ip r) p ms ev).
  { intros evs0 ms a Ha. apply (run_fate _ _ _ _ Ha); [| |done].
    - cbn [r_queue abstraction]. rewrite <- queue_ips. apply (qok_ips _ (wok_queue _ _ Hw)).
    - exists r. split_and!; [|done|done]. cbn [r_queue abstraction]. apply list_elem_of_fmap. by exists (l, r). }
  destruct (happens_refines evs w q Hw Hev)
    as [(w1 & ms & a & -> & Ha & [(q' & Hq' & Eq) Hs])|(f & evs1 & ev & evs2 & ms & a & -> & He & Ha & Hst)].
  - cbn [fst snd] in *. exists q', ms. split_and!; [done|done|].
    destruct (Hfate _ _ _ Ha) as [(r' & Hr' & Hi & Hp')|H]; [left|by right].
    rewrite <- Eq in Hr'. cbn [r_queue abstraction] in Hr'.
    apply list_elem_of_fmap in Hr' as ([l' x] & -> & Hin). by exists l', x.
  - exists evs1, ev, evs2, ms, a. split_and!; [done|done|done|by apply Hfate].
Qed.

Lemma waiting_packets_accounted_witness :
  exists w' ms, happens [Arrival answer_frame (name_bytes eth2_name)] (waiting_world 1) = Ok (tt, w')
    /\ requests (cache w') = None
    /\ fate demo_ifs (ip4 10 0 2 2) demo_packet ms (Arrival answer_frame (name_bytes eth2_name)).
Proof.
  assert (Hc : match happens [Arrival answer_frame (name_bytes eth2_name)] (waiting_world 1) with
    | Ok (_, w') => requests (cache w') = None | _ => False end) by by vm_compute.
  pose proof (waiting_packets_accounted (waiting_world 1) (waiting_queue 1) [Arrival answer_frame (name_bytes eth2_name)]
    1%positive (Areq (ip4 10 0 2 2) 900 1 [demo_packet]) demo_packet) as H.
  specialize (H (waiting_ok 1 ltac:(lia))). specialize (H ltac:(apply Forall_singleton; apply (frame_ok_ifs demo_world); [done|apply answer_ok])).
  specialize (H ltac:(by left) ltac:(by left)).
  destruct (happens [Arrival answer_frame (name_bytes eth2_name)] (waiting_world 1)) as [[[] w']|f]; [|done].
  destruct H as (q' & ms & Hq & _ & [(l' & r' & Hin & _)|(ev & Hev%list_elem_of_singleton & Hf)]).
  - pose proof (rep_chain _ _ _ (wok_rep _ _ Hq)) as Hl. rewrite Hc in Hl.
    destruct q' as [|[]]; [by apply elem_of_nil in Hin|by destruct Hl].
  - subst ev. by exists w', ms.
Defined.

(** ** The cleanup thread *)

(** C13: [handle_arpreq] on a queued request does what [spec_arpreq] says: not a
    second old, nothing; asked for fewer than five times, the request is sent
    once more and counted; otherwise a host-unreachable message is written for
    every waiting packet and the request is destroyed.  The message is written on
    the interface the packet was to leave by, towards the next hop that did not
    answer, though it should go back to the packet's sender. *)
Theorem arpreq_refines {os : OS} w q l a :
  world_ok w q -> (l, a) ∈ q ->
  let res := spec_arpreq (if_list w) (os_time (ticks w)) l a q in
  exists w', handle_arpreq l w = Ok (tt, w') /\ handled w res.1 res.2 w'.
Proof. apply handle_arpreq_refines. Qed.

Lemma arpreq_refines_witness :
  let a := Areq (ip4 10 0 2 2) 900 5 [demo_packet] in
  let res := spec_arpreq demo_ifs (os_time 0) 1%positive a (waiting_queue 5) in
  res = ([], [vns_message (take 16 (name_bytes eth2_name)) (icmp_t3_frame eth2 (pk_buf demo_packet) 3 1)])
  /\ exists w', handle_arpreq 1%positive (waiting_world 5) = Ok (tt, w')
       /\ handled (waiting_world 5) res.1 res.2 w'.
Proof.
  split; [by vm_compute|].
  apply (arpreq_refines (waiting_world 5) (waiting_queue 5) 1%positive (Areq (ip4 10 0 2 2) 900 5 [demo_packet])).
  - by apply waiting_ok.
  - by left.
Defined.

(** A packet that waits has an interface, so its message is written. *)
Lemma unreachable_each ifs pkts :
  Forall (pkt_ok ifs) pkts ->
  Forall2 (fun p msg => pkt_ok ifs p /\ exists j, if_of ifs (pk_iface p) = Some j
    /\ msg = vns_message (nm16 (pk_iface p)) (icmp_t3_frame j (pk_buf p) 3 1)) pkts (unreachable_msgs ifs pkts).
Proof.
  induction 1 as [|p pkts Hp _ IH]; [constructor|]. pose proof (pok_if _ _ Hp) as [j Hj].
  unfold unreachable_msgs, msg_out in *.
  rewrite fmap_cons, Hj. cbn [mjoin list_join app]. constructor; [split; [done|by exists j]|exact IH].
Qed.

(** C14: host unreachable goes the wrong way.  When a request is given up, the
    message about each waiting packet leaves by the interface of the route the
    packet was to take, behind which the next hop has not answered, whatever
    interface the packet came in on; no message leaves by any other.  Its frame
    has the address of that interface as its source and, as its destination, the
    Ethernet address of the packet's sender, which is on another network unless
    the packet was to go back out of the interface it came in on. *)
Theorem unreachable_sent_onwards {os : OS} w q l a :
  world_ok w q -> (l, a) ∈ q -> due (os_time (ticks w)) a = true -> given_up a = true ->
  exists w' ms, handle_arpreq l w = Ok (tt, w') /\ sent (out w') = sent (out w) ++ ms
    /\ Forall2 (fun p msg => exists j frame, if_of (if_list w) (pk_iface p) = Some j
         /\ msg = vns_message (nm16 (pk_iface p)) frame
         /\ take 6 frame = src_of (pk_buf p) /\ src_of frame = if_addr j) (q_pkts a) ms.
Proof.
  intros Hw Hin Hd Hg. destruct (handle_arpreq_refines w q l a Hw Hin) as (w' & E & H).
  exists w', (unreachable_msgs (if_list w) (q_pkts a)). split; [done|].
  rewrite (hd_sent _ _ _ _ H). unfold spec_arpreq. rewrite Hd, Hg. split; [done|].
  pose proof (rok_pkts _ _ (proj1 (Forall_forall _ _) (wok_reqs _ _ Hw) _ Hin)) as Hp. cbn [snd] in Hp.
  eapply Forall2_impl; [apply (unreachable_each _ _ Hp)|]. intros p msg ([[HL HL42] _ _ _] & j & Hj & ->).
  assert (Hs : length (src_of (pk_buf p)) = 6%nat) by (unfold src_of; rewrite length_take, length_drop; lia).
  exists j, (icmp_t3_frame j (pk_buf p) 3 1). split_and!; [done|done| |].
  - unfold icmp_t3_frame, encode_eth. cbn [e_dhost]. by rewrite <- !app_assoc, take_app_length'.
  - apply src_of_eth; [done|].
    unfold if_of in Hj. destruct (name_of _) as [s|]; [|done].
    apply (ifok_addr _ (find_if_ok _ _ _ (wok_ifs _ _ Hw) Hj)).
Qed.

(** The packet came in on the first interface; the message leaves by the second. *)
Lemma unreachable_sent_onwards_witness :
  nm16 (pk_iface demo_packet) = take 16 (name_bytes eth2_name)
  /\ src_of (pk_buf demo_packet) = e_shost (demo_eth ethertype_ip)
  /\ exists w' ms, handle_arpreq 1%positive (waiting_world 5) = Ok (tt, w')
      /\ sent (out w') = sent (out (waiting_world 5)) ++ ms
      /\ Forall2 (fun p msg => exists j frame, if_of demo_ifs (pk_iface p) = Some j
           /\ msg = vns_message (nm16 (pk_iface p)) frame
           /\ take 6 frame = src_of (pk_buf p) /\ src_of frame = if_addr j) [demo_packet] ms.
Proof.
  split; [by vm_compute|]. split; [by vm_compute|].
  apply (unreachable_sent_onwards (waiting_world 5) (waiting_queue 5) 1%positive
    (Areq (ip4 10 0 2 2) 900 5 [demo_packet])); [by apply waiting_ok|by left|done|done].
Defined.

(** C15: a sweep over a queue none of whose requests is to be given up visits
    every request once, in queue order, each with its own reading of the clock:
    the due ones are sent again and counted, the others are left alone. *)
Theorem sweep_visits_all {os : OS} w q :
  world_ok w q -> retrying q ->
  exists nows w', length nows = length q /\ Forall (fun now => exists k, now = os_time k) nows
    /\ sr_arpcache_sweepreqs w = Ok (tt, w')
    /\ handled w (zip_with sweep_req nows q) (mjoin (zip_with (sweep_msgs (if_list w)) nows q)) w'.
Proof. apply sweep_refines. Qed.

Lemma sweep_visits_all_witness :
  exists nows w', length nows = 1%nat /\ Forall (fun now => exists k, now = os_time k) nows
    /\ sr_arpcache_sweepreqs (waiting_world 2) = Ok (tt, w')
    /\ handled (waiting_world 2) (zip_with sweep_req nows (waiting_queue 2))
         (mjoin (zip_with (sweep_msgs demo_ifs) nows (waiting_queue 2))) w'.
Proof. apply (sweep_visits_all (waiting_world 2) (waiting_queue 2)); [by apply waiting_ok|by apply Forall_singleton]. Defined.

(** From every reachable state a turn of the cleanup thread either ends in a
    reachable state or dies in a use after free; nothing else can go wrong. *)
Theorem timeout_turn_outcomes {os : OS} w :
  reachable w ->
  (exists w', sr_arpcache_timeout_turn w = Ok (tt, w') /\ reachable w')
  \/ sr_arpcache_timeout_turn w = Fault UseAfterFree.
Proof.
  intros Hr. destruct (reachable_ok w Hr) as [q Hq].
  destruct (timeout_turn_total w q Hq) as [(w' & q' & E & _)|E]; [left|by right].
  exists w'. split; [done|]. destruct Hr as (w0 & H0 & Hs). exists w0. split; [done|].
  eapply rtc_r; [exact Hs|]. by apply step_timeout.
Qed.

Lemma timeout_turn_outcomes_witness :
  (exists w', sr_arpcache_timeout_turn demo_world = Ok (tt, w') /\ reachable w')
  \/ sr_arpcache_timeout_turn demo_world = Fault UseAfterFree.
Proof. apply (timeout_turn_outcomes demo_world). exists demo_world. split; [apply demo_start|done]. Defined.

(** C32: a sweep that reaches a request to be given up destroys it and then reads
    its [next] member: a use after free. *)
Theorem sweep_reads_freed_request {os : OS} w pre l a post :
  world_ok w (pre ++ (l, a) :: post) -> retrying pre -> given_up a = true ->
  (forall k, due (os_time k) a = true) ->
  sr_arpcache_sweepreqs w = Fault UseAfterFree.
Proof. apply sweep_use_after_free. Qed.

Lemma sweep_reads_freed_request_witness : sr_arpcache_sweepreqs (waiting_world 5) = Fault UseAfterFree.
Proof.
  apply (sweep_reads_freed_request (waiting_world 5) [] 1%positive (Areq (ip4 10 0 2 2) 900 5 [demo_packet]) []);
    [by apply waiting_ok|done|done|done].
Defined.

(** A clock that advances two seconds a reading. *)
Definition ticking_os : OS := {|
  os_time := fun k => 1000 + 2 * Z.of_nat k; os_write := fun _ n => n; os_malloc := fun _ => [];
  os_timeofday := fun _ => (0, 0); os_wild_read := fun _ => true |}.

(** The packet to 10.0.2.2, and then [n] turns of the cleanup thread. *)
Fixpoint turns {os : OS} (n : nat) : M unit :=
  match n with O => sret tt | S n' => run! sr_arpcache_timeout_turn in turns n' end.
Definition unanswered {os : OS} (n : nat) : M unit :=
  run! sr_handlepacket (demo_frame 17 (ip4 10 0 2 2) 64)
         (Z.of_nat (length (demo_frame 17 (ip4 10 0 2 2) 64))) (name_bytes eth1_name) in turns n.

Lemma turns_reachable {os : OS} n : forall w w', turns n w = Ok (tt, w') -> rtc router_step w w'.
Proof.
  induction n as [|n IH]; intros w w' E; [by injection E as ->|].
  cbn [turns] in E. apply sbind_Ok_inv in E as ([] & w1 & E1 & E). eapply rtc_l; [by apply step_timeout|]. by apply IH.
Qed.

(** The use after free is reachable: the router starts, one packet for a
    next hop that does not answer arrives, and the cleanup thread takes five
    turns; the fifth dies. *)
Theorem use_after_free_reachable :
  exists w, @reachable ticking_os w /\ @sr_arpcache_timeout_turn ticking_os w = Fault UseAfterFree.
Proof.
  assert (Hf : frame_ok demo_world (demo_frame 17 (ip4 10 0 2 2) 64) (name_bytes eth1_name)) by by apply demo_frame_ok.
  destruct (@unanswered ticking_os 4 demo_world) as [[[] w]|f] eqn:E.
  - exists w. split.
    + exists demo_world. split; [apply demo_start|]. unfold unanswered in E.
      apply sbind_Ok_inv in E as ([] & w1 & E1 & E). eapply rtc_l; [|by eapply (@turns_reachable ticking_os)].
      exact (@step_packet ticking_os _ _ _ _ Hf E1).
    + assert (H : (let! r := @unanswered ticking_os 4 demo_world in @sr_arpcache_timeout_turn ticking_os r.2)
                  = Fault UseAfterFree) by by vm_compute.
      by rewrite E in H.
  - exfalso. assert (H : is_ok (@unanswered ticking_os 4 demo_world) = true) by by vm_compute.
    by rewrite E in H.
Qed.

(** ** Sending *)

(** C16: [sr_send_packet] offers the server exactly one VNSPACKET message with
    the frame, when the frame's source address is the interface's, and nothing
    otherwise; nothing but the output and the clock changes, and the result is
    0 exactly when the whole message was written. *)
Theorem send_packet_correct {os : OS} w frame iface s nm :
  can_send w -> iface_named iface s nm -> 14 <= Z.of_nat (length frame) < 2147483648 ->
  let len := Z.of_nat (length frame) in
  exists r w', sr_send_packet frame len iface w = Ok (r, w') /\ world_same w w'
    /\ sent (out w') = sent (out w) ++ (if passes (if_list w) s frame then [vns_message nm frame] else [])
    /\ (if passes (if_list w) s frame
        then exists k, r = (if os_write k (len + 24) <? len + 24 then -1 else 0)
        else r = -1).
Proof.
  intros Hi Hn Hl len. destruct (send_spec w frame len iface s nm Hi Hn Hl) as (r & w' & H); [lia|].
  unfold len in *. rewrite Nat2Z.id, firstn_all in H. by exists r, w'.
Qed.

Lemma send_packet_correct_witness :
  let frame := arp_request_frame eth2 (ip4 10 0 2 2) in
  let len := Z.of_nat (length frame) in
  exists r w', sr_send_packet frame len (name_bytes eth2_name) demo_world = Ok (r, w')
    /\ world_same demo_world w'
    /\ sent (out w') = [] ++ [vns_message (take 16 (name_bytes eth2_name)) frame]
    /\ exists k, r = (if os_write k (len + 24) <? len + 24 then -1 else 0).
Proof.
  apply (send_packet_correct demo_world (arp_request_frame eth2 (ip4 10 0 2 2)) (name_bytes eth2_name) eth2_name
    (take 16 (name_bytes eth2_name))); [apply demo_can_send|by constructor|by vm_compute].
Defined.

(** ** Off the path *)

(** C40: a packet for somebody else that arrives with a hop count of 0, on which
    forwarding should end, is sent on with a hop count of 255.  (It has a route and
    the address of its next hop is known, or it would be refused or would wait.) *)
Theorem ttl_zero_forwarded {os : OS} w q interface s nm i e h payload r entry :
  world_ok w q -> iface_named interface s nm -> find_if (if_list w) s = Some i ->
  eth_hdr_ok e -> ip_hdr_ok h -> bytes_ok (encode_eth e) -> bytes_ok payload ->
  (8 <= length payload)%nat -> Z.of_nat (length payload) < 65000 ->
  ip_sum_ok h = true -> i_ttl h = 0 -> get_dst_interface (if_list w) (i_dst h) = None ->
  sr_longest_prefix_match (routing_table w) (i_dst h) = Some r ->
  sr_arpcache_lookup (cache w) (rt_gw r) = Some entry ->
  exists w', handle_ip_packet (encode_eth e ++ encode_ip h ++ payload) (34 + Z.of_nat (length payload))
               interface w = Ok (tt, w')
    /\ sent (out w') = sent (out w) ++ msg_out (if_list w) (rt_interface r)
         (fun o => forward_frame o (ae_mac entry) e (seal_ip (set_ttl h 255)) payload).
Proof.
  intros Hw Hn Hf He Hh Hbe Hb H8 Hmax Hsum Ht Hd Hr Hl.
  pose proof (handle_ip_refines w q interface s nm i e h payload Hw Hn Hf He Hh Hbe Hb H8 Hmax) as H.
  cbv zeta in H. unfold wild_death, icmp_answered in H. rewrite Hd, Hr, Ht, andb_false_r in H.
  destruct H as (w' & E & Hh'). exists w'. split; [done|]. rewrite (hd_sent _ _ _ _ Hh').
  unfold spec_ip, spec_transit, spec_forward. rewrite Hsum, Hd, Ht, Hr, Hl. done.
Qed.

Lemma ttl_zero_forwarded_witness :
  let entry := SrArpentry hop_mac (ip4 10 0 2 2) 1000 true in
  let w := set_cache demo_world (set_entries sr_arpcache_init (entry :: replicate 99 (SrArpentry (replicate 6 0) 0 0 false))) in
  let e := demo_eth ethertype_ip in
  let h := demo_ip 17 (ip4 10 0 2 2) 0 in
  exists w', handle_ip_packet (encode_eth e ++ encode_ip h ++ demo_payload)
               (34 + Z.of_nat (length demo_payload)) (name_bytes eth1_name) w = Ok (tt, w')
    /\ sent (out w') = sent (out w) ++ msg_out (if_list w) (rt_interface route2)
         (fun o => forward_frame o (ae_mac entry) e (seal_ip (set_ttl h 255)) demo_payload).
Proof.
  intros entry w e h.
  apply (ttl_zero_forwarded w [] (name_bytes eth1_name) eth1_name (take 16 (name_bytes eth1_name)) eth1
    e h demo_payload route2 entry); try done; try (by vm_compute); try (by apply bytes_dec).
  - apply (world_ok_cache _ [] _ _ demo_ok).
    + apply (set_entries_rep _ _ _ _ (wok_rep _ _ demo_ok)). done.
    + cbn [entries set_entries]. apply Forall_cons. split; [split; [done|by apply bytes_dec]|].
      apply Forall_replicate. split; [done|by apply bytes_dec].
    + apply (wok_queue _ _ demo_ok).
    + done.
Defined.

(** C39: answering a packet of less than 8 bytes of payload with an ICMP error
    reads beyond the end of the packet. *)
Theorem short_error_overread {os : OS} w packet interface s type code ipo :
  ifs_ok (if_list w) -> name_of interface = Ok s -> (34 <= length packet < 42)%nat -> type <> 0 ->
  send_icmp_response packet (Z.of_nat (length packet)) interface type code ipo w = Fault OutOfBounds.
Proof.
  intros Hi Hn Hl Ht. unfold send_icmp_response.
  rewrite (proj2 (Z.ltb_ge _ _)) by (change (Z.of_nat (Eth.size + Ip.size)) with 34; lia).
  apply sbind_fault. unfold icmp_response. rewrite sget_step. unfold slift.
  unfold build_icmp_response. rewrite (sr_get_interface_spec _ _ _ Hi Hn). cbn [bind].
  rewrite (proj2 (Z.eqb_neq type 0)) by done.
  change (Z.to_nat (Z.of_nat (IcmpT3.size + Eth.size + Ip.size))) with 70%nat.
  assert (E : fill_error (calloc 70) packet type code = Fault OutOfBounds).
  { unfold fill_error, store16, store8. rewrite store_ok by (vm_compute; lia). cbn [bind].
    do 3 (rewrite store_ok by (rewrite !length_app, ?length_take, ?length_drop; vm_compute; lia); cbn [bind]).
    by rewrite load_oob by (change (Eth.size + ICMP_DATA_SIZE)%nat with 42%nat; lia). }
  by rewrite E.
Qed.

Lemma short_error_overread_witness :
  send_icmp_response (take 41 (demo_frame 17 (ip4 8 8 8 8) 64)) (Z.of_nat 41) (name_bytes eth1_name) 3 0 None demo_world
  = Fault OutOfBounds.
Proof.
  apply (short_error_overread demo_world (take 41 (demo_frame 17 (ip4 8 8 8 8) 64)) (name_bytes eth1_name) eth1_name 3 0 None);
    [apply demo_ifs_ok|done|vm_compute; lia|done].
Defined.
