(* ===== verification/SessionTheorems.v ===== *)
(** * SessionTheorems: the hash, the connection and the program

    The main theorems about sha1.c, sr_vns_comm.c and sr_main.c: the hash is
    the standard's, commands are read whole whatever the stream does, each
    command does what it says, and the program, with both its threads, serves a
    session and ends with it. *)

From Stdlib Require Import Ascii.
From stdpp Require Import strings.
From S2P Require Import Prelude Memory Protocol Utils Iface Rt ArpCache Dump World ArpHandler Router RouterSpec Handlers Safety Sha1 Vns VnsSpec Options Main SessionSafety MainSpec Threads Alone Interleave ThreadsOk CommandsOk Running Program Fixture.

(** ** Data for the instances *)
Definition demo_session (w : world) (i : list rx) : session :=
  Session w i true None ([117; 49] ++ replicate 30 0) ([118] ++ replicate 31 0) (0 :: replicate 29 0) 7.

(** A command in one piece, and cut into two with a signal between. *)
Definition one_piece (m : list Z) : list rx := [Data m].
Definition two_pieces (m : list Z) : list rx := [Data (take 3 m); Eintr; Data (drop 3 m)].

Lemma delivers_one m rest : m <> [] -> delivers (one_piece m ++ rest) m rest.
Proof. intros H. rewrite <- (app_nil_r m) at 2. apply dl_data; [done|constructor]. Qed.
Lemma delivers_two m rest : (3 < length m)%nat -> delivers (two_pieces m ++ rest) m rest.
Proof.
  intros H. assert (Hd : drop 3 m <> []).
  { intros Hn. assert (E : length (drop 3 m) = (length m - 3)%nat) by apply length_drop. rewrite Hn in E. simpl in E. lia. }
  cut (delivers (two_pieces m ++ rest) (take 3 m ++ drop 3 m ++ []) rest); [by rewrite app_nil_r, take_drop|].
  apply dl_data; [destruct m; [simpl in H; lia|done]|]. apply dl_eintr; [by rewrite app_nil_r|].
  apply dl_data; [done|constructor].
Qed.

(** A context as it comes off the stack. *)
Definition raw_ctx : SHA1Context := SHA1Ctx [] 5 6 (replicate 64 255) 9 true true.

(** ** The hash *)

(** C24: resetting a context, feeding a message in pieces of any sizes and
    asking for the result gives the SHA-1 hash of FIPS 180-4 of the whole
    message, for messages of less than 2^64 bits; no index leaves the block and
    the context is not corrupted. *)
Theorem sha1_conforms c chunks :
  length (Message_Block c) = 64%nat -> bytes_ok (Message_Block c) -> Forall bytes_ok chunks ->
  8 * Z.of_nat (length (mjoin chunks)) < 2 ^ 64 ->
  exists c', sha1_run c chunks = Ok (true, c') /\ Message_Digest c' = Fips.sha1 (mjoin chunks)
    /\ Computed c' = true.
Proof. apply sha1_run_spec. Qed.

Lemma sha1_conforms_witness :
  Fips.sha1 [97; 98; 99] = [2845392438; 1191608682; 3124634993; 2018558572; 2630932637]
  /\ exists c', sha1_run raw_ctx [[97; 98]; []; [99]] = Ok (true, c')
       /\ Message_Digest c' = Fips.sha1 (mjoin [[97; 98]; []; [99]]) /\ Computed c' = true.
Proof.
  split; [by vm_compute|]. apply (sha1_conforms raw_ctx [[97; 98]; []; [99]]).
  - done.
  - by apply bytes_dec.
  - repeat (apply Forall_cons; split; [by apply bytes_dec|]). done.
  - done.
Defined.

(** ** Reading commands *)

(** C23: a command of up to 10000 bytes is read whole and handed on, however the
    stream cuts it up and wherever signals interrupt; what follows it on the
    stream is left there. *)
Theorem command_framing {os : OS} {net : Net} fuel s command body rest :
  Z.of_nat (length body) <= 9992 -> 0 <= command < 2147483648 ->
  delivers (input s) (command_bytes command body) rest -> (length (input s) < fuel)%nat ->
  sr_read_from_server fuel s
  = dispatch (received_bytes command body) (8 + Z.of_nat (length body)) command (set_input s rest).
Proof. intros Hl Hc Hd Hf. by apply (expect_ok fuel s command body rest 0 Hl Hc (or_introl eq_refl) Hd Hf). Qed.

Lemma command_framing_witness :
  let m := command_bytes VNSBANNER [72; 105; 0] in
  sr_read_from_server 4 (demo_session demo_world (two_pieces m ++ []))
  = Ok (1, demo_session demo_world []).
Proof.
  intros m. rewrite (command_framing 4 (demo_session demo_world (two_pieces m ++ [])) VNSBANNER [72; 105; 0] []);
    [by vm_compute|done|done|by apply delivers_two; vm_compute; lia|vm_compute; lia].
Defined.

(** C37: when the server closes the connection before a whole command has
    arrived, be it in front of the command, in its length word or in its body,
    reading never ends: the loops take a read of 0 bytes for progress. *)
Theorem closed_connection_spins {os : OS} {net : Net} fuel s command body m k r :
  Z.of_nat (length body) <= 9992 -> m `prefix_of` command_bytes command body ->
  (length m < length (command_bytes command body))%nat ->
  delivers (input s) m (replicate k Eintr ++ Eof :: r) ->
  sr_read_from_server fuel s = Fault Diverges.
Proof. intros Hl Hp Hlt Hd. by apply (closed_spins fuel s command body m k r 0 Hl Hp Hlt Hd). Qed.

Lemma closed_connection_spins_witness :
  sr_read_from_server 1000 (demo_session demo_world
     (one_piece (take 6 (command_bytes VNSCLOSE [0])) ++ replicate 2 Eintr ++ [Eof])) = Fault Diverges.
Proof.
  apply (closed_connection_spins 1000 (demo_session demo_world
     (one_piece (take 6 (command_bytes VNSCLOSE [0])) ++ replicate 2 Eintr ++ [Eof]))
     VNSCLOSE [0] (take 6 (command_bytes VNSCLOSE [0])) 2 []).
  - done.
  - apply prefix_take.
  - vm_compute. lia.
  - by apply delivers_one.
Defined.

(** C38: lengths that cannot be right.  A command whose length is over 10000, or
    negative as an [int], is refused: the result is -1, the socket is closed, and
    the router is as before.  One that gives a length below 8 makes the code write
    or read outside the block it allocated. *)
Theorem bad_lengths {os : OS} {net : Net} fuel s n body rest expected :
  u32_ok n -> delivers (input s) (be_bytes4 n ++ body) rest -> (length (input s) < fuel)%nat ->
  (body = [] -> 10000 < s32 n \/ s32 n < 0 ->
     exists s', sr_read_from_server_expect fuel expected s = Ok (-1, s') /\ sock_open s' = false /\ sr s' = sr s)
  /\ (n < 8 -> length body = Z.to_nat (n - 4) ->
     sr_read_from_server_expect fuel expected s = Fault OutOfBounds).
Proof.
  intros Hn Hd Hf. split.
  - intros -> Hbad. rewrite app_nil_r in Hd. by eapply bad_length.
  - intros H8 Hl. eapply short_command; [|exact Hl|exact Hd|exact Hf]. unfold u32_ok in Hn. lia.
Qed.

Lemma bad_lengths_witness :
  (exists s', sr_read_from_server_expect 2 0 (demo_session demo_world (one_piece (be_bytes4 4294967295 ++ []) ++ []))
     = Ok (-1, s') /\ sock_open s' = false /\ sr s' = demo_world)
  /\ sr_read_from_server_expect 2 0 (demo_session demo_world (one_piece (be_bytes4 5 ++ [1]) ++ [])) = Fault OutOfBounds.
Proof.
  split.
  - destruct (bad_lengths 2 (demo_session demo_world (one_piece (be_bytes4 4294967295 ++ []) ++ [])) 4294967295 [] [] 0)
      as [H _]; [done|by apply delivers_one|simpl; lia|]. apply H; [done|by right].
  - destruct (bad_lengths 2 (demo_session demo_world (one_piece (be_bytes4 5 ++ [1]) ++ [])) 5 [1] [] 0)
      as [_ H]; [done|by apply delivers_one|simpl; lia|]. by apply H.
Defined.

(** ** The commands *)

(** C22: the hardware description: up to 92 interfaces, each given by its name
    (which ends within its 32 bytes), its Ethernet address and its IP address,
    are added to the interface list in order, and nothing else of the router
    changes.  The list is printed, so the names already in it must end too. *)
Theorem hwinfo_builds_interfaces {os : OS} w ifs :
  Forall if_described ifs -> (length ifs <= 92)%nat -> Forall (fun i => is_Ok (sr_print_if i)) (if_list w) ->
  exists l w', sr_handle_hwinfo (received_bytes VNSHWINFO (entries_bytes (describe ifs))) w
      = Ok (3 * Z.of_nat (length ifs), w')
    /\ if_list w' = if_list w ++ l /\ Forall2 same_if ifs l /\ ifs_only w w'.
Proof. apply hwinfo_spec. Qed.

Lemma hwinfo_builds_interfaces_witness :
  exists l w', sr_handle_hwinfo (received_bytes VNSHWINFO (entries_bytes (describe [eth1; eth2])))
      (set_ifs demo_world []) = Ok (3 * Z.of_nat (length [eth1; eth2]), w')
    /\ if_list w' = [] ++ l /\ Forall2 same_if [eth1; eth2] l /\ ifs_only (set_ifs demo_world []) w'.
Proof.
  apply (hwinfo_builds_interfaces (set_ifs demo_world []) [eth1; eth2]); [|simpl; lia|done].
  rewrite !Forall_cons. split_and!; [|  |done].
  - constructor; [apply eth1_ok|done|by eexists].
  - constructor; [apply eth2_ok|done|by eexists].
Defined.

(** The answer to a challenge carries the user name and the SHA-1 hash of
    the salt followed by the 64 bytes of the key buffer; a first line of the key
    file shorter than that leaves stack contents in the hash. *)
Theorem auth_reply_carries_hash {os : OS} {net : Net} w user name salt fp :
  bytes_ok (os_malloc (ticks w)) -> net_auth_key = Some fp -> (fgets 64 fp).1 <> [] ->
  bytes_ok salt -> bytes_ok (key_bytes (os_malloc (ticks w)) (fgets 64 fp).1) ->
  Z.of_nat (length salt) <= 9992 -> cstring user = Ok name ->
  let digest := Fips.sha1 (salt ++ key_bytes (os_malloc (ticks w)) (fgets 64 fp).1) in
  let reply := auth_reply_bytes name digest in
  exists w', sr_handle_auth_request user (received_bytes VNS_AUTH_REQUEST salt) w
      = Ok (if net_send (ticks w) (32 + Z.of_nat (length name)) =? 32 + Z.of_nat (length name)
            then 1 else 0, w')
    /\ world_same w w' /\ sent (out w') = sent (out w) ++ [reply].
Proof. apply auth_request_spec. Qed.

Lemma auth_reply_carries_hash_witness :
  key_bytes [] (fgets 64 (replicate 64 107)).1 = replicate 64 107
  /\ exists w', sr_handle_auth_request [117; 49; 0] (received_bytes VNS_AUTH_REQUEST [1; 2; 3]) demo_world
       = Ok (if net_send (ticks demo_world) (32 + Z.of_nat (length [117; 49])) =? 32 + Z.of_nat (length [117; 49])
             then 1 else 0, w')
     /\ world_same demo_world w'
     /\ sent (out w') = sent (out demo_world)
          ++ [auth_reply_bytes [117; 49] (Fips.sha1 ([1; 2; 3] ++ key_bytes (os_malloc (ticks demo_world)) (fgets 64 (replicate 64 107)).1))].
Proof.
  split; [by vm_compute|].
  apply (auth_reply_carries_hash demo_world [117; 49; 0] [117; 49] [1; 2; 3] (replicate 64 107));
    [done|done|done|by apply bytes_dec|by apply bytes_dec|done|done].
Defined.

(** [sr_arp_req_not_for_us], which keeps a packet from the handlers, holds
    exactly of ARP requests for another address than the interface's. *)
Theorem arp_filter_exact {os : OS} w e a rest iface s nm i :
  ifs_ok (if_list w) -> iface_named iface s nm -> find_if (if_list w) s = Some i ->
  eth_hdr_ok e -> arp_hdr_ok a -> e_type e = ethertype_arp ->
  sr_arp_req_not_for_us (encode_eth e ++ encode_arp a ++ rest) (42 + Z.of_nat (length rest)) iface w
  = Ok ((a_op a =? arp_op_request) && negb (a_tip a =? if_ip i), w).
Proof. apply arp_check_spec. Qed.

Lemma arp_filter_exact_witness :
  let a := demo_arp arp_op_request host_mac (ip4 10 0 1 100) (ip4 10 0 1 1) in
  sr_arp_req_not_for_us (encode_eth (demo_eth ethertype_arp) ++ encode_arp a ++ []) (42 + Z.of_nat (length (@nil Z)))
    (name_bytes eth1_name) demo_world
  = Ok ((a_op a =? arp_op_request) && negb (a_tip a =? if_ip eth1), demo_world).
Proof.
  apply (arp_filter_exact demo_world (demo_eth ethertype_arp)
    (demo_arp arp_op_request host_mac (ip4 10 0 1 100) (ip4 10 0 1 1)) [] (name_bytes eth1_name) eth1_name
    (take 16 (name_bytes eth1_name)) eth1);
    [apply demo_ifs_ok|by constructor|done|by constructor|by apply demo_arp_ok|done].
Defined.

(** ** The session *)

(** C21: opening a session without a template: the challenge is answered, the
    status is accepted, and then the opening message with the topology, the
    host and the user is sent; these two messages and no others, in that
    order, and what follows on the stream is left there. *)
Theorem session_opens {os : OS} {net : Net} fuel port server s name salt fp i1 ok msg i2 h u :
  auth_exchange port server (user s) (input s) name salt fp i1 ok msg i2 -> (length (input s) < fuel)%nat ->
  strlen (template s) = Ok 0%nat -> strncpy 32 (host s) = Ok h -> strncpy 32 (user s) = Ok u ->
  exists s', sr_connect_to_server fuel port server s = Ok (0, s') /\ input s' = i2 /\ world_same (sr s) (sr s')
    /\ sent (out (sr s')) = sent (out (sr s))
        ++ [auth_reply_bytes name (Fips.sha1 (salt ++ key_bytes (os_malloc (ticks (sr s))) (fgets 64 fp).1));
            be_bytes4 108 ++ be_bytes4 VNSOPEN ++ be_bytes2 (topo_id s) ++ [0; 0] ++ h ++ u ++ replicate 32 0].
Proof.
  intros Ha Hf Ht Hh Hu. destruct (connect_auth fuel port server s _ _ _ _ _ _ _ Ha Hf) as (w1 & E1 & Hw1 & Ho1).
  destruct (open_session_ok fuel (set_input (set_sr (set_sock s true) w1) i2) h u (ax_send _ _ _ _ _ _ _ _ _ _ _ Ha) Ht Hh Hu)
    as (w2 & E2 & Hw2 & Ho2).
  eexists. rewrite E1. split; [exact E2|]. split_and!; [done|by etransitivity|].
  cbn [sr set_sr set_input] in *. by rewrite Ho2, Ho1, <- app_assoc.
Qed.

Lemma session_opens_witness :
  let i1 := one_piece (command_bytes VNS_AUTH_STATUS [1]) ++ [] in
  let s := demo_session demo_world (two_pieces (command_bytes VNS_AUTH_REQUEST [1; 2]) ++ i1) in
  exists s', sr_connect_to_server 9 8888 DEFAULT_SERVER s = Ok (0, s') /\ input s' = [] /\ world_same (sr s) (sr s')
    /\ sent (out (sr s')) = sent (out (sr s))
        ++ [auth_reply_bytes [117; 49]
              (Fips.sha1 ([1; 2] ++ key_bytes (os_malloc (ticks (sr s))) (fgets 64 (replicate 64 107)).1));
            be_bytes4 108 ++ be_bytes4 VNSOPEN ++ be_bytes2 (topo_id s) ++ [0; 0]
              ++ ([118] ++ replicate 31 0) ++ ([117; 49] ++ replicate 30 0) ++ replicate 32 0].
Proof.
  intros i1 s.
  apply (session_opens 9 8888 DEFAULT_SERVER s [117; 49] [1; 2] (replicate 64 107) i1 1 [] [] ([118] ++ replicate 31 0)
    ([117; 49] ++ replicate 30 0)); [|vm_compute; lia|done|done|done].
  constructor; try done; try (by apply bytes_dec).
  - by apply delivers_two; vm_compute; lia.
  - by apply delivers_one.
Defined.

(** Opening a session with a template: after the same authentication the
    template message is sent, and the routing table the server answers with is
    written, as it came, to the file "rtable." followed by the host's name. *)
Theorem template_session_opens {os : OS} {net : Net} fuel port server s name salt fp i1 ok msg i2 k t h id vh text i3 :
  auth_exchange port server (user s) (input s) name salt fp i1 ok msg i2 -> (length (input s) < fuel)%nat ->
  strlen (template s) = Ok (S k) -> strncpy 30 (template s) = Ok t -> strncpy 32 (host s) = Ok h ->
  delivers i2 (command_bytes VNS_RTABLE (id ++ text)) i3 ->
  length id = 32%nat -> cstring id = Ok vh -> Z.of_nat (length text) <= 9960 ->
  let fn := [114; 116; 97; 98; 108; 101; 46] ++ vh in
  net_fopen_w fn = true ->
  exists s', sr_connect_to_server fuel port server s = Ok (0, s') /\ input s' = i3 /\ world_same (sr s) (sr s')
    /\ sent (out (sr s')) = sent (out (sr s))
        ++ [auth_reply_bytes name (Fips.sha1 (salt ++ key_bytes (os_malloc (ticks (sr s))) (fgets 64 fp).1));
            be_bytes4 70 ++ be_bytes4 VNS_OPEN_TEMPLATE ++ t ++ h]
    /\ rtable_file s' = Some (fn, text).
Proof.
  intros Ha Hf Hk Ht Hh Hd Hid Hv Hl fn Hfo.
  destruct (connect_auth fuel port server s _ _ _ _ _ _ _ Ha Hf) as (w1 & E1 & Hw1 & Ho1).
  pose proof (delivers_length _ _ _ (ax_request _ _ _ _ _ _ _ _ _ _ _ Ha)) as L1.
  pose proof (delivers_length _ _ _ (ax_status _ _ _ _ _ _ _ _ _ _ _ Ha)) as L2.
  destruct (open_template_ok fuel (set_input (set_sr (set_sock s true) w1) i2) k t h id vh text i3
    (ax_send _ _ _ _ _ _ _ _ _ _ _ Ha) Hk Ht Hh Hd ltac:(cbn; lia) Hid Hv Hl Hfo) as (s2 & E2 & Hw2 & Ho2 & Hr & Hi & _).
  exists s2. rewrite E1. split_and!; [done|done|by etransitivity| |done].
  cbn [sr set_sr set_input] in *. by rewrite Ho2, Ho1, <- app_assoc.
Qed.

Lemma template_session_opens_witness :
  let i2 := one_piece (command_bytes VNS_RTABLE (([118] ++ replicate 31 0) ++ [49; 10])) ++ [] in
  let i1 := one_piece (command_bytes VNS_AUTH_STATUS [1]) ++ i2 in
  let i := two_pieces (command_bytes VNS_AUTH_REQUEST [1; 2]) ++ i1 in
  let s := Session demo_world i true None ([117; 49] ++ replicate 30 0) ([118] ++ replicate 31 0)
             ([116] ++ replicate 29 0) 7 in
  exists s', sr_connect_to_server 9 8888 DEFAULT_SERVER s = Ok (0, s') /\ input s' = [] /\ world_same (sr s) (sr s')
    /\ sent (out (sr s')) = sent (out (sr s))
        ++ [auth_reply_bytes [117; 49]
              (Fips.sha1 ([1; 2] ++ key_bytes (os_malloc (ticks (sr s))) (fgets 64 (replicate 64 107)).1));
            be_bytes4 70 ++ be_bytes4 VNS_OPEN_TEMPLATE ++ ([116] ++ replicate 29 0) ++ ([118] ++ replicate 31 0)]
    /\ rtable_file s' = Some ([114; 116; 97; 98; 108; 101; 46] ++ [118], [49; 10]).
Proof.
  intros i2 i1 i s.
  apply (template_session_opens 9 8888 DEFAULT_SERVER s [117; 49] [1; 2] (replicate 64 107) i1 1 [] i2 0 ([116] ++ replicate 29 0)
    ([118] ++ replicate 31 0) ([118] ++ replicate 31 0) [118] [49; 10] []);
    [|vm_compute; lia|done|done|done|by apply delivers_one|done|done|done|done].
  constructor; try done; try (by apply bytes_dec).
  - by apply delivers_two; vm_compute; lia.
  - by apply delivers_one.
Defined.

(** C12: whole commands and whole turns of the cleanup thread, in any order, as
    long as each returns, keep the router in order: its queue, its table, its
    routes and the interfaces they name.  A command has at most 9992 bytes after
    its head, and one that is to carry a packet at least 58 (the name of the
    interface and a frame of 42); otherwise its type, known or not (but not
    negative as an int), and its contents are arbitrary: hardware descriptions of any kind, packets from
    interfaces that do not exist, texts without an end.  Those that would break
    the invariant do not return: they kill the program. *)
Theorem sessions_keep_invariant {os : OS} {net : Net} s q s' :
  (forall k, bytes_ok (os_malloc k)) -> world_ok (sr s) q -> rtc whole_step s s' ->
  exists q', world_ok (sr s') q'.
Proof. intros Hj Hw Hr. apply (whole_steps_keep_order Hj s s' Hr). by exists q. Qed.

(** A packet, the description of a third interface, a command that does not
    exist, and a turn. *)
Definition eth3 : sr_if := SrIf (name_bytes [101; 116; 104; 51]) [2; 0; 0; 0; 3; 1] (ip4 10 0 3 1) 0.
Definition eth3_body : list Z := entries_bytes (describe [eth3]).
Definition echo_packet : list Z := take 16 (name_bytes eth1_name) ++ demo_frame 1 (ip4 10 0 1 1) 64.
Definition strange : list rx := one_piece (command_bytes 77 [1; 2]) ++ [].
Definition third : list rx := one_piece (command_bytes VNSHWINFO eth3_body) ++ strange.
Definition three_commands : session := demo_session demo_world (two_pieces (command_bytes VNSPACKET echo_packet) ++ third).

Definition after_command (s : session) : session :=
  match sr_read_from_server 9 s with Ok (_, s') => s' | Fault _ => s end.
Definition after_turn (s : session) : session :=
  match sr_arpcache_timeout_turn (sr s) with Ok (_, w) => set_sr s w | Fault _ => s end.

Lemma demo_commands_ok : command_ok VNSPACKET echo_packet /\ command_ok VNSHWINFO eth3_body /\ command_ok 77 [1; 2].
Proof.
  split_and!; constructor; try (by apply bytes_dec); try (by vm_compute); try done.
Qed.

Lemma demo_whole_steps :
  rtc whole_step three_commands (after_turn (after_command (after_command (after_command three_commands)))).
Proof.
  destruct demo_commands_ok as (H1 & H2 & H3).
  apply rtc_l with (after_command three_commands).
  { apply (ws_command 9 _ VNSPACKET echo_packet third 1);
      [apply delivers_two; vm_compute; lia|exact H1|vm_compute; lia|by vm_compute]. }
  apply rtc_l with (after_command (after_command three_commands)).
  { apply (ws_command 9 _ VNSHWINFO eth3_body strange 1); [|exact H2|vm_compute; lia|by vm_compute].
    assert (E : input (after_command three_commands) = third) by by vm_compute. rewrite E. by apply delivers_one. }
  apply rtc_l with (after_command (after_command (after_command three_commands))).
  { apply (ws_command 9 _ 77 [1; 2] [] 1); [|exact H3|vm_compute; lia|by vm_compute].
    assert (E : input (after_command (after_command three_commands)) = strange) by by vm_compute.
    rewrite E. by apply delivers_one. }
  apply rtc_once. apply (ws_turn (after_command (after_command (after_command three_commands)))
    (sr (after_turn (after_command (after_command (after_command three_commands)))))). by vm_compute.
Qed.

Lemma sessions_keep_invariant_witness :
  let s' := after_turn (after_command (after_command (after_command three_commands))) in
  length (if_list (sr s')) = 3%nat /\ exists q', world_ok (sr s') q'.
Proof.
  intros s'. split; [by vm_compute|].
  exact (sessions_keep_invariant three_commands [] s' (fun k => List.Forall_nil _) demo_ok demo_whole_steps).
Defined.


Definition demo_routes : list sr_rt := [SrRt (ip4 1 2 3 0) (ip4 1 2 3 4) 0 (name_bytes eth1_name)].

Lemma demo_table : table_ok (render [Some demo_row]) demo_routes demo_ifs.
Proof.
  constructor; try done.
  - exists demo_row, []. split_and!; try done. apply Forall_singleton. apply demo_row_ok.
  - by apply Forall_replicate.
  - apply Forall_singleton. by exists eth1_name, eth1.
Defined.



(** The stack, and the stream from the challenge on. *)
Definition demo_stack (i : list rx) : session :=
  Session demo_world (two_pieces (command_bytes VNS_AUTH_REQUEST [1; 2]) ++
                      one_piece (command_bytes VNS_AUTH_STATUS [1]) ++ i) true None
    (replicate 32 7) (replicate 32 7) (replicate 30 7) 7.


(** sr -u u1 -t 7 -l d *)
Definition demo_argv : list (list Z) := map chars ["sr"; "-u"; "u1"; "-t"; "7"; "-l"; "d"]%string.
Definition demo_options : options :=
  Options DEFAULT_HOST (Some [117; 49]) DEFAULT_SERVER DEFAULT_RTABLE None 8888 7 (Some (chars "d")).






(** C29: the dump file, if it is a file of its own and not the standard output,
    on which the program prints too, is a tcpdump file.  After it was opened, and whatever
    packets and turns of the cleanup thread have come, a reader finds the file
    header with the right constants, and records all of whose bytes are there;
    one more packet adds its record: the time and the first 1024 bytes.  (The
    length in the record, too, is that of these bytes, not of the packet.) *)
Theorem dump_file_readable {os : OS} {net : Net} fname w w1 w2 :
  fname <> chars "-" -> logged (out w) = [] -> sr_dump_open fname 0 PACKET_DUMP_SIZE w = Ok (true, w1) -> rtc served_step w1 w2 ->
  exists rs, parse_dump (logged (out w2)) = Some (dump_header, rs)
    /\ Forall (fun r => ph_caplen r.1 = Z.of_nat (length r.2) /\ ph_len r.1 = ph_caplen r.1) rs
    /\ forall buf len, logfile w2 = Dumping -> 0 <= len <= Z.of_nat (length buf) ->
         exists w3, sr_log_packet buf len w2 = Ok (tt, w3)
           /\ parse_dump (logged (out w3))
              = Some (dump_header, rs ++ [packet_record (os_timeofday (ticks w2)) buf len]).
Proof.
  intros Hne H0 Ho Hr. pose proof (dump_open_logs fname w w1 Hne Ho) as E1. rewrite H0 in E1. cbn [app] in E1.
  destruct (served_orderly _ _ Hr) as (_ & _ & [_ (rs & E2 & Hrs)]). rewrite E1 in E2.
  assert (Hok : Forall record_ok rs) by (eapply Forall_impl; [exact Hrs|by intros r []]).
  exists rs. split_and!; [rewrite E2; by apply parse_dump_ok, Hok; apply dump_header_ok| |].
  - eapply Forall_impl; [exact Hrs|]. intros r [[] ?]. done.
  - intros buf len Hlog Hl. destruct (log_packet_record w2 buf len Hlog Hl) as (Hk & w3 & E3 & L3).
    exists w3. split; [done|]. rewrite L3, E2, <- app_assoc.
    rewrite <- (app_nil_r (encode_record _)).
    change (encode_record ?r ++ []) with (mjoin (encode_record <$> [r])). rewrite <- join_app, <- fmap_app.
    apply parse_dump_ok; [apply dump_header_ok|]. apply Forall_app. split; [done|by apply Forall_singleton].
Qed.

Lemma dump_file_readable_witness :
  let packet := take 16 (name_bytes eth1_name) ++ demo_frame 1 (ip4 10 0 1 1) 64 in
  exists w1 w2 rs, sr_dump_open (chars "d") 0 PACKET_DUMP_SIZE demo_world = Ok (true, w1)
    /\ handle_vnspacket (received_bytes VNSPACKET packet) 66 w1 = Ok (tt, w2)
    /\ parse_dump (logged (out w2)) = Some (dump_header, rs) /\ length rs = 2%nat.
Proof.
  intros packet. eexists. eexists. edestruct (dump_file_readable (chars "d") demo_world) as (rs & H & _).
  - done.
  - done.
  - by vm_compute.
  - apply rtc_once. eapply (ss_packet _ _ (received_bytes VNSPACKET packet) 66). by vm_compute.
  - exists rs. split; [by vm_compute|]. split; [by vm_compute|]. split; [exact H|].
    revert H. vm_compute. by intros [= <-].
Defined.

(** ** The command line *)

(** C31: the command line: of options with arguments, in any order and number,
    the last of each letter counts and the others have their defaults; -h,
    wherever it stands and whatever follows, ends the program with status 0
    before anything is done; and a numeral is the number it writes, if that is
    an int. *)
Theorem command_line_parsed argv0 l :
  Forall (fun o => o.1 ∈ with_argument) l ->
  command_line (argv0 :: option_words l) = Some (options_of default_options l)
  /\ (forall (os : OS) (net : Net) (hst : Host) w rest s,
        main (argv0 :: option_words l ++ (char "-" :: char "h" :: w) :: rest) s = Ok (Exited 0 s))
  /\ (forall ds, ds <> [] -> digits_ok ds -> value_of ds < 2 ^ 31 -> atoi (numeral ds) = value_of ds).
Proof.
  intros H. split_and!; [by apply command_line_words|..].
  - intros os net hst w rest s. unfold main, start_up. by rewrite command_line_help.
  - intros ds Hn Hd Hv. rewrite <- (app_nil_r (numeral ds)). by apply atoi_numeral.
Qed.

Lemma command_line_parsed_witness :
  let l := [(char "p", chars "80"); (char "v", chars "a"); (char "p", chars "8080")] in
  options_of default_options l = Options (chars "a") None DEFAULT_SERVER DEFAULT_RTABLE None 8080 0 None
  /\ command_line (chars "sr" :: option_words l) = Some (options_of default_options l).
Proof.
  intros l. split; [by vm_compute|]. apply (command_line_parsed (chars "sr") l).
  repeat (apply Forall_cons; split; [by vm_compute; set_solver|]). done.
Defined.

(** A start that fails ends the program with status 1 before any message is
    sent: the table file cannot be read, or the server is not found, there is no
    socket, or the connection is refused; the socket is closed then. *)
Theorem failed_start {os : OS} {net : Net} {hst : Host} argv o s :
  command_line argv = Some o -> arrays_ok s ->
  (o_template o = None -> read_file s (o_rtable o) = None ->
     exists s', main argv s = Ok (Exited 1 s') /\ sent (out (sr s')) = sent (out (sr s)))
  /\ (options_ok o -> table_given o s ->
     net_resolves (o_server o) && net_socket && net_connects (u16 (o_port o)) (o_server o) = false ->
     exists s', main argv s = Ok (Exited 1 s') /\ sent (out (sr s')) = sent (out (sr s)) /\ sock_open s' = false).
Proof.
  intros Hc Ha. unfold main. split.
  - intros Ht Hf. destruct (no_table_ok argv o s Hc Ha Ht Hf) as (s' & -> & H). by exists s'.
  - intros Ho Ht Hn. destruct (no_connection_ok argv o s Hc Ha Ho Ht Hn) as (s' & -> & H). by exists s'.
Qed.

Lemma failed_start_witness :
  let refuses := Build_Net (fun _ n => n) (fun _ => true) true (fun _ _ => false) None (fun _ => true) in
  exists s', main (net := refuses) demo_argv (demo_stack []) = Ok (Exited 1 s')
    /\ sent (out (sr s')) = [] /\ sock_open s' = false.
Proof.
  intros refuses.
  destruct (failed_start (net := refuses) demo_argv demo_options (demo_stack [])) as [_ H]; [done|by constructor|].
  apply H; [|right|done].
  - constructor; [repeat constructor; discriminate|repeat constructor; discriminate|simpl; lia|by right].
  - split; [done|]. exists (render [Some demo_row]), demo_routes, demo_ifs. split; [done|apply demo_table].
Defined.
