(* ===== verification/ThreadTheorems.v ===== *)
(** * ThreadTheorems: the two threads together

    What holds of every interleaving of the main thread, which obeys a
    well-behaved server ([read_fine]), and the cleanup thread: the invariant, the
    ways to a fault, no deadlock; what holds of the messages whatever the server
    sends; and the four races the code has: two because a request is retried
    outside the lock, two because nothing protects the dump file. *)

From S2P Require Import Prelude Memory Protocol Utils Iface Rt ArpCache Dump World ArpHandler Router RouterSpec Handlers Safety Wire Vns VnsSpec Main SessionSafety MainSpec Threads Alone Interleave ThreadsOk CommandsOk Running Speaks Program Fixture RouterTheorems SessionTheorems.

(** ** Schedules *)

(** A schedule of the two threads: the cleanup thread wakes up; the main thread
    has read the next command; a thread performs at most [n] actions. *)
Inductive move := Wake | Recv | Go (t : thread) (n : nat).

Fixpoint go (n : nat) (t : thread) (c : config) : config :=
  match n with
  | O => c
  | S n' => match step t c with Some (Ok c') => go n' t c' | _ => c end
  end.
Definition recv {os : OS} {net : Net} (c : config) : config :=
  match c_main c with
  | Done true => match read_command 9 (c_state c) with Ok (r, s) => obey c s r | _ => c end
  | _ => c
  end.
Definition play1 {os : OS} {net : Net} (c : config) (m : move) : config :=
  match m with
  | Wake => match exited c, c_cleanup c with false, Done true => wake c | _, _ => c end
  | Recv => recv c
  | Go t n => go n t c
  end.
Definition play {os : OS} {net : Net} (c : config) (ms : list move) : config := fold_left play1 ms c.

Section Play.
Context {os : OS} {net : Net}.

Lemma go_rtc server n t : forall c, rtc (cstep server) c (go n t c).
Proof.
  induction n as [|n IH]; intros c; cbn [go]; [done|].
  destruct (step t c) as [[c'|]|] eqn:E; [|done|done]. eapply rtc_l; [by eapply cstep_act|apply IH].
Qed.

Lemma play_app c ms ms' : play c (ms ++ ms') = play (play c ms) ms'.
Proof. apply fold_left_app. Qed.

(** Schedules in which nothing is read are runs. *)
Definition local (m : move) : bool := match m with Recv => false | _ => true end.

Lemma play_rtc server ms : forall c, forallb local ms = true -> rtc (cstep server) c (play c ms).
Proof.
  induction ms as [|m ms IH]; intros c H; [done|]. apply andb_true_iff in H as [Hm H]. cbn [play fold_left].
  etransitivity; [|by apply IH]. destruct m as [| |t n]; cbn [play1]; [|done|apply go_rtc].
  destruct (exited c) eqn:Ex; [done|]. destruct (c_cleanup c) as [[]| | |] eqn:E; try done. apply rtc_once. by constructor.
Qed.

Lemma play_reachable c ms : creachable c -> forallb local ms = true -> creachable (play c ms).
Proof. intros (s & Hs & Hr) H. exists s. split; [done|]. etransitivity; [exact Hr|by apply play_rtc]. Qed.

(** A command in one piece of the stream. *)
Lemma recv_cstep c command body rest :
  c_main c = Done true -> input (c_state c) = one_piece (command_bytes command body) ++ rest ->
  (length (one_piece (command_bytes command body) ++ rest) < 9)%nat ->
  command_fine (set_input (c_state c) rest) command body -> cstep read_fine c (recv c).
Proof.
  intros Hm Hi Hl Hf.
  assert (E : read_command 9 (c_state c)
    = Ok (Some (command_bytes command body, 8 + Z.of_nat (length body)), set_input (c_state c) rest)).
  { apply read_command_ok; [apply Hf|rewrite Hi; by apply delivers_one|by rewrite Hi]. }
  unfold recv. rewrite Hm, E. eapply cstep_command; [done|exact E|]. by exists command, body.
Qed.

Lemma recv_reachable c command body rest :
  creachable c -> c_main c = Done true -> input (c_state c) = one_piece (command_bytes command body) ++ rest ->
  (length (one_piece (command_bytes command body) ++ rest) < 9)%nat ->
  command_fine (set_input (c_state c) rest) command body -> creachable (recv c).
Proof.
  intros (s & Hs & Hr) Hm Hi Hl Hf. exists s. split; [done|]. eapply rtc_r; [exact Hr|by eapply recv_cstep].
Qed.
End Play.

(** The configurations of the fixture: a clock that ticks, the packets of a host
    to a next hop that does not answer, the description of a third interface, and
    the end. *)
Definition race_os : OS := {|
  os_time := fun k => 1000 + Z.of_nat k;
  os_write := fun _ n => n;
  os_malloc := fun _ => [];
  os_timeofday := fun _ => (1000, 0);
  os_wild_read := fun _ => true |}.

Lemma race_host : host_ok (os := race_os).
Proof.
  constructor; [intros k; constructor|]. intros fp [= <-]. by apply bytes_dec.
Qed.

Definition race_body : list Z := take 16 (name_bytes eth1_name) ++ demo_frame 17 (ip4 10 0 2 2) 64.
Definition piece (command : Z) (body : list Z) : list rx := one_piece (command_bytes command body).

Lemma race_frame_ok : frame_ok demo_world (demo_frame 17 (ip4 10 0 2 2) 64) race_body.
Proof.
  constructor; [by apply bytes_dec|by vm_compute|].
  exists eth1_name, (take 16 (name_bytes eth1_name)), eth1. split; [by constructor|done].
Qed.

Lemma race_fine s : if_list (sr s) = demo_ifs -> command_fine s VNSPACKET race_body.
Proof.
  intros Hi. constructor; try (by intros [?|?] || done || by apply bytes_dec).
  intros _. exists (take 16 (name_bytes eth1_name)), (demo_frame 17 (ip4 10 0 2 2) 64). split_and!; [done|done|].
  apply (frame_ok_ifs demo_world); [done|apply race_frame_ok].
Qed.


Lemma close_fine s : command_fine s VNSCLOSE [0].
Proof. constructor; try (by intros [?|?] || done || by apply bytes_dec). intros _. by eexists. Qed.

(** With a dump file or without one. *)
Definition logging_world : world :=
  match sr_dump_open [100] 0 PACKET_DUMP_SIZE demo_world with Ok (_, w) => w | Fault _ => demo_world end.
Definition race_start (w : world) (i : list rx) : config := cstart (demo_session w i).

Lemma race_booted w i : w = demo_world \/ w = logging_world -> booted (demo_session w i).
Proof.
  intros Hw. assert (E : if_list w = demo_ifs /\ routing_table w = [route2] /\ cache w = sr_arpcache_init)
    by by destruct Hw as [-> | ->]. destruct E as (E1 & E2 & E3).
  constructor; cbn [sr demo_session]; rewrite ?E1, ?E2, ?E3; try done.
  - apply demo_ifs_ok.
  - unfold demo_ifs. rewrite !Forall_cons. split_and!; [by eexists|by eexists|done].
  - by apply Forall_singleton.
  - right. apply Forall_singleton. by exists eth2_name, eth2.
  - by eexists.
Qed.

(** The first command, a packet, is obeyed; then [n] turns of the cleanup
    thread; then the next command is read. *)
Definition turns (n : nat) : list move := mjoin (replicate n [Wake; Go Cleanup 200]).
Definition first_packet (w : world) (i : list rx) (n : nat) : config :=
  play (os := race_os) (recv (os := race_os) (race_start w (piece VNSPACKET race_body ++ i))) (Go Main 100 :: turns n).
Definition second_command (w : world) (i : list rx) (n : nat) : config := recv (os := race_os) (first_packet w i n).

Lemma turns_local n : forallb local (turns n) = true.
Proof. unfold turns. by induction n. Qed.

Lemma first_packet_reachable w i n :
  w = demo_world \/ w = logging_world -> (length i < 8)%nat -> creachable (os := race_os) (first_packet w i n).
Proof.
  intros Hw Hi. apply play_reachable; [|apply turns_local].
  apply (recv_reachable (os := race_os) _ VNSPACKET race_body i); [|done|done|simpl; lia|].
  - exists (demo_session w (piece VNSPACKET race_body ++ i)). split; [by apply race_booted|done].
  - apply race_fine. by destruct Hw as [-> | ->].
Qed.

Lemma second_command_reachable w i n command body :
  w = demo_world \/ w = logging_world -> (length i < 7)%nat ->
  c_main (first_packet w (piece command body ++ i) n) = Done true ->
  input (c_state (first_packet w (piece command body ++ i) n)) = piece command body ++ i ->
  command_fine (set_input (c_state (first_packet w (piece command body ++ i) n)) i) command body ->
  creachable (os := race_os) (second_command w (piece command body ++ i) n).
Proof.
  intros Hw Hi Hm Hin Hf. eapply (recv_reachable (os := race_os)); [|done|exact Hin|simpl; lia|done].
  apply first_packet_reachable; [done|simpl; lia].
Qed.

(** A second packet, with three or four turns before it. *)
Definition second_packet (n : nat) : config := second_command demo_world (piece VNSPACKET race_body ++ []) n.

Lemma second_packet_reachable n : n = 3%nat \/ n = 4%nat -> creachable (os := race_os) (second_packet n).
Proof.
  intros Hn. unfold second_packet.
  destruct Hn as [-> | ->]; (apply second_command_reachable; [by left|simpl; lia|by vm_compute|by vm_compute|]);
    apply race_fine; by vm_compute.
Qed.



(** What a thread has still to do. *)
Definition is_done (p : prog session bool) : bool := match p with Done _ => true | _ => false end.

(** Faults of the next action of a thread. *)
Definition step_fault (t : thread) (c : config) : option fault :=
  match step t c with Some (Fault f) => Some f | _ => None end.

Lemma step_fault_Some t c f : step_fault t c = Some f -> step t c = Some (Fault f).
Proof. unfold step_fault. by destruct (step t c) as [[|]|]; intros [= ->] || done. Qed.

Lemma step_succeeds t c :
  match step t c with Some (Ok _) => true | _ => false end = true -> exists c', step t c = Some (Ok c').
Proof. destruct (step t c) as [[c'|]|]; [by exists c'|done|done]. Qed.

(** ** Every interleaving *)





(** Schedules all of whose states are calm. *)
#[export] Instance calm_dec w : Decision (calm w).
Proof. unfold calm. apply _. Defined.






(** C8: neither thread waits for ever.  In every configuration the router reaches
    against a well-behaved server, a thread with something to do that cannot act
    waits for the lock, the other thread holds it, and a finite number of actions
    of the other frees it, unless they die in a use after free or end the
    program. *)
Theorem no_deadlock {os : OS} {net : Net} c t :
  host_ok -> creachable c -> exited c = false -> is_done (c_prog c t) = false -> step t c = None ->
  exists n, match steps n (other t) c with
    | Some (Ok c') => exited c' = true \/ is_Some (step t c')
    | Some (Fault f) => f = UseAfterFree
    | None => False
    end.
Proof.
  intros Hhost Hr Hx Hne E. destruct (creachable_good Hhost c Hr) as (g & dumps & Hg & _).
  assert (Hk : exists k, c_prog c t = Acquire k /\ (0 < depth (other t) (c_lock c))%nat).
  { pose proof (cok_lock _ _ _ _ _ _ Hg) as Hl. unfold step in E. rewrite Hx in E.
    destruct (c_prog c t) as [b|X m k|k|k]; [done|done| |done]. exists k. split; [done|].
    unfold acquire, depth, lock_ok in *. destruct (c_lock c) as [[o n]|]; [|done].
    repeat case_decide; try done. by destruct o, t. }
  destruct Hk as (k & Ep & Hd). destruct (lock_freed _ dumps (other t) _ c g Hg eq_refl Hd Hx) as [n Hn].
  exists n. destruct (steps n (other t) c) as [[c'|f]|]; [|done|done]. destruct Hn as [El Ep'].
  assert (Eo : other (other t) = t) by by destruct t. rewrite Eo, Ep in Ep'.
  destruct (exited c') eqn:Ex; [by left|right]. unfold step. rewrite Ex, Ep', El. cbn. by eexists.
Qed.

(** The cleanup thread has the lock and the main thread asks for it. *)
Definition waiting : config := play (os := race_os) (second_packet 3) [Go Main 9; Wake; Go Cleanup 3].

Lemma waiting_reachable : creachable (os := race_os) waiting.
Proof. apply play_reachable; [apply second_packet_reachable; by left|done]. Qed.

Definition is_blocked (t : thread) (c : config) : bool :=
  match step t c with None => negb (exited c) && negb (is_done (c_prog c t)) | _ => false end.

Lemma is_blocked_true t c :
  is_blocked t c = true -> exited c = false /\ is_done (c_prog c t) = false /\ step t c = None.
Proof.
  unfold is_blocked. destruct (step t c); [done|].
  intros [H1%negb_true_iff H2%negb_true_iff]%andb_true_iff. done.
Qed.

Lemma no_deadlock_witness :
  is_blocked Main waiting = true
  /\ exists n, match steps n (other Main) waiting with
    | Some (Ok c') => exited c' = true \/ is_Some (step Main c')
    | Some (Fault f) => f = UseAfterFree
    | None => False
    end.
Proof.
  assert (H : is_blocked Main waiting = true) by by vm_compute. split; [exact H|].
  destruct (is_blocked_true _ _ H) as (H0 & H1 & H2).
  apply (no_deadlock (os := race_os) waiting Main);
    [apply race_host|apply waiting_reachable|exact H0|exact H1|exact H2].
Defined.

(** C9: whatever the server sends, well-formed or not, and however the threads
    interleave, every message the router writes is the reply to an authentication
    request, or a VNSPACKET whose length field is that of the message, with the
    name of an interface the router had at some moment of the run and a frame of
    at least 14 bytes that has the Ethernet address this interface had then as its
    source. *)
Theorem messages_well_formed {os : OS} {net : Net} s c :
  rtc (cstep any_server) (cstart s) c ->
  exists seen ms, (forall ifs, ifs ∈ seen -> seen_by any_server (cstart s) c ifs)
    /\ sent (out (c_world c)) = sent (out (sr s)) ++ ms /\ Forall (msg_ok seen) ms.
Proof.
  intros Hr. destruct (csteps_speak any_server _ _ Hr []) as (seen & Hin & ms & E & H); [by intros []|].
  exists seen, ms. split_and!; [|exact E|exact H]. intros ifs Hi.
  by destruct (Hin ifs Hi) as [?%not_elem_of_nil|].
Qed.

Lemma messages_well_formed_witness :
  exists c, length (sent (out (c_world c))) = 1%nat
  /\ exists seen ms, (forall ifs, ifs ∈ seen -> seen_by (os := race_os) any_server (cstart (demo_session demo_world (piece VNSPACKET race_body ++ []))) c ifs)
       /\ sent (out (c_world c)) = [] ++ ms /\ Forall (msg_ok seen) ms.
Proof.
  set (s := demo_session demo_world (piece VNSPACKET race_body ++ [])).
  exists (play (os := race_os) (recv (os := race_os) (cstart s)) [Go Main 100]). split; [by vm_compute|].
  apply (messages_well_formed (os := race_os) s).
  eapply rtc_l; [|by apply (play_rtc (os := race_os) any_server [Go Main 100])].
  eapply cstep_command; [done|apply (read_command_ok 9 s VNSPACKET race_body []); [done|by apply delivers_one|simpl; lia]|done].
Defined.

(** ** The races *)

(** C33: the main thread follows a pointer to a request the cleanup thread has
    freed.  [handle_ip_packet] calls [handle_arpreq] on the request that
    [sr_arpcache_queuereq] returned after the lock was given back; if a turn of
    the cleanup thread gives the request up in between, reading [req->sent] is
    a use after free.  The instance: a second packet for a next hop that has
    been asked for five times. *)
Theorem race_reads_freed_request :
  let c := play (os := race_os) (second_packet 4) [Go Main 15; Wake; Go Cleanup 25; Go Main 1] in
  creachable (os := race_os) c /\ c_lock c = Some (Cleanup, 1%nat)
  /\ step Main c = Some (Fault UseAfterFree).
Proof.
  split_and!; [|by vm_compute|apply step_fault_Some; by vm_compute].
  apply play_reachable; [apply second_packet_reachable; by right|done].
Qed.

(** C34: six ARP requests for one address, where the code means to give up after
    five.  A request has been sent four times and is due; the server sends another
    packet for its next hop.  If the main thread obeys it before the cleanup
    thread wakes up, the fifth request goes out, and the turn that follows sends
    no other: it gives the request up.  If the cleanup thread takes its turn while
    the main thread is in [handle_arpreq], both have found [times_sent] below 5,
    both send, and both count. *)
Theorem sixth_request_sent :
  let msg := vns_message (take 16 (name_bytes eth2_name)) (arp_request_frame eth2 (ip4 10 0 2 2)) in
  (let c := play (os := race_os) (second_packet 3) [Go Main 100; Wake; Go Cleanup 200] in
   creachable (os := race_os) c
   /\ length (filter (fun m => m = msg) (sent (out (c_world c)))) = 5%nat
   /\ heap (cache (c_world c)) !! 1%positive = None)
  /\ let c := play (os := race_os) (second_packet 3) [Go Main 18; Wake; Go Cleanup 200; Go Main 100] in
     creachable (os := race_os) c
     /\ rq_times_sent <$> heap (cache (c_world c)) !! 1%positive = Some 6
     /\ sent (out (c_world c)) = replicate 6 msg.
Proof.
  split; (split_and!; [|by vm_compute|by vm_compute]);
    (apply play_reachable; [apply second_packet_reachable; by left|done]).
Qed.

(** The dump file is open, a packet has been handled and the cleanup thread will
    ask for its next hop again; the server sends another packet, or the end. *)
Definition logging_packet : config := second_command logging_world (piece VNSPACKET race_body ++ []) 0.
Definition logging_close : config := second_command logging_world (piece VNSCLOSE [0] ++ []) 0.

Lemma logging_packet_reachable : creachable (os := race_os) logging_packet.
Proof.
  apply second_command_reachable; [by right|simpl; lia|by vm_compute|by vm_compute|].
  apply race_fine; by vm_compute.
Qed.
Lemma logging_close_reachable : creachable (os := race_os) logging_close.
Proof.
  apply second_command_reachable; [by right|simpl; lia|by vm_compute|by vm_compute|apply close_fine].
Qed.

(** C35: records of the dump file mix.  [sr_dump] writes a record with two calls
    of [fwrite], and nothing keeps the other thread from writing its own record
    between them: both threads are done and no fault has happened, but the file
    is no tcpdump file any more. *)
Theorem dump_records_mix :
  let c := play (os := race_os) logging_packet [Go Main 9; Wake; Go Cleanup 200; Go Main 200] in
  creachable (os := race_os) c
  /\ is_done (c_main c) = true /\ is_done (c_cleanup c) = true /\ c_lock c = None
  /\ is_Some (parse_dump (logged (out (c_world logging_packet))))
  /\ parse_dump (logged (out (c_world c))) = None.
Proof.
  split_and!; [|by vm_compute|by vm_compute|by vm_compute|by vm_compute; eexists|by vm_compute].
  apply play_reachable; [apply logging_packet_reachable|done].
Qed.

(** The same configuration with the dump file still open. *)
Definition reopened (c : config) : config :=
  Config (set_sr (c_state c) (set_logfile Dumping (c_world c))) (c_lock c) (c_main c) (c_cleanup c).

(** C36: the dump file is used after it was closed.  The server closes the
    session while the cleanup thread is about to log a packet; the main thread
    leaves its loop and closes the file, and before the process is gone the
    cleanup thread writes to it.  It is the closing that does the harm: on the
    open file the same action succeeds. *)
Theorem dump_written_after_close :
  let c := play (os := race_os) logging_close [Wake; Go Cleanup 16; Go Main 4] in
  creachable (os := race_os) c /\ exited c = false /\ logfile (c_world c) = DumpClosed
  /\ step Cleanup c = Some (Fault UseAfterFree)
  /\ exists c', step Cleanup (reopened c) = Some (Ok c').
Proof.
  split_and!; [|by vm_compute|by vm_compute|apply step_fault_Some; by vm_compute|].
  - apply play_reachable; [apply logging_close_reachable|done].
  - apply step_succeeds. by vm_compute.
Qed.
